(** * Hermes topic pipeline: a shallow embedding of the topic-derivation core

    The development follows four source files:
    - [topic_extractor_v2.py]  (class [TopicExtractorV2]): the configuration
      files, candidate extraction, stop phrases, canonicalization, MMR
      selection, evidence linking, confidence calibration, the per-video
      assembler and the extraction of an account;
    - [topic_extractor.py]     (classes [TopicExtractor] and
      [AccountTopicManager]): keyword tags, account aggregation, the broad
      category and the extraction of an account;
    - [umbrella_builder.py]    (class [UmbrellaBuilder]): the similarity
      graph, the clustering cascade, the labels, the umbrella assembler and
      the umbrellas of an account;
    - [core/semantic_search/timestamp_extractor.py] (class
      [TimestampExtractor]): sentence splitting, sentence timestamps, context
      windows and the similarity of texts.

    Conventions of the embedding.
    - A Python [float] is idealised as a real number ([R]); [nan] and the
      infinities are outside the model.  A Python [int] is a [Z], a [len] a
      [nat].
    - A Python [str] is a [string]; case mapping and white space follow the
      ASCII rules of [str.lower] and [str.strip].
    - A [dict] whose iteration order is observed ([Counter], [defaultdict]) is
      an association list in insertion order.
    - Calls into the NLP models (spaCy, sentence-transformers, KeyBERT) and
      into the clustering libraries are parameters of the sections that use
      them; so are the file system and the clock.
    - Logging has no effect on any returned value and is left out. *)

From Stdlib Require Import String Ascii List ZArith Reals Lra Lia Permutation Bool.
From Stdlib Require Import DecimalString Psatz Sorted.
From Stdlib Require ListSet.
Import ListNotations.

Set Implicit Arguments.

(* ------------------------------------------------------------------ *)
(** * Part I: definitions *)
(* ------------------------------------------------------------------ *)

(** ** Python strings *)
Module PyStr.
Local Open Scope string_scope.

(** [str.lower] on one character: the letters A-Z move to a-z. *)
Definition lower_char (c : ascii) : ascii :=
  let n := nat_of_ascii c in
  if andb (Nat.leb 65 n) (Nat.leb n 90) then ascii_of_nat (n + 32) else c.

Fixpoint lower (s : string) : string :=
  match s with
  | EmptyString => EmptyString
  | String c s' => String (lower_char c) (lower s')
  end.

(** [str.isspace] below code point 128: tab, line feed, vertical tab, form
    feed, carriage return, the four separators 28-31 and the blank. *)
Definition is_space (c : ascii) : bool :=
  let n := nat_of_ascii c in
  orb (andb (Nat.leb 9 n) (Nat.leb n 13))
      (orb (andb (Nat.leb 28 n) (Nat.leb n 31)) (Nat.eqb n 32)).

Fixpoint lstrip (s : string) : string :=
  match s with
  | EmptyString => EmptyString
  | String c s' => if is_space c then lstrip s' else s
  end.

Fixpoint rstrip (s : string) : string :=
  match s with
  | EmptyString => EmptyString
  | String c s' =>
      match rstrip s' with
      | EmptyString => if is_space c then EmptyString else String c EmptyString
      | r => String c r
      end
  end.

(** [s.strip()] *)
Definition strip (s : string) : string := rstrip (lstrip s).

(** [bool(s)]: a string is truthy when it is not empty. *)
Definition truthy (s : string) : bool :=
  match s with EmptyString => false | _ => true end.

(** [sub in s] *)
Fixpoint contains (sub s : string) : bool :=
  orb (String.prefix sub s)
      (match s with
       | EmptyString => false
       | String _ s' => contains sub s'
       end).

(** [s[:n]] for a non-negative [n]. *)
Definition take (n : nat) (s : string) : string := String.substring 0 n s.

(** [sep.join(parts)] *)
Fixpoint join (sep : string) (parts : list string) : string :=
  match parts with
  | [] => ""
  | [p] => p
  | p :: rest => p ++ sep ++ join sep rest
  end.

(** [s.split(sep)] for a one-character separator: the pieces between the
    separators, empty pieces included. *)
Fixpoint split_char (sep : ascii) (s : string) : list string :=
  match s with
  | EmptyString => [EmptyString]
  | String c s' =>
      if Ascii.eqb c sep then EmptyString :: split_char sep s'
      else match split_char sep s' with
           | [] => [String c EmptyString]
           | p :: ps => String c p :: ps
           end
  end.

(** A string that is empty or starts with a character that is not white
    space: what [lstrip] returns. *)
Definition headed (s : string) : Prop :=
  match s with
  | EmptyString => True
  | String c _ => is_space c = false
  end.

End PyStr.

(** ** Python lists and dictionaries *)
Module PyList.

(** [l[:n]] for any integer [n]: a negative bound counts from the end. *)
Definition slice_to {A} (n : Z) (l : list A) : list A :=
  if (n <? 0)%Z then firstn (length l - Z.to_nat (- n)) l
  else firstn (Z.to_nat n) l.

(** [list(set(l))]: every distinct element once.  Python leaves the order of a
    set unspecified; the embedding keeps the order of last occurrence. *)
Definition list_set (l : list string) : list string := nodup string_dec l.

End PyList.

Module PyDict.
Section Dict.
Variable V : Type.

(** A dictionary with string keys, in insertion order. *)
Definition dict := list (string * V).

Fixpoint get (d : dict) (k : string) : option V :=
  match d with
  | [] => None
  | (k', v) :: d' => if String.eqb k k' then Some v else get d' k
  end.

(** [k in d] *)
Definition mem (d : dict) (k : string) : bool :=
  match get d k with Some _ => true | None => false end.

(** [d[k] = f(d.get(k))]: an existing key keeps its place, a new key goes
    last. *)
Fixpoint upd (d : dict) (k : string) (f : option V -> V) : dict :=
  match d with
  | [] => [(k, f None)]
  | (k', v) :: d' =>
      if String.eqb k k' then (k', f (Some v)) :: d'
      else (k', v) :: upd d' k f
  end.

Definition keys (d : dict) : list string := map fst d.
Definition values (d : dict) : list V := map snd d.

End Dict.

(** [defaultdict(list)]: [d[k].append(x)]. *)
Definition append_to {A} (d : dict (list A)) (k : string) (x : A) : dict (list A) :=
  upd d k (fun o => match o with Some l => l ++ [x] | None => [x] end).

(** [defaultdict(list)]: reading [d[k]]. *)
Definition get_list {A} (d : dict (list A)) (k : string) : list A :=
  match get d k with Some l => l | None => [] end.

(** [Counter]: [c[k] += 1]. *)
Definition incr (d : dict Z) (k : string) : dict Z :=
  upd d k (fun o => match o with Some n => (n + 1)%Z | None => 1%Z end).

End PyDict.

(** ** Floating-point helpers of Python and NumPy, over the reals *)
Module Np.
Local Open Scope R_scope.

(** [np.log1p] *)
Definition log1p (x : R) : R := ln (1 + x).

(** Rounding to the nearest integer, ties to the even one (what [round] does
    with the exact value of its argument). *)
Definition round_half_even (x : R) : Z :=
  let f := Int_part x in
  let d := x - IZR f in
  if Rlt_dec d (1 / 2) then f
  else if Rlt_dec (1 / 2) d then (f + 1)%Z
  else if Z.even f then f else (f + 1)%Z.

(** [round(x, ndigits)] *)
Definition round (x : R) (ndigits : nat) : R :=
  IZR (round_half_even (x * 10 ^ ndigits)) / 10 ^ ndigits.

Definition sum (l : list R) : R := fold_right Rplus 0 l.

(** [np.mean] of a one-dimensional array. *)
Definition mean (l : list R) : R := sum l / INR (length l).

End Np.

(** The formula of the specification for the confidence calibrator, written
    from its words: [clamp(x, lo, hi)] bounds [x] from below, then from above. *)
Module ConfidenceSpec.
Local Open Scope R_scope.

Definition clamp (x lo hi : R) : R := Rmin hi (Rmax lo x).

Definition confidence_formula (mmr_score : R) (evidence_count : Z) : R :=
  Np.round
    (Rmin 1 (clamp ((mmr_score + 0.5) / 1.2) 0 1
             + Rmin 0.3 (ln (1 + IZR evidence_count) / 10)))
    3.

End ConfidenceSpec.

(** ** The confidence calibrator: [TopicExtractorV2._compute_confidence] *)
Module Confidence.
Local Open Scope R_scope.

Definition _compute_confidence (mmr_score : R) (evidence_count : Z) : R :=
  let normalized_mmr := Rmax 0 (Rmin 1.0 ((mmr_score + 0.5) / 1.2)) in
  let evidence_boost := Rmin 0.3 (Np.log1p (IZR evidence_count) / 10) in
  let confidence := Rmin 1.0 (normalized_mmr + evidence_boost) in
  Np.round confidence 3.

End Confidence.

(** ** Outcomes of fallible code

    A call into a library either gives a value or raises ([result]).  Code of
    the repository either returns, raises an exception, or (for a loop run
    with a bound on its iterations) uses the bound up ([outcome]). *)
Module Outcome.
Section Exn.
Variable exn : Type.

Inductive result (A : Type) : Type :=
| Ok (a : A)
| Error (e : exn).

Arguments Ok {A} a.
Arguments Error {A} e.

Inductive outcome (A : Type) : Type :=
| Returns (a : A)
| Raises (e : exn)
| OutOfFuel.

Arguments Returns {A} a.
Arguments Raises {A} e.
Arguments OutOfFuel {A}.

(** The outcome of a library call. *)
Definition call {A} (r : result A) : outcome A :=
  match r with
  | Ok a => Returns a
  | Error e => Raises e
  end.

Definition bind {A B} (m : outcome A) (k : A -> outcome B) : outcome B :=
  match m with
  | Returns a => k a
  | Raises e => Raises e
  | OutOfFuel => OutOfFuel
  end.

(** [try: m  except Exception as e: handler e] *)
Definition try_except {A} (m : outcome A) (handler : exn -> outcome A) : outcome A :=
  match m with
  | Raises e => handler e
  | _ => m
  end.

(** Calling a fallible function on every element, left to right. *)
Fixpoint map_m {A B} (f : A -> outcome B) (l : list A) : outcome (list B) :=
  match l with
  | [] => Returns []
  | x :: l' =>
      bind (f x) (fun y => bind (map_m f l') (fun ys => Returns (y :: ys)))
  end.

(** A [while] loop: [step] gives the next state, or [None] once the loop
    condition fails or the body breaks; at most [fuel] iterations are run. *)
Fixpoint while {S} (step : S -> option S) (fuel : nat) (s : S) : outcome S :=
  match step s with
  | None => Returns s
  | Some s' =>
      match fuel with
      | O => OutOfFuel
      | Datatypes.S fuel' => while step fuel' s'
      end
  end.

End Exn.

Arguments Ok {exn A} a.
Arguments Error {exn A} e.
Arguments Returns {exn A} a.
Arguments Raises {exn A} e.
Arguments OutOfFuel {exn A}.
Arguments while {exn S} step fuel s.

Module Notations.
Notation "x <- m ;; k" := (bind m (fun x => k))
  (at level 61, m at next level, right associativity).
End Notations.

End Outcome.

(** ** Vectors and [sklearn.metrics.pairwise.cosine_similarity] *)
Module Vec.
Local Open Scope R_scope.

(** A one-dimensional [np.ndarray] of floats. *)
Definition vec := list R.

Fixpoint dot (x y : vec) : R :=
  match x, y with
  | a :: x', b :: y' => a * b + dot x' y'
  | _, _ => 0
  end.

Definition norm (x : vec) : R := sqrt (dot x x).

(** scikit-learn scales each row by its Euclidean norm and leaves a row of
    norm zero as it is. *)
Definition normalize (x : vec) : vec :=
  if Req_dec_T (norm x) 0 then x else map (fun a => a / norm x) x.

(** [cosine_similarity(x.reshape(1, -1), y.reshape(1, -1))[0][0]] *)
Definition cosine_similarity (x y : vec) : R := dot (normalize x) (normalize y).

(** [max(l)] for a list that starts with [x]. *)
Definition max_of (x : R) (l : list R) : R := fold_left Rmax l x.

(** [max(l, key=key)] for a list that starts with [best]: the first element
    whose key is largest. *)
Fixpoint max_by {A} (key : A -> R) (best : A) (l : list A) : A :=
  match l with
  | [] => best
  | x :: l' => max_by key (if Rlt_dec (key best) (key x) then x else best) l'
  end.

(** [l.sort(key=key, reverse=True)]: descending and stable. *)
Fixpoint insert_desc {A} (key : A -> R) (x : A) (l : list A) : list A :=
  match l with
  | [] => [x]
  | y :: l' =>
      if Rle_dec (key y) (key x) then x :: y :: l'
      else y :: insert_desc key x l'
  end.

Definition sort_desc {A} (key : A -> R) (l : list A) : list A :=
  fold_right (insert_desc key) [] l.

End Vec.

(** ** [topic_extractor_v2.py] *)
Module TopicExtractorV2.
Import Outcome Outcome.Notations.
Local Open Scope string_scope.

(** What the extractor reads of a spaCy document. *)
Record Token := { lemma_ : string; is_stop : bool }.

Record Span := {
  tokens : list Token;
  text : string;
  label_ : string;
  start_char : nat;
  end_char : nat
}.

Record Doc := { noun_chunks : list Span; ents : list Span }.

(** One entry of [sentence_timestamps]: a dictionary that may hold the keys
    ["text"], ["sentence"], ["start_time"] and ["end_time"]. *)
Record Sentence := {
  sent_text : option string;
  sent_sentence : option string;
  sent_start_time : option R;
  sent_end_time : option R
}.

Record TopicEvidence := {
  sentence_index : nat;
  start_time : R;
  end_time : R;
  ev_text : string
}.

(** A value of the [stats] dictionary. *)
Inductive StatValue := IntStat (n : Z) | FloatStat (x : R).

Record EnhancedTopic := {
  tag : string;
  canonical : string;
  confidence : R;
  sources : list string;
  evidence : list TopicEvidence;
  score : R;
  type : string;
  source : string;
  stats : option (PyDict.dict StatValue)
}.

(** [EnhancedTopic.__post_init__] *)
Definition __post_init__ (t : EnhancedTopic) : EnhancedTopic :=
  let stats' := match stats t with None => Some [] | s => s end in
  let source' :=
    match negb (PyStr.truthy (source t)), sources t with
    | true, s0 :: _ => s0
    | _, _ => source t
    end in
  {| tag := tag t; canonical := canonical t; confidence := confidence t;
     sources := sources t; evidence := evidence t; score := score t;
     type := type t; source := source'; stats := stats' |}.

(** The loaded [canonical_topics.json]: the extractor reads its
    ["merge_rules"] entry only. *)
Record CanonicalMap := { merge_rules : option (PyDict.dict string) }.

Section Extractor.

(** Exceptions, and the two models the extractor calls:
    [self.nlp(text)] and [self.st_model.encode(text)]. *)
Variable exn : Type.
Variable nlp : string -> result exn Doc.
Variable st_encode : string -> result exn Vec.vec.

(** [self.stop_phrases] and [self.canonical_map]. *)
Variable stop_phrases : list string.
Variable canonical_map : CanonicalMap.

Definition entity_labels : list string :=
  ["PERSON"; "ORG"; "GPE"; "PRODUCT"; "EVENT"].

Definition chunk_phrase (chunk : Span) : string :=
  PyStr.join " "
    (map (fun token => PyStr.lower (lemma_ token))
         (filter (fun token => negb (is_stop token)) (tokens chunk))).

Definition noun_phrases_of (doc : Doc) : list (string * nat * nat) :=
  flat_map
    (fun chunk =>
       let phrase := chunk_phrase chunk in
       if andb (PyStr.truthy phrase) (Nat.ltb 2 (String.length phrase))
       then [(phrase, start_char chunk, end_char chunk)] else [])
    (noun_chunks doc)
  ++
  flat_map
    (fun ent =>
       if existsb (String.eqb (label_ ent)) entity_labels
       then [(PyStr.lower (text ent), start_char ent, end_char ent)] else [])
    (ents doc).

Definition _extract_noun_phrases (text : string)
  : outcome exn (list (string * nat * nat)) :=
  doc <- call (nlp text) ;;
  Returns (noun_phrases_of doc).

Definition _is_stop_phrase (phrase : string) : bool :=
  let phrase_lower := PyStr.strip (PyStr.lower phrase) in
  existsb (String.eqb phrase_lower) stop_phrases.

Definition _canonicalize (phrase : string) : string :=
  let phrase_lower := PyStr.strip (PyStr.lower phrase) in
  let rules := match merge_rules canonical_map with Some r => r | None => [] end in
  match PyDict.get rules phrase_lower with
  | Some c => c
  | None => phrase_lower
  end.

(** *** [_compute_mmr] *)

(** The variables the loop of [_compute_mmr] updates. *)
Record MmrState := {
  selected : list (string * R);
  selected_embeddings : list Vec.vec;
  remaining : list nat
}.

(** [l.remove(x)] *)
Fixpoint remove_first (x : nat) (l : list nat) : list nat :=
  match l with
  | [] => []
  | y :: l' => if Nat.eqb x y then l' else y :: remove_first x l'
  end.

Section Mmr.
Variable candidates : list string.
Variable candidate_embeddings : list Vec.vec.
Variable document_embedding : Vec.vec.
Variable lambda_param : R.
Variable top_n : Z.

(** The score the loop body gives to candidate [idx]. *)
Definition mmr_of (selected_embeddings : list Vec.vec) (idx : nat) : R :=
  let emb := nth idx candidate_embeddings [] in
  let relevance := Vec.cosine_similarity emb document_embedding in
  let redundancy :=
    match map (Vec.cosine_similarity emb) selected_embeddings with
    | [] => 0%R
    | r :: rs => Vec.max_of r rs
    end in
  (lambda_param * relevance - (1 - lambda_param) * redundancy)%R.

(** One turn of the [while] loop; [None] when the loop ends. *)
Definition mmr_step (st : MmrState) : option MmrState :=
  if (Z.of_nat (length (selected st))
      <? Z.min top_n (Z.of_nat (length candidates)))%Z
  then
    match map (fun idx => (idx, mmr_of (selected_embeddings st) idx))
              (remaining st) with
    | [] => None
    | s0 :: ss =>
        let best := Vec.max_by snd s0 ss in
        let best_idx := fst best in
        let best_score := snd best in
        Some {| selected :=
                  (selected st ++ [(nth best_idx candidates "", best_score)])%list;
                selected_embeddings :=
                  (selected_embeddings st
                   ++ [nth best_idx candidate_embeddings []])%list;
                remaining := remove_first best_idx (remaining st) |}
    end
  else None.

Definition mmr_init : MmrState :=
  {| selected := []; selected_embeddings := [];
     remaining := seq 0 (length candidates) |}.

End Mmr.

(** [self.st_model.encode(candidates)]: one embedding per candidate. *)
Definition encode_all (candidates : list string) : outcome exn (list Vec.vec) :=
  map_m (fun c => call (st_encode c)) candidates.

Definition _compute_mmr (candidates : list string) (document_embedding : Vec.vec)
    (lambda_param : R) (top_n : Z) : outcome exn (list (string * R)) :=
  match candidates with
  | [] => Returns []
  | _ =>
      candidate_embeddings <- encode_all candidates ;;
      st <- while (mmr_step candidates candidate_embeddings document_embedding
                            lambda_param top_n)
                  (length candidates) (mmr_init candidates) ;;
      Returns (selected st)
  end.

(** *** [_find_evidence] *)

Definition option_default {A} (d : A) (o : option A) : A :=
  match o with Some a => a | None => d end.

(** [sent.get("text", sent.get("sentence", ""))] *)
Definition sentence_text (sent : Sentence) : string :=
  option_default (option_default "" (sent_sentence sent)) (sent_text sent).

(** The loop over [enumerate(sentence_timestamps)], from index [idx] on. *)
Fixpoint scan_timestamps (phrase_lower : string) (idx : nat)
    (sentence_timestamps : list Sentence) : list TopicEvidence :=
  match sentence_timestamps with
  | [] => []
  | sent :: rest =>
      let text := sentence_text sent in
      if PyStr.contains phrase_lower (PyStr.lower text)
      then {| sentence_index := idx;
              start_time := option_default 0%R (sent_start_time sent);
              end_time := option_default 0%R (sent_end_time sent);
              ev_text := PyStr.take 150 text |}
           :: scan_timestamps phrase_lower (S idx) rest
      else scan_timestamps phrase_lower (S idx) rest
  end.

(** The loop over [enumerate(sentences)] of the fallback, with its [break]
    once five entries are collected. *)
Fixpoint scan_sentences (phrase_lower : string) (idx : nat)
    (sentences : list string) (evidence : list TopicEvidence) : list TopicEvidence :=
  match sentences with
  | [] => evidence
  | sent :: rest =>
      if PyStr.contains phrase_lower (PyStr.lower sent)
      then
        let evidence' :=
          (evidence ++ [{| sentence_index := idx; start_time := 0%R;
                           end_time := 0%R; ev_text := PyStr.take 150 sent |}])%list in
        if Nat.leb 5 (length evidence') then evidence'
        else scan_sentences phrase_lower (S idx) rest evidence'
      else scan_sentences phrase_lower (S idx) rest evidence
  end.

Definition _find_evidence (phrase : string) (sentence_timestamps : list Sentence)
    (full_transcript : string) : list TopicEvidence :=
  let phrase_lower := PyStr.lower phrase in
  match sentence_timestamps with
  | _ :: _ => scan_timestamps phrase_lower 0 sentence_timestamps
  | [] =>
      if PyStr.truthy full_transcript then
        let sentences :=
          map PyStr.strip
              (filter (fun s => PyStr.truthy (PyStr.strip s))
                      (PyStr.split_char "." full_transcript)) in
        scan_sentences phrase_lower 0 sentences []
      else []
  end.

(** *** [extract_video_topics_enhanced] *)

Section Video.
Variable transcript : string.
Variable sentence_timestamps : list Sentence.
Variable title : string.
Variable hashtags : list string.
Variable lambda_param : R.
Variable max_topics : Z.
Variable min_confidence : R.

(** "Determine sources" *)
Definition topic_sources (phrase : string) : list string :=
  (["transcript"]
   ++ (if andb (PyStr.truthy title)
               (PyStr.contains (PyStr.lower phrase) (PyStr.lower title))
       then ["title"] else [])
   ++ (if existsb (fun tag => PyStr.contains (PyStr.lower phrase) (PyStr.lower tag))
                  hashtags
       then ["hashtag"] else []))%list.

(** The body of the loop over [selected]: the topic built for one pick, or
    [None] when the body runs into one of its two [continue]s. *)
Definition build_topic (phrase : string) (mmr_score : R) : option EnhancedTopic :=
  if Rlt_dec mmr_score (-0.1) then None
  else
    let evidence := _find_evidence phrase sentence_timestamps transcript in
    let canonical := _canonicalize phrase in
    let sources := topic_sources phrase in
    let confidence :=
      Confidence._compute_confidence mmr_score (Z.of_nat (length evidence)) in
    if Rlt_dec confidence min_confidence then None
    else
      Some (__post_init__
              {| tag := phrase;
                 canonical := canonical;
                 confidence := confidence;
                 sources := sources;
                 evidence := firstn 3 evidence;
                 score := mmr_score;
                 type := "keyphrase";
                 source := match sources with s0 :: _ => s0 | [] => "transcript" end;
                 stats := Some [("distinct_sentences", IntStat (Z.of_nat (length evidence)));
                                ("mmr_score", FloatStat mmr_score)] |}).

(** The [try] block. *)
Definition extract_body : outcome exn (list EnhancedTopic) :=
  noun_phrases <- _extract_noun_phrases transcript ;;
  let candidates :=
    filter (fun phrase => negb (_is_stop_phrase phrase))
           (map (fun np => fst (fst np)) noun_phrases) in
  let candidates := PyList.list_set candidates in
  match candidates with
  | [] => Returns []
  | _ =>
      doc_embedding <- call (st_encode transcript) ;;
      selected <- _compute_mmr candidates doc_embedding lambda_param (max_topics * 2) ;;
      let enhanced_topics :=
        flat_map (fun pick =>
                    match build_topic (fst pick) (snd pick) with
                    | Some topic => [topic]
                    | None => []
                    end) selected in
      let enhanced_topics := Vec.sort_desc confidence enhanced_topics in
      Returns (PyList.slice_to max_topics enhanced_topics)
  end.

End Video.

(** [hashtags or []], for an argument that is [None] or a list. *)
Definition or_empty {A} (l : option (list A)) : list A :=
  match l with
  | Some (h :: t) => h :: t
  | _ => []
  end.

Definition extract_video_topics_enhanced (transcript : string)
    (sentence_timestamps : list Sentence) (title : string)
    (hashtags : option (list string)) (video_id : string)
    (lambda_param : R) (max_topics : Z) (min_confidence : R)
  : outcome exn (list EnhancedTopic) :=
  if orb (negb (PyStr.truthy transcript)) (Nat.ltb (String.length transcript) 50)
  then Returns []
  else
    let hashtags := or_empty hashtags in
    try_except
      (extract_body transcript sentence_timestamps title hashtags
                    lambda_param max_topics min_confidence)
      (fun e => Returns []).

End Extractor.
End TopicExtractorV2.

(** ** Greedy selection, from the words of the specification

    "Iteratively pick the candidate maximizing
    [lambda * relevance(candidate, document)
     - (1 - lambda) * max_redundancy(candidate, already_selected)];
    remove the pick from the remaining pool."  Candidates are named by their
    position in the candidate list. *)
Module MmrSpec.
Section Spec.
Local Open Scope R_scope.
Variable candidates : list string.
Variable embeddings : list Vec.vec.
Variable document : Vec.vec.
Variable lambda : R.

Definition embedding (i : nat) : Vec.vec := nth i embeddings [].

Definition relevance (i : nat) : R :=
  Vec.cosine_similarity (embedding i) document.

(** The largest similarity of candidate [i] to a pick made before; zero when
    nothing was picked yet. *)
Definition max_redundancy (i : nat) (already_selected : list nat) : R :=
  match already_selected with
  | [] => 0
  | p :: ps =>
      fold_right (fun q acc => Rmax (Vec.cosine_similarity (embedding i) (embedding q)) acc)
                 (Vec.cosine_similarity (embedding i) (embedding p)) ps
  end.

Definition objective (already_selected : list nat) (i : nat) : R :=
  lambda * relevance i - (1 - lambda) * max_redundancy i already_selected.

(** [greedy prev picks]: after the picks [prev], each further pick in [picks]
    is a candidate not picked before whose objective is largest among the
    candidates not picked before. *)
Inductive greedy : list nat -> list nat -> Prop :=
| greedy_done prev : greedy prev []
| greedy_pick prev i rest :
    (i < length candidates)%nat ->
    ~ In i prev ->
    (forall j, (j < length candidates)%nat -> ~ In j prev ->
               objective prev j <= objective prev i) ->
    greedy (prev ++ [i]) rest ->
    greedy prev (i :: rest).

(** The (phrase, score) pairs of a run of picks. *)
Fixpoint scored (prev picks : list nat) : list (string * R) :=
  match picks with
  | [] => []
  | i :: rest =>
      (nth i candidates EmptyString, objective prev i) :: scored (prev ++ [i]) rest
  end.

End Spec.
End MmrSpec.

(** ** [topic_extractor.py]: account aggregation *)
Module TopicExtractor.
Local Open Scope string_scope.

(** One element of a video's ["tags"] list. *)
Record TagItem := { tag : string; score : R }.

(** One element of [video_tags]: [.get('video_id')] may find nothing, and a
    missing ["tags"] key reads as the empty list. *)
Record VideoTags := { video_id : option string; tags : list TagItem }.

(** One element of [video_metadata]; ["view_count"] may be missing. *)
Record VideoMeta := { meta_video_id : string; view_count : option Z }.

Record RankedTag := {
  ranked_tag : string;
  frequency : Z;
  avg_score : R;
  engagement_weight : R;
  combined_score : R;
  video_ids : list (option string)
}.

Record Aggregate := {
  total_tags : nat;
  total_videos : nat;
  ranked_tags : list RankedTag
}.

(** [{v['video_id']: v for v in video_metadata}] *)
Definition video_meta_map (video_metadata : list VideoMeta) : PyDict.dict VideoMeta :=
  fold_left (fun d v => PyDict.upd d (meta_video_id v) (fun _ => v))
            video_metadata [].

(** The three accumulators of the aggregation loop. *)
Record Accumulators := {
  tag_counts : PyDict.dict Z;
  tag_scores : PyDict.dict (list R);
  tag_videos : PyDict.dict (list (option string))
}.

(** The body of the inner loop, for one tag of one video. *)
Definition add_tag (video_id : option string) (acc : Accumulators)
    (tag_item : TagItem) : Accumulators :=
  {| tag_counts := PyDict.incr (tag_counts acc) (tag tag_item);
     tag_scores := PyDict.append_to (tag_scores acc) (tag tag_item) (score tag_item);
     tag_videos := PyDict.append_to (tag_videos acc) (tag tag_item) video_id |}.

(** The body of the outer loop, for one video. *)
Definition add_video (acc : Accumulators) (video_tag_data : VideoTags) : Accumulators :=
  fold_left (add_tag (video_id video_tag_data)) (tags video_tag_data) acc.

Definition accumulate (video_tags : list VideoTags) : Accumulators :=
  fold_left add_video video_tags
            {| tag_counts := []; tag_scores := []; tag_videos := [] |}.

(** The loop that adds up the views of the videos listed for a tag. *)
Definition total_views_of (meta : PyDict.dict VideoMeta)
    (video_ids : list (option string)) : Z :=
  fold_left
    (fun total_views video_id =>
       match video_id with
       | Some v =>
           match PyDict.get meta v with
           | Some m => (total_views + match view_count m with Some n => n | None => 0 end)%Z
           | None => total_views
           end
       | None => total_views
       end)
    video_ids 0%Z.

Definition engagement_of (total_views : Z) : R :=
  if (0 <? total_views)%Z
  then (1 + Np.log1p (IZR total_views) / 20)%R
  else 1.0%R.

(** The body of the ranking loop, for one item of [tag_counts]. *)
Definition rank_tag (acc : Accumulators) (meta : PyDict.dict VideoMeta)
    (item : string * Z) : RankedTag :=
  let tag := fst item in
  let count := snd item in
  let avg_score := Np.mean (PyDict.get_list (tag_scores acc) tag) in
  let total_views := total_views_of meta (PyDict.get_list (tag_videos acc) tag) in
  let engagement_weight := engagement_of total_views in
  let combined_score := (IZR count * avg_score * engagement_weight)%R in
  {| ranked_tag := tag;
     frequency := count;
     avg_score := avg_score;
     engagement_weight := engagement_weight;
     combined_score := combined_score;
     video_ids := PyDict.get_list (tag_videos acc) tag |}.

Definition aggregate_account_tags (video_tags : list VideoTags)
    (video_metadata : list VideoMeta) : Aggregate :=
  let acc := accumulate video_tags in
  let video_meta_map := video_meta_map video_metadata in
  let ranked_tags := map (rank_tag acc video_meta_map) (tag_counts acc) in
  let ranked_tags := Vec.sort_desc combined_score ranked_tags in
  {| total_tags := length ranked_tags;
     total_videos := length video_tags;
     ranked_tags := ranked_tags |}.

End TopicExtractor.

(** ** The aggregate as a table keyed by tag *)
Module AggregateTable.
Import TopicExtractor.

(** The occurrences of tag [t] in the input: its score and the video it was
    found in, in input order. *)
Definition occurrences (t : string) (video_tags : list VideoTags)
  : list (R * option string) :=
  flat_map
    (fun v => flat_map (fun item => if String.eqb (tag item) t
                                    then [(score item, video_id v)] else [])
                       (tags v))
    video_tags.

(** The row of tag [t]. *)
Definition row (t : string) (table : list RankedTag) : option RankedTag :=
  find (fun e => String.eqb (ranked_tag e) t) table.

(** The views recorded for a video: zero when the video has no metadata or
    its metadata has no view count. *)
Definition views_of (meta : PyDict.dict VideoMeta) (video_id : option string) : Z :=
  match video_id with
  | Some v =>
      match PyDict.get meta v with
      | Some m => match view_count m with Some n => n | None => 0%Z end
      | None => 0%Z
      end
  | None => 0%Z
  end.

(** The row the aggregation is to hold for tag [t], from the occurrences of
    [t]: no row when there is none. *)
Definition expected_row (t : string) (video_tags : list VideoTags)
    (video_metadata : list VideoMeta) : option RankedTag :=
  match occurrences t video_tags with
  | [] => None
  | occ =>
      let views :=
        fold_right Z.add 0%Z
                   (map (views_of (video_meta_map video_metadata)) (map snd occ)) in
      let weight :=
        if (0 <? views)%Z then (1 + ln (1 + IZR views) / 20)%R else 1%R in
      Some {| ranked_tag := t;
              frequency := Z.of_nat (length occ);
              avg_score := (Np.sum (map fst occ) / INR (length occ))%R;
              engagement_weight := weight;
              combined_score :=
                (IZR (Z.of_nat (length occ))
                 * (Np.sum (map fst occ) / INR (length occ)) * weight)%R;
              video_ids := map snd occ |}
  end.

(** The views of the videos listed for a tag, added up. *)
Definition listed_views (video_metadata : list VideoMeta)
    (video_ids : list (option string)) : Z :=
  fold_right Z.add 0%Z (map (views_of (video_meta_map video_metadata)) video_ids).

(** The scenario of the specification: one video, one tag of score 0.8, no
    views. *)
Definition scenario_tags : list VideoTags :=
  [{| video_id := Some "v1"%string;
      tags := [{| tag := "mindfulness"%string; score := 0.8%R |}] |}].

Definition scenario_metadata : list VideoMeta :=
  [{| meta_video_id := "v1"%string; view_count := Some 0%Z |}].

(** Two metadata lists record the same data for every video. *)
Definition same_meta (md md' : list VideoMeta) : Prop :=
  forall v, PyDict.get (video_meta_map md) v = PyDict.get (video_meta_map md') v.

(** Two rows agree: the same numbers, and the same videos up to order. *)
Definition same_row (r1 r2 : option RankedTag) : Prop :=
  match r1, r2 with
  | Some e1, Some e2 =>
      frequency e1 = frequency e2
      /\ avg_score e1 = avg_score e2
      /\ engagement_weight e1 = engagement_weight e2
      /\ combined_score e1 = combined_score e2
      /\ Permutation (video_ids e1) (video_ids e2)
  | None, None => True
  | _, _ => False
  end.


Definition count_of (acc : Accumulators) (t : string) : Z :=
  match PyDict.get (tag_counts acc) t with Some n => n | None => 0%Z end.

(** [acc'] is [acc] after the occurrences [occ] of tag [t] were added. *)
Record Extends (t : string) (occ : list (R * option string))
    (acc acc' : Accumulators) : Prop := {
  ext_count : count_of acc' t = (count_of acc t + Z.of_nat (length occ))%Z;
  ext_scores :
    PyDict.get_list (tag_scores acc') t
    = (PyDict.get_list (tag_scores acc) t ++ map fst occ)%list;
  ext_videos :
    PyDict.get_list (tag_videos acc') t
    = (PyDict.get_list (tag_videos acc) t ++ map snd occ)%list;
  ext_absent :
    PyDict.get (tag_counts acc') t = None
    <-> PyDict.get (tag_counts acc) t = None /\ occ = []
}.

End AggregateTable.

(** ** [umbrella_builder.py] *)
Module UmbrellaBuilder.
Local Open Scope string_scope.

(** [enumerate(l)] *)
Definition enumerate {A} (l : list A) : list (nat * A) :=
  combine (seq 0 (length l)) l.

(** [defaultdict(list)] keyed by a community label: [clusters[label].append(idx)]. *)
Fixpoint add_member (clusters : list (Z * list nat)) (label : Z) (idx : nat)
  : list (Z * list nat) :=
  match clusters with
  | [] => [(label, [idx])]
  | (l, c) :: rest =>
      if Z.eqb l label then (l, (c ++ [idx])%list) :: rest
      else (l, c) :: add_member rest label idx
  end.

(** The loop [for idx, label in pairs: clusters[label].append(idx)]. *)
Definition group_by_label (pairs : list (nat * Z)) : list (Z * list nat) :=
  fold_left (fun clusters p => add_member clusters (snd p) (fst p)) pairs [].

(** [np.where(np.triu(adj_matrix, k=1))], zipped: the positions above the
    diagonal that hold a non-zero entry, row by row. *)
Definition upper_edges (adj_matrix : list (list Z)) : list (nat * nat) :=
  flat_map
    (fun row =>
       flat_map (fun cell =>
                   if andb (Nat.ltb (fst row) (fst cell)) (negb (Z.eqb (snd cell) 0))
                   then [(fst row, fst cell)] else [])
                (enumerate (snd row)))
    (enumerate adj_matrix).

(** [adj_matrix.max()] *)
Definition matrix_max (adj_matrix : list (list Z)) : Z :=
  match concat adj_matrix with
  | [] => 0%Z
  | a :: rest => fold_left Z.max rest a
  end.

Section Builder.

(** [self.similarity_threshold], [self.min_cluster_size] and
    [self.resolution]. *)
Variable similarity_threshold : R.
Variable min_cluster_size : Z.
Variable resolution : R.

(** Which clustering libraries were imported. *)
Variable LEIDEN_AVAILABLE : bool.
Variable LOUVAIN_AVAILABLE : bool.
Variable HDBSCAN_AVAILABLE : bool.

(** The library calls:
    - [leidenalg.find_partition(g, ModularityVertexPartition, resolution)
       .membership] for the graph of [n] vertices and the given edges;
    - [community_louvain.best_partition(G, resolution, random_state=42)
       .items()];
    - [hdbscan.HDBSCAN(min_cluster_size, metric='precomputed',
       cluster_selection_epsilon).fit_predict(distance_matrix)];
    - [scipy.sparse.csgraph.connected_components(matrix, directed=False)]. *)
Variable leiden_membership : nat -> list (nat * nat) -> R -> list Z.
Variable louvain_best_partition : list (list Z) -> R -> list (nat * Z).
Variable hdbscan_fit_predict : Z -> R -> list (list R) -> list Z.
Variable connected_components : list (list Z) -> nat * list Z.

(** [_build_similarity_graph]: the adjacency matrix holds 1 where two
    different topics have a cosine similarity of at least the threshold, and
    the edge count is half the sum of its entries. *)
Definition _build_similarity_graph (topics : list string)
    (embeddings : list Vec.vec) : list (list Z) * Z :=
  let adj_matrix :=
    map (fun row =>
           map (fun col =>
                  if Nat.eqb (fst row) (fst col) then 0%Z
                  else if Rle_dec similarity_threshold
                                  (Vec.cosine_similarity (snd row) (snd col))
                       then 1%Z else 0%Z)
               (enumerate embeddings))
        (enumerate embeddings) in
  let edge_count := (fold_right Z.add 0 (concat adj_matrix) / 2)%Z in
  (adj_matrix, edge_count).

(** "Filter by min size" *)
Definition filter_min_size (clusters : list (list nat)) : list (list nat) :=
  filter (fun c => Z.leb min_cluster_size (Z.of_nat (length c))) clusters.

Definition _cluster_leiden (adj_matrix : list (list Z)) : list (list nat) :=
  let edges := upper_edges adj_matrix in
  let membership := leiden_membership (length adj_matrix) edges resolution in
  let clusters := group_by_label (enumerate membership) in
  filter_min_size (map snd clusters).

Definition _cluster_louvain (adj_matrix : list (list Z)) : list (list nat) :=
  let partition := louvain_best_partition adj_matrix resolution in
  let clusters := group_by_label partition in
  filter_min_size (map snd clusters).

Definition _cluster_hdbscan (topics : list string) (adj_matrix : list (list Z))
  : list (list nat) :=
  let distance_matrix :=
    map (map (fun a => (1 - IZR a / IZR (matrix_max adj_matrix))%R)) adj_matrix in
  let labels := hdbscan_fit_predict min_cluster_size 0.3%R distance_matrix in
  let clusters :=
    group_by_label (filter (fun p => Z.leb 0 (snd p)) (enumerate labels)) in
  map snd clusters.

Definition _cluster_connected_components (adj_matrix : list (list Z))
  : list (list nat) :=
  let labels := snd (connected_components adj_matrix) in
  let clusters := group_by_label (enumerate labels) in
  filter_min_size (map snd clusters).

Definition _cluster_topics (topics : list string) (adj_matrix : list (list Z))
  : list (list nat) :=
  if LEIDEN_AVAILABLE then _cluster_leiden adj_matrix
  else if LOUVAIN_AVAILABLE then _cluster_louvain adj_matrix
  else if HDBSCAN_AVAILABLE then _cluster_hdbscan topics adj_matrix
  else _cluster_connected_components adj_matrix.

Definition _get_clustering_method : string :=
  if LEIDEN_AVAILABLE then "leiden"
  else if LOUVAIN_AVAILABLE then "louvain"
  else if HDBSCAN_AVAILABLE then "hdbscan"
  else "connected_components".

(** *** [_build_umbrellas] *)

Record TopicNode := {
  topic : string;
  canonical : string;
  frequency : Z;
  avg_score : R;
  video_ids : list string;
  embedding : option Vec.vec
}.

Record UmbrellaStats := {
  min_frequency : Z;
  max_frequency : Z;
  stats_avg_score : R
}.

Record UmbrellaCluster := {
  umbrella_id : string;
  label : string;
  members : list string;
  member_count : nat;
  total_frequency : Z;
  avg_coherence : R;
  representative_topics : list string;
  umbrella_video_ids : list string;
  stats : UmbrellaStats
}.

(** [self._generate_umbrella_label(cluster_topics, cluster_embeddings)]: the
    words of a label play no part in the numbers of an umbrella, and the
    labeller is a parameter here. *)
Variable _generate_umbrella_label : list string -> list Vec.vec -> string.

(** [sim_matrix[mask]] for the mask of the entries above the diagonal: the
    similarities of all pairs of rows, row by row. *)
Fixpoint upper_triangle (cluster_embeddings : list Vec.vec) : list R :=
  match cluster_embeddings with
  | [] => []
  | e :: rest => (map (Vec.cosine_similarity e) rest ++ upper_triangle rest)%list
  end.

(** "Compute cluster coherence (average pairwise similarity)" *)
Definition cluster_coherence (cluster_embeddings : list Vec.vec) : R :=
  if Nat.ltb 1 (length cluster_embeddings)
  then Np.mean (upper_triangle cluster_embeddings)
  else 1.0%R.

(** [min(l)] and [max(l)] of integers, for a list that starts with [x]. *)
Definition min_of (x : Z) (l : list Z) : Z := fold_left Z.min l x.
Definition max_of (x : Z) (l : list Z) : Z := fold_left Z.max l x.

(** [f"umbrella_{i+1}"] *)
Definition umbrella_name (i : nat) : string :=
  "umbrella_" ++ NilEmpty.string_of_uint (Nat.to_uint (i + 1)).

Section Umbrellas.
(** The argument [canonical_map] of the source is never read and is left
    out. *)
Variable topic_nodes : list TopicNode.
Variable embeddings : list Vec.vec.
Variable canonical_topics : list string.

(** The body of the loop over [enumerate(clusters)]: the umbrella of one
    cluster, or [None] when no node belongs to it ([continue]). *)
Definition build_umbrella (i : nat) (cluster_indices : list nat)
  : option UmbrellaCluster :=
  let cluster_topics := map (fun idx => nth idx canonical_topics "") cluster_indices in
  let cluster_nodes :=
    filter (fun node => existsb (String.eqb (canonical node)) cluster_topics)
           topic_nodes in
  match cluster_nodes with
  | [] => None
  | n0 :: ns =>
      let total_frequency := fold_right Z.add 0%Z (map frequency cluster_nodes) in
      let video_ids := PyList.list_set (concat (map video_ids cluster_nodes)) in
      let cluster_embeddings := map (fun idx => nth idx embeddings []) cluster_indices in
      let avg_coherence := cluster_coherence cluster_embeddings in
      let label := _generate_umbrella_label cluster_topics cluster_embeddings in
      let sorted_nodes :=
        Vec.sort_desc (fun n => IZR (frequency n)) cluster_nodes in
      let representative_topics := map canonical (firstn 5 sorted_nodes) in
      Some {| umbrella_id := umbrella_name i;
              label := label;
              members := cluster_topics;
              member_count := length cluster_topics;
              total_frequency := total_frequency;
              avg_coherence := avg_coherence;
              representative_topics := representative_topics;
              umbrella_video_ids := video_ids;
              stats :=
                {| min_frequency := min_of (frequency n0) (map frequency ns);
                   max_frequency := max_of (frequency n0) (map frequency ns);
                   stats_avg_score := Np.mean (map avg_score cluster_nodes) |} |}
  end.

Definition _build_umbrellas (clusters : list (list nat)) : list UmbrellaCluster :=
  let umbrellas :=
    flat_map (fun ic => match build_umbrella (fst ic) (snd ic) with
                        | Some umbrella => [umbrella]
                        | None => []
                        end)
             (enumerate clusters) in
  Vec.sort_desc (fun u => IZR (total_frequency u)) umbrellas.

End Umbrellas.

End Builder.
End UmbrellaBuilder.

(** ** Coherence, from the words of the specification

    "The mean pairwise cosine similarity among member embeddings (1.0 for
    singleton-embedding clusters)": the sum of the similarities of the
    [n (n - 1) / 2] pairs of members, divided by their number. *)
Module CoherenceSpec.
Local Open Scope R_scope.

Fixpoint pair_sum (members : list Vec.vec) : R :=
  match members with
  | [] => 0
  | e :: rest =>
      fold_right (fun e' acc => Vec.cosine_similarity e e' + acc) 0 rest
      + pair_sum rest
  end.

Definition mean_pairwise_similarity (members : list Vec.vec) : R :=
  match members with
  | [] | [_] => 1
  | _ => pair_sum members / INR (length members * (length members - 1) / 2)
  end.

End CoherenceSpec.

(** ** Merge tables *)
Module CanonicalTables.
Import TopicExtractorV2 PyStr.
Local Open Scope string_scope.

(** The merge rules a canonical map holds ([{}] when the key is absent). *)
Definition rules_of (cm : CanonicalMap) : PyDict.dict string :=
  match merge_rules cm with Some r => r | None => [] end.

(** A merge table whose values are canonical already: each value is
    lower-cased and stripped, and is no key of the table unless it is mapped
    to itself. *)
Definition values_canonical (cm : CanonicalMap) : Prop :=
  forall k v,
    PyDict.get (rules_of cm) k = Some v ->
    strip (lower v) = v
    /\ (PyDict.get (rules_of cm) v = None \/ PyDict.get (rules_of cm) v = Some v).

(** A table that sends "a" to "b" and "b" on to "c". *)
Definition chained_rules : CanonicalMap :=
  {| merge_rules := Some [("a", "b"); ("b", "c")] |}.

(** A table whose one value is not lower-cased. *)
Definition capitalized_rules : CanonicalMap :=
  {| merge_rules := Some [("ml", "Machine Learning")] |}.

(** A table with one rule, ["ai" -> "artificial intelligence"]. *)
Definition one_rule : CanonicalMap :=
  {| merge_rules := Some [("ai", "artificial intelligence")] |}.

End CanonicalTables.

(** ** Sample inputs of the per-video extractor *)
Module SampleVideos.
Import TopicExtractorV2.
Local Open Scope string_scope.

(** What spaCy reads in "We moved to the UK.": the noun chunks "We" and
    "the UK", and the entity "UK", a country. *)
Definition uk_doc : Doc :=
  {| noun_chunks :=
       [{| tokens := [{| lemma_ := "we"; is_stop := true |}];
           text := "We"; label_ := ""; start_char := 0; end_char := 2 |};
        {| tokens := [{| lemma_ := "the"; is_stop := true |};
                      {| lemma_ := "UK"; is_stop := false |}];
           text := "the UK"; label_ := ""; start_char := 12; end_char := 18 |}];
     ents := [{| tokens := [{| lemma_ := "UK"; is_stop := false |}];
                 text := "UK"; label_ := "GPE";
                 start_char := 16; end_char := 18 |}] |}.

(** A transcript of 56 characters. *)
Definition sample_transcript : string :=
  "Meditation is about observing thoughts without judgment.".

(** A run that returns a topic: the model finds the noun chunk "Meditation",
    every text has the same embedding, and the phrase occurs in the one
    sentence, in the title and in a hashtag. *)
Definition sample_doc : Doc :=
  {| noun_chunks :=
       [{| tokens := [{| lemma_ := "Meditation"; is_stop := false |}];
           text := "Meditation"; label_ := ""; start_char := 0; end_char := 10 |}];
     ents := [] |}.

Definition sample_sentences : list Sentence :=
  [{| sent_text := Some sample_transcript; sent_sentence := None;
      sent_start_time := Some 0%R; sent_end_time := Some 3%R |}].

End SampleVideos.

(** ** Sample inputs of the aggregation *)
Module SampleAccounts.
Import TopicExtractor.
Local Open Scope string_scope.

(** Two videos that share the tag "yoga", listed in both orders, with the
    metadata listed in both orders. *)
Definition video_a : VideoTags :=
  {| video_id := Some "a";
     tags := [{| tag := "yoga"; score := 0.5%R |};
              {| tag := "breath"; score := 0.4%R |}] |}.

Definition video_b : VideoTags :=
  {| video_id := Some "b"; tags := [{| tag := "yoga"; score := 0.7%R |}] |}.

Definition meta_a : VideoMeta := {| meta_video_id := "a"; view_count := Some 100%Z |}.
Definition meta_b : VideoMeta := {| meta_video_id := "b"; view_count := None |}.

End SampleAccounts.

(** ** Groups of labels, and the contract of HDBSCAN *)
Module ClusterSpec.
Import UmbrellaBuilder.

(** What holds of the groups once the labels [L] were read: one group per
    label that occurs, with one member per occurrence. *)
Definition grouped (L : list Z) (clusters : list (Z * list nat)) : Prop :=
  NoDup (map fst clusters)
  /\ (forall l, In l L -> In l (map fst clusters))
  /\ (forall l c, In (l, c) clusters -> length c = count_occ Z.eq_dec L l /\ In l L).

(** The documented contract of HDBSCAN's [min_cluster_size]: a label that is
    not noise is given to at least that many points. *)
Definition hdbscan_respects_min_size
    (hdbscan_fit_predict : Z -> R -> list (list R) -> list Z) : Prop :=
  forall min_cluster_size epsilon distance_matrix label,
    (0 <= label)%Z ->
    In label (hdbscan_fit_predict min_cluster_size epsilon distance_matrix) ->
    (min_cluster_size
     <= Z.of_nat (count_occ Z.eq_dec
                    (hdbscan_fit_predict min_cluster_size epsilon distance_matrix)
                    label))%Z.

(** The labels of a clustering respect a minimum size: a label that is not
    noise is given to at least that many points. *)
Definition labels_respect_min_size (min_cluster_size : Z) (labels : list Z)
  : Prop :=
  forall label,
    (0 <= label)%Z -> In label labels ->
    (min_cluster_size <= Z.of_nat (count_occ Z.eq_dec labels label))%Z.

(** [1 - (adj_matrix.astype(float) / adj_matrix.max())], the matrix that
    [_cluster_hdbscan] hands to HDBSCAN. *)
Definition distance_matrix (adj_matrix : list (list Z)) : list (list R) :=
  map (map (fun a => (1 - IZR a / IZR (matrix_max adj_matrix))%R)) adj_matrix.

(** Three topics, the first two adjacent.  HDBSCAN puts the first two topics
    together and marks the third as noise when two points may form a cluster,
    and marks everything as noise otherwise; the other libraries leave the
    third topic in a community of its own. *)
Definition sample_adjacency : list (list Z) :=
  [[0; 1; 0]; [1; 0; 0]; [0; 0; 0]]%Z.

Definition sample_hdbscan (min_cluster_size : Z) (_ : R) (_ : list (list R))
  : list Z :=
  if (min_cluster_size <=? 2)%Z then [0; 0; -1]%Z else [-1; -1; -1]%Z.

Definition sample_membership : list Z := [0; 0; 1]%Z.

End ClusterSpec.

(** ** A sample cluster *)
Module SampleUmbrellas.
Import UmbrellaBuilder.
Local Open Scope R_scope.

(** Two topics whose embeddings point in opposite directions, put into one
    cluster. *)
Definition opposite_nodes : list TopicNode :=
  [{| topic := "night owls"; canonical := "night owls"; frequency := 3;
      avg_score := 0.6; video_ids := ["v1"%string]; embedding := Some [1] |};
   {| topic := "early birds"; canonical := "early birds"; frequency := 2;
      avg_score := 0.5; video_ids := ["v2"%string]; embedding := Some [-1] |}].

Definition opposite_umbrellas : list UmbrellaCluster :=
  _build_umbrellas (fun _ _ => "Sleep"%string) opposite_nodes [[1]; [-1]]
                   ["night owls"; "early birds"]%string [[0; 1]%nat].

(** What [connected_components] returns for a graph of two joined vertices. *)
Definition one_component (_ : list (list Z)) : nat * list Z := (1%nat, [0; 0]%Z).

(** An account with one topic: its graph, what [connected_components]
    returns for it, and its node. *)
Definition lone_adjacency : list (list Z) := [[0%Z]].

Definition lone_component (_ : list (list Z)) : nat * list Z := (1%nat, [0%Z]).

Definition lone_nodes : list TopicNode :=
  [{| topic := "night owls"; canonical := "night owls"; frequency := 3;
      avg_score := 0.6; video_ids := ["v1"%string]; embedding := Some [1] |}].

End SampleUmbrellas.

(** ** The invariant of the selection loop *)
Module MmrInvariant.
Import TopicExtractorV2 MmrSpec.
Unset Implicit Arguments.

Section Loop.
Variable candidates : list string.
Variable embs : list Vec.vec.
Variable doc : Vec.vec.
Variable lambda : R.
Variable top_n : Z.

(** What holds of the loop state after the picks [picks]. *)
Record Inv (picks : list nat) (st : MmrState) : Prop := {
  inv_selected : selected st = scored candidates embs doc lambda [] picks;
  inv_embeddings : selected_embeddings st = map (embedding embs) picks;
  inv_remaining :
    forall j, In j (remaining st) <-> j < length candidates /\ ~ In j picks;
  inv_remaining_nodup : NoDup (remaining st);
  inv_greedy : greedy candidates embs doc lambda [] picks;
  inv_bound : (Z.of_nat (length picks)
     <= Z.max 0 (Z.min top_n (Z.of_nat (length candidates))))%Z
}.

End Loop.

Set Implicit Arguments.
End MmrInvariant.

(** ** Evidence sentences without times

    The fallback of [_find_evidence] reads plain sentences; as an entry of
    [sentence_timestamps] such a sentence has its text and no times. *)
Module EvidenceTable.
Import TopicExtractorV2.

Definition untimed (s : string) : Sentence :=
  {| sent_text := Some s; sent_sentence := None;
     sent_start_time := None; sent_end_time := None |}.

(** The entry [_find_evidence] makes of the sentence [sent] at index [idx]. *)
Definition entry_of (idx : nat) (sent : Sentence) : TopicEvidence :=
  {| sentence_index := idx;
     start_time := option_default 0%R (sent_start_time sent);
     end_time := option_default 0%R (sent_end_time sent);
     ev_text := PyStr.take 150 (sentence_text sent) |}.

End EvidenceTable.

(** ** The configuration files of the extractor *)
Module ExtractorConfig.
Import TopicExtractorV2.
Local Open Scope string_scope.

(** The body of the loop over the lines of [stop_phrases.txt]. *)
Definition add_stop_line (stop_phrases : list string) (line : string)
  : list string :=
  let line := PyStr.strip line in
  if andb (PyStr.truthy line) (negb (String.prefix "#" line))
  then ListSet.set_add string_dec (PyStr.lower line) stop_phrases
  else stop_phrases.

(** [_load_stop_phrases]: [stop_file] is [None] when the file does not exist,
    and its lines otherwise. *)
Definition _load_stop_phrases (stop_file : option (list string)) : list string :=
  match stop_file with
  | None => []
  | Some lines => fold_left add_stop_line lines []
  end.

(** [_load_canonical_map]: [canon_file] is [None] when the file does not
    exist, and what [json.load] reads otherwise.  Of the default only the
    ["merge_rules"] entry is modelled. *)
Definition _load_canonical_map (canon_file : option CanonicalMap) : CanonicalMap :=
  match canon_file with
  | None => {| merge_rules := Some [] |}
  | Some loaded => loaded
  end.

End ExtractorConfig.

(** ** [topic_extractor.py]: keyword tags and the broad category *)
Module KeywordExtractor.
Import Outcome Outcome.Notations.
Local Open Scope string_scope.

Definition BROAD_CATEGORIES : list string :=
  ["Philosophy"; "Spirituality"; "Self-Improvement"; "Psychology"; "Business";
   "Health"; "Tech"; "Politics"; "History"; "Creativity"; "Education";
   "Entertainment"; "Music"; "Art"; "Science"].

(** [s.split()]: the maximal runs of characters that are not white space. *)
Fixpoint split_whitespace (s : string) : list string :=
  match s with
  | EmptyString => []
  | String c s' =>
      if PyStr.is_space c then split_whitespace s'
      else
        match s' with
        | EmptyString => [String c EmptyString]
        | String c' _ =>
            if PyStr.is_space c' then String c EmptyString :: split_whitespace s'
            else
              match split_whitespace s' with
              | w :: ws => String c w :: ws
              | [] => [String c EmptyString]
              end
        end
  end.

(** One element of the list [extract_video_tags] returns. *)
Record Tag := { tag : string; score : R; type : string }.

(** What [classify_account_category] returns; the ["all_scores"] entry is
    missing from the answer for an unknown category. *)
Record Classification := {
  category : string;
  confidence : R;
  all_scores : option (PyDict.dict R)
}.

Definition unknown : Classification :=
  {| category := "Unknown"; confidence := 0.0%R; all_scores := None |}.

(** Adding two rows of an array, position by position. *)
Fixpoint vec_add (x y : Vec.vec) : Vec.vec :=
  match x, y with
  | a :: x', b :: y' => (a + b)%R :: vec_add x' y'
  | _, _ => []
  end.

(** [np.mean(rows, axis=0)]; of no rows it is not a number. *)
Definition mean_axis0 (rows : list Vec.vec) : option Vec.vec :=
  match rows with
  | [] => None
  | r :: rs =>
      Some (map (fun total => (total / INR (length rows))%R)
                (fold_left vec_add rs r))
  end.

(** [np.argmax(l)] for a list that is not empty: the first index of the
    largest element. *)
Definition argmax (l : list R) : option nat :=
  match UmbrellaBuilder.enumerate l with
  | [] => None
  | s0 :: ss => Some (fst (Vec.max_by snd s0 ss))
  end.

Section Extractor.

(** Exceptions, with the two that numpy, scikit-learn and list indexing
    raise here; the models the extractor calls:
    [self.kw_model.extract_keywords(transcript, keyphrase_ngram_range=(1, 3),
     stop_words='english', use_maxsum=True, nr_candidates=20, top_n=max_tags,
     diversity=diversity)] and [self.model.encode(tags)]; and the attributes
    [self.stop_words] and [self.category_embeddings]. *)
Variable exn : Type.
Variable value_error index_error : exn.
Variable kw_extract_keywords : string -> Z -> R -> result exn (list (string * R)).
Variable model_encode : list string -> result exn (list Vec.vec).
Variable stop_words : list string.
Variable category_embeddings : list Vec.vec.

(** The test of the loop over [keywords] that leads to [continue]. *)
Definition single_stop_word (keyword : string) : bool :=
  andb (Nat.eqb (length (split_whitespace keyword)) 1)
       (existsb (String.eqb (PyStr.lower keyword)) stop_words).

Definition extract_video_tags (transcript : string) (min_tags max_tags : Z)
    (diversity : R) : outcome exn (list Tag) :=
  if orb (negb (PyStr.truthy transcript)) (Nat.ltb (String.length transcript) 50)
  then Returns []
  else
    try_except
      (keywords <- call (kw_extract_keywords transcript max_tags diversity) ;;
       let tags :=
         flat_map
           (fun ks : string * R =>
              if single_stop_word (fst ks) then []
              else [{| tag := fst ks; score := snd ks; type := "keyphrase" |}])
           keywords in
       Returns (PyList.slice_to max_tags tags))
      (fun e => Returns []).

(** The [try] block of [classify_account_category].  The mean of no
    embeddings is not a number, which [cosine_similarity] rejects;
    [np.argmax] rejects an empty row. *)
Definition classify_body (top_tags : list string) (top_n : Z)
  : outcome exn Classification :=
  let tags_to_use := PyList.slice_to top_n top_tags in
  tag_embeddings <- call (model_encode tags_to_use) ;;
  match mean_axis0 tag_embeddings with
  | None => Raises value_error
  | Some account_embedding =>
      let similarities :=
        map (Vec.cosine_similarity account_embedding) category_embeddings in
      match argmax similarities with
      | None => Raises value_error
      | Some best_idx =>
          match nth_error BROAD_CATEGORIES best_idx with
          | None => Raises index_error
          | Some best_category =>
              Returns {| category := best_category;
                         confidence := nth best_idx similarities 0%R;
                         all_scores :=
                           Some (combine BROAD_CATEGORIES similarities) |}
          end
      end
  end.

Definition classify_account_category (top_tags : list string) (top_n : Z)
  : outcome exn Classification :=
  match top_tags with
  | [] => Returns unknown
  | _ => try_except (classify_body top_tags top_n) (fun e => Returns unknown)
  end.

End Extractor.
End KeywordExtractor.

(** ** Sums over lists *)
Module Sums.

(** [sum(f(x) for x in l)] *)
Definition zsum {A} (f : A -> Z) (l : list A) : Z :=
  fold_right Z.add 0%Z (map f l).

End Sums.

(** ** [umbrella_builder.py]: the umbrellas of an account *)
Module AccountUmbrellas.
Import Outcome Outcome.Notations UmbrellaBuilder.
Local Open Scope string_scope.

(** One element of the ["tags"] list of [account_tags.json]; every key may
    be missing. *)
Record TagData := {
  tag : option string;
  tag_canonical : option string;
  tag_frequency : option Z;
  tag_avg_score : option R;
  tag_video_ids : option (list string)
}.

(** The loaded [account_tags.json]. *)
Record AccountData := { tags : option (list TagData) }.

(** What [build_account_umbrellas] returns and saves, with the keys
    ["canonical_topics"] and ["similarity_threshold"] as
    [canonical_topics_count] and [threshold]; every umbrella has its videos
    as a sorted list. *)
Record Output := {
  username : string;
  total_topics : nat;
  canonical_topics_count : nat;
  umbrella_count : nat;
  total_clusters : nat;
  clustering_method : string;
  threshold : R;
  umbrellas : list UmbrellaCluster
}.

(** [sorted(l)] for a list of strings. *)
Fixpoint insert_sorted (x : string) (l : list string) : list string :=
  match l with
  | [] => [x]
  | y :: l' => if String.ltb x y then x :: y :: l' else y :: insert_sorted x l'
  end.

Definition sorted (l : list string) : list string :=
  fold_right insert_sorted [] l.

(** [canonical_map]: the original tags of every canonical topic, in the order
    the canonical topics were first met. *)
Definition canonical_map_of (topic_nodes : list TopicNode)
  : PyDict.dict (list string) :=
  fold_left (fun cm node => PyDict.append_to cm (canonical node) (topic node))
            topic_nodes [].

(** [asdict(u)] with [video_ids] turned into a sorted list. *)
Definition as_output (u : UmbrellaCluster) : UmbrellaCluster :=
  {| umbrella_id := umbrella_id u;
     label := label u;
     members := members u;
     member_count := member_count u;
     total_frequency := total_frequency u;
     avg_coherence := avg_coherence u;
     representative_topics := representative_topics u;
     umbrella_video_ids := sorted (umbrella_video_ids u);
     stats := stats u |}.

(** The contract of HDBSCAN's [min_cluster_size] for a call that may raise:
    the labels it returns respect the minimum it was given. *)
Definition hdbscan_call_respects_min_size {exn : Type}
    (hdbscan_fit_predict : Z -> R -> list (list R) -> result exn (list Z))
  : Prop :=
  forall min_cluster_size epsilon distance_matrix labels,
    hdbscan_fit_predict min_cluster_size epsilon distance_matrix = Ok labels ->
    ClusterSpec.labels_respect_min_size min_cluster_size labels.

Section Builder.
Variable similarity_threshold : R.
Variable min_cluster_size : Z.
Variable resolution : R.
Variable LEIDEN_AVAILABLE : bool.
Variable LOUVAIN_AVAILABLE : bool.
Variable HDBSCAN_AVAILABLE : bool.

(** Exceptions, with the [KeyError] of a failed dictionary lookup and the
    [IndexError] of an index out of range. *)
Variable exn : Type.
Variable key_error index_error : exn.

(** The library calls, each of which may raise:
    - [self.model.encode(canonical_topics, show_progress_bar=False)];
    - the check that [cosine_similarity] makes of its argument before it
      computes the similarities, which are those of [Vec.cosine_similarity];
    - the igraph and leidenalg calls of [_cluster_leiden], for the graph of
      [n] vertices and the given edges, up to [partition.membership];
    - the networkx and [community_louvain.best_partition] calls of
      [_cluster_louvain], up to [partition.items()];
    - [hdbscan.HDBSCAN(min_cluster_size, metric='precomputed',
       cluster_selection_epsilon).fit_predict(distance_matrix)];
    - [connected_components(csr_matrix(adj_matrix), directed=False)];
    - making the directory and writing [topic_umbrellas.json]. *)
Variable model_encode : list string -> result exn (list Vec.vec).
Variable cosine_similarity_check : list Vec.vec -> result exn unit.
Variable leiden_membership : nat -> list (nat * nat) -> R -> result exn (list Z).
Variable louvain_best_partition :
  list (list Z) -> R -> result exn (list (nat * Z)).
Variable hdbscan_fit_predict : Z -> R -> list (list R) -> result exn (list Z).
Variable connected_components : list (list Z) -> result exn (nat * list Z).
Variable save : Output -> result exn unit.

(** [self._generate_umbrella_label(cluster_topics, cluster_embeddings)],
    which raises for some clusters. *)
Variable _generate_umbrella_label :
  list string -> list Vec.vec -> outcome exn string.

(** The node of one tag: [tag_data['tag']] raises [KeyError] for a tag
    without that key; the canonical form comes from the tag itself or, for a
    tag without one, from the merge rules. *)
Definition node_of (canonical_rules : PyDict.dict string) (tag_data : TagData)
  : outcome exn TopicNode :=
  match tag tag_data with
  | None => Raises key_error
  | Some tag =>
      let canonical :=
        match tag_canonical tag_data with
        | Some c => c
        | None =>
            match PyDict.get canonical_rules (PyStr.lower tag) with
            | Some c => c
            | None => tag
            end
        end in
      Returns
        {| topic := tag;
           canonical := canonical;
           frequency :=
             match tag_frequency tag_data with Some f => f | None => 1%Z end;
           avg_score :=
             match tag_avg_score tag_data with Some s => s | None => 0.5%R end;
           video_ids :=
             match tag_video_ids tag_data with Some v => v | None => [] end;
           embedding := None |}
  end.

(** "Store embeddings in nodes" *)
Definition with_embedding (embedding_map : PyDict.dict Vec.vec)
    (node : TopicNode) : outcome exn TopicNode :=
  match PyDict.get embedding_map (canonical node) with
  | None => Raises key_error
  | Some emb =>
      Returns {| topic := topic node;
                 canonical := canonical node;
                 frequency := frequency node;
                 avg_score := avg_score node;
                 video_ids := video_ids node;
                 embedding := Some emb |}
  end.

(** [_cluster_topics] with library calls that may raise: the strategy in use
    asks its library and goes on as in [UmbrellaBuilder] with what the call
    returns. *)
Definition run_cluster_topics (topics : list string)
    (adj_matrix : list (list Z)) : outcome exn (list (list nat)) :=
  if LEIDEN_AVAILABLE then
    membership <- call (leiden_membership (length adj_matrix)
                                          (upper_edges adj_matrix) resolution) ;;
    Returns (_cluster_leiden min_cluster_size resolution
                             (fun _ _ _ => membership) adj_matrix)
  else if LOUVAIN_AVAILABLE then
    partition <- call (louvain_best_partition adj_matrix resolution) ;;
    Returns (_cluster_louvain min_cluster_size resolution
                              (fun _ _ => partition) adj_matrix)
  else if HDBSCAN_AVAILABLE then
    labels <- call (hdbscan_fit_predict min_cluster_size 0.3%R
                      (ClusterSpec.distance_matrix adj_matrix)) ;;
    Returns (_cluster_hdbscan min_cluster_size (fun _ _ _ => labels)
                              topics adj_matrix)
  else
    components <- call (connected_components adj_matrix) ;;
    Returns (_cluster_connected_components min_cluster_size
                                           (fun _ => components) adj_matrix).

Section Umbrellas.
Variable topic_nodes : list TopicNode.
Variable embeddings : list Vec.vec.
Variable canonical_topics : list string.

(** Every index is one of the list: [l[idx]] raises [IndexError] otherwise. *)
Definition in_range {A} (l : list A) (cluster_indices : list nat) : bool :=
  forallb (fun idx => Nat.ltb idx (length l)) cluster_indices.

(** The body of the loop of [_build_umbrellas] with what may raise in it:
    [canonical_topics[idx]] and [embeddings[cluster_indices]] for an index
    out of range, [cosine_similarity] for more than one embedding, and the
    labeller.  The umbrella is the one of [UmbrellaBuilder.build_umbrella]
    with the label that was returned. *)
Definition run_build_umbrella (i : nat) (cluster_indices : list nat)
  : outcome exn (option UmbrellaCluster) :=
  if negb (in_range canonical_topics cluster_indices) then Raises index_error
  else
    let cluster_topics :=
      map (fun idx => nth idx canonical_topics "") cluster_indices in
    let cluster_nodes :=
      filter (fun node => existsb (String.eqb (canonical node)) cluster_topics)
             topic_nodes in
    match cluster_nodes with
    | [] => Returns None
    | _ =>
        if negb (in_range embeddings cluster_indices) then Raises index_error
        else
          let cluster_embeddings :=
            map (fun idx => nth idx embeddings []) cluster_indices in
          _ <- (if Nat.ltb 1 (length cluster_embeddings)
                then call (cosine_similarity_check cluster_embeddings)
                else Returns tt) ;;
          label <- _generate_umbrella_label cluster_topics cluster_embeddings ;;
          Returns (build_umbrella (fun _ _ => label) topic_nodes embeddings
                                  canonical_topics i cluster_indices)
    end.

Definition run_build_umbrellas (clusters : list (list nat))
  : outcome exn (list UmbrellaCluster) :=
  built <- map_m (fun ic => run_build_umbrella (fst ic) (snd ic))
                 (enumerate clusters) ;;
  let umbrellas :=
    flat_map (fun o : option UmbrellaCluster =>
                match o with Some umbrella => [umbrella] | None => [] end)
             built in
  Returns (Vec.sort_desc (fun u => IZR (total_frequency u)) umbrellas).

End Umbrellas.

(** [build_account_umbrellas]: [account_file] and [canonical_config] are
    [None] when the file does not exist, and what [json.load] reads
    otherwise. *)
Definition build_account_umbrellas (account_file : option AccountData)
    (canonical_config : option TopicExtractorV2.CanonicalMap)
    (user : string) (max_umbrellas : Z) : outcome exn (option Output) :=
  match account_file with
  | None => Returns None
  | Some account_data =>
      let tags := match tags account_data with Some t => t | None => [] end in
      if (Z.of_nat (length tags) <? min_cluster_size)%Z then Returns None
      else
        let canonical_rules :=
          match canonical_config with
          | Some config =>
              match TopicExtractorV2.merge_rules config with
              | Some rules => rules
              | None => []
              end
          | None => []
          end in
        topic_nodes <- map_m (node_of canonical_rules) tags ;;
        let canonical_map := canonical_map_of topic_nodes in
        let canonical_topics := PyDict.keys canonical_map in
        embeddings <- call (model_encode canonical_topics) ;;
        let embedding_map := combine canonical_topics embeddings in
        topic_nodes <- map_m (with_embedding embedding_map) topic_nodes ;;
        _ <- call (cosine_similarity_check embeddings) ;;
        let adj_matrix :=
          fst (_build_similarity_graph similarity_threshold canonical_topics
                                       embeddings) in
        clusters <- run_cluster_topics canonical_topics adj_matrix ;;
        match clusters with
        | [] => Returns None
        | _ =>
            umbrellas <- run_build_umbrellas topic_nodes embeddings
                                             canonical_topics clusters ;;
            let umbrellas :=
              Vec.sort_desc (fun u => INR (member_count u)) umbrellas in
            let top_umbrellas := PyList.slice_to max_umbrellas umbrellas in
            let output :=
              {| username := user;
                 total_topics := length tags;
                 canonical_topics_count := length canonical_map;
                 umbrella_count := length top_umbrellas;
                 total_clusters := length umbrellas;
                 clustering_method :=
                   _get_clustering_method LEIDEN_AVAILABLE LOUVAIN_AVAILABLE
                                          HDBSCAN_AVAILABLE;
                 threshold := similarity_threshold;
                 umbrellas := map as_output top_umbrellas |} in
            _ <- call (save output) ;;
            Returns (Some output)
        end
  end.

End Builder.
End AccountUmbrellas.

(** ** Sample accounts for the umbrella builder

    One tag and one embedding; no clustering library is available, and
    connected components make one cluster of the one topic. *)
Module SampleAccountUmbrellas.
Import Outcome UmbrellaBuilder AccountUmbrellas.
Local Open Scope string_scope.

Definition sample_account : AccountData :=
  {| tags := Some [{| tag := Some "Meditation"; tag_canonical := None;
                      tag_frequency := Some 3%Z; tag_avg_score := None;
                      tag_video_ids := Some ["v2"; "v1"] |}] |}.

Definition sample_encode (_ : list string) : result string (list Vec.vec) :=
  Ok [[1%R]].

Definition sample_check (_ : list Vec.vec) : result string unit := Ok tt.

Definition sample_save (_ : Output) : result string unit := Ok tt.

Definition sample_components (_ : list (list Z)) : result string (nat * list Z) :=
  Ok (1%nat, [0%Z]).

Definition sample_hdbscan (min_cluster_size : Z) (epsilon : R)
    (distance_matrix : list (list R)) : result string (list Z) :=
  Ok (ClusterSpec.sample_hdbscan min_cluster_size epsilon distance_matrix).

Definition sample_label (_ : list string) (_ : list Vec.vec)
  : outcome string string :=
  Returns "Meditation".

(** The builder of the samples: a similarity threshold of 0.7, a minimum
    cluster size of 1 and no clustering library. *)
Definition sample_builder
    (_generate_umbrella_label : list string -> list Vec.vec
                                -> outcome string string)
    (account : AccountData) : outcome string (option Output) :=
  build_account_umbrellas 0.7%R 1%Z 1%R false false false
    "KeyError" "IndexError" sample_encode sample_check
    (fun _ _ _ => Ok []) (fun _ _ => Ok []) sample_hdbscan sample_components
    sample_save _generate_umbrella_label (Some account) None "sample" 5%Z.

Definition sample_run : outcome string (option Output) :=
  sample_builder sample_label sample_account.

Definition sample_output : Output :=
  {| username := "sample";
     total_topics := 1;
     canonical_topics_count := 1;
     umbrella_count := 1;
     total_clusters := 1;
     clustering_method := "connected_components";
     threshold := 0.7%R;
     umbrellas :=
       [{| umbrella_id := "umbrella_1";
           label := "Meditation";
           members := ["Meditation"];
           member_count := 1;
           total_frequency := 3%Z;
           avg_coherence := 1.0%R;
           representative_topics := ["Meditation"];
           umbrella_video_ids := ["v1"; "v2"];
           stats := {| min_frequency := 3%Z;
                       max_frequency := 3%Z;
                       stats_avg_score := Np.mean [0.5%R] |} |}] |}.

(** An account whose one tag is the empty string. *)
Definition empty_tag_account : AccountData :=
  {| tags := Some [{| tag := Some ""; tag_canonical := None;
                      tag_frequency := None; tag_avg_score := None;
                      tag_video_ids := None |}] |}.

End SampleAccountUmbrellas.

(** ** [topic_extractor_v2.py]: the topics of an account *)
Module AccountTopics.
Import Outcome Outcome.Notations TopicExtractorV2.
Local Open Scope string_scope.

(** One value of ["processed_videos"]: a missing or false ["success"] reads
    as [false]; ["title"] and ["hashtags"] may be missing. *)
Record VideoData := {
  success : bool;
  video_title : option string;
  video_hashtags : option (list string)
}.

(** The loaded [index.json]. *)
Record Index := { processed_videos : option (PyDict.dict VideoData) }.

(** The files of an account that the extraction touches. *)
Inductive File :=
| AccountDir
| IndexJson
| TopicsDir
| TagsV2 (video_id : string)
| TranscriptTxt (video_id : string)
| TimestampsJson (video_id : string).

(** One element of the ["topics"] list of a saved file. *)
Record SavedTopic := {
  saved_tag : string;
  saved_canonical : string;
  saved_confidence : R;
  saved_score : R;
  saved_type : string;
  saved_source : string;
  saved_evidence : list TopicEvidence;
  saved_stats : option (PyDict.dict StatValue)
}.

(** The content of [<video_id>_tags_v2.json]. *)
Record V2Data := {
  v2_video_id : string;
  v2_username : string;
  v2_title : string;
  total_topics : nat;
  v2_topics : list SavedTopic
}.

(** The summary [extract_account_topics_v2] returns. *)
Record Results := {
  username : string;
  total_videos : nat;
  extracted : Z;
  skipped : Z;
  failed : Z
}.

Definition save_topic (t : EnhancedTopic) : SavedTopic :=
  {| saved_tag := tag t;
     saved_canonical := canonical t;
     saved_confidence := confidence t;
     saved_score := score t;
     saved_type := type t;
     saved_source := source t;
     saved_evidence := evidence t;
     saved_stats := stats t |}.

(** [results['extracted'] += 1], and the like. *)
Definition count_extracted (results : Results) : Results :=
  {| username := username results; total_videos := total_videos results;
     extracted := (extracted results + 1)%Z; skipped := skipped results;
     failed := failed results |}.

Definition count_skipped (results : Results) : Results :=
  {| username := username results; total_videos := total_videos results;
     extracted := extracted results; skipped := (skipped results + 1)%Z;
     failed := failed results |}.

Definition count_failed (results : Results) : Results :=
  {| username := username results; total_videos := total_videos results;
     extracted := extracted results; skipped := skipped results;
     failed := (failed results + 1)%Z |}.

Section Account.

(** The extractor. *)
Variable exn : Type.
Variable nlp : string -> result exn Doc.
Variable st_encode : string -> result exn Vec.vec.
Variable stop_phrases : list string.
Variable canonical_map : CanonicalMap.

(** The file system under [accounts/<username>]: its states, and what the
    extraction asks of it.  Writing a file changes the state whether or not
    it succeeds. *)
Variable FS : Type.
Variable file_not_found : File -> exn.
Variable file_exists : FS -> File -> bool.
Variable load_index : FS -> result exn Index.
Variable mkdir : FS -> File -> result exn FS.
Variable read_text : FS -> File -> result exn string.
Variable load_timestamps : FS -> File -> result exn (list Sentence).
Variable dump : FS -> File -> V2Data -> FS * result exn unit.

Variable user : string.
Variable force : bool.

(** What the [try] block of the loop body computes before it writes: the
    data to save, or [None] after "Empty transcript". *)
Definition prepare (fs : FS) (video_id : string) (video_data : VideoData)
  : outcome exn (option V2Data) :=
  text <- call (read_text fs (TranscriptTxt video_id)) ;;
  let transcript_text := PyStr.strip text in
  if negb (PyStr.truthy transcript_text) then Returns None
  else
    timestamps <-
      (if file_exists fs (TimestampsJson video_id)
       then call (load_timestamps fs (TimestampsJson video_id))
       else Returns []) ;;
    let title := option_default "" (video_title video_data) in
    let hashtags := option_default [] (video_hashtags video_data) in
    topics <- extract_video_topics_enhanced nlp st_encode stop_phrases
                canonical_map transcript_text timestamps title (Some hashtags)
                "" 0.7%R 10%Z 0.0%R ;;
    Returns (Some {| v2_video_id := video_id;
                     v2_username := user;
                     v2_title := title;
                     total_topics := length topics;
                     v2_topics := map save_topic topics |}).

(** The body of the loop over [processed_videos.items()]. *)
Definition process_video (state : FS * Results) (item : string * VideoData)
  : outcome exn (FS * Results) :=
  let fs := fst state in
  let results := snd state in
  let video_id := fst item in
  let video_data := snd item in
  if negb (success video_data) then Returns (fs, count_skipped results)
  else if andb (file_exists fs (TagsV2 video_id)) (negb force)
  then Returns (fs, count_skipped results)
  else if negb (file_exists fs (TranscriptTxt video_id))
  then Returns (fs, count_failed results)
  else
    match prepare fs video_id video_data with
    | Returns None => Returns (fs, count_failed results)
    | Returns (Some v2_data) =>
        match dump fs (TagsV2 video_id) v2_data with
        | (fs', Ok _) => Returns (fs', count_extracted results)
        | (fs', Error _) => Returns (fs', count_failed results)
        end
    | Raises _ => Returns (fs, count_failed results)
    | OutOfFuel => OutOfFuel
    end.

(** The loop. *)
Fixpoint process_videos (state : FS * Results)
    (items : list (string * VideoData)) : outcome exn (FS * Results) :=
  match items with
  | [] => Returns state
  | item :: rest =>
      state' <- process_video state item ;;
      process_videos state' rest
  end.

Definition extract_account_topics_v2 (fs : FS) : outcome exn (FS * Results) :=
  if negb (file_exists fs AccountDir) then Raises (file_not_found AccountDir)
  else if negb (file_exists fs IndexJson) then Raises (file_not_found IndexJson)
  else
    index <- call (load_index fs) ;;
    let processed_videos := option_default [] (processed_videos index) in
    fs <- call (mkdir fs TopicsDir) ;;
    let results :=
      {| username := user; total_videos := length processed_videos;
         extracted := 0; skipped := 0; failed := 0 |} in
    process_videos (fs, results) processed_videos.

End Account.
End AccountTopics.

(** ** [umbrella_builder.py]: the label of an umbrella *)
Module UmbrellaLabel.
Import Outcome Outcome.Notations.
Local Open Scope string_scope.

(** The characters of [word.strip('.,!?;:()[]{}...-#')]: the punctuation
    marks, both quotation marks, the hyphen and the hash sign. *)
Definition stripped_chars : list ascii :=
  ["."; ","; "!"; "?"; ";"; ":"; "("; ")"; "["; "]"; "{"; "}";
   ascii_of_nat 34; "'"; "-"; "#"]%char.

Definition is_stripped (c : ascii) : bool :=
  existsb (Ascii.eqb c) stripped_chars.

Fixpoint lstrip_chars (s : string) : string :=
  match s with
  | EmptyString => EmptyString
  | String c s' => if is_stripped c then lstrip_chars s' else s
  end.

Fixpoint rstrip_chars (s : string) : string :=
  match s with
  | EmptyString => EmptyString
  | String c s' =>
      match rstrip_chars s' with
      | EmptyString => if is_stripped c then EmptyString else String c EmptyString
      | r => String c r
      end
  end.

(** [s.strip(chars)] *)
Definition strip_chars (s : string) : string := rstrip_chars (lstrip_chars s).

(** [str.isalpha] below code point 128. *)
Definition is_alpha_char (c : ascii) : bool :=
  let n := nat_of_ascii c in
  orb (andb (Nat.leb 65 n) (Nat.leb n 90)) (andb (Nat.leb 97 n) (Nat.leb n 122)).

Fixpoint all_alpha (s : string) : bool :=
  match s with
  | EmptyString => true
  | String c s' => andb (is_alpha_char c) (all_alpha s')
  end.

Definition isalpha (s : string) : bool := andb (PyStr.truthy s) (all_alpha s).

(** [str.upper] on one character, and [str.capitalize]. *)
Definition upper_char (c : ascii) : ascii :=
  let n := nat_of_ascii c in
  if andb (Nat.leb 97 n) (Nat.leb n 122) then ascii_of_nat (n - 32) else c.

Definition capitalize (s : string) : string :=
  match s with
  | EmptyString => EmptyString
  | String c s' => String (upper_char c) (PyStr.lower s')
  end.

Definition stopwords : list string :=
  ["the"; "a"; "an"; "and"; "or"; "but"; "in"; "on"; "at"; "to"; "for";
   "of"; "with"; "from"; "by"; "is"; "are"; "was"; "were"; "be"; "been";
   "being"; "have"; "has"; "had"; "do"; "does"; "did"; "will"; "would";
   "could"; "should"; "may"; "might"; "must"; "can"; "this"; "that";
   "these"; "those"; "i"; "you"; "he"; "she"; "it"; "we"; "they";
   "my"; "your"; "his"; "her"; "its"; "our"; "their"; "me"; "him";
   "just"; "like"; "really"; "very"; "too"; "so"; "such"; "make";
   "get"; "got"; "going"; "go"; "thing"; "things"; "people"; "person";
   "video"; "videos"; "watching"; "watch"; "thank"; "thanks"].

Definition is_stopword (word : string) : bool :=
  existsb (String.eqb word) stopwords.

(** The test of the counting loop. *)
Definition counted (word : string) : bool :=
  andb (andb (Nat.ltb 3 (String.length word)) (negb (is_stopword word)))
       (isalpha word).

(** [word_counts] and [word_topics]. *)
Record Words := {
  word_counts : PyDict.dict Z;
  word_topics : PyDict.dict (list string)
}.

(** The body of the loop over the words of one topic. *)
Definition count_word (topic : string) (words : Words) (word : string) : Words :=
  let word := strip_chars word in
  if counted word
  then {| word_counts := PyDict.incr (word_counts words) word;
          word_topics :=
            PyDict.upd (word_topics words) word
              (fun o => ListSet.set_add string_dec topic
                          (match o with Some topics => topics | None => [] end)) |}
  else words.

Definition count_topic (words : Words) (topic : string) : Words :=
  fold_left (count_word topic)
            (KeywordExtractor.split_whitespace (PyStr.lower topic)) words.

Definition count_words (cluster_topics : list string) : Words :=
  fold_left count_topic cluster_topics {| word_counts := []; word_topics := [] |}.

(** [len(word_topics[top_word] & word_topics[second_word])] *)
Definition overlap (topics1 topics2 : list string) : nat :=
  length (filter (fun t => existsb (String.eqb t) topics2) topics1).

(** The share of the topics that hold the word, and the score of an item of
    [word_counts]. *)
Definition coverage (cluster_topics : list string) (words : Words)
    (word : string) : R :=
  (INR (length (PyDict.get_list (word_topics words) word))
   / INR (length cluster_topics))%R.

Definition word_score (cluster_topics : list string) (words : Words)
    (item : string * Z) : R :=
  (coverage cluster_topics words (fst item) * 3 + IZR (snd item) * 0.5)%R.

Section Label.
Variable exn : Type.
Variable index_error zero_division : exn.

(** "Fallback: use first topic cleaned up" *)
Definition fallback_label (cluster_topics : list string) : outcome exn string :=
  match cluster_topics with
  | [] => Raises index_error
  | topic0 :: _ =>
      let first_topic := PyStr.lower topic0 in
      let words :=
        map strip_chars (KeywordExtractor.split_whitespace first_topic) in
      match find (fun w => andb (Nat.ltb 3 (String.length w))
                                (negb (is_stopword w))) words with
      | Some w => Returns (capitalize w)
      | None =>
          match KeywordExtractor.split_whitespace first_topic with
          | [] => Raises index_error
          | w0 :: _ => Returns (capitalize w0)
          end
      end
  end.

(** The search for "a complementary second word" among
    [sorted_words[1:4]]. *)
Fixpoint second_word (words : Words) (top_word : string)
    (candidates : list (string * R)) : outcome exn (option string) :=
  match candidates with
  | [] => Returns None
  | (second, _) :: rest =>
      let topics1 := PyDict.get_list (word_topics words) top_word in
      let topics2 := PyDict.get_list (word_topics words) second in
      let smaller := Nat.min (length topics1) (length topics2) in
      if Nat.eqb smaller 0 then Raises zero_division
      else
        let overlap_ratio := (INR (overlap topics1 topics2) / INR smaller)%R in
        if Rlt_dec overlap_ratio 0.5 then Returns (Some second)
        else second_word words top_word rest
  end.

(** [_generate_umbrella_label]; the argument [cluster_embeddings] is never
    read and is left out. *)
Definition _generate_umbrella_label (cluster_topics : list string)
  : outcome exn string :=
  let words := count_words cluster_topics in
  match word_counts words with
  | [] => fallback_label cluster_topics
  | _ =>
      if Nat.eqb (length cluster_topics) 0 then Raises zero_division
      else
        let word_scores :=
          map (fun item : string * Z =>
                 (fst item, word_score cluster_topics words item))
              (word_counts words) in
        let sorted_words := Vec.sort_desc snd word_scores in
        match sorted_words with
        | [] => Raises index_error
        | (top_word, _) :: rest =>
            let top_coverage := coverage cluster_topics words top_word in
            if orb (if Rle_dec 0.3 top_coverage then true else false)
                   (Nat.eqb (length sorted_words) 1)
            then Returns (capitalize top_word)
            else if Nat.leb 2 (length sorted_words)
            then
              found <- second_word words top_word (firstn 3 rest) ;;
              match found with
              | Some second =>
                  Returns (capitalize top_word ++ " " ++ capitalize second)
              | None => Returns (capitalize top_word)
              end
            else Returns (capitalize top_word)
        end
  end.

End Label.
End UmbrellaLabel.

(** ** [topic_extractor.py]: the tags and the category of an account *)
Module AccountTopicManager.
Import Outcome Outcome.Notations TopicExtractor.
Local Open Scope string_scope.

(** One value of ["processed_videos"]: a missing or false ["success"] reads
    as [false]; the other keys may be missing. *)
Record VideoData := {
  success : bool;
  data_video_id : option string;
  data_title : option string;
  data_view_count : option Z
}.

(** The loaded [index.json]. *)
Record Index := { processed_videos : option (PyDict.dict VideoData) }.

(** The files of an account that the manager touches. *)
Inductive File :=
| IndexJson
| TagsJson (video_id : string)
| TranscriptTxt (video_id : string)
| AccountTagsJson
| AccountCategoryJson.

(** The content of [<video_id>_tags.json]. *)
Record SavedTags := {
  saved_video_id : string;
  saved_title : string;
  saved_tags : list KeywordExtractor.Tag;
  extracted_at : string
}.

(** The summary [extract_all_topics] returns. *)
Record Results := {
  username : string;
  total_videos : nat;
  extracted : Z;
  skipped : Z;
  failed : Z;
  video_tags : list VideoTags
}.

(** What the aggregation reads of the tags of one video. *)
Definition tags_of (saved : SavedTags) : VideoTags :=
  {| video_id := Some (saved_video_id saved);
     tags := map (fun t => {| tag := KeywordExtractor.tag t;
                              score := KeywordExtractor.score t |})
                 (saved_tags saved) |}.

(** [sep in s], and [s.split(sep, 1)[1]] when it is: what follows the first
    occurrence of [sep]. *)
Fixpoint after_first (sep s : string) : option string :=
  if String.prefix sep s
  then Some (String.substring (String.length sep)
                              (String.length s - String.length sep) s)
  else match s with
       | EmptyString => None
       | String _ s' => after_first sep s'
       end.

(** ["=" * 50] *)
Definition header_rule : string :=
  "==================================================".

(** "Extract transcription (after header)" *)
Definition transcript_of (content : string) : string :=
  match after_first header_rule content with
  | Some body => PyStr.strip body
  | None => content
  end.

Definition count (results : Results) (e s f : Z) (more : list VideoTags)
  : Results :=
  {| username := username results;
     total_videos := total_videos results;
     extracted := (extracted results + e)%Z;
     skipped := (skipped results + s)%Z;
     failed := (failed results + f)%Z;
     video_tags := (video_tags results ++ more)%list |}.

Section Manager.

(** The tag extractor: the two models and attributes of its class. *)
Variable exn : Type.
Variable value_error index_error key_error : exn.
Variable kw_extract_keywords : string -> Z -> R -> result exn (list (string * R)).
Variable model_encode : list string -> result exn (list Vec.vec).
Variable stop_words : list string.
Variable category_embeddings : list Vec.vec.

(** The file system under [accounts/<username>], and the clock
    ([pd.Timestamp.now().isoformat()]). *)
Variable FS : Type.
Variable file_not_found : File -> exn.
Variable file_exists : FS -> File -> bool.
Variable load_index : FS -> result exn Index.
Variable load_tags : FS -> File -> result exn VideoTags.
Variable read_text : FS -> File -> result exn string.
Variable now_isoformat : result exn string.
Variable dump_tags : FS -> File -> SavedTags -> FS * result exn unit.
Variable dump_account_tags : FS -> Aggregate -> FS * result exn unit.
Variable dump_category :
  FS -> KeywordExtractor.Classification -> FS * result exn unit.

Variable user : string.
Variable force : bool.

(** [v['video_id']] for every video of the metadata. *)
Definition meta_of (video_data : VideoData) : outcome exn VideoMeta :=
  match data_video_id video_data with
  | Some v => Returns {| meta_video_id := v;
                         view_count := data_view_count video_data |}
  | None => Raises key_error
  end.

(** [_generate_account_aggregations]: the aggregate and the category it
    saves. *)
Definition _generate_account_aggregations (fs : FS)
    (video_tags : list VideoTags) (video_metadata : list VideoData)
  : outcome exn (FS * Aggregate * KeywordExtractor.Classification) :=
  metadata <- map_m meta_of video_metadata ;;
  let account_tags := aggregate_account_tags video_tags metadata in
  match dump_account_tags fs account_tags with
  | (_, Error e) => Raises e
  | (fs, Ok _) =>
      let all_tags := map ranked_tag (ranked_tags account_tags) in
      category <-
        KeywordExtractor.classify_account_category value_error index_error
          model_encode category_embeddings all_tags 10%Z ;;
      match dump_category fs category with
      | (_, Error e) => Raises e
      | (fs, Ok _) => Returns (fs, account_tags, category)
      end
  end.

(** The [try] block of the loop body, up to the write. *)
Definition prepare (video_id : string) (video_data : VideoData)
    (transcript : string) : outcome exn SavedTags :=
  tags <- KeywordExtractor.extract_video_tags kw_extract_keywords stop_words
            transcript 3%Z 10%Z 0.5%R ;;
  now <- call now_isoformat ;;
  Returns {| saved_video_id := video_id;
             saved_title := TopicExtractorV2.option_default "" (data_title video_data);
             saved_tags := tags;
             extracted_at := now |}.

(** The body of the loop over [processed_videos.items()]. *)
Definition process_video (state : FS * Results) (item : string * VideoData)
  : outcome exn (FS * Results) :=
  let fs := fst state in
  let results := snd state in
  let video_id := fst item in
  let video_data := snd item in
  if negb (success video_data) then Returns (fs, count results 0 1 0 [])
  else if andb (file_exists fs (TagsJson video_id)) (negb force)
  then
    existing_tags <- call (load_tags fs (TagsJson video_id)) ;;
    Returns (fs, count results 0 1 0 [existing_tags])
  else if negb (file_exists fs (TranscriptTxt video_id))
  then Returns (fs, count results 0 0 1 [])
  else
    content <- call (read_text fs (TranscriptTxt video_id)) ;;
    let transcript := transcript_of content in
    match prepare video_id video_data transcript with
    | Returns saved =>
        match dump_tags fs (TagsJson video_id) saved with
        | (fs', Ok _) => Returns (fs', count results 1 0 0 [tags_of saved])
        | (fs', Error _) => Returns (fs', count results 0 0 1 [])
        end
    | Raises _ => Returns (fs, count results 0 0 1 [])
    | OutOfFuel => OutOfFuel
    end.

Fixpoint process_videos (state : FS * Results)
    (items : list (string * VideoData)) : outcome exn (FS * Results) :=
  match items with
  | [] => Returns state
  | item :: rest =>
      state' <- process_video state item ;;
      process_videos state' rest
  end.

Definition extract_all_topics (fs : FS) : outcome exn (FS * Results) :=
  if negb (file_exists fs IndexJson) then Raises (file_not_found IndexJson)
  else
    index <- call (load_index fs) ;;
    let processed_videos :=
      TopicExtractorV2.option_default [] (processed_videos index) in
    let results :=
      {| username := user; total_videos := length processed_videos;
         extracted := 0; skipped := 0; failed := 0; video_tags := [] |} in
    state <- process_videos (fs, results) processed_videos ;;
    match video_tags (snd state) with
    | [] => Returns state
    | _ =>
        saved <- _generate_account_aggregations (fst state)
                   (video_tags (snd state)) (PyDict.values processed_videos) ;;
        Returns (fst (fst saved), snd state)
    end.

End Manager.
End AccountTopicManager.

(** ** [core/semantic_search/timestamp_extractor.py] *)
Module TimestampExtractor.
Import Outcome Outcome.Notations.
Local Open Scope string_scope.

(** One element of the list the extractor returns. *)
Record SentenceData := {
  sentence : string;
  start_time : R;
  end_time : R;
  duration : R;
  sentence_index : nat
}.

(** [re.sub(r'\s+', ' ', s)]: every run of white space becomes one blank;
    [in_run] tells whether the previous character was white space. *)
Fixpoint collapse_from (in_run : bool) (s : string) : string :=
  match s with
  | EmptyString => EmptyString
  | String c s' =>
      if PyStr.is_space c
      then if in_run then collapse_from true s'
           else String " " (collapse_from true s')
      else String c (collapse_from false s')
  end.

Definition collapse_whitespace (s : string) : string := collapse_from false s.

(** The characters of [[.!?]]. *)
Definition is_terminator (c : ascii) : bool :=
  orb (Ascii.eqb c ".") (orb (Ascii.eqb c "!") (Ascii.eqb c "?")).

(** [re.split(r'[.!?]+', s)]: the pieces between the runs of terminators;
    [in_run] tells whether the previous character was a terminator. *)
Fixpoint split_from (in_run : bool) (s : string) : list string :=
  match s with
  | EmptyString => [EmptyString]
  | String c s' =>
      if is_terminator c
      then if in_run then split_from true s'
           else EmptyString :: split_from true s'
      else match split_from false s' with
           | piece :: pieces => String c piece :: pieces
           | [] => [String c EmptyString]
           end
  end.

Definition _split_into_sentences (text : string) : list string :=
  let text := collapse_whitespace (PyStr.strip text) in
  let sentences := split_from false text in
  map PyStr.strip (filter (fun s => PyStr.truthy (PyStr.strip s)) sentences).

(** The loop of both estimators: it gives every sentence its duration,
    starting at [current_time] with index [i]. *)
Fixpoint run_clock (sentence_duration : string -> R) (i : nat)
    (current_time : R) (sentences : list string) : list SentenceData :=
  match sentences with
  | [] => []
  | s :: rest =>
      let d := sentence_duration s in
      {| sentence := s;
         start_time := current_time;
         end_time := (current_time + d)%R;
         duration := d;
         sentence_index := i |}
      :: run_clock sentence_duration (S i) (current_time + d)%R rest
  end.

(** [sum(len(s) for s in sentences)] *)
Definition total_chars (sentences : list string) : nat :=
  fold_right Nat.add 0 (map String.length sentences).

Section Extractor.
Variable exn : Type.
Variable zero_division : exn.

Definition _calculate_timestamps_with_duration (sentences : list string)
    (video_duration : R) : outcome exn (list SentenceData) :=
  match sentences with
  | [] => Returns []
  | _ =>
      let total_chars := total_chars sentences in
      if Nat.eqb total_chars 0 then Raises zero_division
      else
        Returns
          (run_clock
             (fun s => (INR (String.length s) / INR total_chars
                        * video_duration)%R)
             0 0.0%R sentences)
  end.

Definition _estimate_timestamps_by_length (sentences : list string)
  : list SentenceData :=
  match sentences with
  | [] => []
  | _ =>
      let words_per_second := (150 / 60)%R in
      run_clock
        (fun s =>
           (INR (length (KeywordExtractor.split_whitespace s))
            / words_per_second)%R)
        0 0.0%R sentences
  end.

(** [extract_sentence_timestamps]: [video_duration] is [None] when the
    argument is left out; a duration of 0 is not used either. *)
Definition extract_sentence_timestamps (transcript : string)
    (video_duration : option R) : outcome exn (list SentenceData) :=
  if orb (negb (PyStr.truthy transcript))
         (Nat.ltb (String.length (PyStr.strip transcript)) 50)
  then Returns []
  else
    let sentences := _split_into_sentences transcript in
    match video_duration with
    | Some d =>
        if Req_dec_T d 0 then Returns (_estimate_timestamps_by_length sentences)
        else _calculate_timestamps_with_duration sentences d
    | None => Returns (_estimate_timestamps_by_length sentences)
    end.

End Extractor.

(** [get_context_sentences]: [target_index] is the ["sentence_index"] of the
    target, 0 when the target has none. *)
Definition get_context_sentences {A} (sentences : list A) (target_index : Z)
    (context_size : Z) : list A :=
  let start_idx := Z.max 0 (target_index - context_size) in
  let end_idx :=
    Z.min (Z.of_nat (length sentences)) (target_index + context_size + 1) in
  skipn (Z.to_nat start_idx) (PyList.slice_to end_idx sentences).

(** What [_find_evidence] reads of an element: the keys ["sentence"],
    ["start_time"] and ["end_time"]; there is no ["text"]. *)
Definition as_sentence (d : SentenceData) : TopicExtractorV2.Sentence :=
  {| TopicExtractorV2.sent_text := None;
     TopicExtractorV2.sent_sentence := Some (sentence d);
     TopicExtractorV2.sent_start_time := Some (start_time d);
     TopicExtractorV2.sent_end_time := Some (end_time d) |}.

(** The entries follow one another without a gap from time [t] to time
    [t_end], each ending its duration after its start. *)
Fixpoint contiguous (t : R) (timestamps : list SentenceData) (t_end : R)
  : Prop :=
  match timestamps with
  | [] => t = t_end
  | d :: rest =>
      start_time d = t
      /\ end_time d = (start_time d + duration d)%R
      /\ contiguous (end_time d) rest t_end
  end.

End TimestampExtractor.

(** ** [timestamp_extractor.py]: the similarity of two texts *)
Module TextSimilarity.
Local Open Scope string_scope.

(** [set(text.lower().split())] *)
Definition words_of (text : string) : list string :=
  PyList.list_set (KeywordExtractor.split_whitespace (PyStr.lower text)).

(** [words1.intersection(words2)] and [words1.union(words2)] *)
Definition intersection (words1 words2 : list string) : list string :=
  filter (fun w => existsb (String.eqb w) words2) words1.

Definition union (words1 words2 : list string) : list string :=
  PyList.list_set (words1 ++ words2).

Definition _text_similarity (text1 text2 : string) : R :=
  let words1 := words_of text1 in
  let words2 := words_of text2 in
  match words1, words2 with
  | [], _ | _, [] => 0.0%R
  | _, _ =>
      match union words1 words2 with
      | [] => 0.0%R
      | _ => (INR (length (intersection words1 words2))
              / INR (length (union words1 words2)))%R
      end
  end.

End TextSimilarity.

(* ------------------------------------------------------------------ *)
(** * Part II: properties *)
(* ------------------------------------------------------------------ *)

Unset Implicit Arguments.

(** ** The Python helpers on small inputs *)
Module PyExamples.
Local Open Scope string_scope.

Example lower_mixed : PyStr.lower "Lucid Dreaming #1" = "lucid dreaming #1".
Proof. reflexivity. Qed.

Example strip_both_sides : PyStr.strip "  deep work " = "deep work".
Proof. reflexivity. Qed.

Example strip_blank : PyStr.strip "   " = "".
Proof. reflexivity. Qed.

Example contains_inside : PyStr.contains "dream" "lucid dreaming" = true.
Proof. reflexivity. Qed.

Example contains_absent : PyStr.contains "dreams" "lucid dreaming" = false.
Proof. reflexivity. Qed.

Example contains_empty : PyStr.contains "" "anything" = true.
Proof. reflexivity. Qed.

Example split_sentences :
  PyStr.split_char "." "One. Two." = ["One"; " Two"; ""].
Proof. reflexivity. Qed.

Example join_words : PyStr.join " " ["lucid"; "dreaming"] = "lucid dreaming".
Proof. reflexivity. Qed.

Example take_prefix : PyStr.take 3 "meditation" = "med".
Proof. reflexivity. Qed.

Example slice_to_positive : PyList.slice_to 2 [1; 2; 3] = [1; 2].
Proof. reflexivity. Qed.

Example slice_to_negative : PyList.slice_to (-1) [1; 2; 3] = [1; 2].
Proof. reflexivity. Qed.

Example list_set_distinct :
  PyList.list_set ["yoga"; "breath"; "yoga"] = ["breath"; "yoga"].
Proof. reflexivity. Qed.

Example dict_counter :
  PyDict.incr (PyDict.incr (PyDict.incr [] "yoga") "breath") "yoga"
  = [("yoga", 2%Z); ("breath", 1%Z)].
Proof. reflexivity. Qed.

Example groups_in_order :
  UmbrellaBuilder.group_by_label
    (UmbrellaBuilder.enumerate [1; 0; 1; 0; 2]%Z)
  = [(1%Z, [0; 2]); (0%Z, [1; 3]); (2%Z, [4])].
Proof. reflexivity. Qed.

Example edges_above_diagonal :
  UmbrellaBuilder.upper_edges [[0; 1; 0]; [1; 0; 1]; [0; 1; 0]]%Z
  = [(0, 1); (1, 2)].
Proof. reflexivity. Qed.

Example third_umbrella : UmbrellaBuilder.umbrella_name 2 = "umbrella_3".
Proof. reflexivity. Qed.

Example stop_phrase_match :
  TopicExtractorV2._is_stop_phrase ["thank you"; "link in bio"] " Thank You "
  = true.
Proof. reflexivity. Qed.

End PyExamples.

(** ** Rounding *)
Module RoundFacts.
Local Open Scope R_scope.

Lemma round_half_even_bounds (x : R) (lo hi : Z) :
  IZR lo <= x <= IZR hi ->
  (lo <= Np.round_half_even x <= hi)%Z.
Proof.
  intros [Hlo Hhi].
  unfold Np.round_half_even.
  destruct (base_Int_part x) as [Hf1 Hf2].
  set (f := Int_part x) in *.
  assert (Hlof : (lo <= f)%Z).
  { apply Z.lt_succ_r. apply lt_IZR. rewrite succ_IZR. lra. }
  assert (Hfhi : (f <= hi)%Z) by (apply le_IZR; lra).
  assert (Hstep : x - IZR f > 0 -> (f + 1 <= hi)%Z).
  { intros Hd. apply Z.le_succ_l. apply lt_IZR. lra. }
  destruct (Rlt_dec (x - IZR f) (1 / 2)); [lia|].
  destruct (Rlt_dec (1 / 2) (x - IZR f)).
  - assert (f + 1 <= hi)%Z by (apply Hstep; lra). lia.
  - destruct (Z.even f); [lia|].
    assert (f + 1 <= hi)%Z by (apply Hstep; lra). lia.
Qed.

Lemma round3_unit_interval (x : R) :
  0 <= x <= 1 -> 0 <= Np.round x 3 <= 1.
Proof.
  intros Hx. unfold Np.round.
  assert (H1000 : 10 ^ 3 = 1000) by (simpl; lra).
  rewrite H1000.
  destruct (round_half_even_bounds (x * 1000) 0 1000) as [Ha Hb].
  { split; lra. }
  apply IZR_le in Ha. apply IZR_le in Hb.
  split.
  - apply Rmult_le_reg_r with 1000; [lra|].
    unfold Rdiv. rewrite Rmult_assoc, Rinv_l by lra. lra.
  - apply Rmult_le_reg_r with 1000; [lra|].
    unfold Rdiv. rewrite Rmult_assoc, Rinv_l by lra. lra.
Qed.

End RoundFacts.

(** ** The confidence calibrator *)
Module ConfidenceFacts.
Import Confidence ConfidenceSpec.
Local Open Scope R_scope.

Lemma clamp_unit (x : R) : clamp x 0 1 = Rmax 0 (Rmin 1 x).
Proof.
  unfold clamp, Rmin, Rmax.
  repeat (destruct (Rle_dec _ _)); lra.
Qed.

Lemma clamp_unit_range (x : R) : 0 <= clamp x 0 1 <= 1.
Proof.
  unfold clamp, Rmin, Rmax.
  repeat (destruct (Rle_dec _ _)); lra.
Qed.

Lemma evidence_boost_nonneg (n : Z) :
  (0 <= n)%Z -> 0 <= Rmin 0.3 (ln (1 + IZR n) / 10).
Proof.
  intros Hn. apply IZR_le in Hn.
  assert (Hln : 0 <= ln (1 + IZR n)).
  { rewrite <- ln_1. destruct (Req_dec (IZR n) 0) as [E|E].
    - rewrite E, Rplus_0_r. lra.
    - left. apply ln_increasing; lra. }
  unfold Rmin. destruct (Rle_dec _ _); lra.
Qed.

Lemma compute_confidence_spec (mmr_score : R) (evidence_count : Z) :
  _compute_confidence mmr_score evidence_count
  = confidence_formula mmr_score evidence_count.
Proof.
  unfold _compute_confidence, confidence_formula, Np.log1p.
  rewrite clamp_unit. replace 1.0 with 1 by lra. reflexivity.
Qed.

Lemma compute_confidence_range (mmr_score : R) (evidence_count : Z) :
  (0 <= evidence_count)%Z ->
  0 <= _compute_confidence mmr_score evidence_count <= 1.
Proof.
  intros Hn. rewrite compute_confidence_spec. unfold confidence_formula.
  apply RoundFacts.round3_unit_interval.
  pose proof (clamp_unit_range ((mmr_score + 0.5) / 1.2)) as Hc.
  pose proof (evidence_boost_nonneg _ Hn) as Hb.
  split; [apply Rmin_glb; lra | apply Rmin_l].
Qed.

(** C1.  For every real [mmr_score] and every [evidence_count >= 0] the
    calibrator returns
    [round(min(1.0, clamp((mmr_score + 0.5) / 1.2, 0, 1)
                    + min(0.3, ln(1 + evidence_count) / 10)), 3)],
    and that value lies in [[0, 1]], for a negative [mmr_score] and for zero
    evidence too. *)
Theorem compute_confidence_formula_and_range (mmr_score : R) (evidence_count : Z) :
  (0 <= evidence_count)%Z ->
  _compute_confidence mmr_score evidence_count
    = confidence_formula mmr_score evidence_count
  /\ 0 <= _compute_confidence mmr_score evidence_count <= 1.
Proof.
  intros Hn. split.
  - apply compute_confidence_spec.
  - now apply compute_confidence_range.
Qed.

(** The calibrator at a negative score with no evidence. *)
Lemma compute_confidence_formula_and_range_witness :
  _compute_confidence (-2) 0 = confidence_formula (-2) 0
  /\ 0 <= _compute_confidence (-2) 0 <= 1.
Proof.
  apply (compute_confidence_formula_and_range (-2) 0). lia.
Defined.

End ConfidenceFacts.

(** ** Strings: [lower] and [strip] *)
Module PyStrFacts.
Import PyStr.
Local Open Scope string_scope.

Ltac all_chars c := destruct c as [[] [] [] [] [] [] [] []]; reflexivity.

Lemma lower_char_idem (c : ascii) : lower_char (lower_char c) = lower_char c.
Proof. all_chars c. Qed.

Lemma is_space_lower_char (c : ascii) : is_space (lower_char c) = is_space c.
Proof. all_chars c. Qed.

Lemma lower_idem (s : string) : lower (lower s) = lower s.
Proof.
  induction s as [|c s IH]; simpl; [reflexivity|].
  now rewrite lower_char_idem, IH.
Qed.

Lemma lower_lstrip (s : string) : lower (lstrip s) = lstrip (lower s).
Proof.
  induction s as [|c s IH]; simpl; [reflexivity|].
  rewrite is_space_lower_char.
  destruct (is_space c); [exact IH | reflexivity].
Qed.

Lemma lower_rstrip (s : string) : lower (rstrip s) = rstrip (lower s).
Proof.
  induction s as [|c s IH]; simpl; [reflexivity|].
  rewrite <- IH, is_space_lower_char.
  destruct (rstrip s) as [|d r]; simpl.
  - destruct (is_space c); reflexivity.
  - reflexivity.
Qed.

Lemma lower_strip (s : string) : lower (strip s) = strip (lower s).
Proof. unfold strip. now rewrite lower_rstrip, lower_lstrip. Qed.

Lemma rstrip_idem (s : string) : rstrip (rstrip s) = rstrip s.
Proof.
  induction s as [|c s IH]; simpl; [reflexivity|].
  destruct (rstrip s) as [|d r] eqn:E.
  - destruct (is_space c) eqn:Ec; simpl; [reflexivity|].
    now rewrite Ec.
  - change (rstrip (String c (String d r)))
      with (match rstrip (String d r) with
            | EmptyString => if is_space c then EmptyString else String c EmptyString
            | r' => String c r'
            end).
    now rewrite IH.
Qed.

Lemma lstrip_headed (s : string) : headed (lstrip s).
Proof.
  induction s as [|c s IH]; simpl; [exact I|].
  destruct (is_space c) eqn:E; [exact IH | exact E].
Qed.

Lemma lstrip_of_headed (s : string) : headed s -> lstrip s = s.
Proof. destruct s as [|c s]; simpl; [reflexivity|]. now intros ->. Qed.

Lemma rstrip_headed (s : string) : headed s -> headed (rstrip s).
Proof.
  destruct s as [|c s]; simpl; [trivial|]. intros Hc.
  destruct (rstrip s); [rewrite Hc|]; exact Hc.
Qed.

Lemma strip_idem (s : string) : strip (strip s) = strip s.
Proof.
  unfold strip.
  rewrite (lstrip_of_headed _ (rstrip_headed _ (lstrip_headed s))).
  apply rstrip_idem.
Qed.

(** [x.lower().strip()] is a normal form. *)
Lemma normalize_idem (s : string) :
  strip (lower (strip (lower s))) = strip (lower s).
Proof. now rewrite lower_strip, lower_idem, strip_idem. Qed.

End PyStrFacts.

(** ** Canonicalization *)
Module CanonicalizeFacts.
Import TopicExtractorV2 PyStr CanonicalTables.
Local Open Scope string_scope.

Lemma canonicalize_lookup (cm : CanonicalMap) (x : string) :
  _canonicalize cm x
  = match PyDict.get (rules_of cm) (strip (lower x)) with
    | Some c => c
    | None => strip (lower x)
    end.
Proof. reflexivity. Qed.

(** C4, the claim as stated fails: with the table [{"a": "b", "b": "c"}],
    canonicalizing "a" gives "b" and canonicalizing that gives "c"; with the
    table [{"ml": "Machine Learning"}], canonicalizing "ml" gives
    "Machine Learning" and canonicalizing that gives "machine learning". *)
Lemma canonicalize_not_idempotent_chained :
  (_canonicalize chained_rules "a" = "b"
   /\ _canonicalize chained_rules (_canonicalize chained_rules "a") = "c"
   /\ _canonicalize chained_rules (_canonicalize chained_rules "a")
      <> _canonicalize chained_rules "a")
  /\ (_canonicalize capitalized_rules "ml" = "Machine Learning"
      /\ _canonicalize capitalized_rules (_canonicalize capitalized_rules "ml")
         = "machine learning"
      /\ _canonicalize capitalized_rules (_canonicalize capitalized_rules "ml")
         <> _canonicalize capitalized_rules "ml").
Proof. repeat split; discriminate. Qed.

(** C4, amended.  [canonicalize] lower-cases and strips the phrase and returns
    the merge-table entry if there is one, else the normalized phrase; it is
    idempotent for every input whenever every value of the merge table is
    itself lower-cased and stripped and is not re-mapped by the table to
    another phrase. *)
Theorem canonicalize_idempotent_closed_table (cm : CanonicalMap) (x : string) :
  values_canonical cm ->
  _canonicalize cm x
  = match PyDict.get (rules_of cm) (strip (lower x)) with
    | Some c => c
    | None => strip (lower x)
    end
  /\ _canonicalize cm (_canonicalize cm x) = _canonicalize cm x.
Proof.
  intros Hcm. split; [reflexivity|].
  rewrite (canonicalize_lookup cm x).
  destruct (PyDict.get (rules_of cm) (strip (lower x))) as [v|] eqn:Hx.
  - destruct (Hcm _ _ Hx) as [Hnorm Hv].
    rewrite canonicalize_lookup, Hnorm.
    destruct Hv as [-> | ->]; reflexivity.
  - rewrite canonicalize_lookup, PyStrFacts.normalize_idem, Hx. reflexivity.
Qed.

Lemma one_rule_values_canonical : values_canonical one_rule.
Proof.
  intros k v. unfold one_rule, rules_of. simpl.
  destruct (String.eqb k "ai"); [|discriminate].
  intros [= <-]. split; [reflexivity | left; reflexivity].
Qed.

Lemma canonicalize_idempotent_closed_table_witness :
  _canonicalize one_rule " AI " = "artificial intelligence"
  /\ _canonicalize one_rule (_canonicalize one_rule " AI ")
     = _canonicalize one_rule " AI ".
Proof.
  split; [reflexivity|].
  exact (proj2 (canonicalize_idempotent_closed_table one_rule " AI " one_rule_values_canonical)).
Defined.

End CanonicalizeFacts.

(** ** Candidate extraction *)
Module CandidateFacts.
Import TopicExtractorV2 Outcome SampleVideos.
Local Open Scope string_scope.

(** Every phrase taken from a noun chunk has more than two characters. *)
Lemma chunk_phrases_long (doc : Doc) (p : string * nat * nat) :
  ents doc = [] ->
  In p (noun_phrases_of doc) -> 3 <= String.length (fst (fst p)).
Proof.
  intros He. unfold noun_phrases_of. rewrite He. simpl. rewrite app_nil_r.
  rewrite in_flat_map. intros [chunk [_ Hin]].
  destruct (PyStr.truthy (chunk_phrase chunk)); simpl in Hin; [|contradiction].
  destruct (Nat.ltb 2 (String.length (chunk_phrase chunk))) eqn:E; [|contradiction].
  destruct Hin as [<- | []]. simpl. apply Nat.ltb_lt in E. lia.
Qed.

(** C5.  The entity path emits its phrase without the length test of the
    noun-chunk path: for "We moved to the UK." the noun chunk "the UK" is
    dropped as the two-character phrase "uk", and the entity "UK" is returned
    as the two-character candidate "uk". *)
Theorem extract_noun_phrases_short_entity :
  _extract_noun_phrases (fun _ : string => @Ok unit Doc uk_doc)
                        "We moved to the UK."
  = Returns [("uk", 16, 18)]
  /\ String.length "uk" = 2.
Proof. split; reflexivity. Qed.

End CandidateFacts.

(** ** Maximum selection and sorting over the reals *)
Module VecFacts.
Import Vec.
Local Open Scope R_scope.

Lemma max_by_in {A} (key : A -> R) (l : list A) (best : A) :
  In (max_by key best l) (best :: l).
Proof.
  revert best. induction l as [|x l IH]; intros best; simpl; [now left|].
  destruct (IH (if Rlt_dec (key best) (key x) then x else best)) as [H|H].
  - destruct (Rlt_dec (key best) (key x)); rewrite <- H; auto.
  - auto.
Qed.

Lemma max_by_lower {A} (key : A -> R) (l : list A) (best : A) :
  key best <= key (max_by key best l).
Proof.
  revert best. induction l as [|x l IH]; intros best; simpl; [lra|].
  specialize (IH (if Rlt_dec (key best) (key x) then x else best)).
  destruct (Rlt_dec (key best) (key x)); lra.
Qed.

Lemma max_by_greatest {A} (key : A -> R) (l : list A) (best x : A) :
  In x (best :: l) -> key x <= key (max_by key best l).
Proof.
  revert best. induction l as [|y l IH]; intros best [<-|Hin].
  - simpl. lra.
  - destruct Hin.
  - apply max_by_lower.
  - simpl. destruct Hin as [<-|Hin].
    + pose proof (max_by_lower key l (if Rlt_dec (key best) (key y) then y else best)) as H.
      destruct (Rlt_dec (key best) (key y)); lra.
    + apply IH. now right.
Qed.

Lemma max_of_fold_right (x : R) (l : list R) :
  max_of x l = fold_right Rmax x l.
Proof.
  unfold max_of. apply fold_symmetric.
  - intros a b c. apply Rmax_assoc.
  - intros b. apply Rmax_comm.
Qed.

Lemma insert_desc_perm {A} (key : A -> R) (x : A) (l : list A) :
  Permutation (x :: l) (insert_desc key x l).
Proof.
  induction l as [|y l IH]; simpl; [reflexivity|].
  destruct (Rle_dec (key y) (key x)); [reflexivity|].
  rewrite perm_swap. now apply perm_skip.
Qed.

Lemma sort_desc_perm {A} (key : A -> R) (l : list A) :
  Permutation l (sort_desc key l).
Proof.
  induction l as [|x l IH]; simpl; [reflexivity|].
  rewrite <- insert_desc_perm. now apply perm_skip.
Qed.

Lemma sort_desc_in {A} (key : A -> R) (l : list A) (x : A) :
  In x (sort_desc key l) <-> In x l.
Proof.
  split; intros H.
  - apply Permutation_in with (sort_desc key l); [|exact H].
    symmetry. apply sort_desc_perm.
  - apply Permutation_in with l; [|exact H]. apply sort_desc_perm.
Qed.

End VecFacts.

Module PyListFacts.

Lemma firstn_in {A} (n : nat) (l : list A) (x : A) :
  In x (firstn n l) -> In x l.
Proof.
  revert l. induction n as [|n IH]; intros [|y l]; simpl; try tauto.
  intros [H|H]; [now left | right; now apply IH].
Qed.

Lemma slice_to_in {A} (n : Z) (l : list A) (x : A) :
  In x (PyList.slice_to n l) -> In x l.
Proof.
  unfold PyList.slice_to. destruct (n <? 0)%Z; apply firstn_in.
Qed.

End PyListFacts.

(** ** MMR selection *)
Module MmrFacts.
Import TopicExtractorV2 Outcome MmrSpec MmrInvariant.

Lemma remove_first_spec (i : nat) (l : list nat) :
  In i l -> NoDup l ->
  (forall j, In j (remove_first i l) <-> In j l /\ j <> i)
  /\ NoDup (remove_first i l)
  /\ S (length (remove_first i l)) = length l.
Proof.
  induction l as [|y l IH]; intros Hin Hnd; [destruct Hin|].
  inversion Hnd as [|? ? Hy Hl]; subst. simpl.
  destruct (Nat.eqb i y) eqn:E.
  - apply Nat.eqb_eq in E. subst y. split; [|split]; auto.
    intros j. split.
    + intros Hj. split; [now right|]. intros ->. contradiction.
    + intros [[->|Hj] Hne]; [congruence | exact Hj].
  - apply Nat.eqb_neq in E. destruct Hin as [->|Hin]; [congruence|].
    destruct (IH Hin Hl) as (Hmem & Hnd' & Hlen). split; [|split].
    + intros j. split.
      * intros [->|Hj]; [split; [now left | congruence]|].
        apply Hmem in Hj. split; [right|]; tauto.
      * intros [[->|Hj] Hne]; [now left|]. right. apply Hmem. tauto.
    + constructor; [|exact Hnd']. intros Hy'. apply Hmem in Hy'. tauto.
    + simpl. now rewrite Hlen.
Qed.

Section Loop.
Variable candidates : list string.
Variable embs : list Vec.vec.
Variable doc : Vec.vec.
Variable lambda : R.
Variable top_n : Z.

Local Abbreviation step := (mmr_step candidates embs doc lambda top_n).
Local Abbreviation obj := (objective embs doc lambda).
Local Abbreviation bound := (Z.max 0 (Z.min top_n (Z.of_nat (length candidates)))).

Lemma mmr_of_objective (picks : list nat) (idx : nat) :
  mmr_of embs doc lambda (map (embedding embs) picks) idx = obj picks idx.
Proof.
  unfold mmr_of, objective, relevance, max_redundancy.
  fold (embedding embs idx).
  destruct picks as [|p ps]; simpl; [reflexivity|].
  rewrite VecFacts.max_of_fold_right. do 2 f_equal.
  induction ps as [|q ps IH]; simpl; [reflexivity|]. now rewrite IH.
Qed.

Lemma scored_length (prev picks : list nat) :
  length (scored candidates embs doc lambda prev picks) = length picks.
Proof.
  revert prev. induction picks as [|i l IH]; intros prev; simpl; auto.
Qed.

Lemma scored_snoc (prev l : list nat) (i : nat) :
  scored candidates embs doc lambda prev (l ++ [i])
  = scored candidates embs doc lambda prev l
      ++ [(nth i candidates EmptyString, obj (prev ++ l) i)].
Proof.
  revert prev. induction l as [|k l IH]; intros prev; simpl.
  - now rewrite app_nil_r.
  - rewrite IH, <- app_assoc. reflexivity.
Qed.

Lemma scored_phrases (prev picks : list nat) :
  map fst (scored candidates embs doc lambda prev picks)
  = map (fun i => nth i candidates EmptyString) picks.
Proof.
  revert prev. induction picks as [|i l IH]; intros prev; simpl; [reflexivity|].
  now rewrite IH.
Qed.

Lemma greedy_snoc (prev l : list nat) (i : nat) :
  greedy candidates embs doc lambda prev l ->
  i < length candidates ->
  ~ In i (prev ++ l) ->
  (forall j, j < length candidates -> ~ In j (prev ++ l) ->
             (obj (prev ++ l) j <= obj (prev ++ l) i)%R) ->
  greedy candidates embs doc lambda prev (l ++ [i]).
Proof.
  induction 1 as [prev | prev k rest Hk Hnk Hmax Hrest IH]; intros Hi Hni Hbest.
  - rewrite app_nil_r in *. simpl. constructor; auto. constructor.
  - simpl. constructor; auto.
    rewrite <- app_assoc in IH. simpl in IH. apply IH; auto.
Qed.

Lemma greedy_nodup (prev l : list nat) :
  greedy candidates embs doc lambda prev l ->
  NoDup prev -> NoDup (prev ++ l) /\ Forall (fun i => i < length candidates) l.
Proof.
  induction 1 as [prev | prev k rest Hk Hnk Hmax Hrest IH]; intros Hnd.
  - rewrite app_nil_r. auto.
  - destruct IH as [IH1 IH2].
    + apply NoDup_app; auto.
      * constructor; [intros []|constructor].
      * intros x Hx [<-|[]]. contradiction.
    + rewrite <- app_assoc in IH1. simpl in IH1. auto.
Qed.

Local Abbreviation Inv := (MmrInvariant.Inv candidates embs doc lambda top_n).

Lemma inv_init : Inv [] (mmr_init candidates).
Proof.
  constructor; simpl; auto.
  - intros j. rewrite in_seq. intuition lia.
  - apply seq_NoDup.
  - constructor.
  - lia.
Qed.

Lemma step_inv (picks : list nat) (st st' : MmrState) :
  Inv picks st -> step st = Some st' ->
  exists i, Inv (picks ++ [i]) st'
            /\ S (length (remaining st')) = length (remaining st).
Proof.
  intros [Hsel Hemb Hrem Hnd Hgr Hb] Hstep.
  unfold mmr_step in Hstep.
  destruct (Z.ltb _ _) eqn:Hlt; [|discriminate].
  apply Z.ltb_lt in Hlt.
  rewrite Hsel, scored_length in Hlt.
  set (f := fun idx => (idx, mmr_of embs doc lambda (selected_embeddings st) idx)) in *.
  destruct (map f (remaining st)) as [|s0 ss] eqn:Hmap; [discriminate|].
  injection Hstep as <-. simpl.
  pose proof (VecFacts.max_by_in snd ss s0) as Hin.
  rewrite <- Hmap in Hin. apply in_map_iff in Hin.
  destruct Hin as (i & Hbest & Hi).
  assert (Hmax : forall j, In j (remaining st) ->
                           (obj picks j <= obj picks i)%R).
  { intros j Hj.
    assert (Hfj : In (f j) (s0 :: ss)) by (rewrite <- Hmap; now apply in_map).
    apply (VecFacts.max_by_greatest snd ss s0) in Hfj.
    rewrite <- Hbest in Hfj. unfold f in Hfj. simpl in Hfj.
    rewrite Hemb, !mmr_of_objective in Hfj. exact Hfj. }
  rewrite <- Hbest. unfold f at 1 2 3 4. simpl.
  destruct (remove_first_spec _ _ Hi Hnd) as (Hmem & Hnd' & Hlen).
  pose proof (proj1 (Hrem i) Hi) as [Hilt Hinot].
  exists i. split; [|exact Hlen].
  constructor; simpl.
  - rewrite scored_snoc, Hsel, Hemb, mmr_of_objective. reflexivity.
  - rewrite Hemb, map_app. reflexivity.
  - intros j. rewrite Hmem, Hrem, in_app_iff. simpl. intuition.
  - exact Hnd'.
  - apply greedy_snoc; simpl; auto.
    intros j Hj Hnj. apply Hmax. apply Hrem. auto.
  - rewrite length_app. simpl. lia.
Qed.

Lemma exit_count (picks : list nat) (st : MmrState) :
  Inv picks st -> step st = None -> Z.of_nat (length picks) = bound.
Proof.
  intros [Hsel Hemb Hrem Hnd Hgr Hb] Hstep.
  unfold mmr_step in Hstep.
  destruct (Z.ltb _ _) eqn:Hlt.
  - apply Z.ltb_lt in Hlt. rewrite Hsel, scored_length in Hlt.
    destruct (remaining st) as [|r0 rs] eqn:Hr; [|discriminate].
    exfalso.
    assert (Hall : incl (seq 0 (length candidates)) picks).
    { intros j Hj. apply in_seq in Hj.
      destruct (in_dec Nat.eq_dec j picks) as [|Hn]; [assumption|].
      destruct (proj2 (Hrem j)); [split; [lia | exact Hn]]. }
    apply NoDup_incl_length in Hall; [|apply seq_NoDup].
    rewrite length_seq in Hall. lia.
  - apply Z.ltb_ge in Hlt. rewrite Hsel, scored_length in Hlt. lia.
Qed.

Lemma while_returns (exn : Type) (fuel : nat) :
  forall st picks,
    Inv picks st -> length (remaining st) <= fuel ->
    exists st' picks',
      @while exn _ step fuel st = Returns st'
      /\ Inv picks' st' /\ step st' = None.
Proof.
  induction fuel as [|fuel IH]; intros st picks Hinv Hlen; simpl.
  - destruct (step st) as [st'|] eqn:Hstep.
    + destruct (step_inv _ _ _ Hinv Hstep) as (i & _ & Hdec). lia.
    + eauto.
  - destruct (step st) as [st'|] eqn:Hstep.
    + destruct (step_inv _ _ _ Hinv Hstep) as (i & Hinv' & Hdec).
      apply (IH st' (picks ++ [i])); [exact Hinv' | lia].
    + eauto.
Qed.

End Loop.

Section Selection.
Variable exn : Type.
Variable st_encode : string -> result exn Vec.vec.

(** A run of [_compute_mmr] whose encoder call returns: the loop ends within
    its bound, with a greedy run of picks. *)
Lemma compute_mmr_run
    (candidates : list string) (doc : Vec.vec) (lambda : R) (top_n : Z)
    (embs : list Vec.vec) :
  encode_all st_encode candidates = Returns embs ->
  exists picks,
    _compute_mmr st_encode candidates doc lambda top_n
      = Returns (scored candidates embs doc lambda [] picks)
    /\ greedy candidates embs doc lambda [] picks
    /\ Z.of_nat (length picks)
       = Z.max 0 (Z.min top_n (Z.of_nat (length candidates))).
Proof.
  intros Henc. destruct candidates as [|c cs].
  - exists []. repeat split; [constructor | simpl; lia].
  - unfold _compute_mmr. rewrite Henc. cbn [bind].
    destruct (while_returns (c :: cs) embs doc lambda top_n exn
                (length (c :: cs)) (mmr_init (c :: cs)) []
                (inv_init (c :: cs) embs doc lambda top_n))
      as (st' & picks & Hw & Hinv & Hexit).
    { unfold mmr_init, remaining. rewrite length_seq. lia. }
    rewrite Hw. cbn [bind]. exists picks.
    rewrite (inv_selected _ _ _ _ _ _ _ Hinv).
    repeat split.
    + exact (inv_greedy _ _ _ _ _ _ _ Hinv).
    + exact (exit_count _ _ _ _ _ _ _ Hinv Hexit).
Qed.

Lemma encode_all_total (candidates : list string) :
  encode_all st_encode candidates <> OutOfFuel.
Proof.
  unfold encode_all.
  induction candidates as [|c cs IH]; simpl; [discriminate|].
  destruct (st_encode c); simpl; [|discriminate].
  destruct (map_m _ cs); simpl; [discriminate | discriminate | exact IH].
Qed.

(** [_compute_mmr] returns or raises: its loop never uses its bound up. *)
Lemma compute_mmr_total
    (candidates : list string) (doc : Vec.vec) (lambda : R) (top_n : Z) :
  _compute_mmr st_encode candidates doc lambda top_n <> OutOfFuel.
Proof.
  destruct (encode_all st_encode candidates) as [embs|e|] eqn:Henc.
  - destruct (compute_mmr_run candidates doc lambda top_n embs Henc)
      as (picks & -> & _). discriminate.
  - destruct candidates; [discriminate|].
    unfold _compute_mmr. rewrite Henc. discriminate.
  - now apply encode_all_total in Henc.
Qed.

(** C2.  When the encoder returns the candidates' embeddings, [_compute_mmr]
    returns the (phrase, score) pairs of a run of picks that
    - is greedy: each pick is a candidate not picked before, and its score
      [lambda * relevance - (1 - lambda) * max_redundancy] is the largest
      among the candidates not picked before;
    - never holds the same candidate twice;
    - has [min(N, number of candidates)] picks (none for a negative [N]), so
      at most [N];
    and the phrases returned are distinct when the candidate phrases are. *)
Theorem compute_mmr_greedy_selection
    (candidates : list string) (doc : Vec.vec) (lambda : R) (top_n : Z)
    (embs : list Vec.vec) :
  encode_all st_encode candidates = Returns embs ->
  exists picks,
    _compute_mmr st_encode candidates doc lambda top_n
      = Returns (scored candidates embs doc lambda [] picks)
    /\ greedy candidates embs doc lambda [] picks
    /\ NoDup picks
    /\ Z.of_nat (length picks)
       = Z.max 0 (Z.min top_n (Z.of_nat (length candidates)))
    /\ ((0 <= top_n)%Z ->
        (Z.of_nat (length (scored candidates embs doc lambda [] picks)) <= top_n)%Z)
    /\ (NoDup candidates ->
        NoDup (map fst (scored candidates embs doc lambda [] picks))).
Proof.
  intros Henc.
  destruct (compute_mmr_run candidates doc lambda top_n embs Henc)
    as (picks & Hret & Hgr & Hlen).
  destruct (greedy_nodup _ _ _ _ _ _ Hgr (NoDup_nil nat)) as [Hnd Hlt].
  simpl in Hnd.
  exists picks. repeat split; auto.
  - rewrite scored_length. lia.
  - intros Hcand. rewrite scored_phrases.
    apply Finite.Injective_map_NoDup_in; [|exact Hnd].
    intros x y Hx Hy. rewrite Forall_forall in Hlt.
    apply (proj1 (NoDup_nth candidates EmptyString) Hcand); auto.
Qed.

End Selection.

(** Two candidates, one embedding for both, one pick asked for. *)
Lemma compute_mmr_greedy_selection_witness :
  exists picks,
    _compute_mmr (fun _ : string => @Ok unit Vec.vec [1%R])
                 ["yoga"; "breath"]%string [1%R] 0.7%R 1
      = Returns (scored ["yoga"; "breath"]%string [[1%R]; [1%R]] [1%R] 0.7%R [] picks)
    /\ greedy ["yoga"; "breath"]%string [[1%R]; [1%R]] [1%R] 0.7%R [] picks
    /\ NoDup picks
    /\ Z.of_nat (length picks) = 1%Z.
Proof.
  destruct (compute_mmr_greedy_selection unit
              (fun _ : string => Ok [1%R])
              ["yoga"; "breath"]%string [1%R] 0.7%R 1 [[1%R]; [1%R]] eq_refl)
    as (picks & H1 & H2 & H3 & H4 & _).
  exists picks. repeat split; assumption.
Defined.

End MmrFacts.

(** ** The per-video assembler *)
Module VideoFacts.
Import TopicExtractorV2 Outcome SampleVideos.
Local Open Scope string_scope.

Section Assembler.
Variable exn : Type.
Variable nlp : string -> result exn Doc.
Variable st_encode : string -> result exn Vec.vec.
Variable stop_phrases : list string.
Variable canonical_map : CanonicalMap.

Local Abbreviation body :=
  (extract_body nlp st_encode stop_phrases canonical_map).
Local Abbreviation extract :=
  (extract_video_topics_enhanced nlp st_encode stop_phrases canonical_map).

(** The [try] block returns or raises. *)
Lemma extract_body_total transcript sentence_timestamps title hashtags
    lambda_param max_topics min_confidence :
  body transcript sentence_timestamps title hashtags
       lambda_param max_topics min_confidence <> OutOfFuel.
Proof.
  unfold extract_body, _extract_noun_phrases.
  destruct (nlp transcript) as [doc|e]; cbn [bind call]; [|discriminate].
  destruct (PyList.list_set _) as [|c cs]; [discriminate|].
  destruct (st_encode transcript) as [emb|e]; cbn [bind call]; [|discriminate].
  destruct (_compute_mmr st_encode _ _ _ _) eqn:Hm; cbn [bind]; try discriminate.
  now apply MmrFacts.compute_mmr_total in Hm.
Qed.

(** What the [try] block returns was built by the loop over the picks. *)
Lemma extract_body_topics transcript sentence_timestamps title hashtags
    lambda_param max_topics min_confidence topics topic :
  body transcript sentence_timestamps title hashtags
       lambda_param max_topics min_confidence = Returns topics ->
  In topic topics ->
  exists phrase mmr_score,
    build_topic canonical_map transcript sentence_timestamps title hashtags
                min_confidence phrase mmr_score = Some topic.
Proof.
  unfold extract_body, _extract_noun_phrases.
  destruct (nlp transcript) as [doc|e]; cbn [bind call]; [|discriminate].
  destruct (PyList.list_set _) as [|c cs].
  { intros [= <-] []. }
  destruct (st_encode transcript) as [emb|e]; cbn [bind call]; [|discriminate].
  destruct (_compute_mmr st_encode _ _ _ _) as [sel|e|]; cbn [bind]; try discriminate.
  intros [= <-] Hin.
  apply PyListFacts.slice_to_in, VecFacts.sort_desc_in, in_flat_map in Hin.
  destruct Hin as (pick & _ & Hin).
  exists (fst pick), (snd pick).
  destruct (build_topic _ _ _ _ _ _ _ _) as [t|]; [|destruct Hin].
  destruct Hin as [->|[]]. reflexivity.
Qed.

Lemma topic_sources_shape title hashtags phrase :
  exists rest,
    topic_sources title hashtags phrase = "transcript" :: rest
    /\ incl rest ["title"; "hashtag"].
Proof.
  unfold topic_sources. eexists. split; [reflexivity|].
  intros s Hs. apply in_app_or in Hs.
  destruct Hs as [Hs|Hs];
    [destruct (andb _ _) | destruct (existsb _ _)]; simpl in *; tauto.
Qed.

Lemma build_topic_sources transcript sentence_timestamps title hashtags
    min_confidence phrase mmr_score topic :
  build_topic canonical_map transcript sentence_timestamps title hashtags
              min_confidence phrase mmr_score = Some topic ->
  sources topic = topic_sources title hashtags phrase
  /\ source topic = "transcript".
Proof.
  unfold build_topic.
  destruct (Rlt_dec mmr_score _); [discriminate|].
  destruct (Rlt_dec _ min_confidence); [discriminate|].
  intros [= <-]. split; reflexivity.
Qed.

(** The assembler returns: the empty list, or what its [try] block returned. *)
Lemma extract_cases transcript sentence_timestamps title hashtags video_id
    lambda_param max_topics min_confidence :
  extract transcript sentence_timestamps title hashtags video_id
          lambda_param max_topics min_confidence = Returns []
  \/ exists topics,
       body transcript sentence_timestamps title (or_empty hashtags)
            lambda_param max_topics min_confidence = Returns topics
       /\ extract transcript sentence_timestamps title hashtags video_id
                  lambda_param max_topics min_confidence = Returns topics.
Proof.
  unfold extract_video_topics_enhanced.
  destruct (orb _ _); [now left|].
  pose proof (extract_body_total transcript sentence_timestamps title
                (or_empty hashtags) lambda_param max_topics min_confidence) as Htot.
  destruct (extract_body _ _ _ _ _ _ _ _ _ _ _) as [topics|e|]; cbn [try_except].
  - right. now exists topics.
  - now left.
  - contradiction.
Qed.

(** C3.  Per-video extraction never raises: it always returns a topic list;
    the list is empty for a transcript that is empty or shorter than 50
    characters, and it is empty whenever candidate extraction, selection,
    evidence linking or confidence computation raised. *)
Theorem extract_video_topics_never_raises transcript sentence_timestamps title
    hashtags video_id lambda_param max_topics min_confidence :
  (exists topics,
      extract_video_topics_enhanced nlp st_encode stop_phrases canonical_map
        transcript sentence_timestamps title hashtags video_id
              lambda_param max_topics min_confidence = Returns topics)
  /\ (String.length transcript < 50 ->
      extract_video_topics_enhanced nlp st_encode stop_phrases canonical_map
        transcript sentence_timestamps title hashtags video_id
              lambda_param max_topics min_confidence = Returns [])
  /\ (forall e,
        extract_body nlp st_encode stop_phrases canonical_map
          transcript sentence_timestamps title (or_empty hashtags)
             lambda_param max_topics min_confidence = Raises e ->
        extract_video_topics_enhanced nlp st_encode stop_phrases canonical_map
        transcript sentence_timestamps title hashtags video_id
                lambda_param max_topics min_confidence = Returns []).
Proof.
  split; [|split].
  - destruct (extract_cases transcript sentence_timestamps title hashtags video_id
                lambda_param max_topics min_confidence) as [H|(topics & _ & H)];
      eauto.
  - intros Hshort. unfold extract_video_topics_enhanced.
    apply Nat.ltb_lt in Hshort. rewrite Hshort, orb_true_r. reflexivity.
  - intros e He. unfold extract_video_topics_enhanced.
    destruct (orb _ _); [reflexivity|]. rewrite He. reflexivity.
Qed.

(** C10.  Every topic that per-video extraction returns lists "transcript" as
    the first of its sources, anything after it is "title" or "hashtag", and
    its primary source is "transcript". *)
Theorem topics_list_transcript_first transcript sentence_timestamps title
    hashtags video_id lambda_param max_topics min_confidence :
  exists topics,
    extract_video_topics_enhanced nlp st_encode stop_phrases canonical_map
        transcript sentence_timestamps title hashtags video_id
            lambda_param max_topics min_confidence = Returns topics
    /\ Forall (fun topic =>
                 source topic = "transcript"
                 /\ exists rest,
                      sources topic = "transcript" :: rest
                      /\ incl rest ["title"; "hashtag"])
              topics.
Proof.
  destruct (extract_cases transcript sentence_timestamps title hashtags video_id
              lambda_param max_topics min_confidence) as [H|(topics & Hb & H)].
  - exists []. split; [exact H | constructor].
  - exists topics. split; [exact H|].
    apply Forall_forall. intros topic Hin.
    destruct (extract_body_topics _ _ _ _ _ _ _ _ _ Hb Hin)
      as (phrase & mmr_score & Hbuild).
    apply build_topic_sources in Hbuild. destruct Hbuild as [Hs ->].
    split; [reflexivity|]. rewrite Hs. apply topic_sources_shape.
Qed.

End Assembler.

Lemma extract_video_topics_never_raises_witness :
  extract_body (fun _ : string => @Error unit Doc tt)
               (fun _ : string => @Ok unit Vec.vec [1%R])
               [] {| merge_rules := None |}
               sample_transcript [] "" [] 0.7%R 10 0%R
  = Raises tt
  /\ extract_video_topics_enhanced
       (fun _ : string => @Error unit Doc tt)
       (fun _ : string => @Ok unit Vec.vec [1%R])
       [] {| merge_rules := None |}
       sample_transcript [] "" None "v1" 0.7%R 10 0%R
     = Returns [].
Proof.
  split; [reflexivity|].
  apply (proj2 (proj2 (extract_video_topics_never_raises unit
                         (fun _ : string => Error tt)
                         (fun _ : string => Ok [1%R])
                         [] {| merge_rules := None |}
                         sample_transcript [] "" None "v1" 0.7%R 10 0%R)) tt).
  reflexivity.
Defined.

Lemma cosine_same : Vec.cosine_similarity [1%R] [1%R] = 1%R.
Proof.
  unfold Vec.cosine_similarity, Vec.normalize, Vec.norm. simpl.
  replace (1 * 1 + 0)%R with 1%R by lra. rewrite sqrt_1.
  destruct (Req_dec_T 1 0) as [H|_]; [lra|]. simpl. lra.
Qed.

Lemma sample_score : mmr_of [[1%R]] [1%R] 0.7%R [] 0 = 0.7%R.
Proof. unfold mmr_of. simpl. rewrite cosine_same. lra. Qed.

Example sample_run_returns_topic :
  exists topic,
    extract_video_topics_enhanced
      (fun _ : string => @Ok unit Doc sample_doc)
      (fun _ : string => @Ok unit Vec.vec [1%R])
      [] {| merge_rules := None |}
      sample_transcript sample_sentences "Meditation and Consciousness"
      (Some ["meditation"]) "v1" 0.7%R 10 0%R
    = Returns [topic]
    /\ tag topic = "meditation"
    /\ canonical topic = "meditation"
    /\ score topic = 0.7%R
    /\ sources topic = ["transcript"; "title"; "hashtag"]
    /\ source topic = "transcript"
    /\ map sentence_index (evidence topic) = [0].
Proof.
  unfold extract_video_topics_enhanced.
  change (orb _ _) with false. cbv iota.
  unfold extract_body.
  cbn [bind call _extract_noun_phrases].
  change (PyList.list_set _) with ["meditation"].
  change (_compute_mmr _ _ _ _ _)
    with (@Returns unit _ [("meditation", mmr_of [[1%R]] [1%R] 0.7%R [] 0)]).
  cbn [bind flat_map fst snd]. rewrite sample_score.
  unfold build_topic.
  destruct (Rlt_dec 0.7 (-0.1)) as [H|_]; [lra|].
  destruct (Rlt_dec _ 0) as [H|_].
  { pose proof (ConfidenceFacts.compute_confidence_range 0.7 _
                  (Nat2Z.is_nonneg
                     (length (_find_evidence "meditation" sample_sentences
                                             sample_transcript)))).
    lra. }
  eexists. split; [reflexivity|].
  repeat split.
Qed.

End VideoFacts.

(** ** Dictionaries *)
Module PyDictFacts.
Import PyDict.

Section Facts.
Variable V : Type.
Implicit Types (d : dict V) (k : string) (f : option V -> V).

Lemma get_upd d k f k' :
  get (upd d k f) k' = if String.eqb k' k then Some (f (get d k)) else get d k'.
Proof.
  induction d as [|[k0 v0] d IH]; simpl.
  - destruct (String.eqb_spec k' k); reflexivity.
  - destruct (String.eqb_spec k k0) as [->|Hk]; simpl.
    + destruct (String.eqb_spec k' k0); reflexivity.
    + rewrite IH.
      destruct (String.eqb_spec k' k0) as [->|Hk'].
      * destruct (String.eqb_spec k0 k); [congruence | reflexivity].
      * reflexivity.
Qed.

Lemma in_keys_get d k : In k (keys d) <-> get d k <> None.
Proof.
  induction d as [|[k0 v0] d IH]; simpl.
  - split; [tauto | congruence].
  - destruct (String.eqb_spec k k0) as [->|Hk].
    + split; [discriminate | auto].
    + rewrite <- IH. split; [intros [?|?]; [congruence | assumption] | auto].
Qed.

Lemma keys_upd d k f :
  keys (upd d k f) = if mem d k then keys d else keys d ++ [k].
Proof.
  unfold mem. induction d as [|[k0 v0] d IH]; simpl; [reflexivity|].
  destruct (String.eqb_spec k k0) as [->|Hk]; simpl; [reflexivity|].
  rewrite IH. destruct (get d k); reflexivity.
Qed.

Lemma nodup_keys_upd d k f : NoDup (keys d) -> NoDup (keys (upd d k f)).
Proof.
  intros Hnd. rewrite keys_upd. unfold mem.
  destruct (get d k) eqn:Hg; [exact Hnd|].
  apply NoDup_app; [exact Hnd | repeat constructor; intros [] |].
  intros x Hx [<-|[]]. apply in_keys_get in Hx. contradiction.
Qed.

Lemma in_items_get d k v : NoDup (keys d) -> In (k, v) d -> get d k = Some v.
Proof.
  induction d as [|[k0 v0] d IH]; simpl; [tauto|].
  intros Hnd. inversion Hnd as [|? ? Hk0 Hd]; subst.
  intros [[= -> ->]|Hin].
  - now rewrite String.eqb_refl.
  - destruct (String.eqb_spec k k0) as [->|Hk]; [|auto].
    exfalso. apply Hk0. change k0 with (fst (k0, v)). now apply in_map.
Qed.

End Facts.
End PyDictFacts.

(** ** Account aggregation *)
Module AggregateFacts.
Import TopicExtractor AggregateTable SampleAccounts.
Local Open Scope string_scope.

Lemma extends_refl t acc : Extends t [] acc acc.
Proof.
  constructor; simpl; rewrite ?app_nil_r; try lia; tauto.
Qed.

Lemma extends_trans t o1 o2 a b c :
  Extends t o1 a b -> Extends t o2 b c -> Extends t (o1 ++ o2) a c.
Proof.
  intros [C1 S1 V1 A1] [C2 S2 V2 A2]. constructor.
  - rewrite C2, C1, length_app. lia.
  - rewrite S2, S1, map_app, app_assoc. reflexivity.
  - rewrite V2, V1, map_app, app_assoc. reflexivity.
  - rewrite A2, A1. split.
    + intros [[H ->] ->]. auto.
    + intros [H Ho]. apply app_eq_nil in Ho. tauto.
Qed.

Lemma extends_add_tag t vid acc item :
  Extends t (if String.eqb (tag item) t then [(score item, vid)] else [])
          acc (add_tag vid acc item).
Proof.
  constructor;
    unfold add_tag, PyDict.incr, PyDict.append_to, PyDict.get_list, count_of;
    simpl; rewrite PyDictFacts.get_upd;
    rewrite (String.eqb_sym (tag item) t);
    destruct (String.eqb_spec t (tag item)) as [->|Hne]; simpl;
    rewrite ?app_nil_r; try reflexivity.
  - destruct (PyDict.get (tag_counts acc) (tag item)); lia.
  - lia.
  - destruct (PyDict.get (tag_scores acc) (tag item)); reflexivity.
  - destruct (PyDict.get (tag_videos acc) (tag item)); reflexivity.
  - split; [discriminate | intros [_ H]; discriminate].
  - tauto.
Qed.

Lemma extends_add_video t acc v :
  Extends t (occurrences t [v]) acc (add_video acc v).
Proof.
  unfold add_video, occurrences. simpl. rewrite app_nil_r.
  generalize (video_id v) as vid. intros vid.
  revert acc. induction (tags v) as [|item items IH]; intros acc; simpl.
  - apply extends_refl.
  - eapply extends_trans; [apply extends_add_tag | apply IH].
Qed.

Lemma occurrences_app t vt1 vt2 :
  occurrences t (vt1 ++ vt2) = (occurrences t vt1 ++ occurrences t vt2)%list.
Proof. unfold occurrences. apply flat_map_app. Qed.

Lemma extends_fold t vt acc :
  Extends t (occurrences t vt) acc (fold_left add_video vt acc).
Proof.
  revert acc. induction vt as [|v vt IH]; intros acc; simpl fold_left.
  - apply extends_refl.
  - change (v :: vt) with ([v] ++ vt)%list. rewrite occurrences_app.
    eapply extends_trans; [apply extends_add_video | apply IH].
Qed.

Lemma nodup_keys_fold vt acc :
  NoDup (PyDict.keys (tag_counts acc)) ->
  NoDup (PyDict.keys (tag_counts (fold_left add_video vt acc))).
Proof.
  revert acc. induction vt as [|v vt IH]; intros acc Hnd; simpl; [exact Hnd|].
  apply IH. unfold add_video. generalize (video_id v) as vid. intros vid.
  revert acc Hnd. induction (tags v) as [|item items IHi]; intros acc Hnd; simpl.
  - exact Hnd.
  - apply IHi. simpl. now apply PyDictFacts.nodup_keys_upd.
Qed.

(** The accumulators after the loop, tag by tag. *)
Lemma accumulate_spec t vt :
  count_of (accumulate vt) t = Z.of_nat (length (occurrences t vt))
  /\ PyDict.get_list (tag_scores (accumulate vt)) t = map fst (occurrences t vt)
  /\ PyDict.get_list (tag_videos (accumulate vt)) t = map snd (occurrences t vt)
  /\ (PyDict.get (tag_counts (accumulate vt)) t = None <-> occurrences t vt = []).
Proof.
  destruct (extends_fold t vt {| tag_counts := []; tag_scores := []; tag_videos := [] |})
    as [C S V A].
  fold (accumulate vt) in *. unfold count_of, PyDict.get_list in *. simpl in *.
  repeat split; try assumption.
  - apply A.
  - intros H. apply A. auto.
Qed.

Lemma accumulate_nodup vt : NoDup (PyDict.keys (tag_counts (accumulate vt))).
Proof. apply nodup_keys_fold. constructor. Qed.


Lemma total_views_sum meta vids :
  total_views_of meta vids = fold_right Z.add 0%Z (map (views_of meta) vids).
Proof.
  unfold total_views_of.
  enough (H : forall a,
             fold_left
               (fun total_views video_id =>
                  match video_id with
                  | Some v =>
                      match PyDict.get meta v with
                      | Some m =>
                          (total_views
                           + match view_count m with Some n => n | None => 0 end)%Z
                      | None => total_views
                      end
                  | None => total_views
                  end) vids a
             = (a + fold_right Z.add 0 (map (views_of meta) vids))%Z).
  { rewrite H. lia. }
  induction vids as [|vid vids IH]; intros a; simpl; [lia|].
  rewrite IH. unfold views_of at 2.
  destruct vid as [v|]; [destruct (PyDict.get meta v)|]; lia.
Qed.

Lemma engagement_formula (views : Z) :
  engagement_of views
  = if (0 <? views)%Z then (1 + ln (1 + IZR views) / 20)%R else 1%R.
Proof.
  unfold engagement_of, Np.log1p. destruct (0 <? views)%Z; [reflexivity | lra].
Qed.

(** Every entry of the ranked list is the expected row of its tag. *)
Lemma ranked_entry vt md e :
  In e (ranked_tags (aggregate_account_tags vt md)) ->
  expected_row (ranked_tag e) vt md = Some e.
Proof.
  unfold aggregate_account_tags. simpl. rewrite VecFacts.sort_desc_in, in_map_iff.
  intros ([t c] & <- & Hin).
  apply PyDictFacts.in_items_get in Hin; [|apply accumulate_nodup].
  destruct (accumulate_spec t vt) as (Hc & Hs & Hv & Ha).
  unfold count_of in Hc. rewrite Hin in Hc. subst c.
  unfold expected_row, rank_tag. cbn [fst snd ranked_tag].
  rewrite Hs, Hv, total_views_sum, engagement_formula.
  unfold Np.mean. rewrite length_map.
  destruct (occurrences t vt) as [|o occ] eqn:Hocc; [|reflexivity].
  pose proof (proj2 Ha eq_refl) as Hn. congruence.
Qed.

(** Every tag that occurs has an entry in the ranked list. *)
Lemma ranked_present vt md t :
  occurrences t vt <> [] ->
  exists e, In e (ranked_tags (aggregate_account_tags vt md)) /\ ranked_tag e = t.
Proof.
  intros Hocc. destruct (accumulate_spec t vt) as (_ & _ & _ & Ha).
  destruct (PyDict.get (tag_counts (accumulate vt)) t) as [c|] eqn:Hg;
    [|now destruct Hocc; apply Ha].
  assert (Hin : In (t, c) (tag_counts (accumulate vt))).
  { clear -Hg. induction (tag_counts (accumulate vt)) as [|[k v] d IH];
      simpl in *; [discriminate|].
    destruct (String.eqb_spec t k) as [->|Hk]; [left; congruence | right; auto]. }
  exists (rank_tag (accumulate vt) (video_meta_map md) (t, c)). split; [|reflexivity].
  unfold aggregate_account_tags. simpl.
  rewrite VecFacts.sort_desc_in. now apply in_map.
Qed.

(** The aggregate, read as a table keyed by tag. *)
Lemma row_expected vt md t :
  row t (ranked_tags (aggregate_account_tags vt md)) = expected_row t vt md.
Proof.
  unfold row.
  destruct (find _ _) as [e|] eqn:Hf.
  - apply find_some in Hf. destruct Hf as [Hin Ht].
    apply String.eqb_eq in Ht. subst t. symmetry. now apply ranked_entry.
  - unfold expected_row.
    destruct (occurrences t vt) as [|o occ] eqn:Hocc; [reflexivity|].
    destruct (ranked_present vt md t) as (e & Hin & Ht); [congruence|].
    apply (find_none _ _ Hf) in Hin. apply String.eqb_neq in Hin. contradiction.
Qed.


Lemma sum_zero (l : list Z) : (forall x, In x l -> x = 0%Z) -> fold_right Z.add 0%Z l = 0%Z.
Proof.
  induction l as [|x l IH]; intros H; simpl; [reflexivity|].
  rewrite IH by (intros y Hy; apply H; now right).
  rewrite (H x) by now left. reflexivity.
Qed.

Lemma expected_row_fields t vt md e :
  expected_row t vt md = Some e ->
  ranked_tag e = t
  /\ frequency e = Z.of_nat (length (occurrences t vt))
  /\ avg_score e
     = (Np.sum (map fst (occurrences t vt)) / INR (length (occurrences t vt)))%R
  /\ engagement_weight e
     = (if (0 <? listed_views md (video_ids e))%Z
        then (1 + ln (1 + IZR (listed_views md (video_ids e))) / 20)%R
        else 1%R)
  /\ combined_score e
     = (IZR (frequency e) * avg_score e * engagement_weight e)%R
  /\ video_ids e = map snd (occurrences t vt).
Proof.
  unfold expected_row.
  destruct (occurrences t vt) as [|o occ]; [discriminate|].
  intros [= <-]. repeat split; reflexivity.
Qed.

(** C7.  Every entry of the aggregate has
    [combined_score = frequency * avg_score * engagement_weight], where
    [frequency] counts the occurrences of the tag, [avg_score] is the mean of
    their scores, and [engagement_weight] is [1 + ln(1 + views) / 20] for the
    total [views] of the videos listed for the tag when that total is
    positive, and exactly 1 when it is zero or no listed video has view data.
    One video with the single tag "mindfulness" of score 0.8 and a view count
    of 0 gives weight 1 and combined score 0.8. *)
Theorem aggregate_combined_score vt md :
  (forall e,
      In e (ranked_tags (aggregate_account_tags vt md)) ->
      combined_score e
      = (IZR (frequency e) * avg_score e * engagement_weight e)%R
      /\ ((0 < listed_views md (video_ids e))%Z ->
          engagement_weight e
          = (1 + ln (1 + IZR (listed_views md (video_ids e))) / 20)%R)
      /\ (listed_views md (video_ids e) = 0%Z -> engagement_weight e = 1%R)
      /\ ((forall v, In v (video_ids e) ->
                     views_of (video_meta_map md) v = 0%Z) ->
          engagement_weight e = 1%R)
      /\ frequency e = Z.of_nat (length (occurrences (ranked_tag e) vt))
      /\ avg_score e
         = (Np.sum (map fst (occurrences (ranked_tag e) vt))
            / INR (length (occurrences (ranked_tag e) vt)))%R
      /\ video_ids e = map snd (occurrences (ranked_tag e) vt))
  /\ (exists e,
         ranked_tags (aggregate_account_tags scenario_tags scenario_metadata) = [e]
         /\ ranked_tag e = "mindfulness"
         /\ frequency e = 1%Z
         /\ engagement_weight e = 1%R
         /\ combined_score e = 0.8%R).
Proof.
  split.
  - intros e He. apply ranked_entry in He.
    destruct (expected_row_fields _ _ _ _ He) as (_ & Hf & Ha & Hw & Hc & Hv).
    repeat split; try assumption.
    + intros Hpos. apply Z.ltb_lt in Hpos. now rewrite Hw, Hpos.
    + intros Hz. now rewrite Hw, Hz.
    + intros Habs. rewrite Hw.
      replace (listed_views md (video_ids e)) with 0%Z; [reflexivity|].
      symmetry. unfold listed_views. apply sum_zero.
      intros x Hx. apply in_map_iff in Hx. destruct Hx as (v & <- & Hin). auto.
  - eexists. split; [reflexivity|].
    cbn [combined_score frequency avg_score engagement_weight ranked_tag].
    repeat split.
    + change (engagement_of 0 = 1%R).
      unfold engagement_of. simpl. lra.
    + change ((IZR 1 * Np.mean [0.8%R] * engagement_of 0)%R = 0.8%R).
      unfold engagement_of, Np.mean, Np.sum. simpl. lra.
Qed.

Lemma aggregate_combined_score_witness :
  combined_score
    (rank_tag (accumulate scenario_tags) (video_meta_map scenario_metadata)
              ("mindfulness", 1%Z))
  = (IZR 1
     * avg_score (rank_tag (accumulate scenario_tags)
                           (video_meta_map scenario_metadata) ("mindfulness", 1%Z))
     * engagement_weight (rank_tag (accumulate scenario_tags)
                                   (video_meta_map scenario_metadata)
                                   ("mindfulness", 1%Z)))%R.
Proof.
  apply (proj1 (aggregate_combined_score scenario_tags scenario_metadata)
               (rank_tag (accumulate scenario_tags)
                         (video_meta_map scenario_metadata) ("mindfulness", 1%Z))).
  left. reflexivity.
Defined.


(** *** Independence of the input order *)

Lemma perm_sum_Z (l l' : list Z) :
  Permutation l l' -> fold_right Z.add 0%Z l = fold_right Z.add 0%Z l'.
Proof. induction 1; simpl; lia. Qed.

Lemma perm_sum_R (l l' : list R) : Permutation l l' -> Np.sum l = Np.sum l'.
Proof. unfold Np.sum. induction 1; simpl; lra. Qed.

Lemma occurrences_perm t vt vt' :
  Permutation vt vt' -> Permutation (occurrences t vt) (occurrences t vt').
Proof. intros H. unfold occurrences. now apply Permutation_flat_map. Qed.

Lemma views_of_same_meta md md' v :
  same_meta md md' ->
  views_of (video_meta_map md) v = views_of (video_meta_map md') v.
Proof.
  intros H. unfold views_of. destruct v as [v|]; [|reflexivity]. now rewrite H.
Qed.

Lemma expected_row_perm t vt vt' md md' :
  Permutation vt vt' -> same_meta md md' ->
  same_row (expected_row t vt md) (expected_row t vt' md').
Proof.
  intros Hp Hm. apply (occurrences_perm t) in Hp. unfold expected_row.
  destruct (occurrences t vt) as [|o occ] eqn:E;
    destruct (occurrences t vt') as [|o' occ'] eqn:E'.
  - exact I.
  - now apply Permutation_nil in Hp.
  - symmetry in Hp. now apply Permutation_nil in Hp.
  - assert (Hlen : length (o :: occ) = length (o' :: occ'))
      by now apply Permutation_length.
    assert (Hsum : Np.sum (map fst (o :: occ)) = Np.sum (map fst (o' :: occ')))
      by now apply perm_sum_R, Permutation_map.
    assert (Hviews :
              fold_right Z.add 0%Z
                (map (views_of (video_meta_map md)) (map snd (o :: occ)))
              = fold_right Z.add 0%Z
                  (map (views_of (video_meta_map md')) (map snd (o' :: occ')))).
    { rewrite (map_ext _ _ (fun v => views_of_same_meta md md' v Hm)).
      now apply perm_sum_Z, Permutation_map, Permutation_map. }
    unfold same_row.
    cbn [frequency avg_score engagement_weight combined_score video_ids].
    rewrite Hlen, Hsum, Hviews.
    repeat split; try reflexivity. now apply Permutation_map.
Qed.

Lemma same_meta_refl md : same_meta md md.
Proof. intros v. reflexivity. Qed.

Lemma find_snoc {A} (p : A -> bool) (l : list A) (x : A) :
  find p (l ++ [x])
  = match find p l with Some y => Some y | None => if p x then Some x else None end.
Proof.
  induction l as [|y l IH]; simpl; [reflexivity|].
  destruct (p y); [reflexivity | exact IH].
Qed.

(** The metadata map holds, for each video, its last record. *)
Lemma video_meta_map_get md v :
  PyDict.get (video_meta_map md) v
  = find (fun m => String.eqb (meta_video_id m) v) (rev md).
Proof.
  unfold video_meta_map.
  enough (H : forall d,
             PyDict.get
               (fold_left (fun d v => PyDict.upd d (meta_video_id v) (fun _ => v)) md d) v
             = match find (fun m => String.eqb (meta_video_id m) v) (rev md) with
               | Some m => Some m
               | None => PyDict.get d v
               end).
  { rewrite H. now destruct (find _ _). }
  induction md as [|m md IH]; intros d; simpl; [reflexivity|].
  rewrite IH, find_snoc, PyDictFacts.get_upd, (String.eqb_sym v).
  destruct (find _ (rev md)); [reflexivity|].
  now destruct (String.eqb (meta_video_id m) v).
Qed.

Lemma find_by_key_perm (v : string) (l l' : list VideoMeta) :
  NoDup (map meta_video_id l) -> Permutation l l' ->
  find (fun m => String.eqb (meta_video_id m) v) l
  = find (fun m => String.eqb (meta_video_id m) v) l'.
Proof.
  intros Hnd Hp.
  assert (Huniq : forall a b, In a l -> In b l ->
                              meta_video_id a = meta_video_id b -> a = b).
  { clear -Hnd. induction l as [|x l IH]; simpl; [tauto|].
    inversion Hnd as [|? ? Hx Hl]; subst.
    intros a b [<-|Ha] [<-|Hb] Hab; auto.
    - exfalso. apply Hx. rewrite Hab. now apply in_map.
    - exfalso. apply Hx. rewrite <- Hab. now apply in_map. }
  destruct (find _ l) as [a|] eqn:Ha; destruct (find _ l') as [b|] eqn:Hb.
  - apply find_some in Ha, Hb. destruct Ha as [Ha Ea], Hb as [Hb Eb].
    apply String.eqb_eq in Ea, Eb. f_equal. apply Huniq; auto; [|congruence].
    apply Permutation_in with l'; [now symmetry | exact Hb].
  - apply find_some in Ha. destruct Ha as [Ha Ea].
    apply (Permutation_in _ Hp) in Ha.
    apply (find_none _ _ Hb) in Ha. congruence.
  - apply find_some in Hb. destruct Hb as [Hb Eb].
    apply (Permutation_in _ (Permutation_sym Hp)) in Hb.
    apply (find_none _ _ Ha) in Hb. congruence.
  - reflexivity.
Qed.

(** Metadata with one record per video may be listed in any order. *)
Lemma same_meta_perm md md' :
  NoDup (map meta_video_id md) -> Permutation md md' -> same_meta md md'.
Proof.
  intros Hnd Hp v. rewrite !video_meta_map_get.
  apply find_by_key_perm.
  - apply Permutation_NoDup with (map meta_video_id md); [|exact Hnd].
    apply Permutation_map, Permutation_rev.
  - rewrite <- !Permutation_rev. exact Hp.
Qed.


Lemma total_tags_keys vt md :
  total_tags (aggregate_account_tags vt md)
  = length (PyDict.keys (tag_counts (accumulate vt))).
Proof.
  unfold aggregate_account_tags, PyDict.keys. simpl.
  rewrite <- (Permutation_length (VecFacts.sort_desc_perm _ _)), !length_map.
  reflexivity.
Qed.

Lemma key_occurs vt t :
  In t (PyDict.keys (tag_counts (accumulate vt))) <-> occurrences t vt <> [].
Proof.
  rewrite PyDictFacts.in_keys_get.
  destruct (accumulate_spec t vt) as (_ & _ & _ & Ha). now rewrite Ha.
Qed.

(** C8.  Aggregation does not depend on the order of the videos: for video
    lists that are permutations of each other, and metadata that records the
    same data for every video, the two aggregates hold the same row for every
    tag (the same frequency, average score, engagement weight and combined
    score, and the same videos up to order), the same number of tags and the
    same number of videos. *)
Theorem aggregate_order_independent vt vt' md md' :
  Permutation vt vt' ->
  same_meta md md' ->
  (forall t,
      same_row (row t (ranked_tags (aggregate_account_tags vt md)))
               (row t (ranked_tags (aggregate_account_tags vt' md'))))
  /\ total_tags (aggregate_account_tags vt md)
     = total_tags (aggregate_account_tags vt' md')
  /\ total_videos (aggregate_account_tags vt md)
     = total_videos (aggregate_account_tags vt' md').
Proof.
  intros Hp Hm. split; [|split].
  - intros t. rewrite !row_expected. now apply expected_row_perm.
  - rewrite !total_tags_keys. apply Permutation_length.
    apply NoDup_Permutation; try apply accumulate_nodup.
    intros t. rewrite !key_occurs.
    pose proof (occurrences_perm t vt vt' Hp) as Ho.
    split; intros Hne E; apply Hne.
    + rewrite E in Ho. symmetry in Ho. now apply Permutation_nil in Ho.
    + rewrite E in Ho. now apply Permutation_nil in Ho.
  - simpl. now apply Permutation_length.
Qed.

Lemma aggregate_order_independent_witness :
  same_row
    (row "yoga" (ranked_tags (aggregate_account_tags [video_a; video_b] [meta_a; meta_b])))
    (row "yoga" (ranked_tags (aggregate_account_tags [video_b; video_a] [meta_b; meta_a])))
  /\ total_tags (aggregate_account_tags [video_a; video_b] [meta_a; meta_b])
     = total_tags (aggregate_account_tags [video_b; video_a] [meta_b; meta_a]).
Proof.
  destruct (aggregate_order_independent
              [video_a; video_b] [video_b; video_a]
              [meta_a; meta_b] [meta_b; meta_a]) as (Hrow & Htags & _).
  - apply perm_swap.
  - apply same_meta_perm; [|apply perm_swap].
    simpl. repeat constructor; simpl; intuition discriminate.
  - split; [apply Hrow | exact Htags].
Defined.

End AggregateFacts.

(** ** The clustering cascade *)
Module ClusterFacts.
Import UmbrellaBuilder ClusterSpec.

Lemma group_by_label_snoc pairs p :
  group_by_label (pairs ++ [p])
  = add_member (group_by_label pairs) (snd p) (fst p).
Proof. unfold group_by_label. now rewrite fold_left_app. Qed.

Lemma count_occ_snoc (L : list Z) (x l : Z) :
  count_occ Z.eq_dec (L ++ [x]) l
  = count_occ Z.eq_dec L l + (if Z.eqb x l then 1 else 0).
Proof.
  rewrite count_occ_app. simpl.
  destruct (Z.eq_dec x l) as [->|Hne].
  - now rewrite Z.eqb_refl.
  - apply Z.eqb_neq in Hne. now rewrite Hne.
Qed.

Lemma add_member_keys clusters label idx :
  forall l, In l (map fst (add_member clusters label idx))
            <-> In l (map fst clusters) \/ l = label.
Proof.
  induction clusters as [|[l0 c0] rest IH]; intros l; simpl.
  - intuition.
  - destruct (Z.eqb_spec l0 label) as [->|Hne]; simpl.
    + intuition.
    + rewrite IH. intuition.
Qed.

Lemma add_member_entries clusters label idx l c :
  NoDup (map fst clusters) ->
  In (l, c) (add_member clusters label idx) ->
  (l <> label /\ In (l, c) clusters)
  \/ (l = label /\ exists c0, c = (c0 ++ [idx])%list
                              /\ (In (l, c0) clusters
                                  \/ (c0 = [] /\ ~ In l (map fst clusters)))).
Proof.
  induction clusters as [|[l0 c0] rest IH]; simpl; intros Hnd Hin.
  - destruct Hin as [[= <- <-]|[]]. right. split; [reflexivity|].
    exists []. split; [reflexivity|]. right. tauto.
  - inversion Hnd as [|? ? Hl0 Hrest]; subst.
    destruct (Z.eqb_spec l0 label) as [->|Hne].
    + destruct Hin as [[= <- <-]|Hin].
      * right. split; [reflexivity|]. exists c0. split; [reflexivity|]. left. now left.
      * left. split; [|now right]. intros ->. apply Hl0.
        change label with (fst (label, c)). now apply in_map.
    + destruct Hin as [[= <- <-]|Hin].
      * left. split; [exact Hne | now left].
      * destruct (IH Hrest Hin) as [[Hl Hc]|[-> (c1 & -> & Hc1)]].
        -- left. split; [exact Hl | now right].
        -- right. split; [reflexivity|]. exists c1. split; [reflexivity|].
           destruct Hc1 as [Hc1|[-> Hc1]]; [left; now right|].
           right. split; [reflexivity|]. intros [E|E]; [congruence | contradiction].
Qed.

Lemma grouped_add L clusters label idx :
  grouped L clusters -> grouped (L ++ [label]) (add_member clusters label idx).
Proof.
  intros (Hnd & Hkeys & Hent). split; [|split].
  - clear Hkeys Hent. induction clusters as [|[l0 c0] rest IH]; simpl.
    + repeat constructor. intros [].
    + inversion Hnd as [|? ? Hl0 Hrest]; subst.
      destruct (Z.eqb_spec l0 label) as [->|Hne]; simpl.
      * now constructor.
      * constructor; [|now apply IH].
        rewrite add_member_keys. intros [H|H]; [contradiction | congruence].
  - intros l Hl. apply add_member_keys. apply in_app_or in Hl.
    destruct Hl as [Hl|[<-|[]]]; [left; now apply Hkeys | now right].
  - intros l c Hin. rewrite count_occ_snoc, in_app_iff.
    destruct (add_member_entries _ _ _ _ _ Hnd Hin)
      as [[Hl Hc]|[-> (c0 & -> & Hc0)]].
    + destruct (Hent _ _ Hc) as [Hlen HinL].
      apply not_eq_sym, Z.eqb_neq in Hl. rewrite Hl. split; [lia | now left].
    + rewrite Z.eqb_refl, length_app. simpl. split; [|right; now left].
      destruct Hc0 as [Hc0|[-> Hc0]].
      * destruct (Hent _ _ Hc0) as [Hlen _]. lia.
      * simpl. assert (Hno : ~ In label L) by (intros H; now apply Hc0, Hkeys).
        apply (count_occ_not_In Z.eq_dec) in Hno. lia.
Qed.

Lemma grouped_group_by_label pairs :
  grouped (map snd pairs) (group_by_label pairs).
Proof.
  induction pairs as [|p pairs IH] using rev_ind.
  - repeat split; simpl; try tauto. constructor.
  - rewrite group_by_label_snoc, map_app. simpl. now apply grouped_add.
Qed.

Lemma map_snd_enumerate {A} (l : list A) : map snd (enumerate l) = l.
Proof.
  unfold enumerate. generalize 0. induction l as [|x l IH]; intros n; simpl.
  - reflexivity.
  - now rewrite IH.
Qed.


Lemma map_snd_filter_snd {A} (p : Z -> bool) (l : list (A * Z)) :
  map snd (filter (fun x => p (snd x)) l) = filter p (map snd l).
Proof.
  induction l as [|x l IH]; simpl; [reflexivity|].
  destruct (p (snd x)); simpl; now rewrite IH.
Qed.

Lemma count_occ_filter (p : Z -> bool) (L : list Z) (l : Z) :
  p l = true -> count_occ Z.eq_dec (filter p L) l = count_occ Z.eq_dec L l.
Proof.
  intros Hp. induction L as [|x L IH]; simpl; [reflexivity|].
  destruct (p x) eqn:E; simpl; destruct (Z.eq_dec x l) as [->|Hne]; auto.
  congruence.
Qed.

Section Cascade.
Variable min_cluster_size : Z.
Variable resolution : R.
Variables LEIDEN_AVAILABLE LOUVAIN_AVAILABLE HDBSCAN_AVAILABLE : bool.
Variable leiden_membership : nat -> list (nat * nat) -> R -> list Z.
Variable louvain_best_partition : list (list Z) -> R -> list (nat * Z).
Variable hdbscan_fit_predict : Z -> R -> list (list R) -> list Z.
Variable connected_components : list (list Z) -> nat * list Z.

Local Abbreviation large :=
  (Forall (fun c : list nat => (min_cluster_size <= Z.of_nat (length c))%Z)).

Lemma filter_min_size_large clusters :
  large (filter_min_size min_cluster_size clusters).
Proof.
  apply Forall_forall. intros c Hc. apply filter_In in Hc.
  destruct Hc as [_ Hc]. now apply Z.leb_le.
Qed.

(** The clusters of the HDBSCAN path are the groups of the labels that are
    not noise, as large as the labels are frequent. *)
Lemma cluster_hdbscan_sizes topics adj_matrix :
  large (_cluster_hdbscan min_cluster_size hdbscan_fit_predict topics adj_matrix)
  <-> labels_respect_min_size min_cluster_size
        (hdbscan_fit_predict min_cluster_size 0.3%R
                             (distance_matrix adj_matrix)).
Proof.
  unfold _cluster_hdbscan. fold (distance_matrix adj_matrix).
  set (labels := hdbscan_fit_predict min_cluster_size _ _).
  destruct (grouped_group_by_label
              (filter (fun p => Z.leb 0 (snd p)) (enumerate labels)))
    as (_ & Hkeys & Hent).
  rewrite (map_snd_filter_snd (Z.leb 0)), map_snd_enumerate in Hkeys, Hent.
  split.
  - intros Hlarge label Hpos Hin.
    assert (Hf : In label (filter (Z.leb 0) labels))
      by (apply filter_In; split; [exact Hin | now apply Z.leb_le]).
    apply Hkeys, in_map_iff in Hf. destruct Hf as ([l c] & Hl & Hc).
    simpl in Hl. subst l.
    destruct (Hent _ _ Hc) as [Hlen _].
    rewrite count_occ_filter in Hlen by now apply Z.leb_le.
    rewrite <- Hlen. rewrite Forall_forall in Hlarge. apply Hlarge.
    apply in_map_iff. now exists (label, c).
  - intros Hlib. apply Forall_forall. intros c Hc. apply in_map_iff in Hc.
    destruct Hc as ([l c'] & <- & Hin). simpl.
    destruct (Hent _ _ Hin) as [Hlen HinL].
    apply filter_In in HinL. destruct HinL as [HinL Hpos].
    rewrite Hlen, count_occ_filter by exact Hpos.
    apply Hlib; [now apply Z.leb_le | exact HinL].
Qed.

Local Abbreviation lone_free :=
  (Forall (fun c : list nat => length c <> 1)).

Lemma large_lone_free clusters :
  (2 <= min_cluster_size)%Z -> large clusters -> lone_free clusters.
Proof.
  intros Hmin Hlarge. eapply Forall_impl; [|exact Hlarge].
  simpl. intros c Hc. lia.
Qed.

(** C6, amended.  Leiden, Louvain and connected components emit only
    clusters with at least [min_cluster_size] members, by their own filter,
    whatever partition the library returns.  The HDBSCAN path has no filter:
    its clusters are the groups of the labels that are not noise, and they
    have at least [min_cluster_size] members exactly when HDBSCAN gives every
    such label to at least that many points.  When HDBSCAN honours that
    contract the cascade emits only such clusters, whichever libraries are
    available.  With a [min_cluster_size] of at least 2 none of these
    clusters is a singleton. *)
Theorem cluster_strategies_min_size topics adj_matrix :
  large (_cluster_leiden min_cluster_size resolution leiden_membership adj_matrix)
  /\ large (_cluster_louvain min_cluster_size resolution louvain_best_partition
                             adj_matrix)
  /\ large (_cluster_connected_components min_cluster_size connected_components
                                          adj_matrix)
  /\ (large (_cluster_hdbscan min_cluster_size hdbscan_fit_predict topics
                              adj_matrix)
      <-> labels_respect_min_size min_cluster_size
            (hdbscan_fit_predict min_cluster_size 0.3%R
                                 (distance_matrix adj_matrix)))
  /\ (hdbscan_respects_min_size hdbscan_fit_predict ->
      large (_cluster_topics min_cluster_size resolution
               LEIDEN_AVAILABLE LOUVAIN_AVAILABLE HDBSCAN_AVAILABLE
               leiden_membership louvain_best_partition hdbscan_fit_predict
               connected_components topics adj_matrix))
  /\ ((2 <= min_cluster_size)%Z ->
      lone_free (_cluster_leiden min_cluster_size resolution leiden_membership
                                 adj_matrix)
      /\ lone_free (_cluster_louvain min_cluster_size resolution
                                     louvain_best_partition adj_matrix)
      /\ lone_free (_cluster_connected_components min_cluster_size
                                                  connected_components adj_matrix)
      /\ (hdbscan_respects_min_size hdbscan_fit_predict ->
          lone_free (_cluster_topics min_cluster_size resolution
                       LEIDEN_AVAILABLE LOUVAIN_AVAILABLE HDBSCAN_AVAILABLE
                       leiden_membership louvain_best_partition
                       hdbscan_fit_predict connected_components topics
                       adj_matrix))).
Proof.
  assert (Hcascade :
            hdbscan_respects_min_size hdbscan_fit_predict ->
            large (_cluster_topics min_cluster_size resolution
                     LEIDEN_AVAILABLE LOUVAIN_AVAILABLE HDBSCAN_AVAILABLE
                     leiden_membership louvain_best_partition
                     hdbscan_fit_predict connected_components topics
                     adj_matrix)).
  { intros Hlib. unfold _cluster_topics.
    destruct LEIDEN_AVAILABLE; [apply filter_min_size_large|].
    destruct LOUVAIN_AVAILABLE; [apply filter_min_size_large|].
    destruct HDBSCAN_AVAILABLE; [|apply filter_min_size_large].
    apply cluster_hdbscan_sizes. intros label. apply Hlib. }
  split; [apply filter_min_size_large|].
  split; [apply filter_min_size_large|].
  split; [apply filter_min_size_large|].
  split; [apply cluster_hdbscan_sizes|].
  split; [exact Hcascade|].
  intros Hmin.
  split; [apply large_lone_free, filter_min_size_large; exact Hmin|].
  split; [apply large_lone_free, filter_min_size_large; exact Hmin|].
  split; [apply large_lone_free, filter_min_size_large; exact Hmin|].
  intros Hlib. apply large_lone_free; [exact Hmin | now apply Hcascade].
Qed.

End Cascade.

Lemma sample_hdbscan_respects_min_size : hdbscan_respects_min_size sample_hdbscan.
Proof.
  intros k eps D label Hpos Hin. unfold sample_hdbscan in *.
  destruct (Z.leb_spec k 2).
  - destruct Hin as [<-|[<-|[<-|[]]]]; simpl; lia.
  - destruct Hin as [<-|[<-|[<-|[]]]]; lia.
Qed.

(** With a minimum of one, the connected components of an account with one
    topic give a singleton cluster, which becomes an umbrella of one member.
    And nothing on the HDBSCAN path enforces the minimum: on the same labels
    Leiden drops the lone third topic and the HDBSCAN path emits it, a
    cluster of one topic for a minimum of two. *)
Lemma cluster_min_size_not_enforced :
  (_cluster_connected_components 1 SampleUmbrellas.lone_component
                                   SampleUmbrellas.lone_adjacency
   = [[0]]
   /\ map member_count
          (_build_umbrellas (fun _ _ => "Owls"%string)
             SampleUmbrellas.lone_nodes [[1%R]] ["night owls"%string]
             (_cluster_connected_components 1 SampleUmbrellas.lone_component
                SampleUmbrellas.lone_adjacency))
      = [1])
  /\ (_cluster_leiden 2 1%R (fun _ _ _ => sample_membership) sample_adjacency
      = [[0; 1]]
      /\ _cluster_hdbscan 2 (fun _ _ _ => sample_membership)
                          ["a"; "b"; "c"]%string sample_adjacency
         = [[0; 1]; [2]]
      /\ ~ Forall (fun c : list nat => (2 <= Z.of_nat (length c))%Z)
                  (_cluster_hdbscan 2 (fun _ _ _ => sample_membership)
                                    ["a"; "b"; "c"]%string sample_adjacency)).
Proof.
  split; [split; reflexivity|].
  split; [reflexivity|]. split; [reflexivity|].
  intros H. inversion H as [|? ? _ H']. inversion H' as [|? ? Hlone _].
  simpl in Hlone. lia.
Qed.

End ClusterFacts.

(** ** Cosine similarity *)
Module CosineFacts.
Import Vec.
Local Open Scope R_scope.

Lemma dot_self_nonneg (x : vec) : 0 <= dot x x.
Proof. induction x as [|a x IH]; simpl; nra. Qed.

Lemma cauchy_schwarz_step a b s p q :
  0 <= p -> 0 <= q -> s * s <= p * q ->
  (a * b + s) * (a * b + s) <= (a * a + p) * (b * b + q).
Proof.
  intros Hp Hq Hs.
  assert (H : 2 * (a * b) * s <= a * a * q + b * b * p).
  { destruct (Rle_lt_or_eq_dec 0 q Hq) as [Hq'|<-].
    - apply Rmult_le_reg_r with q; [exact Hq'|].
      pose proof (Rle_0_sqr (a * q - b * s)) as H1. unfold Rsqr in H1.
      assert (b * b * (s * s) <= b * b * (p * q)).
      { apply Rmult_le_compat_l; [nra | exact Hs]. }
      nra.
    - assert (s = 0) by nra. subst. nra. }
  nra.
Qed.

Lemma cauchy_schwarz (x y : vec) : dot x y * dot x y <= dot x x * dot y y.
Proof.
  revert y. induction x as [|a x IH]; intros [|b y]; simpl.
  - nra.
  - nra.
  - nra.
  - apply cauchy_schwarz_step; auto using dot_self_nonneg.
Qed.

Lemma dot_scale (c : R) (x : vec) :
  dot (map (fun a => a / c) x) (map (fun a => a / c) x) = dot x x / (c * c).
Proof.
  destruct (Req_dec c 0) as [->|Hc].
  - induction x as [|a x IH]; simpl.
    + unfold Rdiv. now rewrite Rmult_0_l.
    + rewrite IH. unfold Rdiv. rewrite !Rmult_0_l, Rinv_0. lra.
  - induction x as [|a x IH]; simpl.
    + unfold Rdiv. now rewrite Rmult_0_l.
    + rewrite IH. field. exact Hc.
Qed.

Lemma normalize_at_most_unit (x : vec) : dot (normalize x) (normalize x) <= 1.
Proof.
  unfold normalize, norm. pose proof (dot_self_nonneg x) as Hx.
  destruct (Req_dec_T (sqrt (dot x x)) 0) as [H0|Hn].
  - apply sqrt_eq_0 in H0; [lra | exact Hx].
  - rewrite dot_scale, sqrt_sqrt by exact Hx.
    assert (dot x x <> 0) by (intros E; apply Hn; rewrite E; apply sqrt_0).
    right. field. assumption.
Qed.

Lemma cosine_similarity_bounds (x y : vec) : -1 <= cosine_similarity x y <= 1.
Proof.
  unfold cosine_similarity.
  pose proof (cauchy_schwarz (normalize x) (normalize y)) as Hcs.
  pose proof (normalize_at_most_unit x) as Hx.
  pose proof (normalize_at_most_unit y) as Hy.
  pose proof (dot_self_nonneg (normalize x)) as Hx0.
  pose proof (dot_self_nonneg (normalize y)) as Hy0.
  assert (dot (normalize x) (normalize y) * dot (normalize x) (normalize y) <= 1) by nra.
  split; nra.
Qed.

Lemma mean_bounds (lo hi : R) (l : list R) :
  l <> [] -> Forall (fun x => lo <= x <= hi) l -> lo <= Np.mean l <= hi.
Proof.
  intros Hne Hall. unfold Np.mean.
  assert (Hsum : INR (length l) * lo <= Np.sum l <= INR (length l) * hi).
  { clear Hne. induction Hall as [|x l Hx Hl IH].
    - simpl. lra.
    - change (length (x :: l)) with (S (length l)). rewrite S_INR.
      unfold Np.sum in *. simpl. lra. }
  assert (Hpos : 0 < INR (length l)).
  { destruct l; [congruence|]. apply lt_0_INR. simpl. lia. }
  split.
  - apply Rmult_le_reg_r with (INR (length l)); [exact Hpos|].
    unfold Rdiv. rewrite Rmult_assoc, Rinv_l by lra. lra.
  - apply Rmult_le_reg_r with (INR (length l)); [exact Hpos|].
    unfold Rdiv. rewrite Rmult_assoc, Rinv_l by lra. lra.
Qed.

End CosineFacts.

(** ** The umbrella assembler *)
Module UmbrellaFacts.
Import UmbrellaBuilder CoherenceSpec SampleUmbrellas.
Local Open Scope R_scope.

Lemma upper_triangle_bounds (l : list Vec.vec) :
  Forall (fun x => -1 <= x <= 1) (upper_triangle l).
Proof.
  induction l as [|e l IH]; simpl; [constructor|].
  apply Forall_app. split; [|exact IH].
  apply Forall_forall. intros x Hx. apply in_map_iff in Hx.
  destruct Hx as (e' & <- & _). apply CosineFacts.cosine_similarity_bounds.
Qed.

Lemma upper_triangle_length (l : list Vec.vec) :
  length (upper_triangle l) = (length l * (length l - 1) / 2)%nat.
Proof.
  induction l as [|e l IH]; simpl upper_triangle; [reflexivity|].
  rewrite length_app, length_map, IH.
  change (length (e :: l)) with (S (length l)).
  replace (S (length l) * (S (length l) - 1))%nat
    with (length l * 2 + length l * (length l - 1))%nat
    by (destruct (length l); simpl; lia).
  rewrite Nat.div_add_l by lia. reflexivity.
Qed.

Lemma sum_app (l1 l2 : list R) : Np.sum (l1 ++ l2) = Np.sum l1 + Np.sum l2.
Proof.
  unfold Np.sum. induction l1 as [|x l1 IH]; simpl; [lra|]. rewrite IH. lra.
Qed.

Lemma upper_triangle_sum (l : list Vec.vec) :
  Np.sum (upper_triangle l) = pair_sum l.
Proof.
  induction l as [|e l IH]; simpl; [reflexivity|].
  rewrite sum_app, IH. f_equal.
  clear IH. unfold Np.sum. induction l as [|e' l IH]; simpl; [reflexivity|].
  now rewrite IH.
Qed.

(** The coherence the code computes is the mean pairwise similarity. *)
Lemma cluster_coherence_spec (l : list Vec.vec) :
  cluster_coherence l = mean_pairwise_similarity l.
Proof.
  unfold cluster_coherence, mean_pairwise_similarity.
  destruct l as [|e1 [|e2 l]]; cbn [Nat.ltb Nat.leb length]; try lra.
  unfold Np.mean. now rewrite upper_triangle_sum, upper_triangle_length.
Qed.

Lemma cluster_coherence_bounds (l : list Vec.vec) :
  -1 <= cluster_coherence l <= 1.
Proof.
  unfold cluster_coherence.
  destruct l as [|e1 [|e2 l]]; cbn [Nat.ltb Nat.leb length]; try lra.
  apply CosineFacts.mean_bounds; [discriminate | apply upper_triangle_bounds].
Qed.

Lemma cluster_coherence_nonneg (l : list Vec.vec) :
  Forall (fun x => 0 <= x) (upper_triangle l) -> 0 <= cluster_coherence l <= 1.
Proof.
  intros Hpos. unfold cluster_coherence.
  destruct l as [|e1 [|e2 l]]; cbn [Nat.ltb Nat.leb length]; try lra.
  apply CosineFacts.mean_bounds; [discriminate|].
  pose proof (upper_triangle_bounds (e1 :: e2 :: l)) as Hb.
  rewrite Forall_forall in *. intros x Hx.
  specialize (Hpos x Hx). specialize (Hb x Hx). lra.
Qed.

Lemma in_enumerate {A} (l : list A) (i : nat) (x : A) :
  In (i, x) (enumerate l) -> nth_error l i = Some x.
Proof.
  unfold enumerate.
  enough (H : forall k, In (i, x) (combine (seq k (length l)) l) ->
                        (k <= i)%nat /\ nth_error l (i - k) = Some x).
  { intros Hin. apply H in Hin. now rewrite Nat.sub_0_r in Hin. }
  induction l as [|y l IH]; intros k; simpl; [tauto|].
  intros [[= <- <-]|Hin].
  - rewrite Nat.sub_diag. auto.
  - apply IH in Hin. destruct Hin as [Hk Hn]. split; [lia|].
    replace (i - k)%nat with (S (i - S k)) by lia. exact Hn.
Qed.


Section Assembler.
Variable _generate_umbrella_label : list string -> list Vec.vec -> string.
Variable topic_nodes : list TopicNode.
Variable embeddings : list Vec.vec.
Variable canonical_topics : list string.

Local Abbreviation build :=
  (build_umbrella _generate_umbrella_label topic_nodes embeddings canonical_topics).
Local Abbreviation member_embeddings :=
  (map (fun idx => nth idx embeddings [])).

(** Every umbrella was built from one of the clusters. *)
Lemma build_umbrellas_origin clusters u :
  In u (_build_umbrellas _generate_umbrella_label topic_nodes embeddings
                         canonical_topics clusters) ->
  exists i cluster_indices,
    nth_error clusters i = Some cluster_indices
    /\ build i cluster_indices = Some u.
Proof.
  unfold _build_umbrellas. rewrite VecFacts.sort_desc_in, in_flat_map.
  intros ([i c] & Hic & Hu). simpl in Hu.
  exists i, c. split; [now apply in_enumerate|].
  destruct (build i c) as [u'|]; [|destruct Hu].
  destruct Hu as [->|[]]. reflexivity.
Qed.

Lemma build_umbrella_coherence i cluster_indices u :
  build i cluster_indices = Some u ->
  members u = map (fun idx => nth idx canonical_topics EmptyString) cluster_indices
  /\ avg_coherence u = cluster_coherence (member_embeddings cluster_indices).
Proof.
  unfold build_umbrella. destruct (filter _ topic_nodes); [discriminate|].
  intros [= <-]. split; reflexivity.
Qed.

(** C9, amended.  For every umbrella the assembler produces, [avg_coherence]
    is the mean of the pairwise cosine similarities of the member embeddings
    of its cluster when the cluster has more than one member, and exactly 1
    when it has one; it lies in [[-1, 1]], and in [[0, 1]] when no two
    members have a negative similarity. *)
Theorem umbrella_coherence_range clusters u :
  In u (_build_umbrellas _generate_umbrella_label topic_nodes embeddings
                         canonical_topics clusters) ->
  -1 <= avg_coherence u <= 1
  /\ exists i cluster_indices,
       nth_error clusters i = Some cluster_indices
       /\ members u
          = map (fun idx => nth idx canonical_topics EmptyString) cluster_indices
       /\ avg_coherence u
          = mean_pairwise_similarity (member_embeddings cluster_indices)
       /\ (length cluster_indices = 1%nat -> avg_coherence u = 1)
       /\ (Forall (fun x => 0 <= x)
                  (upper_triangle (member_embeddings cluster_indices)) ->
           0 <= avg_coherence u <= 1).
Proof.
  intros Hu. apply build_umbrellas_origin in Hu.
  destruct Hu as (i & c & Hnth & Hb).
  apply build_umbrella_coherence in Hb. destruct Hb as [Hm Hc].
  split; [rewrite Hc; apply cluster_coherence_bounds|].
  exists i, c. repeat split; auto.
  - rewrite Hc. apply cluster_coherence_spec.
  - intros Hone. rewrite Hc, cluster_coherence_spec.
    destruct c as [|x [|y c]]; try discriminate. reflexivity.
  - rewrite Hc. now apply cluster_coherence_nonneg.
  - rewrite Hc. now apply cluster_coherence_nonneg.
Qed.

End Assembler.

Lemma cosine_opposite : Vec.cosine_similarity [1] [-1] = -1.
Proof.
  unfold Vec.cosine_similarity, Vec.normalize, Vec.norm. simpl.
  replace (1 * 1 + 0) with 1 by lra.
  replace (-1 * -1 + 0) with 1 by lra.
  rewrite sqrt_1.
  destruct (Req_dec_T 1 0) as [H|_]; [lra|]. simpl. lra.
Qed.

Lemma cosine_opposite' : Vec.cosine_similarity [-1] [1] = -1.
Proof.
  unfold Vec.cosine_similarity, Vec.normalize, Vec.norm. simpl.
  replace (1 * 1 + 0) with 1 by lra.
  replace (-1 * -1 + 0) with 1 by lra.
  rewrite sqrt_1.
  destruct (Req_dec_T 1 0) as [H|_]; [lra|]. simpl. lra.
Qed.

(** With a similarity threshold of -1 the graph builder joins the two
    opposite topics, and connected components keep them as one cluster of the
    minimum size. *)
Lemma opposite_topics_clustered :
  _build_similarity_graph (-1) ["night owls"; "early birds"]%string [[1]; [-1]]
  = ([[0; 1]; [1; 0]]%Z, 1%Z)
  /\ _cluster_connected_components 2 one_component [[0; 1]; [1; 0]]%Z
     = [[0; 1]%nat].
Proof.
  split; [|reflexivity].
  unfold _build_similarity_graph. simpl.
  rewrite cosine_opposite, cosine_opposite'.
  destruct (Rle_dec (-1) (-1)) as [_|H]; [reflexivity | lra].
Qed.

(** C9, the claim as stated fails: the umbrella of two opposite members has
    coherence -1, outside [[0, 1]]. *)
Lemma umbrella_coherence_negative :
  exists u,
    In u opposite_umbrellas
    /\ member_count u = 2%nat
    /\ avg_coherence u = -1
    /\ ~ (0 <= avg_coherence u <= 1).
Proof.
  eexists. split; [left; reflexivity|]. split; [reflexivity|].
  assert (H : cluster_coherence [[1]; [-1]] = -1).
  { unfold cluster_coherence, Np.mean, Np.sum. simpl.
    rewrite cosine_opposite. lra. }
  change (cluster_coherence [[1]; [-1]] = -1
          /\ ~ (0 <= cluster_coherence [[1]; [-1]] <= 1)).
  rewrite H. split; [reflexivity | lra].
Qed.

Lemma umbrella_coherence_range_witness :
  length opposite_umbrellas = 1%nat
  /\ Forall (fun u => -1 <= avg_coherence u <= 1) opposite_umbrellas.
Proof.
  split; [reflexivity|].
  apply Forall_forall. intros u Hu.
  exact (proj1 (umbrella_coherence_range (fun _ _ => "Sleep"%string) opposite_nodes
                  [[1]; [-1]] ["night owls"; "early birds"]%string
                  [[0; 1]%nat] u Hu)).
Defined.

End UmbrellaFacts.

(* ------------------------------------------------------------------ *)
(** * Part III: further properties of the code *)
(* ------------------------------------------------------------------ *)

(** ** Lists *)
Module ListExtra.

Lemma nodup_firstn {A} (n : nat) (l : list A) : NoDup l -> NoDup (firstn n l).
Proof.
  revert l. induction n as [|n IH]; intros [|x l] H; simpl; try constructor.
  - inversion H as [|? ? Hx Hl]; subst. intros Hin. apply Hx.
    now apply PyListFacts.firstn_in in Hin.
  - inversion H; subst. now apply IH.
Qed.

Lemma nodup_slice_to {A} (n : Z) (l : list A) :
  NoDup l -> NoDup (PyList.slice_to n l).
Proof.
  unfold PyList.slice_to. destruct (n <? 0)%Z; apply nodup_firstn.
Qed.

Lemma slice_to_map {A B} (f : A -> B) (n : Z) (l : list A) :
  map f (PyList.slice_to n l) = PyList.slice_to n (map f l).
Proof.
  unfold PyList.slice_to. rewrite length_map.
  destruct (n <? 0)%Z; now rewrite firstn_map.
Qed.

Lemma slice_to_length {A} (n : Z) (l : list A) :
  (0 <= n)%Z -> (Z.of_nat (length (PyList.slice_to n l)) <= n)%Z.
Proof.
  intros Hn. unfold PyList.slice_to.
  destruct (Z.ltb_spec n 0); [lia|].
  pose proof (firstn_le_length (Z.to_nat n) l). lia.
Qed.

Lemma sorted_firstn {A} (R : A -> A -> Prop) (n : nat) (l : list A) :
  StronglySorted R l -> StronglySorted R (firstn n l).
Proof.
  revert l. induction n as [|n IH]; intros [|x l] H; simpl; try constructor.
  - apply IH. now inversion H.
  - inversion H as [|? ? Hl Hx]; subst. rewrite Forall_forall in *.
    intros y Hy. apply Hx. now apply PyListFacts.firstn_in in Hy.
Qed.

Lemma sort_desc_sorted {A} (key : A -> R) (l : list A) :
  StronglySorted (fun a b => (key b <= key a)%R) (Vec.sort_desc key l).
Proof.
  induction l as [|x l IH]; simpl; [constructor|].
  fold (Vec.sort_desc key l). revert IH.
  generalize (Vec.sort_desc key l) as s. clear l.
  induction s as [|y s IHs]; intros Hs; simpl.
  - repeat constructor.
  - inversion Hs as [|? ? Hs' Hy]; subst.
    destruct (Rle_dec (key y) (key x)) as [Hle|Hgt].
    + constructor; [exact Hs|]. constructor; [exact Hle|].
      rewrite Forall_forall in *. intros z Hz. specialize (Hy z Hz). lra.
    + constructor; [now apply IHs|].
      rewrite Forall_forall in *. intros z Hz.
      apply (Permutation_in z (Permutation_sym (VecFacts.insert_desc_perm key x s))) in Hz.
      destruct Hz as [<-|Hz]; [lra | now apply Hy].
Qed.

End ListExtra.

(** ** More on MMR selection and the per-video assembler *)
Module AssemblerExtra.
Import TopicExtractorV2 Outcome MmrSpec.
Local Open Scope string_scope.

(** The phrases [_compute_mmr] returns are candidates, and distinct when the
    candidates are. *)
Lemma compute_mmr_phrases (exn : Type) (st_encode : string -> result exn Vec.vec)
    candidates doc lambda top_n selected :
  _compute_mmr st_encode candidates doc lambda top_n = Returns selected ->
  incl (map fst selected) candidates
  /\ (NoDup candidates -> NoDup (map fst selected)).
Proof.
  intros Hret.
  destruct (encode_all st_encode candidates) as [embs|e|] eqn:Henc.
  - destruct (MmrFacts.compute_mmr_run exn st_encode candidates doc lambda top_n
                embs Henc) as (picks & Hrun & Hgr & _).
    rewrite Hrun in Hret. injection Hret as <-.
    destruct (MmrFacts.greedy_nodup _ _ _ _ _ _ Hgr (NoDup_nil nat)) as [Hnd Hlt].
    simpl in Hnd. rewrite MmrFacts.scored_phrases. rewrite Forall_forall in Hlt.
    split.
    + intros p Hp. apply in_map_iff in Hp. destruct Hp as (i & <- & Hi).
      apply nth_In. now apply Hlt.
    + intros Hcand. apply Finite.Injective_map_NoDup_in; [|exact Hnd].
      intros x y Hx Hy.
      apply (proj1 (NoDup_nth candidates EmptyString) Hcand); auto.
  - destruct candidates; [|unfold _compute_mmr in Hret; rewrite Henc in Hret;
                           discriminate].
    injection Hret as <-. split; [intros p [] | constructor].
  - now apply MmrFacts.encode_all_total in Henc.
Qed.

Section Assembler.
Variable exn : Type.
Variable nlp : string -> result exn Doc.
Variable st_encode : string -> result exn Vec.vec.
Variable stop_phrases : list string.
Variable canonical_map : CanonicalMap.

(** The candidate phrases of a document: what is left of its noun phrases
    after the stop-phrase filter, once each. *)
Local Abbreviation candidates_of doc :=
  (PyList.list_set
     (filter (fun phrase => negb (_is_stop_phrase stop_phrases phrase))
             (map (fun np : string * nat * nat => fst (fst np))
                  (noun_phrases_of doc)))).

(** How a returned topic list came about. *)
Lemma extract_structure transcript sentence_timestamps title hashtags video_id
    lambda_param max_topics min_confidence :
  exists topics,
    extract_video_topics_enhanced nlp st_encode stop_phrases canonical_map
      transcript sentence_timestamps title hashtags video_id
      lambda_param max_topics min_confidence = Returns topics
    /\ (topics = []
        \/ exists doc emb selected,
             nlp transcript = Ok doc
             /\ _compute_mmr st_encode (candidates_of doc) emb lambda_param
                             (max_topics * 2) = Returns selected
             /\ topics
                = PyList.slice_to max_topics
                    (Vec.sort_desc confidence
                       (flat_map
                          (fun pick =>
                             match build_topic canonical_map transcript
                                     sentence_timestamps title (or_empty hashtags)
                                     min_confidence (fst pick) (snd pick) with
                             | Some topic => [topic]
                             | None => []
                             end) selected))).
Proof.
  destruct (VideoFacts.extract_cases exn nlp st_encode stop_phrases canonical_map
              transcript sentence_timestamps title hashtags video_id
              lambda_param max_topics min_confidence) as [H|(topics & Hb & H)].
  - exists []. split; [exact H | now left].
  - exists topics. split; [exact H|].
    unfold extract_body, _extract_noun_phrases in Hb.
    destruct (nlp transcript) as [doc|e]; cbn [bind call] in Hb; [|discriminate].
    destruct (PyList.list_set _) as [|c cs] eqn:Hc.
    { injection Hb as <-. now left. }
    destruct (st_encode transcript) as [emb|e]; cbn [bind call] in Hb;
      [|discriminate].
    destruct (_compute_mmr st_encode _ _ _ _) as [sel|e|] eqn:Hm;
      cbn [bind] in Hb; try discriminate.
    injection Hb as <-. right. exists doc, emb, sel.
    rewrite Hc. auto.
Qed.


Lemma build_topic_fields transcript sentence_timestamps title hashtags
    min_confidence phrase mmr_score topic :
  build_topic canonical_map transcript sentence_timestamps title hashtags
              min_confidence phrase mmr_score = Some topic ->
  tag topic = phrase
  /\ score topic = mmr_score
  /\ canonical topic = _canonicalize canonical_map phrase
  /\ type topic = "keyphrase"
  /\ evidence topic
     = firstn 3 (_find_evidence phrase sentence_timestamps transcript)
  /\ confidence topic
     = Confidence._compute_confidence mmr_score
         (Z.of_nat (length (_find_evidence phrase sentence_timestamps transcript)))
  /\ (-0.1 <= mmr_score)%R
  /\ (min_confidence <= confidence topic)%R.
Proof.
  unfold build_topic.
  destruct (Rlt_dec mmr_score _) as [|Hs]; [discriminate|].
  destruct (Rlt_dec _ min_confidence) as [|Hc]; [discriminate|].
  intros [= <-]. cbn. repeat split; lra.
Qed.

(** The topics built from a list of picks carry the phrases of the picks, in
    the order of the picks. *)
Lemma built_tags transcript sentence_timestamps title hashtags min_confidence
    (selected : list (string * R)) :
  exists keep : list bool,
    map tag
      (flat_map
         (fun pick =>
            match build_topic canonical_map transcript sentence_timestamps title
                    hashtags min_confidence (fst pick) (snd pick) with
            | Some topic => [topic]
            | None => []
            end) selected)
    = flat_map (fun pk : bool * string => if fst pk then [snd pk] else [])
               (combine keep (map fst selected))
    /\ length keep = length selected.
Proof.
  induction selected as [|pick sel (keep & IH & Hlen)]; simpl.
  - exists []. auto.
  - destruct (build_topic _ _ _ _ _ _ _ _) as [t|] eqn:Hb.
    + apply build_topic_fields in Hb. destruct Hb as (Ht & _).
      exists (true :: keep). simpl. rewrite Ht, IH, Hlen. auto.
    + exists (false :: keep). simpl. rewrite IH, Hlen. auto.
Qed.

Lemma nodup_kept {A} (keep : list bool) (l : list A) :
  NoDup l ->
  NoDup (flat_map (fun pk : bool * A => if fst pk then [snd pk] else [])
                  (combine keep l)).
Proof.
  revert keep. induction l as [|x l IH]; intros [|b keep] Hnd; simpl;
    try constructor.
  inversion Hnd as [|? ? Hx Hl]; subst.
  destruct b; simpl; [|now apply IH].
  constructor; [|now apply IH].
  intros Hin. apply Hx. apply in_flat_map in Hin.
  destruct Hin as ([b y] & Hy & Hin). apply in_combine_r in Hy.
  destruct b; simpl in Hin; [|destruct Hin]. destruct Hin as [<-|[]]. exact Hy.
Qed.

(** X1.  No topic that per-video extraction returns has a stop phrase as its
    tag, whatever its selection score. *)
Theorem extracted_tags_not_stop_phrases transcript sentence_timestamps title
    hashtags video_id lambda_param max_topics min_confidence :
  exists topics,
    extract_video_topics_enhanced nlp st_encode stop_phrases canonical_map
      transcript sentence_timestamps title hashtags video_id
      lambda_param max_topics min_confidence = Returns topics
    /\ Forall (fun topic => _is_stop_phrase stop_phrases (tag topic) = false)
              topics.
Proof.
  destruct (extract_structure transcript sentence_timestamps title hashtags
              video_id lambda_param max_topics min_confidence)
    as (topics & Hret & [->|(doc & emb & sel & _ & Hm & ->)]).
  - exists []. split; [exact Hret | constructor].
  - eexists. split; [exact Hret|].
    apply Forall_forall. intros topic Hin.
    apply PyListFacts.slice_to_in, VecFacts.sort_desc_in, in_flat_map in Hin.
    destruct Hin as (pick & Hpick & Hin).
    destruct (build_topic _ _ _ _ _ _ _ _) as [t|] eqn:Hb; [|destruct Hin].
    destruct Hin as [->|[]].
    apply build_topic_fields in Hb. destruct Hb as (-> & _).
    apply compute_mmr_phrases in Hm. destruct Hm as [Hincl _].
    assert (Hc : In (fst pick) (candidates_of doc))
      by (apply Hincl; now apply in_map).
    unfold PyList.list_set in Hc. apply nodup_In, filter_In in Hc.
    destruct Hc as [_ Hc]. now apply negb_true_iff in Hc.
Qed.

(** X2.  Per-video extraction returns at most [max_topics] topics (for a
    [max_topics] that is not negative), in descending order of confidence. *)
Theorem extracted_topics_bounded_sorted transcript sentence_timestamps title
    hashtags video_id lambda_param max_topics min_confidence :
  exists topics,
    extract_video_topics_enhanced nlp st_encode stop_phrases canonical_map
      transcript sentence_timestamps title hashtags video_id
      lambda_param max_topics min_confidence = Returns topics
    /\ ((0 <= max_topics)%Z -> (Z.of_nat (length topics) <= max_topics)%Z)
    /\ StronglySorted (fun a b => (confidence b <= confidence a)%R) topics.
Proof.
  destruct (extract_structure transcript sentence_timestamps title hashtags
              video_id lambda_param max_topics min_confidence)
    as (topics & Hret & [->|(doc & emb & sel & _ & _ & ->)]).
  - exists []. split; [exact Hret|]. split; [simpl; lia | constructor].
  - eexists. split; [exact Hret|]. split.
    + apply ListExtra.slice_to_length.
    + unfold PyList.slice_to.
      destruct (max_topics <? 0)%Z; apply ListExtra.sorted_firstn,
        ListExtra.sort_desc_sorted.
Qed.

(** X3.  Every topic that per-video extraction returns has a selection score
    of at least -0.1 and a confidence in [[0, 1]] that reaches
    [min_confidence]; its canonical form is the canonicalization of its tag,
    its confidence is the calibrated score for the number of all evidence
    sentences, and it keeps the first three of them.  No two returned topics
    have the same tag. *)
Theorem extracted_topics_well_formed transcript sentence_timestamps title
    hashtags video_id lambda_param max_topics min_confidence :
  exists topics,
    extract_video_topics_enhanced nlp st_encode stop_phrases canonical_map
      transcript sentence_timestamps title hashtags video_id
      lambda_param max_topics min_confidence = Returns topics
    /\ Forall
         (fun topic =>
            (-0.1 <= score topic)%R
            /\ (min_confidence <= confidence topic)%R
            /\ (0 <= confidence topic <= 1)%R
            /\ canonical topic = _canonicalize canonical_map (tag topic)
            /\ confidence topic
               = Confidence._compute_confidence (score topic)
                   (Z.of_nat (length (_find_evidence (tag topic)
                                        sentence_timestamps transcript)))
            /\ evidence topic
               = firstn 3 (_find_evidence (tag topic) sentence_timestamps
                                          transcript)
            /\ length (evidence topic) <= 3)
         topics
    /\ NoDup (map tag topics).
Proof.
  destruct (extract_structure transcript sentence_timestamps title hashtags
              video_id lambda_param max_topics min_confidence)
    as (topics & Hret & [->|(doc & emb & sel & _ & Hm & ->)]).
  - exists []. split; [exact Hret|]. split; constructor.
  - eexists. split; [exact Hret|]. split.
    + apply Forall_forall. intros topic Hin.
      apply PyListFacts.slice_to_in, VecFacts.sort_desc_in, in_flat_map in Hin.
      destruct Hin as (pick & Hpick & Hin).
      destruct (build_topic _ _ _ _ _ _ _ _) as [t|] eqn:Hb; [|destruct Hin].
      destruct Hin as [->|[]].
      apply build_topic_fields in Hb.
      destruct Hb as (Ht & Hs & Hc & _ & He & Hconf & Hlow & Hmin).
      rewrite Ht, Hs, He. repeat split; auto.
      * rewrite Hconf.
        apply ConfidenceFacts.compute_confidence_range, Nat2Z.is_nonneg.
      * rewrite Hconf.
        apply ConfidenceFacts.compute_confidence_range, Nat2Z.is_nonneg.
      * apply firstn_le_length.
    + rewrite ListExtra.slice_to_map. apply ListExtra.nodup_slice_to.
      apply Permutation_NoDup
        with (map tag (flat_map
                         (fun pick =>
                            match build_topic canonical_map transcript
                                    sentence_timestamps title (or_empty hashtags)
                                    min_confidence (fst pick) (snd pick) with
                            | Some topic => [topic]
                            | None => []
                            end) sel)).
      { apply Permutation_map, VecFacts.sort_desc_perm. }
      destruct (built_tags transcript sentence_timestamps title
                  (or_empty hashtags) min_confidence sel) as (keep & -> & _).
      apply nodup_kept.
      apply compute_mmr_phrases in Hm. apply Hm.
      apply NoDup_nodup.
Qed.

End Assembler.
End AssemblerExtra.

(** ** The evidence linker *)
Module EvidenceExtra.
Import TopicExtractorV2 EvidenceTable.
Local Open Scope string_scope.

Lemma take_length (n : nat) (s : string) : String.length (PyStr.take n s) <= n.
Proof.
  unfold PyStr.take. revert s.
  induction n as [|n IH]; intros [|c s]; simpl; try lia.
  specialize (IH s). lia.
Qed.

Lemma scan_timestamps_in (phrase_lower : string) (idx : nat)
    (sentence_timestamps : list Sentence) (ev : TopicEvidence) :
  In ev (scan_timestamps phrase_lower idx sentence_timestamps)
  <-> exists k sent,
        nth_error sentence_timestamps k = Some sent
        /\ PyStr.contains phrase_lower (PyStr.lower (sentence_text sent)) = true
        /\ ev = entry_of (idx + k) sent.
Proof.
  revert idx. induction sentence_timestamps as [|s rest IH]; intros idx; simpl.
  - split; [intros [] | intros ([|k] & sent & H & _); discriminate].
  - destruct (PyStr.contains _ _) eqn:Hc; simpl; rewrite IH; split.
    + intros [<-|(k & sent & Hn & Hs & ->)].
      * exists 0, s. rewrite Nat.add_0_r. auto.
      * exists (S k), sent. rewrite Nat.add_succ_r. auto.
    + intros ([|k] & sent & Hn & Hs & ->); simpl in Hn.
      * injection Hn as <-. left. now rewrite Nat.add_0_r.
      * right. exists k, sent. rewrite Nat.add_succ_r. auto.
    + intros (k & sent & Hn & Hs & ->).
      exists (S k), sent. rewrite Nat.add_succ_r. auto.
    + intros ([|k] & sent & Hn & Hs & ->); simpl in Hn.
      * injection Hn as <-. congruence.
      * exists k, sent. rewrite Nat.add_succ_r. auto.
Qed.

Lemma scan_timestamps_sorted (phrase_lower : string) (idx : nat)
    (sentence_timestamps : list Sentence) :
  StronglySorted (fun a b => sentence_index a < sentence_index b)
                 (scan_timestamps phrase_lower idx sentence_timestamps).
Proof.
  revert idx. induction sentence_timestamps as [|s rest IH]; intros idx; simpl.
  - constructor.
  - destruct (PyStr.contains _ _); [|apply IH].
    constructor; [apply IH|].
    apply Forall_forall. intros ev Hin.
    apply scan_timestamps_in in Hin. destruct Hin as (k & sent & _ & _ & ->).
    simpl. lia.
Qed.

(** The fallback loop collects what the loop over timed sentences collects,
    up to its fifth entry. *)
Lemma scan_sentences_spec (phrase_lower : string) (sentences : list string) :
  forall idx evidence,
    length evidence < 5 ->
    scan_sentences phrase_lower idx sentences evidence
    = (evidence
       ++ firstn (5 - length evidence)
            (scan_timestamps phrase_lower idx (map untimed sentences)))%list.
Proof.
  induction sentences as [|s rest IH]; intros idx evidence Hlen;
    cbn [scan_sentences map scan_timestamps].
  - now rewrite firstn_nil, app_nil_r.
  - change (sentence_text (untimed s)) with s.
    destruct (PyStr.contains _ _); [|now apply IH].
    rewrite length_app. cbn [length].
    destruct (Nat.leb 5 (length evidence + 1)) eqn:Hfull.
    + apply Nat.leb_le in Hfull.
      replace (5 - length evidence) with 1 by lia. reflexivity.
    + apply Nat.leb_gt in Hfull.
      rewrite IH by (rewrite length_app; cbn [length]; lia).
      rewrite length_app. cbn [length].
      replace (5 - length evidence) with (S (5 - (length evidence + 1))) by lia.
      cbn [firstn]. now rewrite <- app_assoc.
Qed.

(** X4.  With sentence timestamps, the evidence of a phrase is made of
    exactly the sentences that contain the phrase, letter case aside: one
    entry per such sentence, in the order of the sentences, with the times
    of the sentence (0 where it has none) and the first 150 characters of its
    text.  The transcript is not read. *)
Theorem find_evidence_timestamped (phrase : string) (sent : Sentence)
    (rest : list Sentence) (transcript : string) :
  (forall ev,
     In ev (_find_evidence phrase (sent :: rest) transcript)
     <-> exists s,
           nth_error (sent :: rest) (sentence_index ev) = Some s
           /\ PyStr.contains (PyStr.lower phrase)
                             (PyStr.lower (sentence_text s)) = true
           /\ start_time ev = option_default 0%R (sent_start_time s)
           /\ end_time ev = option_default 0%R (sent_end_time s)
           /\ ev_text ev = PyStr.take 150 (sentence_text s))
  /\ StronglySorted (fun a b => sentence_index a < sentence_index b)
       (_find_evidence phrase (sent :: rest) transcript)
  /\ Forall (fun ev => String.length (ev_text ev) <= 150)
       (_find_evidence phrase (sent :: rest) transcript).
Proof.
  unfold _find_evidence. split; [|split].
  - intros ev. rewrite scan_timestamps_in. split.
    + intros (k & s & Hn & Hs & ->). exists s. simpl sentence_index.
      repeat split; auto.
    + intros (s & Hn & Hs & Hst & Hen & Htx).
      exists (sentence_index ev), s. repeat split; auto.
      destruct ev as [i st en tx]. simpl in *. now subst.
  - apply scan_timestamps_sorted.
  - apply Forall_forall. intros ev Hin.
    apply scan_timestamps_in in Hin. destruct Hin as (k & s & _ & _ & ->).
    apply take_length.
Qed.

(** X5.  Without sentence timestamps, the evidence of a phrase is what the
    timestamped search finds in the stripped, non-empty pieces of the
    transcript between full stops, cut after the fifth entry; every entry has
    start and end time 0. *)
Theorem find_evidence_fallback (phrase transcript : string) :
  _find_evidence phrase [] transcript
  = firstn 5
      (scan_timestamps (PyStr.lower phrase) 0
         (map untimed
            (map PyStr.strip
               (filter (fun s => PyStr.truthy (PyStr.strip s))
                       (PyStr.split_char "." transcript)))))
  /\ length (_find_evidence phrase [] transcript) <= 5
  /\ Forall (fun ev => start_time ev = 0%R /\ end_time ev = 0%R)
            (_find_evidence phrase [] transcript).
Proof.
  assert (Heq : _find_evidence phrase [] transcript
                = firstn 5
                    (scan_timestamps (PyStr.lower phrase) 0
                       (map untimed
                          (map PyStr.strip
                             (filter (fun s => PyStr.truthy (PyStr.strip s))
                                     (PyStr.split_char "." transcript)))))).
  { unfold _find_evidence. destruct transcript as [|c s].
    - reflexivity.
    - cbn [PyStr.truthy]. rewrite scan_sentences_spec by (simpl; lia).
      reflexivity. }
  split; [exact Heq|]. rewrite Heq. split.
  - apply firstn_le_length.
  - apply Forall_forall. intros ev Hin. apply PyListFacts.firstn_in in Hin.
    apply scan_timestamps_in in Hin. destruct Hin as (k & s & Hn & _ & ->).
    apply nth_error_In, in_map_iff in Hn. destruct Hn as (x & <- & _).
    split; reflexivity.
Qed.

End EvidenceExtra.

(** ** The configuration files *)
Module ConfigExtra.
Import TopicExtractorV2 ExtractorConfig.
Local Open Scope string_scope.

Lemma is_stop_phrase_in (stop_phrases : list string) (phrase : string) :
  _is_stop_phrase stop_phrases phrase = true
  <-> In (PyStr.strip (PyStr.lower phrase)) stop_phrases.
Proof.
  unfold _is_stop_phrase. rewrite existsb_exists. split.
  - intros (x & Hin & Heq). apply String.eqb_eq in Heq. now subst.
  - intros Hin. eexists. split; [exact Hin | apply String.eqb_refl].
Qed.

Lemma load_lines_in (lines : list string) :
  forall acc x,
    In x (fold_left add_stop_line lines acc)
    <-> In x acc
        \/ exists line,
             In line lines
             /\ PyStr.strip line <> ""
             /\ String.prefix "#" (PyStr.strip line) = false
             /\ x = PyStr.lower (PyStr.strip line).
Proof.
  induction lines as [|l lines IH]; intros acc x; simpl.
  - split; [auto | intros [H|(line & [] & _)]; exact H].
  - rewrite IH. unfold add_stop_line at 1.
    destruct (PyStr.strip l) as [|c s] eqn:Hs; cbn [PyStr.truthy andb].
    + split.
      * intros [H|(line & Hin & H)]; [now left | right; exists line; auto].
      * intros [H|(line & [<-|Hin] & Hne & H)]; [now left | | ].
        -- now rewrite Hs in Hne.
        -- right. exists line. auto.
    + destruct (String.prefix "#" (String c s)) eqn:Hp; cbn [negb].
      * split.
        -- intros [H|(line & Hin & H)]; [now left | right; exists line; auto].
        -- intros [H|(line & [<-|Hin] & Hne & Hp' & H)]; [now left | | ].
           ++ rewrite Hs in Hp'. congruence.
           ++ right. exists line. auto.
      * split.
        -- intros [H|(line & Hin & H)].
           ++ apply ListSet.set_add_elim in H. destruct H as [->|H]; [|now left].
              right. exists l. rewrite Hs. repeat split; auto. discriminate.
           ++ right. exists line. auto.
        -- intros [H|(line & [<-|Hin] & Hne & Hp' & ->)].
           ++ left. now apply ListSet.set_add_intro1.
           ++ left. rewrite Hs. now apply ListSet.set_add_intro2.
           ++ right. exists line. auto.
Qed.

Lemma load_lines_nodup (lines : list string) :
  forall acc, NoDup acc -> NoDup (fold_left add_stop_line lines acc).
Proof.
  induction lines as [|l lines IH]; intros acc Hnd; simpl; [exact Hnd|].
  apply IH. unfold add_stop_line.
  destruct (andb _ _); [now apply ListSet.set_add_nodup | exact Hnd].
Qed.

(** X6.  A phrase is a stop phrase of the loaded file exactly when its
    lower-cased, stripped form is the lower-cased, stripped form of a line of
    the file that is neither blank nor a [#] comment; with no file, no phrase
    is a stop phrase. *)
Theorem loaded_stop_phrases_match (lines : list string) (phrase : string) :
  (_is_stop_phrase (_load_stop_phrases (Some lines)) phrase = true
   <-> exists line,
         In line lines
         /\ PyStr.strip line <> ""
         /\ String.prefix "#" (PyStr.strip line) = false
         /\ PyStr.strip (PyStr.lower phrase) = PyStr.lower (PyStr.strip line))
  /\ _is_stop_phrase (_load_stop_phrases None) phrase = false.
Proof.
  split; [|reflexivity].
  rewrite is_stop_phrase_in. unfold _load_stop_phrases.
  rewrite load_lines_in. split.
  - intros [[]|H]. exact H.
  - intros H. now right.
Qed.

(** X7.  Every phrase that [_load_stop_phrases] returns is recognized by
    [_is_stop_phrase] as it stands, and the loaded phrases are distinct. *)
Theorem loaded_stop_phrases_recognized (stop_file : option (list string)) :
  Forall (fun phrase =>
            _is_stop_phrase (_load_stop_phrases stop_file) phrase = true)
         (_load_stop_phrases stop_file)
  /\ NoDup (_load_stop_phrases stop_file).
Proof.
  split.
  - apply Forall_forall. intros phrase Hin.
    apply is_stop_phrase_in.
    destruct stop_file as [lines|]; [|destruct Hin].
    unfold _load_stop_phrases in *.
    assert (Hnorm : PyStr.strip (PyStr.lower phrase) = phrase).
    { apply load_lines_in in Hin.
      destruct Hin as [[]|(line & _ & _ & _ & ->)].
      rewrite PyStrFacts.lower_idem, <- PyStrFacts.lower_strip.
      now rewrite PyStrFacts.strip_idem. }
    now rewrite Hnorm.
  - destruct stop_file as [lines|]; simpl; [|constructor].
    apply load_lines_nodup. constructor.
Qed.

(** X8.  With no [canonical_topics.json], canonicalization lower-cases and
    strips the phrase, and applying it twice changes nothing more. *)
Theorem default_canonical_map_normalizes (phrase : string) :
  _canonicalize (_load_canonical_map None) phrase
  = PyStr.strip (PyStr.lower phrase)
  /\ _canonicalize (_load_canonical_map None)
       (_canonicalize (_load_canonical_map None) phrase)
     = _canonicalize (_load_canonical_map None) phrase.
Proof.
  assert (H : forall p, _canonicalize (_load_canonical_map None) p
                        = PyStr.strip (PyStr.lower p)) by reflexivity.
  split; [apply H|]. rewrite !H. apply PyStrFacts.normalize_idem.
Qed.

End ConfigExtra.

(** ** The aggregate of an account, as a whole *)
Module AggregateExtra.
Import TopicExtractor AggregateTable.

Lemma sum_values_incr (d : PyDict.dict Z) (k : string) :
  fold_right Z.add 0%Z (PyDict.values (PyDict.incr d k))
  = (fold_right Z.add 0%Z (PyDict.values d) + 1)%Z.
Proof.
  unfold PyDict.incr, PyDict.values.
  induction d as [|[k0 v0] d IH]; simpl; [reflexivity|].
  destruct (String.eqb k k0); simpl; [lia|]. rewrite IH. lia.
Qed.

Lemma sum_counts_add_video (acc : Accumulators) (v : VideoTags) :
  fold_right Z.add 0%Z (PyDict.values (tag_counts (add_video acc v)))
  = (fold_right Z.add 0%Z (PyDict.values (tag_counts acc))
     + Z.of_nat (length (tags v)))%Z.
Proof.
  unfold add_video. generalize (video_id v). intros vid.
  revert acc. induction (tags v) as [|item items IH]; intros acc.
  - simpl. lia.
  - cbn [fold_left length]. rewrite IH. cbn [add_tag tag_counts].
    rewrite sum_values_incr. lia.
Qed.

Lemma sum_counts_fold (vt : list VideoTags) :
  forall acc,
    fold_right Z.add 0%Z (PyDict.values (tag_counts (fold_left add_video vt acc)))
    = (fold_right Z.add 0%Z (PyDict.values (tag_counts acc))
       + Z.of_nat (length (flat_map tags vt)))%Z.
Proof.
  induction vt as [|v vt IH]; intros acc; simpl; [lia|].
  rewrite IH, sum_counts_add_video, length_app. lia.
Qed.

(** X9.  The ranked tags of an aggregate list every tag once, in descending
    order of combined score, and their frequencies add up to the number of
    tag items of the input; [total_tags] and [total_videos] count the ranked
    tags and the input videos. *)
Theorem aggregate_table_shape (video_tags : list VideoTags)
    (video_metadata : list VideoMeta) :
  NoDup (map ranked_tag
             (ranked_tags (aggregate_account_tags video_tags video_metadata)))
  /\ StronglySorted (fun a b => (combined_score b <= combined_score a)%R)
       (ranked_tags (aggregate_account_tags video_tags video_metadata))
  /\ fold_right Z.add 0%Z
       (map frequency
            (ranked_tags (aggregate_account_tags video_tags video_metadata)))
     = Z.of_nat (length (flat_map tags video_tags))
  /\ total_tags (aggregate_account_tags video_tags video_metadata)
     = length (ranked_tags (aggregate_account_tags video_tags video_metadata))
  /\ total_videos (aggregate_account_tags video_tags video_metadata)
     = length video_tags.
Proof.
  unfold aggregate_account_tags. cbn [ranked_tags total_tags total_videos].
  split; [|split; [|split; [|split; reflexivity]]].
  - apply Permutation_NoDup
      with (map ranked_tag
                (map (rank_tag (accumulate video_tags)
                               (video_meta_map video_metadata))
                     (tag_counts (accumulate video_tags)))).
    + apply Permutation_map, VecFacts.sort_desc_perm.
    + rewrite map_map. cbn [rank_tag ranked_tag].
      apply (AggregateFacts.accumulate_nodup video_tags).
  - apply ListExtra.sort_desc_sorted.
  - rewrite (AggregateFacts.perm_sum_Z _
               (map frequency
                    (map (rank_tag (accumulate video_tags)
                                   (video_meta_map video_metadata))
                         (tag_counts (accumulate video_tags))))).
    + rewrite map_map. cbn [rank_tag frequency].
      unfold accumulate.
      change (map (fun x : string * Z => snd x) ?d) with (PyDict.values d).
      rewrite sum_counts_fold. simpl. lia.
    + apply Permutation_sym, Permutation_map, VecFacts.sort_desc_perm.
Qed.

Lemma occurrences_tagged (t : string) (vt : list VideoTags) :
  occurrences t vt <> [] ->
  exists v, In v vt /\ In t (map tag (tags v)).
Proof.
  unfold occurrences. intros Hne.
  destruct (flat_map _ vt) as [|o occ] eqn:Hocc; [contradiction|].
  assert (Hin : In o (o :: occ)) by now left.
  rewrite <- Hocc in Hin. apply in_flat_map in Hin.
  destruct Hin as (v & Hv & Hin). apply in_flat_map in Hin.
  destruct Hin as (item & Hitem & Hin).
  destruct (String.eqb_spec (tag item) t) as [<-|]; [|destruct Hin].
  exists v. split; [exact Hv | now apply in_map].
Qed.

(** X10.  Every ranked tag of an aggregate is a tag of some input video, has
    a frequency of at least 1 that counts its listed videos, and an
    engagement weight of at least 1. *)
Theorem aggregate_rows_counted (video_tags : list VideoTags)
    (video_metadata : list VideoMeta) :
  Forall
    (fun e =>
       (exists v, In v video_tags /\ In (ranked_tag e) (map tag (tags v)))
       /\ (1 <= frequency e)%Z
       /\ Z.of_nat (length (video_ids e)) = frequency e
       /\ (1 <= engagement_weight e)%R)
    (ranked_tags (aggregate_account_tags video_tags video_metadata)).
Proof.
  apply Forall_forall. intros e Hin.
  apply AggregateFacts.ranked_entry in Hin.
  pose proof (AggregateFacts.expected_row_fields _ _ _ _ Hin)
    as (_ & Hf & _ & Hw & _ & Hv).
  assert (Hocc : occurrences (ranked_tag e) video_tags <> []).
  { unfold expected_row in Hin.
    destruct (occurrences _ _); [discriminate | discriminate]. }
  split; [now apply occurrences_tagged|]. split; [|split].
  - rewrite Hf. destruct (occurrences _ _); [contradiction | simpl; lia].
  - rewrite Hv, Hf, length_map. reflexivity.
  - rewrite Hw. destruct (0 <? _)%Z eqn:Hpos; [|lra].
    apply Z.ltb_lt in Hpos. apply IZR_lt in Hpos.
    assert (0 <= ln (1 + IZR (listed_views video_metadata (video_ids e))))%R.
    { rewrite <- ln_1. apply Rlt_le, ln_increasing; lra. }
    lra.
Qed.

End AggregateExtra.

(** ** Keyword tags and the broad category *)
Module KeywordFacts.
Import Outcome KeywordExtractor.
Local Open Scope string_scope.

Lemma enumerate_nth {A} (l : list A) (i : nat) (x : A) :
  nth_error l i = Some x -> In (i, x) (UmbrellaBuilder.enumerate l).
Proof.
  unfold UmbrellaBuilder.enumerate.
  enough (H : forall k, nth_error l i = Some x ->
                        In (k + i, x) (combine (seq k (length l)) l)).
  { intros Hn. apply (H 0) in Hn. exact Hn. }
  revert i. induction l as [|y l IH]; intros [|i] k Hn; simpl in *;
    try discriminate.
  - left. injection Hn as ->. now rewrite Nat.add_0_r.
  - right. rewrite Nat.add_succ_r. apply (IH i (S k) Hn).
Qed.

(** [np.argmax]: the index it gives holds an element that no element
    exceeds. *)
Lemma argmax_greatest (l : list R) (best_idx : nat) :
  argmax l = Some best_idx ->
  exists best,
    nth_error l best_idx = Some best /\ Forall (fun x => (x <= best)%R) l.
Proof.
  unfold argmax. destruct (UmbrellaBuilder.enumerate l) as [|s0 ss] eqn:He;
    [discriminate|].
  intros [= <-].
  pose proof (VecFacts.max_by_in snd ss s0) as Hin.
  rewrite <- He in Hin.
  destruct (Vec.max_by snd s0 ss) as [i best] eqn:Hm.
  apply UmbrellaFacts.in_enumerate in Hin.
  exists best. split; [exact Hin|].
  apply Forall_forall. intros x Hx.
  apply In_nth_error in Hx. destruct Hx as (j & Hj).
  apply enumerate_nth in Hj. rewrite He in Hj.
  apply (VecFacts.max_by_greatest snd ss s0) in Hj. rewrite Hm in Hj.
  exact Hj.
Qed.

Lemma get_combine {V} (ks : list string) (vs : list V) (i : nat)
    (k : string) (v : V) :
  NoDup ks -> nth_error ks i = Some k -> nth_error vs i = Some v ->
  PyDict.get (combine ks vs) k = Some v.
Proof.
  revert vs i. induction ks as [|k0 ks IH]; intros [|v0 vs] [|i] Hnd Hk Hv;
    simpl in *; try discriminate.
  - injection Hk as ->. injection Hv as ->. now rewrite String.eqb_refl.
  - inversion Hnd as [|? ? Hk0 Hks]; subst.
    destruct (String.eqb_spec k k0) as [->|_].
    + exfalso. apply Hk0. eapply nth_error_In, Hk.
    + eapply IH; eauto.
Qed.

Lemma broad_categories_nodup : NoDup BROAD_CATEGORIES.
Proof.
  apply (NoDup_count_occ' string_dec). intros x Hin.
  unfold BROAD_CATEGORIES in *. simpl in Hin.
  repeat (destruct Hin as [<-|Hin]; [vm_compute; reflexivity|]).
  destruct Hin.
Qed.

Lemma argmax_index (l : list R) :
  l <> [] -> exists best_idx, argmax l = Some best_idx /\ best_idx < length l.
Proof.
  intros Hne. destruct (argmax l) as [best_idx|] eqn:Ha.
  - exists best_idx. split; [reflexivity|].
    apply argmax_greatest in Ha. destruct Ha as (best & Hb & _).
    apply nth_error_Some. congruence.
  - exfalso. unfold argmax, UmbrellaBuilder.enumerate in Ha.
    destruct l as [|x l]; [now apply Hne|]. discriminate.
Qed.

Lemma unknown_not_broad : ~ In "Unknown" BROAD_CATEGORIES.
Proof.
  unfold BROAD_CATEGORIES. simpl.
  intros H. repeat (destruct H as [H|H]; [discriminate|]). exact H.
Qed.

Section Extractor.
Variable exn : Type.
Variable value_error index_error : exn.
Variable kw_extract_keywords : string -> Z -> R -> result exn (list (string * R)).
Variable model_encode : list string -> result exn (list Vec.vec).
Variable stop_words : list string.
Variable category_embeddings : list Vec.vec.

(** X11.  [extract_video_tags] never raises.  For a transcript that is
    empty or shorter than 50 characters it returns no tag, and so it does
    when KeyBERT fails.  Otherwise every returned tag is a keyword KeyBERT
    gave, with its score and the type "keyphrase", and is not a single stop
    word; there are at most [max_tags] of them when [max_tags] is not
    negative. *)
Theorem extract_video_tags_filtered (transcript : string)
    (min_tags max_tags : Z) (diversity : R) :
  exists tags,
    extract_video_tags kw_extract_keywords stop_words
      transcript min_tags max_tags diversity = Returns tags
    /\ (String.length transcript < 50 -> tags = [])
    /\ (forall e, kw_extract_keywords transcript max_tags diversity = Error e ->
                  tags = [])
    /\ ((0 <= max_tags)%Z -> (Z.of_nat (length tags) <= max_tags)%Z)
    /\ Forall
         (fun t =>
            type t = "keyphrase"
            /\ single_stop_word stop_words (tag t) = false
            /\ exists keywords,
                 kw_extract_keywords transcript max_tags diversity = Ok keywords
                 /\ In (tag t, score t) keywords)
         tags.
Proof.
  unfold extract_video_tags.
  destruct (orb _ _) eqn:Hshort.
  - exists []. repeat split; auto; try (simpl; lia).
  - apply orb_false_iff in Hshort. destruct Hshort as [_ Hlen].
    apply Nat.ltb_ge in Hlen.
    destruct (kw_extract_keywords transcript max_tags diversity)
      as [keywords|e] eqn:Hk; cbn [call bind try_except].
    + eexists. split; [reflexivity|]. split; [lia|]. split; [discriminate|].
      split; [apply ListExtra.slice_to_length|].
      apply Forall_forall. intros t Hin.
      apply PyListFacts.slice_to_in, in_flat_map in Hin.
      destruct Hin as ([k s] & Hks & Hin). cbn [fst snd] in Hin.
      destruct (single_stop_word stop_words k) eqn:Hstop; [destruct Hin|].
      destruct Hin as [<-|[]]. cbn [tag score type].
      split; [reflexivity|]. split; [exact Hstop|].
      exists keywords. auto.
    + exists []. repeat split; auto; try (simpl; lia).
Qed.

(** X12.  [classify_account_category] never raises.  It answers the unknown
    category with confidence 0 for an empty tag list, when the encoder fails
    or gives no embedding, and when there is no category embedding.
    Otherwise, with at most fifteen category embeddings, it answers one of
    the fifteen broad categories, never "Unknown", and lists the cosine
    similarity of the mean tag embedding with every category embedding; its
    confidence lies in [[-1, 1]], is the score listed for the category it
    answers and is not exceeded by any of the similarities. *)
Theorem classify_account_category_answer (top_tags : list string) (top_n : Z) :
  exists answer,
    classify_account_category value_error index_error model_encode
      category_embeddings top_tags top_n = Returns answer
    /\ (top_tags = [] -> answer = unknown)
    /\ (forall e,
          model_encode (PyList.slice_to top_n top_tags) = Error e ->
          answer = unknown)
    /\ (model_encode (PyList.slice_to top_n top_tags) = Ok [] ->
        answer = unknown)
    /\ (category_embeddings = [] -> answer = unknown)
    /\ (forall tag_embeddings,
          top_tags <> [] ->
          model_encode (PyList.slice_to top_n top_tags) = Ok tag_embeddings ->
          tag_embeddings <> [] ->
          category_embeddings <> [] ->
          length category_embeddings <= length BROAD_CATEGORIES ->
          In (category answer) BROAD_CATEGORIES
          /\ category answer <> "Unknown"
          /\ (-1 <= confidence answer <= 1)%R
          /\ exists account_embedding,
               mean_axis0 tag_embeddings = Some account_embedding
               /\ all_scores answer
                  = Some (combine BROAD_CATEGORIES
                            (map (Vec.cosine_similarity account_embedding)
                                 category_embeddings))
               /\ PyDict.get
                    (combine BROAD_CATEGORIES
                       (map (Vec.cosine_similarity account_embedding)
                            category_embeddings))
                    (category answer)
                  = Some (confidence answer)
               /\ Forall (fun c => (Vec.cosine_similarity account_embedding c
                                    <= confidence answer)%R)
                         category_embeddings)
    /\ (answer = unknown
        \/ (In (category answer) BROAD_CATEGORIES
            /\ (-1 <= confidence answer <= 1)%R
            /\ exists scores,
                 all_scores answer = Some scores
                 /\ PyDict.get scores (category answer)
                    = Some (confidence answer)
                 /\ Forall (fun kv => (snd kv <= confidence answer)%R) scores)).
Proof.
  unfold classify_account_category.
  destruct top_tags as [|t0 ts];
    [exists unknown; do 5 (split; [auto|]); split; [congruence | now left]|].
  unfold classify_body.
  destruct (model_encode (PyList.slice_to top_n (t0 :: ts)))
    as [embs|e] eqn:He; cbn [call bind try_except];
    [|exists unknown; do 5 (split; [auto; discriminate|]); split;
      [discriminate | now left]].
  destruct (mean_axis0 embs) as [account|] eqn:Hmean; cbn [try_except].
  2:{ exists unknown. destruct embs; [|discriminate].
      do 5 (split; [auto|]). split; [|now left].
      intros embs' _ [= <-] Hne. now destruct Hne. }
  destruct (argmax _) as [best_idx|] eqn:Ha; cbn [try_except].
  2:{ exists unknown. do 5 (split; [auto|]). split; [|now left].
      intros embs' _ _ _ Hcat _. exfalso.
      destruct (argmax_index
                  (map (Vec.cosine_similarity account) category_embeddings))
        as (i & Hi & _); [|congruence].
      destruct category_embeddings; [now destruct Hcat | discriminate]. }
  pose proof Ha as Hgreat. apply argmax_greatest in Hgreat.
  destruct Hgreat as (best & Hb & Hmax).
  destruct (nth_error BROAD_CATEGORIES best_idx) as [best_category|] eqn:Hc;
    cbn [try_except].
  2:{ exists unknown. do 5 (split; [auto|]). split; [|now left].
      intros embs' _ _ _ _ Hlen. exfalso.
      apply nth_error_None in Hc.
      assert (Hlt : best_idx
                    < length (map (Vec.cosine_similarity account)
                                  category_embeddings))
        by (apply nth_error_Some; congruence).
      rewrite length_map in Hlt. lia. }
  assert (Hbound : (-1 <= best <= 1)%R).
  { apply nth_error_In, in_map_iff in Hb. destruct Hb as (c & <- & _).
    apply CosineFacts.cosine_similarity_bounds. }
  assert (Hget : PyDict.get
                   (combine BROAD_CATEGORIES
                      (map (Vec.cosine_similarity account) category_embeddings))
                   best_category = Some best)
    by (eapply get_combine; eauto; apply broad_categories_nodup).
  eexists. split; [reflexivity|]. cbn [category confidence all_scores].
  rewrite (nth_error_nth _ _ 0%R Hb).
  split; [discriminate|]. split; [discriminate|].
  split; [intros [= ->]; discriminate|].
  split.
  { intros ->. destruct best_idx; discriminate. }
  split.
  - intros embs' _ [= <-] _ _ _.
    split; [eapply nth_error_In, Hc|].
    split; [intros ->; apply unknown_not_broad; eapply nth_error_In, Hc|].
    split; [exact Hbound|].
    exists account. split; [exact Hmean|]. split; [reflexivity|].
    split; [exact Hget|].
    rewrite Forall_map in Hmax. exact Hmax.
  - right. split; [eapply nth_error_In, Hc|]. split; [exact Hbound|].
    eexists. split; [reflexivity|]. split; [exact Hget|].
    apply Forall_forall. intros [k v] Hin. apply in_combine_r in Hin.
    rewrite Forall_forall in Hmax. apply Hmax, Hin.
Qed.

End Extractor.
End KeywordFacts.

(** ** The similarity graph *)
Module GraphFacts.
Import UmbrellaBuilder Sums.

Lemma enumerate_length {A} (l : list A) : length (enumerate l) = length l.
Proof.
  unfold enumerate. rewrite length_combine, length_seq. apply Nat.min_id.
Qed.

Lemma enumerate_nth_error {A} (l : list A) (i : nat) :
  nth_error (enumerate l) i = option_map (fun x => (i, x)) (nth_error l i).
Proof.
  unfold enumerate.
  enough (H : forall k,
             nth_error (combine (seq k (length l)) l) i
             = option_map (fun x => (k + i, x)) (nth_error l i)) by apply (H 0).
  revert i. induction l as [|x l IH]; intros [|i] k; simpl; try reflexivity.
  - now rewrite Nat.add_0_r.
  - rewrite IH, Nat.add_succ_r. reflexivity.
Qed.

(** Enumerating what a function makes of the entries of an enumeration. *)
Lemma enumerate_map_enumerate {A B} (f : nat * A -> B) (l : list A) :
  enumerate (map f (enumerate l)) = map (fun r => (fst r, f r)) (enumerate l).
Proof.
  unfold enumerate at 1. rewrite length_map, enumerate_length.
  unfold enumerate. generalize 0 as k.
  induction l as [|x l IH]; intros k; simpl; [reflexivity|]. now rewrite IH.
Qed.

Lemma dot_comm (x y : Vec.vec) : Vec.dot x y = Vec.dot y x.
Proof.
  revert y. induction x as [|a x IH]; intros [|b y]; simpl; try reflexivity.
  rewrite IH. lra.
Qed.

Lemma cosine_comm (x y : Vec.vec) :
  Vec.cosine_similarity x y = Vec.cosine_similarity y x.
Proof. unfold Vec.cosine_similarity. apply dot_comm. Qed.

Lemma zsum_ext {A} (f g : A -> Z) (l : list A) :
  (forall x, In x l -> f x = g x) -> zsum f l = zsum g l.
Proof.
  unfold zsum. induction l as [|x l IH]; intros H; simpl; [reflexivity|].
  rewrite (H x) by (simpl; auto). rewrite IH; [reflexivity|].
  intros y Hy. apply H. now right.
Qed.

Lemma zsum_add {A} (f g : A -> Z) (l : list A) :
  zsum (fun x => (f x + g x)%Z) l = (zsum f l + zsum g l)%Z.
Proof.
  unfold zsum. induction l as [|x l IH]; simpl; [reflexivity|].
  rewrite IH. lia.
Qed.

Lemma zsum_zero {A} (l : list A) : zsum (fun _ => 0%Z) l = 0%Z.
Proof. unfold zsum. induction l as [|x l IH]; simpl; [reflexivity | exact IH]. Qed.

(** Two nested sums may be taken in either order. *)
Lemma zsum_swap {A B} (f : A -> B -> Z) (l : list A) (l' : list B) :
  zsum (fun r => zsum (fun c => f r c) l') l
  = zsum (fun c => zsum (fun r => f r c) l) l'.
Proof.
  induction l as [|x l IH].
  - cbn. symmetry. apply zsum_zero.
  - change (zsum (fun r => zsum (fun c => f r c) l') (x :: l))
      with (zsum (fun c => f x c) l'
            + zsum (fun r => zsum (fun c => f r c) l') l)%Z.
    rewrite IH, <- zsum_add. reflexivity.
Qed.

Lemma zsum_concat {A} (f : A -> list Z) (l : list A) :
  fold_right Z.add 0%Z (concat (map f l))
  = zsum (fun x => fold_right Z.add 0%Z (f x)) l.
Proof.
  unfold zsum. induction l as [|x l IH]; simpl; [reflexivity|].
  rewrite fold_right_app, <- IH.
  generalize (fold_right Z.add 0%Z (concat (map f l))). intros s.
  induction (f x) as [|a r IHr]; simpl; lia.
Qed.

Lemma length_flat_map_zsum {A B} (f : A -> list B) (l : list A) :
  Z.of_nat (length (flat_map f l)) = zsum (fun x => Z.of_nat (length (f x))) l.
Proof.
  unfold zsum. induction l as [|x l IH]; simpl; [reflexivity|].
  rewrite length_app, Nat2Z.inj_add, IH. reflexivity.
Qed.

Lemma nth_map_enumerate {A B} (f : nat * A -> B) (l : list A) (i : nat)
    (x : A) (d : B) :
  nth_error l i = Some x -> nth i (map f (enumerate l)) d = f (i, x).
Proof.
  intros Hi. apply nth_error_nth.
  now rewrite nth_error_map, enumerate_nth_error, Hi.
Qed.

Lemma nth_map_enumerate_none {A B} (f : nat * A -> B) (l : list A) (i : nat)
    (d : B) :
  nth_error l i = None -> nth i (map f (enumerate l)) d = d.
Proof.
  intros Hi. apply nth_overflow. rewrite length_map, enumerate_length.
  now apply nth_error_None.
Qed.

Section Graph.
Variable similarity_threshold : R.
Variable topics : list string.
Variable embeddings : list Vec.vec.

(** The entry of the adjacency matrix for two enumerated embeddings. *)
Local Abbreviation cell row col :=
  (if Nat.eqb (fst row) (fst col) then 0%Z
   else if Rle_dec similarity_threshold
                   (Vec.cosine_similarity (snd row) (snd col))
        then 1%Z else 0%Z).

Local Abbreviation adj_matrix :=
  (fst (_build_similarity_graph similarity_threshold topics embeddings)).

Lemma adj_matrix_unfold :
  adj_matrix
  = map (fun row : nat * Vec.vec =>
           map (fun col : nat * Vec.vec => cell row col) (enumerate embeddings))
        (enumerate embeddings).
Proof. reflexivity. Qed.

Lemma adj_entry (i j : nat) :
  nth j (nth i adj_matrix []) 0%Z
  = match nth_error embeddings i, nth_error embeddings j with
    | Some ei, Some ej => cell (i, ei) (j, ej)
    | _, _ => 0%Z
    end.
Proof.
  rewrite adj_matrix_unfold.
  destruct (nth_error embeddings i) as [ei|] eqn:Hi.
  - rewrite (nth_map_enumerate _ _ _ _ _ Hi).
    destruct (nth_error embeddings j) as [ej|] eqn:Hj.
    + now rewrite (nth_map_enumerate _ _ _ _ _ Hj).
    + now rewrite nth_map_enumerate_none.
  - rewrite nth_map_enumerate_none by exact Hi. now destruct j.
Qed.

(** X13.  The adjacency matrix of the similarity graph is square, one row
    and one column per embedding; its entries are 0 or 1; it holds 1 at
    [(i, j)] exactly when [i] and [j] are different and the cosine similarity
    of the two embeddings reaches the threshold; it is symmetric and its
    diagonal is 0. *)
Theorem similarity_graph_shape :
  length (fst (_build_similarity_graph similarity_threshold topics embeddings))
  = length embeddings
  /\ Forall (fun row => length row = length embeddings)
       (fst (_build_similarity_graph similarity_threshold topics embeddings))
  /\ (forall i j,
        nth j (nth i (fst (_build_similarity_graph similarity_threshold topics
                             embeddings)) []) 0%Z = 1%Z
        <-> i <> j
            /\ exists ei ej,
                 nth_error embeddings i = Some ei
                 /\ nth_error embeddings j = Some ej
                 /\ (similarity_threshold <= Vec.cosine_similarity ei ej)%R)
  /\ (forall i j,
        nth j (nth i (fst (_build_similarity_graph similarity_threshold topics
                             embeddings)) []) 0%Z = 0%Z
        \/ nth j (nth i (fst (_build_similarity_graph similarity_threshold topics
                                embeddings)) []) 0%Z = 1%Z)
  /\ (forall i j,
        nth j (nth i (fst (_build_similarity_graph similarity_threshold topics
                             embeddings)) []) 0%Z
        = nth i (nth j (fst (_build_similarity_graph similarity_threshold topics
                               embeddings)) []) 0%Z)
  /\ (forall i,
        nth i (nth i (fst (_build_similarity_graph similarity_threshold topics
                             embeddings)) []) 0%Z = 0%Z).
Proof.
  split; [|split; [|split; [|split; [|split]]]].
  - rewrite adj_matrix_unfold, length_map. apply enumerate_length.
  - rewrite adj_matrix_unfold. apply Forall_forall. intros row Hin.
    apply in_map_iff in Hin. destruct Hin as (r & <- & _).
    rewrite length_map. apply enumerate_length.
  - intros i j. rewrite adj_entry. cbn [fst snd].
    destruct (nth_error embeddings i) as [ei|];
      [|split; [discriminate | intros (_ & ? & ? & [=] & _)]].
    destruct (nth_error embeddings j) as [ej|];
      [|split; [discriminate | intros (_ & ? & ? & _ & [=] & _)]].
    destruct (Nat.eqb_spec i j) as [->|Hne].
    + split; [discriminate | intros [H _]; now destruct H].
    + destruct (Rle_dec _ _) as [Hle|Hnle].
      * split; [|reflexivity]. intros _. split; [exact Hne|]. eauto.
      * split; [discriminate|]. intros (_ & ? & ? & [= <-] & [= <-] & H).
        contradiction.
  - intros i j. rewrite adj_entry.
    destruct (nth_error embeddings i); [|now left].
    destruct (nth_error embeddings j); [|now left].
    destruct (Nat.eqb _ _); [now left|]. destruct (Rle_dec _ _); auto.
  - intros i j. rewrite !adj_entry. cbn [fst snd].
    destruct (nth_error embeddings i) as [ei|],
             (nth_error embeddings j) as [ej|]; try reflexivity.
    rewrite (Nat.eqb_sym j i), (cosine_comm ej ei). reflexivity.
  - intros i. rewrite adj_entry.
    destruct (nth_error embeddings i); [|reflexivity].
    cbn [fst]. now rewrite Nat.eqb_refl.
Qed.

Lemma cell_split (r c : nat * Vec.vec) :
  cell r c
  = ((if Nat.ltb (fst r) (fst c) then cell r c else 0)
     + (if Nat.ltb (fst c) (fst r) then cell c r else 0))%Z.
Proof.
  rewrite (Nat.eqb_sym (fst c) (fst r)), (cosine_comm (snd c) (snd r)).
  destruct (Nat.eqb_spec (fst r) (fst c)) as [->|Hne].
  - rewrite Nat.ltb_irrefl. reflexivity.
  - destruct (Nat.ltb_spec (fst r) (fst c)), (Nat.ltb_spec (fst c) (fst r));
      try lia.
Qed.

Lemma upper_edges_unfold :
  upper_edges adj_matrix
  = flat_map
      (fun r : nat * Vec.vec =>
         flat_map
           (fun c : nat * Vec.vec =>
              if andb (Nat.ltb (fst r) (fst c)) (negb (Z.eqb (cell r c) 0))
              then [(fst r, fst c)] else [])
           (enumerate embeddings))
      (enumerate embeddings).
Proof.
  rewrite adj_matrix_unfold. unfold upper_edges.
  rewrite enumerate_map_enumerate, flat_map_concat_map, map_map,
    <- flat_map_concat_map.
  apply flat_map_ext. intros r. cbn [fst snd].
  rewrite enumerate_map_enumerate, flat_map_concat_map, map_map,
    <- flat_map_concat_map.
  reflexivity.
Qed.

(** X14.  The edge count of the similarity graph is the number of edges
    above the diagonal, which are the edges the Leiden strategy hands to the
    graph library. *)
Theorem similarity_graph_edge_count :
  snd (_build_similarity_graph similarity_threshold topics embeddings)
  = Z.of_nat
      (length
         (upper_edges
            (fst (_build_similarity_graph similarity_threshold topics
                    embeddings)))).
Proof.
  rewrite upper_edges_unfold.
  unfold _build_similarity_graph. cbn [snd].
  rewrite zsum_concat.
  rewrite length_flat_map_zsum.
  set (E := enumerate embeddings).
  set (u := fun r c : nat * Vec.vec =>
              (if Nat.ltb (fst r) (fst c) then cell r c else 0)%Z).
  assert (Hup : zsum (fun r =>
                        Z.of_nat
                          (length
                             (flat_map
                                (fun c : nat * Vec.vec =>
                                   if andb (Nat.ltb (fst r) (fst c))
                                           (negb (Z.eqb (cell r c) 0))
                                   then [(fst r, fst c)] else []) E))) E
                = zsum (fun r => zsum (fun c => u r c) E) E).
  { apply zsum_ext. intros r _. rewrite length_flat_map_zsum.
    apply zsum_ext. intros c _. unfold u.
    destruct (Nat.ltb (fst r) (fst c)); [|reflexivity].
    destruct (Nat.eqb (fst r) (fst c)); [reflexivity|].
    destruct (Rle_dec _ _); reflexivity. }
  rewrite Hup.
  assert (Hall : zsum (fun r =>
                         fold_right Z.add 0%Z
                           (map (fun c : nat * Vec.vec => cell r c) E)) E
                 = (2 * zsum (fun r => zsum (fun c => u r c) E) E)%Z).
  { transitivity (zsum (fun r => zsum (fun c => (u r c + u c r)%Z) E) E).
    - apply zsum_ext. intros r _. apply zsum_ext. intros c _. apply cell_split.
    - rewrite (zsum_ext _ (fun r => (zsum (fun c => u r c) E
                                     + zsum (fun c => u c r) E)%Z))
        by (intros; apply zsum_add).
      rewrite zsum_add, (zsum_swap (fun r c => u c r)). lia. }
  rewrite Hall. rewrite Z.mul_comm. apply Z.div_mul. lia.
Qed.

End Graph.

End GraphFacts.

(** ** The clusters of the cascade *)
Module ClusterExtra.
Import UmbrellaBuilder ClusterSpec.

Lemma concat_add_member (clusters : list (Z * list nat)) (label : Z) (idx : nat) :
  Permutation (concat (map snd (add_member clusters label idx)))
              (concat (map snd clusters) ++ [idx]).
Proof.
  induction clusters as [|[l c] rest IH]; simpl; [reflexivity|].
  destruct (Z.eqb l label); simpl.
  - rewrite <- !app_assoc. apply Permutation_app_head, Permutation_app_comm.
  - rewrite IH. now rewrite app_assoc.
Qed.

(** The groups hold every index once: they rearrange the indices read. *)
Lemma concat_group_by_label (pairs : list (nat * Z)) :
  Permutation (concat (map snd (group_by_label pairs))) (map fst pairs).
Proof.
  induction pairs as [|p pairs IH] using rev_ind; [reflexivity|].
  rewrite ClusterFacts.group_by_label_snoc, concat_add_member, map_app, IH.
  reflexivity.
Qed.

Lemma nodup_concat_filter {A} (p : list A -> bool) (ll : list (list A)) :
  NoDup (concat ll) -> NoDup (concat (filter p ll)).
Proof.
  induction ll as [|l ll IH]; simpl; [trivial|]. intros Hnd.
  pose proof (NoDup_app_remove_l _ _ Hnd) as Hll.
  destruct (p l); [|now apply IH]. simpl.
  apply NoDup_app; [now apply NoDup_app_remove_r in Hnd | now apply IH |].
  intros x Hx Hin.
  assert (Hin' : In x (concat ll)).
  { apply in_concat in Hin. destruct Hin as (c & Hc & Hxc).
    apply filter_In in Hc. apply in_concat. exists c. tauto. }
  revert Hx Hin'. clear -Hnd. revert x.
  induction l as [|y l IHl]; simpl in *; [tauto|].
  inversion Hnd as [|? ? Hy Hrest]; subst. intros x [<-|Hx] Hin.
  - apply Hy, in_or_app. now right.
  - now apply (IHl Hrest x).
Qed.

Lemma nodup_map_filter {A B} (f : A -> B) (p : A -> bool) (l : list A) :
  NoDup (map f l) -> NoDup (map f (filter p l)).
Proof.
  induction l as [|x l IH]; simpl; [trivial|]. intros Hnd.
  inversion Hnd as [|? ? Hx Hl]; subst.
  destruct (p x); simpl; [|now apply IH].
  constructor; [|now apply IH].
  intros Hin. apply Hx. apply in_map_iff in Hin.
  destruct Hin as (y & Hy & Hin). apply filter_In in Hin.
  apply in_map_iff. exists y. tauto.
Qed.

Lemma map_fst_enumerate {A} (l : list A) :
  map fst (enumerate l) = seq 0 (length l).
Proof.
  unfold enumerate. generalize 0.
  induction l as [|x l IH]; intros k; simpl; [reflexivity|]. now rewrite IH.
Qed.

Lemma groups_nonempty (pairs : list (nat * Z)) :
  Forall (fun c : list nat => c <> []) (map snd (group_by_label pairs)).
Proof.
  apply Forall_forall. intros c Hc. apply in_map_iff in Hc.
  destruct Hc as ([l c'] & <- & Hin). simpl.
  destruct (ClusterFacts.grouped_group_by_label pairs) as (_ & _ & Hent).
  destruct (Hent _ _ Hin) as [Hlen HinL].
  apply (count_occ_In Z.eq_dec) in HinL.
  intros ->. simpl in Hlen. lia.
Qed.

Lemma groups_share_no_index (pairs : list (nat * Z)) :
  NoDup (map fst pairs) -> NoDup (concat (map snd (group_by_label pairs))).
Proof.
  intros Hnd. eapply Permutation_NoDup; [|exact Hnd].
  symmetry. apply concat_group_by_label.
Qed.

Lemma forall_filter {A} (P : A -> Prop) (p : A -> bool) (l : list A) :
  Forall P l -> Forall P (filter p l).
Proof.
  rewrite !Forall_forall. intros H x Hx. apply filter_In in Hx. apply H, Hx.
Qed.

Section Cascade.
Variable min_cluster_size : Z.
Variable resolution : R.
Variables LEIDEN_AVAILABLE LOUVAIN_AVAILABLE HDBSCAN_AVAILABLE : bool.
Variable leiden_membership : nat -> list (nat * nat) -> R -> list Z.
Variable louvain_best_partition : list (list Z) -> R -> list (nat * Z).
Variable hdbscan_fit_predict : Z -> R -> list (list R) -> list Z.
Variable connected_components : list (list Z) -> nat * list Z.

(** X15.  The clustering method an account's output names is the strategy
    the cascade runs: the first of Leiden, Louvain and HDBSCAN that is
    available, and connected components when none is. *)
Theorem clustering_method_names_strategy (topics : list string)
    (adj_matrix : list (list Z)) :
  (LEIDEN_AVAILABLE = true
   /\ _get_clustering_method LEIDEN_AVAILABLE LOUVAIN_AVAILABLE
        HDBSCAN_AVAILABLE = "leiden"%string
   /\ _cluster_topics min_cluster_size resolution
        LEIDEN_AVAILABLE LOUVAIN_AVAILABLE HDBSCAN_AVAILABLE
        leiden_membership louvain_best_partition hdbscan_fit_predict
        connected_components topics adj_matrix
      = _cluster_leiden min_cluster_size resolution leiden_membership adj_matrix)
  \/ (LEIDEN_AVAILABLE = false /\ LOUVAIN_AVAILABLE = true
      /\ _get_clustering_method LEIDEN_AVAILABLE LOUVAIN_AVAILABLE
           HDBSCAN_AVAILABLE = "louvain"%string
      /\ _cluster_topics min_cluster_size resolution
           LEIDEN_AVAILABLE LOUVAIN_AVAILABLE HDBSCAN_AVAILABLE
           leiden_membership louvain_best_partition hdbscan_fit_predict
           connected_components topics adj_matrix
         = _cluster_louvain min_cluster_size resolution louvain_best_partition
                            adj_matrix)
  \/ (LEIDEN_AVAILABLE = false /\ LOUVAIN_AVAILABLE = false
      /\ HDBSCAN_AVAILABLE = true
      /\ _get_clustering_method LEIDEN_AVAILABLE LOUVAIN_AVAILABLE
           HDBSCAN_AVAILABLE = "hdbscan"%string
      /\ _cluster_topics min_cluster_size resolution
           LEIDEN_AVAILABLE LOUVAIN_AVAILABLE HDBSCAN_AVAILABLE
           leiden_membership louvain_best_partition hdbscan_fit_predict
           connected_components topics adj_matrix
         = _cluster_hdbscan min_cluster_size hdbscan_fit_predict topics
                            adj_matrix)
  \/ (LEIDEN_AVAILABLE = false /\ LOUVAIN_AVAILABLE = false
      /\ HDBSCAN_AVAILABLE = false
      /\ _get_clustering_method LEIDEN_AVAILABLE LOUVAIN_AVAILABLE
           HDBSCAN_AVAILABLE = "connected_components"%string
      /\ _cluster_topics min_cluster_size resolution
           LEIDEN_AVAILABLE LOUVAIN_AVAILABLE HDBSCAN_AVAILABLE
           leiden_membership louvain_best_partition hdbscan_fit_predict
           connected_components topics adj_matrix
         = _cluster_connected_components min_cluster_size connected_components
                                         adj_matrix).
Proof.
  unfold _get_clustering_method, _cluster_topics.
  destruct LEIDEN_AVAILABLE; [left; auto|].
  destruct LOUVAIN_AVAILABLE; [right; left; auto|].
  destruct HDBSCAN_AVAILABLE; [right; right; left; auto|].
  right; right; right; auto.
Qed.

(** X16.  No strategy of the cascade emits an empty cluster or puts a topic
    index into two clusters or twice into one, provided the Louvain partition
    lists every node once, as the items of a dictionary do. *)
Theorem clusters_share_no_topic (topics : list string)
    (adj_matrix : list (list Z)) :
  NoDup (map fst (louvain_best_partition adj_matrix resolution)) ->
  NoDup (concat (_cluster_topics min_cluster_size resolution
                   LEIDEN_AVAILABLE LOUVAIN_AVAILABLE HDBSCAN_AVAILABLE
                   leiden_membership louvain_best_partition hdbscan_fit_predict
                   connected_components topics adj_matrix))
  /\ Forall (fun c : list nat => c <> [])
       (_cluster_topics min_cluster_size resolution
          LEIDEN_AVAILABLE LOUVAIN_AVAILABLE HDBSCAN_AVAILABLE
          leiden_membership louvain_best_partition hdbscan_fit_predict
          connected_components topics adj_matrix).
Proof.
  intros Hlouvain.
  assert (Henum : forall labels : list Z, NoDup (map fst (enumerate labels))).
  { intros labels. rewrite map_fst_enumerate. apply seq_NoDup. }
  unfold _cluster_topics, _cluster_leiden, _cluster_louvain, _cluster_hdbscan,
    _cluster_connected_components, filter_min_size.
  destruct LEIDEN_AVAILABLE; [|destruct LOUVAIN_AVAILABLE;
                                [|destruct HDBSCAN_AVAILABLE]].
  - split; [apply nodup_concat_filter, groups_share_no_index, Henum
           | apply forall_filter, groups_nonempty].
  - split; [apply nodup_concat_filter, groups_share_no_index, Hlouvain
           | apply forall_filter, groups_nonempty].
  - split; [apply groups_share_no_index, nodup_map_filter, Henum
           | apply groups_nonempty].
  - split; [apply nodup_concat_filter, groups_share_no_index, Henum
           | apply forall_filter, groups_nonempty].
Qed.

End Cascade.

Lemma clusters_share_no_topic_witness :
  NoDup (concat (_cluster_topics 2 1%R false true false
                   (fun _ _ _ => sample_membership)
                   (fun _ _ => enumerate sample_membership)
                   sample_hdbscan
                   (fun _ => (2, sample_membership))
                   ["a"; "b"; "c"]%string sample_adjacency))
  /\ Forall (fun c : list nat => c <> [])
       (_cluster_topics 2 1%R false true false
          (fun _ _ _ => sample_membership)
          (fun _ _ => enumerate sample_membership)
          sample_hdbscan
          (fun _ => (2, sample_membership))
          ["a"; "b"; "c"]%string sample_adjacency).
Proof.
  apply (clusters_share_no_topic 2 1%R false true false
           (fun _ _ _ => sample_membership)
           (fun _ _ => enumerate sample_membership)
           sample_hdbscan
           (fun _ => (2, sample_membership))
           ["a"; "b"; "c"]%string sample_adjacency).
  cbn. repeat constructor; cbn; intuition lia.
Defined.

End ClusterExtra.

(** ** The umbrellas of a list of clusters *)
Module UmbrellaExtra.
Import UmbrellaBuilder Sums.
Local Open Scope string_scope.

Lemma min_of_least (x : Z) (l : list Z) :
  Forall (fun y => (min_of x l <= y)%Z) (x :: l).
Proof.
  unfold min_of.
  enough (H : forall a, (fold_left Z.min l a <= a)%Z
                        /\ Forall (fun y => (fold_left Z.min l a <= y)%Z) l).
  { constructor; apply H. }
  induction l as [|y l IH]; intros a; simpl.
  - split; [lia | constructor].
  - destruct (IH (Z.min a y)) as [Ha Hl]. split; [lia|].
    constructor; [lia | exact Hl].
Qed.

Lemma max_of_greatest (x : Z) (l : list Z) :
  Forall (fun y => (y <= max_of x l)%Z) (x :: l).
Proof.
  unfold max_of.
  enough (H : forall a, (a <= fold_left Z.max l a)%Z
                        /\ Forall (fun y => (y <= fold_left Z.max l a)%Z) l).
  { constructor; apply H. }
  induction l as [|y l IH]; intros a; simpl.
  - split; [lia | constructor].
  - destruct (IH (Z.max a y)) as [Ha Hl]. split; [lia|].
    constructor; [lia | exact Hl].
Qed.

Lemma sorted_weaken {A} (R R' : A -> A -> Prop) (l : list A) :
  (forall a b, R a b -> R' a b) -> StronglySorted R l -> StronglySorted R' l.
Proof.
  intros Himp Hs. induction Hs as [|a l Hs IH Hall]; constructor; [exact IH|].
  rewrite Forall_forall in *. intros b Hb. apply Himp, Hall, Hb.
Qed.

Section Assembler.
Variable _generate_umbrella_label : list string -> list Vec.vec -> string.
Variable topic_nodes : list TopicNode.
Variable embeddings : list Vec.vec.
Variable canonical_topics : list string.

(** The nodes of an umbrella: those whose canonical topic is a member. *)
Local Abbreviation nodes_of members :=
  (filter (fun node => existsb (String.eqb (canonical node)) members)
          topic_nodes).

Lemma build_umbrella_fields (i : nat) (cluster_indices : list nat)
    (u : UmbrellaCluster) :
  build_umbrella _generate_umbrella_label topic_nodes embeddings
                 canonical_topics i cluster_indices = Some u ->
  umbrella_id u = umbrella_name i
  /\ members u = map (fun idx => nth idx canonical_topics "") cluster_indices
  /\ member_count u = length cluster_indices
  /\ nodes_of (members u) <> []
  /\ total_frequency u = zsum frequency (nodes_of (members u))
  /\ umbrella_video_ids u
     = PyList.list_set (concat (map video_ids (nodes_of (members u))))
  /\ representative_topics u
     = map canonical
           (firstn 5 (Vec.sort_desc (fun n => IZR (frequency n))
                                    (nodes_of (members u))))
  /\ Forall (fun node =>
               (min_frequency (stats u) <= frequency node
                <= max_frequency (stats u))%Z)
            (nodes_of (members u)).
Proof.
  unfold build_umbrella.
  destruct (filter _ topic_nodes) as [|n0 ns] eqn:Hnodes; [discriminate|].
  intros [= <-]. cbn [umbrella_id members member_count total_frequency
                     umbrella_video_ids representative_topics stats
                     min_frequency max_frequency].
  rewrite Hnodes, length_map.
  repeat split; try reflexivity; try discriminate.
  pose proof (min_of_least (frequency n0) (map frequency ns)) as Hmin.
  pose proof (max_of_greatest (frequency n0) (map frequency ns)) as Hmax.
  change (frequency n0 :: map frequency ns) with (map frequency (n0 :: ns))
    in Hmin, Hmax.
  rewrite Forall_map in Hmin, Hmax.
  rewrite Forall_forall in *. intros node Hin.
  split; [now apply Hmin | now apply Hmax].
Qed.

Lemma built_umbrellas_count (clusters : list (nat * list nat)) :
  length (flat_map
            (fun ic =>
               match build_umbrella _generate_umbrella_label topic_nodes
                       embeddings canonical_topics (fst ic) (snd ic) with
               | Some umbrella => [umbrella]
               | None => []
               end) clusters)
  <= length clusters.
Proof.
  induction clusters as [|ic clusters IH]; simpl; [lia|].
  rewrite length_app. destruct (build_umbrella _ _ _ _ _ _); simpl; lia.
Qed.

(** X17.  Every umbrella comes from one cluster, whose position numbers
    it: its members are the canonical topics at the indices of the cluster and
    [member_count] counts them.  Some topic node belongs to it; its total
    frequency is the sum over its nodes, whose frequencies lie between its
    minimum and maximum frequency; it has at most five representative topics,
    all of them members, and lists no video twice.  The umbrellas are in
    descending order of total frequency and are no more than the clusters. *)
Theorem build_umbrellas_invariants (clusters : list (list nat)) :
  Forall
    (fun u =>
       (exists i cluster_indices,
          nth_error clusters i = Some cluster_indices
          /\ umbrella_id u = umbrella_name i
          /\ members u
             = map (fun idx => nth idx canonical_topics "") cluster_indices
          /\ member_count u = length cluster_indices)
       /\ member_count u = length (members u)
       /\ nodes_of (members u) <> []
       /\ total_frequency u = zsum frequency (nodes_of (members u))
       /\ Forall (fun node =>
                    (min_frequency (stats u) <= frequency node
                     <= max_frequency (stats u))%Z
                    /\ incl (video_ids node) (umbrella_video_ids u))
                 (nodes_of (members u))
       /\ (min_frequency (stats u) <= max_frequency (stats u))%Z
       /\ length (representative_topics u) <= 5
       /\ incl (representative_topics u) (members u)
       /\ NoDup (umbrella_video_ids u))
    (_build_umbrellas _generate_umbrella_label topic_nodes embeddings
                      canonical_topics clusters)
  /\ StronglySorted (fun a b => (total_frequency b <= total_frequency a)%Z)
       (_build_umbrellas _generate_umbrella_label topic_nodes embeddings
                         canonical_topics clusters)
  /\ length (_build_umbrellas _generate_umbrella_label topic_nodes embeddings
                              canonical_topics clusters)
     <= length clusters.
Proof.
  split; [|split].
  - apply Forall_forall. intros u Hu.
    apply UmbrellaFacts.build_umbrellas_origin in Hu.
    destruct Hu as (i & c & Hnth & Hb).
    apply build_umbrella_fields in Hb.
    destruct Hb as (Hid & Hm & Hc & Hne & Htf & Hv & Hr & Hf).
    split; [exists i, c; auto|].
    split; [now rewrite Hc, Hm, length_map|].
    split; [exact Hne|]. split; [exact Htf|].
    split; [|split; [|split; [|split]]].
    + rewrite Forall_forall in *. intros node Hin. split; [now apply Hf|].
      intros v Hvin. rewrite Hv. unfold PyList.list_set. apply nodup_In.
      apply in_concat. exists (video_ids node). split; [|exact Hvin].
      now apply in_map.
    + destruct (nodes_of (members u)) as [|n0 ns]; [contradiction|].
      inversion Hf; subst. lia.
    + rewrite Hr, length_map. apply firstn_le_length.
    + rewrite Hr. intros t Ht. apply in_map_iff in Ht.
      destruct Ht as (node & <- & Hin).
      apply PyListFacts.firstn_in, VecFacts.sort_desc_in, filter_In in Hin.
      destruct Hin as [_ Hin]. apply existsb_exists in Hin.
      destruct Hin as (m & Hm' & Heq). apply String.eqb_eq in Heq.
      now rewrite Heq.
    + rewrite Hv. apply NoDup_nodup.
  - unfold _build_umbrellas.
    eapply sorted_weaken; [|apply ListExtra.sort_desc_sorted].
    intros a b Hab. now apply le_IZR.
  - unfold _build_umbrellas.
    rewrite <- (Permutation_length (VecFacts.sort_desc_perm _ _)).
    etransitivity; [apply built_umbrellas_count|].
    unfold enumerate. rewrite length_combine, length_seq. lia.
Qed.

End Assembler.
End UmbrellaExtra.

(** ** Sorted lists of strings *)
Module SortedStrings.
Import AccountUmbrellas.
Local Open Scope string_scope.

Lemma ascii_compare_refl (c : ascii) : Ascii.compare c c = Eq.
Proof. unfold Ascii.compare. apply N.compare_refl. Qed.

Lemma compare_lt_trans (s1 s2 s3 : string) :
  String.compare s1 s2 = Lt -> String.compare s2 s3 = Lt ->
  String.compare s1 s3 = Lt.
Proof.
  revert s2 s3.
  induction s1 as [|c1 s1 IH]; intros [|c2 s2] [|c3 s3]; simpl;
    try discriminate; try reflexivity.
  destruct (Ascii.compare c1 c2) eqn:H12; try discriminate;
    destruct (Ascii.compare c2 c3) eqn:H23; try discriminate; intros Ha Hb.
  - apply Ascii.compare_eq_iff in H12, H23. subst.
    rewrite ascii_compare_refl. now apply IH with s2.
  - apply Ascii.compare_eq_iff in H12. subst. now rewrite H23.
  - apply Ascii.compare_eq_iff in H23. subst. now rewrite H12.
  - unfold Ascii.compare in *. rewrite N.compare_lt_iff in *.
    assert (H13 : (N_of_ascii c1 < N_of_ascii c3)%N) by lia.
    apply N.compare_lt_iff in H13. now rewrite H13.
Qed.

Lemma ltb_trans (s1 s2 s3 : string) :
  String.ltb s1 s2 = true -> String.ltb s2 s3 = true -> String.ltb s1 s3 = true.
Proof.
  unfold String.ltb. intros H12 H23.
  rewrite (compare_lt_trans s1 s2 s3); [reflexivity | |].
  - destruct (String.compare s1 s2); congruence.
  - destruct (String.compare s2 s3); congruence.
Qed.

Lemma ltb_asym (s1 s2 : string) :
  String.ltb s1 s2 = true -> String.ltb s2 s1 = false.
Proof.
  unfold String.ltb. rewrite (String.compare_antisym s2 s1).
  destruct (String.compare s1 s2); simpl; congruence.
Qed.

(** Of two different strings one is below the other. *)
Lemma ltb_connected (s1 s2 : string) :
  s1 <> s2 -> String.ltb s2 s1 = false -> String.ltb s1 s2 = true.
Proof.
  unfold String.ltb. intros Hne. rewrite (String.compare_antisym s2 s1).
  destruct (String.compare s1 s2) eqn:Hc; simpl; try congruence.
  apply String.compare_eq_iff in Hc. contradiction.
Qed.

Lemma insert_sorted_perm (x : string) (l : list string) :
  Permutation (x :: l) (insert_sorted x l).
Proof.
  induction l as [|y l IH]; simpl; [reflexivity|].
  destruct (String.ltb x y); [reflexivity|].
  rewrite perm_swap. now apply perm_skip.
Qed.

Lemma sorted_perm (l : list string) : Permutation l (sorted l).
Proof.
  induction l as [|x l IH]; simpl; [reflexivity|].
  rewrite <- insert_sorted_perm. now apply perm_skip.
Qed.

Lemma insert_sorted_ordered (x : string) (l : list string) :
  StronglySorted (fun a b => String.ltb b a = false) l ->
  StronglySorted (fun a b => String.ltb b a = false) (insert_sorted x l).
Proof.
  induction l as [|y l IH]; simpl; intros Hs.
  - repeat constructor.
  - inversion Hs as [|? ? Hl Hy]; subst.
    destruct (String.ltb x y) eqn:Hxy.
    + constructor; [exact Hs|]. constructor; [now apply ltb_asym|].
      rewrite Forall_forall in *. intros b Hb.
      destruct (String.ltb b x) eqn:Hbx; [|reflexivity].
      rewrite <- (Hy b Hb). symmetry. now apply ltb_trans with x.
    + constructor; [now apply IH|].
      rewrite Forall_forall in *. intros b Hb.
      apply Permutation_in with (l' := x :: l) in Hb;
        [|symmetry; apply insert_sorted_perm].
      destruct Hb as [<-|Hb]; [exact Hxy | now apply Hy].
Qed.

Lemma sorted_ordered (l : list string) :
  StronglySorted (fun a b => String.ltb b a = false) (sorted l).
Proof.
  induction l as [|x l IH]; simpl; [constructor|].
  now apply insert_sorted_ordered.
Qed.

(** Sorting a list without duplicates gives a strictly increasing list. *)
Lemma sorted_increasing (l : list string) :
  NoDup l -> StronglySorted (fun a b => String.ltb a b = true) (sorted l).
Proof.
  intros Hnd.
  assert (Hnd' : NoDup (sorted l))
    by (eapply Permutation_NoDup; [apply sorted_perm | exact Hnd]).
  pose proof (sorted_ordered l) as Hs.
  induction Hs as [|a r Hr IH Ha]; [constructor|].
  inversion Hnd' as [|? ? Hnot Hrest]; subst.
  constructor; [now apply IH|].
  rewrite Forall_forall in *. intros b Hb.
  apply ltb_connected; [|now apply Ha].
  intros ->. contradiction.
Qed.

End SortedStrings.

(** ** The umbrellas of an account *)
Module AccountUmbrellaFacts.
Import Outcome Outcome.Notations UmbrellaBuilder AccountUmbrellas.
Import SampleAccountUmbrellas.
Local Open Scope string_scope.

Lemma length_upd {V} (d : PyDict.dict V) (k : string) (f : option V -> V) :
  length (PyDict.upd d k f) <= S (length d).
Proof.
  induction d as [|[k0 v0] d IH]; simpl; [lia|].
  destruct (String.eqb k k0); simpl; lia.
Qed.

Lemma canonical_map_length (topic_nodes : list TopicNode) :
  length (canonical_map_of topic_nodes) <= length topic_nodes.
Proof.
  unfold canonical_map_of.
  enough (H : forall cm,
             length (fold_left
                       (fun cm node =>
                          PyDict.append_to cm (canonical node) (topic node))
                       topic_nodes cm)
             <= length cm + length topic_nodes) by apply (H []).
  induction topic_nodes as [|node nodes IH]; intros cm; simpl; [lia|].
  etransitivity; [apply IH|].
  unfold PyDict.append_to. pose proof (length_upd cm (canonical node)
    (fun o => match o with Some l => (l ++ [topic node])%list
                         | None => [topic node] end)). lia.
Qed.

(** Every canonical topic of a node is a key of the canonical map. *)
Lemma canonical_map_keys (topic_nodes : list TopicNode) (node : TopicNode) :
  In node topic_nodes ->
  In (canonical node) (PyDict.keys (canonical_map_of topic_nodes)).
Proof.
  unfold canonical_map_of.
  enough (H : forall cm,
             In node topic_nodes \/ In (canonical node) (PyDict.keys cm) ->
             In (canonical node)
                (PyDict.keys
                   (fold_left
                      (fun cm node =>
                         PyDict.append_to cm (canonical node) (topic node))
                      topic_nodes cm))) by (intros Hin; apply H; now left).
  induction topic_nodes as [|n nodes IH]; intros cm; simpl.
  - intros [[]|H]. exact H.
  - intros [[->|Hin]|Hk]; apply IH; auto; right; unfold PyDict.append_to;
      rewrite PyDictFacts.keys_upd; destruct (PyDict.mem cm _) eqn:Hm.
    + unfold PyDict.mem in Hm. apply PyDictFacts.in_keys_get.
      destruct (PyDict.get cm (canonical node)); [discriminate|discriminate].
    + apply in_or_app. right. now left.
    + exact Hk.
    + apply in_or_app. now left.
Qed.

Lemma get_combine_some {V} (ks : list string) (vs : list V) (k : string) :
  In k ks -> length ks <= length vs -> PyDict.get (combine ks vs) k <> None.
Proof.
  revert vs. induction ks as [|k0 ks IH]; intros [|v vs]; simpl;
    try tauto; try lia.
  intros Hin Hlen. destruct (String.eqb_spec k k0) as [->|Hne]; [discriminate|].
  apply IH; [|lia]. destruct Hin as [->|Hin]; [contradiction | exact Hin].
Qed.

(** *** Calling a function that may raise on every element *)
Section MapM.
Context {exn A B : Type}.
Variable f : A -> outcome exn B.

Lemma map_m_returns (l : list A) (ys : list B) :
  map_m f l = Returns ys -> Forall2 (fun x y => f x = Returns y) l ys.
Proof.
  revert ys. induction l as [|x l IH]; intros ys; cbn [map_m].
  - intros [= <-]. constructor.
  - destruct (f x) as [y| |] eqn:Hx; cbn [bind]; try discriminate.
    destruct (map_m f l) as [ys'| |]; cbn [bind]; try discriminate.
    intros [= <-]. constructor; [exact Hx | now apply IH].
Qed.

Lemma map_m_raises (l : list A) (e : exn) :
  map_m f l = Raises e -> exists x, In x l /\ f x = Raises e.
Proof.
  induction l as [|x l IH]; cbn [map_m]; [discriminate|].
  destruct (f x) as [y| |] eqn:Hx; cbn [bind]; try discriminate.
  - destruct (map_m f l) as [ys'| |]; cbn [bind]; try discriminate.
    intros [= <-]. destruct IH as (x' & Hin & Hx'); [reflexivity|].
    exists x'. split; [now right | exact Hx'].
  - intros [= <-]. exists x. split; [now left | exact Hx].
Qed.

Lemma map_m_stalls (l : list A) :
  map_m f l = OutOfFuel -> exists x, In x l /\ f x = OutOfFuel.
Proof.
  induction l as [|x l IH]; cbn [map_m]; [discriminate|].
  destruct (f x) as [y| |] eqn:Hx; cbn [bind]; try discriminate.
  - destruct (map_m f l) as [ys'| |]; cbn [bind]; try discriminate.
    intros _. destruct IH as (x' & Hin & Hx'); [reflexivity|].
    exists x'. split; [now right | exact Hx'].
  - intros _. exists x. split; [now left | exact Hx].
Qed.

Lemma map_m_total (l : list A) :
  (forall x, In x l -> exists y, f x = Returns y) ->
  exists ys, map_m f l = Returns ys.
Proof.
  induction l as [|x l IH]; intros Hall; cbn [map_m]; [now exists []|].
  destruct (Hall x) as (y & ->); [now left|]. cbn [bind].
  destruct IH as (ys & ->); [intros x' Hx'; apply Hall; now right|].
  cbn [bind]. now eexists.
Qed.

End MapM.

Lemma forall2_map {A B} (g : A -> B) (l : list A) (ys : list B) :
  Forall2 (fun x y => y = g x) l ys -> ys = map g l.
Proof. induction 1; simpl; congruence. Qed.

(** The indices of the groups are indices of the pairs. *)
Lemma group_indices (pairs : list (nat * Z)) (c : list nat) (idx : nat) :
  In c (map snd (group_by_label pairs)) -> In idx c ->
  In idx (map fst pairs).
Proof.
  intros Hc Hidx.
  eapply Permutation_in; [apply ClusterExtra.concat_group_by_label|].
  apply in_concat. now exists c.
Qed.

Lemma graph_rows (similarity_threshold : R) (topics : list string)
    (embeddings : list Vec.vec) :
  length (fst (_build_similarity_graph similarity_threshold topics embeddings))
  = length embeddings.
Proof.
  unfold _build_similarity_graph. cbn [fst].
  now rewrite length_map, GraphFacts.enumerate_length.
Qed.

Lemma in_range_spec {A} (l : list A) (cluster_indices : list nat) :
  in_range l cluster_indices = true
  <-> forall idx, In idx cluster_indices -> idx < length l.
Proof.
  unfold in_range. rewrite forallb_forall.
  split; intros H idx Hin; specialize (H idx Hin);
    [now apply Nat.ltb_lt | now apply Nat.ltb_lt].
Qed.

Section Builder.
Variable similarity_threshold : R.
Variable min_cluster_size : Z.
Variable resolution : R.
Variables LEIDEN_AVAILABLE LOUVAIN_AVAILABLE HDBSCAN_AVAILABLE : bool.
Variable exn : Type.
Variable key_error index_error : exn.
Variable model_encode : list string -> result exn (list Vec.vec).
Variable cosine_similarity_check : list Vec.vec -> result exn unit.
Variable leiden_membership : nat -> list (nat * nat) -> R -> result exn (list Z).
Variable louvain_best_partition :
  list (list Z) -> R -> result exn (list (nat * Z)).
Variable hdbscan_fit_predict : Z -> R -> list (list R) -> result exn (list Z).
Variable connected_components : list (list Z) -> result exn (nat * list Z).
Variable save : Output -> result exn unit.
Variable _generate_umbrella_label :
  list string -> list Vec.vec -> outcome exn string.

Local Abbreviation build :=
  (build_account_umbrellas similarity_threshold min_cluster_size resolution
     LEIDEN_AVAILABLE LOUVAIN_AVAILABLE HDBSCAN_AVAILABLE
     key_error index_error model_encode cosine_similarity_check
     leiden_membership louvain_best_partition hdbscan_fit_predict
     connected_components save _generate_umbrella_label).

Local Abbreviation cascade :=
  (run_cluster_topics min_cluster_size resolution
     LEIDEN_AVAILABLE LOUVAIN_AVAILABLE HDBSCAN_AVAILABLE
     leiden_membership louvain_best_partition hdbscan_fit_predict
     connected_components).

Local Abbreviation assemble :=
  (run_build_umbrellas index_error cosine_similarity_check
     _generate_umbrella_label).

(** The label of a cluster for which the labeller returns. *)
Local Abbreviation returned_label :=
  (fun (cluster_topics : list string) (cluster_embeddings : list Vec.vec) =>
     match _generate_umbrella_label cluster_topics cluster_embeddings with
     | Returns label => label
     | _ => ""
     end).

Local Abbreviation hdbscan_contract :=
  (hdbscan_call_respects_min_size hdbscan_fit_predict).

(** The library call of the strategy in use raised [e]. *)
Local Abbreviation clustering_raised e :=
  (if LEIDEN_AVAILABLE
   then exists n edges, leiden_membership n edges resolution = Error e
   else if LOUVAIN_AVAILABLE
   then exists adj_matrix, louvain_best_partition adj_matrix resolution = Error e
   else if HDBSCAN_AVAILABLE
   then exists distance_matrix,
          hdbscan_fit_predict min_cluster_size 0.3%R distance_matrix = Error e
   else exists adj_matrix, connected_components adj_matrix = Error e).

(** The library call of the strategy in use raises [e] whatever it is
    given. *)
Local Abbreviation clustering_fails e :=
  (if LEIDEN_AVAILABLE
   then forall n edges, leiden_membership n edges resolution = Error e
   else if LOUVAIN_AVAILABLE
   then forall adj_matrix, louvain_best_partition adj_matrix resolution = Error e
   else if HDBSCAN_AVAILABLE
   then forall distance_matrix,
          hdbscan_fit_predict min_cluster_size 0.3%R distance_matrix = Error e
   else forall adj_matrix, connected_components adj_matrix = Error e).

(** The encoder gives one embedding per topic; [cosine_similarity] accepts
    what it is given; the labeller returns. *)
Local Abbreviation encoder_answers :=
  (forall topics,
     exists embeddings,
       model_encode topics = Ok embeddings
       /\ length embeddings = length topics).

Local Abbreviation check_passes :=
  (forall embeddings, cosine_similarity_check embeddings = Ok tt).

Local Abbreviation labeller_returns :=
  (forall cluster_topics cluster_embeddings,
     exists label,
       _generate_umbrella_label cluster_topics cluster_embeddings
       = Returns label).

(** The library call of the strategy in use returns, with labels for no more
    points than it was given. *)
Local Abbreviation clustering_answers :=
  (if LEIDEN_AVAILABLE
   then forall n edges,
          exists membership,
            leiden_membership n edges resolution = Ok membership
            /\ length membership <= n
   else if LOUVAIN_AVAILABLE
   then forall adj_matrix,
          exists partition,
            louvain_best_partition adj_matrix resolution = Ok partition
            /\ Forall (fun item => fst item < length adj_matrix) partition
   else if HDBSCAN_AVAILABLE
   then forall distance_matrix,
          exists labels,
            hdbscan_fit_predict min_cluster_size 0.3%R distance_matrix
            = Ok labels
            /\ length labels <= length distance_matrix
   else forall adj_matrix,
          exists components,
            connected_components adj_matrix = Ok components
            /\ length (snd components) <= length adj_matrix).

Lemma with_embedding_raises (embedding_map : PyDict.dict Vec.vec)
    (topic_nodes : list TopicNode) :
  (exists nodes, map_m (with_embedding key_error embedding_map) topic_nodes
                 = Returns nodes
                 /\ map canonical nodes = map canonical topic_nodes
                 /\ map frequency nodes = map frequency topic_nodes
                 /\ map video_ids nodes = map video_ids topic_nodes)
  \/ (map_m (with_embedding key_error embedding_map) topic_nodes
      = Raises key_error
      /\ exists node, In node topic_nodes
                      /\ PyDict.get embedding_map (canonical node) = None).
Proof.
  induction topic_nodes as [|node nodes IH]; cbn [map_m].
  - left. exists []. auto.
  - destruct (PyDict.get embedding_map (canonical node)) as [emb|] eqn:Hg.
    + assert (Hw : with_embedding key_error embedding_map node
                   = Returns {| topic := topic node;
                                canonical := canonical node;
                                frequency := frequency node;
                                avg_score := avg_score node;
                                video_ids := video_ids node;
                                embedding := Some emb |})
        by (unfold with_embedding; now rewrite Hg).
      rewrite Hw. cbn [bind].
      destruct IH as [(ns & -> & Hc & Hf & Hv)|(-> & n & Hn & Hnone)];
        cbn [bind].
      * left. eexists. split; [reflexivity|]. cbn [map canonical frequency
                                                      video_ids].
        now rewrite Hc, Hf, Hv.
      * right. split; [reflexivity|]. exists n. split; [now right | exact Hnone].
    + assert (Hw : with_embedding key_error embedding_map node
                   = Raises key_error)
        by (unfold with_embedding; now rewrite Hg).
      rewrite Hw. cbn [bind].
      right. split; [reflexivity|]. exists node. split; [now left | exact Hg].
Qed.

(** The nodes of the tags: one node per tag, unless a tag has no ["tag"]. *)
Lemma nodes_of_tags (canonical_rules : PyDict.dict string)
    (tags : list TagData) :
  (exists nodes, map_m (node_of key_error canonical_rules) tags = Returns nodes
                 /\ length nodes = length tags
                 /\ Forall (fun tag_data => tag tag_data <> None) tags)
  \/ (map_m (node_of key_error canonical_rules) tags = Raises key_error
      /\ exists tag_data, In tag_data tags /\ tag tag_data = None).
Proof.
  induction tags as [|tag_data tags IH]; cbn [map_m].
  - left. exists []. repeat split. constructor.
  - destruct (tag tag_data) as [t|] eqn:Ht.
    + assert (Hn : exists node,
                 node_of key_error canonical_rules tag_data = Returns node)
        by (unfold node_of; rewrite Ht; eauto).
      destruct Hn as (node & ->). cbn [bind].
      destruct IH as [(ns & -> & Hlen & Hall)|(-> & td & Hin & Hnone)];
        cbn [bind].
      * left. eexists. split; [reflexivity|]. split; [simpl; now rewrite Hlen|].
        constructor; [congruence | exact Hall].
      * right. split; [reflexivity|]. exists td. split; [now right | exact Hnone].
    + assert (Hn : node_of key_error canonical_rules tag_data
                   = Raises key_error)
        by (unfold node_of; now rewrite Ht).
      rewrite Hn. cbn [bind].
      right. split; [reflexivity|]. exists tag_data.
      split; [now left | exact Ht].
Qed.

(** *** The cascade *)

Lemma cascade_raises (topics : list string) (adj_matrix : list (list Z))
    (e : exn) :
  cascade topics adj_matrix = Raises e -> clustering_raised e.
Proof.
  unfold run_cluster_topics.
  destruct LEIDEN_AVAILABLE.
  { destruct (leiden_membership _ _ _) eqn:Hc; cbn [call bind];
      [discriminate|]. intros [= <-]. eauto. }
  destruct LOUVAIN_AVAILABLE.
  { destruct (louvain_best_partition _ _) eqn:Hc; cbn [call bind];
      [discriminate|]. intros [= <-]. eauto. }
  destruct HDBSCAN_AVAILABLE.
  { destruct (hdbscan_fit_predict _ _ _) eqn:Hc; cbn [call bind];
      [discriminate|]. intros [= <-]. eauto. }
  destruct (connected_components _) eqn:Hc; cbn [call bind];
    [discriminate|]. intros [= <-]. eauto.
Qed.

Lemma cascade_fails (topics : list string) (adj_matrix : list (list Z))
    (e : exn) :
  clustering_fails e -> cascade topics adj_matrix = Raises e.
Proof.
  unfold run_cluster_topics.
  destruct LEIDEN_AVAILABLE; [intros ->; reflexivity|].
  destruct LOUVAIN_AVAILABLE; [intros ->; reflexivity|].
  destruct HDBSCAN_AVAILABLE; intros ->; reflexivity.
Qed.

Lemma cascade_nonempty (topics : list string) (adj_matrix : list (list Z))
    (clusters : list (list nat)) :
  cascade topics adj_matrix = Returns clusters ->
  Forall (fun c : list nat => c <> []) clusters.
Proof.
  unfold run_cluster_topics.
  destruct LEIDEN_AVAILABLE.
  { destruct (leiden_membership _ _ _); cbn [call bind]; [|discriminate].
    intros [= <-]. apply ClusterExtra.forall_filter,
                     ClusterExtra.groups_nonempty. }
  destruct LOUVAIN_AVAILABLE.
  { destruct (louvain_best_partition _ _); cbn [call bind]; [|discriminate].
    intros [= <-]. apply ClusterExtra.forall_filter,
                     ClusterExtra.groups_nonempty. }
  destruct HDBSCAN_AVAILABLE.
  { destruct (hdbscan_fit_predict _ _ _); cbn [call bind]; [|discriminate].
    intros [= <-]. apply ClusterExtra.groups_nonempty. }
  destruct (connected_components _); cbn [call bind]; [|discriminate].
  intros [= <-]. apply ClusterExtra.forall_filter,
                   ClusterExtra.groups_nonempty.
Qed.

Lemma cascade_never_stalls (topics : list string)
    (adj_matrix : list (list Z)) :
  cascade topics adj_matrix <> OutOfFuel.
Proof.
  unfold run_cluster_topics.
  destruct LEIDEN_AVAILABLE;
    [destruct (leiden_membership _ _ _); discriminate|].
  destruct LOUVAIN_AVAILABLE;
    [destruct (louvain_best_partition _ _); discriminate|].
  destruct HDBSCAN_AVAILABLE;
    [destruct (hdbscan_fit_predict _ _ _); discriminate|].
  destruct (connected_components _); discriminate.
Qed.

Lemma cascade_large (topics : list string) (adj_matrix : list (list Z))
    (clusters : list (list nat)) :
  hdbscan_contract ->
  cascade topics adj_matrix = Returns clusters ->
  Forall (fun c : list nat => (min_cluster_size <= Z.of_nat (length c))%Z)
         clusters.
Proof.
  intros Hlib. unfold run_cluster_topics.
  destruct LEIDEN_AVAILABLE.
  { destruct (leiden_membership _ _ _); cbn [call bind]; [|discriminate].
    intros [= <-]. apply ClusterFacts.filter_min_size_large. }
  destruct LOUVAIN_AVAILABLE.
  { destruct (louvain_best_partition _ _); cbn [call bind]; [|discriminate].
    intros [= <-]. apply ClusterFacts.filter_min_size_large. }
  destruct HDBSCAN_AVAILABLE.
  { destruct (hdbscan_fit_predict _ _ _) as [labels|] eqn:Hc; cbn [call bind];
      [|discriminate].
    intros [= <-]. apply ClusterFacts.cluster_hdbscan_sizes.
    now apply (Hlib _ _ _ _ Hc). }
  destruct (connected_components _); cbn [call bind]; [|discriminate].
  intros [= <-]. apply ClusterFacts.filter_min_size_large.
Qed.

Lemma filter_min_size_in (clusters : list (list nat)) (c : list nat) :
  In c (filter_min_size min_cluster_size clusters) -> In c clusters.
Proof. unfold filter_min_size. intros H. now apply filter_In in H. Qed.

Lemma enumerate_indices {A} (l : list A) (idx : nat) :
  In idx (map fst (enumerate l)) -> idx < length l.
Proof.
  rewrite ClusterExtra.map_fst_enumerate, in_seq. lia.
Qed.

(** When the library answers, the cascade returns clusters of indices of
    the graph. *)
Lemma cascade_answers (topics : list string) (adj_matrix : list (list Z)) :
  clustering_answers ->
  exists clusters,
    cascade topics adj_matrix = Returns clusters
    /\ forall c idx, In c clusters -> In idx c -> idx < length adj_matrix.
Proof.
  unfold run_cluster_topics.
  destruct LEIDEN_AVAILABLE.
  { intros Hlib.
    destruct (Hlib (length adj_matrix) (upper_edges adj_matrix))
      as (membership & -> & Hlen).
    cbn [call bind]. eexists. split; [reflexivity|].
    intros c idx Hc Hidx. unfold _cluster_leiden in Hc.
    apply filter_min_size_in in Hc.
    apply (group_indices _ _ idx Hc), enumerate_indices in Hidx. lia. }
  destruct LOUVAIN_AVAILABLE.
  { intros Hlib. destruct (Hlib adj_matrix) as (partition & -> & Hall).
    cbn [call bind]. eexists. split; [reflexivity|].
    intros c idx Hc Hidx. unfold _cluster_louvain in Hc.
    apply filter_min_size_in in Hc.
    apply (group_indices _ _ idx Hc), in_map_iff in Hidx.
    destruct Hidx as (item & <- & Hin).
    rewrite Forall_forall in Hall. now apply Hall. }
  destruct HDBSCAN_AVAILABLE.
  { intros Hlib.
    destruct (Hlib (ClusterSpec.distance_matrix adj_matrix))
      as (labels & -> & Hlen).
    cbn [call bind]. eexists. split; [reflexivity|].
    intros c idx Hc Hidx. unfold _cluster_hdbscan in Hc.
    apply (group_indices _ _ idx Hc), in_map_iff in Hidx.
    destruct Hidx as (item & <- & Hin). apply filter_In in Hin.
    destruct Hin as [Hin _].
    assert (Hlt : fst item < length labels)
      by (apply enumerate_indices, in_map, Hin).
    unfold ClusterSpec.distance_matrix in Hlen. rewrite length_map in Hlen.
    lia. }
  intros Hlib. destruct (Hlib adj_matrix) as ([n labels] & -> & Hlen).
  cbn [call bind]. eexists. split; [reflexivity|].
  intros c idx Hc Hidx. unfold _cluster_connected_components in Hc.
  apply filter_min_size_in in Hc.
  apply (group_indices _ _ idx Hc), enumerate_indices in Hidx.
  cbn [snd] in *. lia.
Qed.

(** *** The umbrellas of the clusters *)

Lemma out_of_range {A} (l : list A) (cluster_indices : list nat) :
  in_range l cluster_indices = false ->
  exists idx, In idx cluster_indices /\ length l <= idx.
Proof.
  unfold in_range. induction cluster_indices as [|i rest IH]; simpl;
    [discriminate|].
  destruct (Nat.ltb_spec i (length l)) as [Hlt|Hge]; simpl.
  - intros H. destruct (IH H) as (idx & Hin & Hidx).
    exists idx. split; [now right | exact Hidx].
  - intros _. exists i. split; [now left | exact Hge].
Qed.

Lemma run_build_umbrella_pure (topic_nodes : list TopicNode)
    (embeddings : list Vec.vec) (canonical_topics : list string)
    (i : nat) (cluster_indices : list nat) (o : option UmbrellaCluster) :
  run_build_umbrella index_error cosine_similarity_check
    _generate_umbrella_label topic_nodes embeddings canonical_topics
    i cluster_indices = Returns o ->
  o = build_umbrella returned_label topic_nodes embeddings canonical_topics
                     i cluster_indices.
Proof.
  unfold run_build_umbrella, build_umbrella.
  destruct (in_range canonical_topics cluster_indices); cbn [negb];
    [|discriminate].
  destruct (filter _ topic_nodes) as [|n0 ns] eqn:Hnodes;
    [now intros [= <-]|].
  destruct (in_range embeddings cluster_indices); cbn [negb];
    [|discriminate].
  destruct (if Nat.ltb 1 _ then _ else _) as [[]| |]; cbn [bind];
    try discriminate.
  destruct (_generate_umbrella_label _ _) as [label| |] eqn:Hlabel;
    cbn [bind]; try discriminate.
  intros [= <-]. reflexivity.
Qed.

Lemma run_build_umbrella_raises (topic_nodes : list TopicNode)
    (embeddings : list Vec.vec) (canonical_topics : list string)
    (i : nat) (cluster_indices : list nat) (e : exn) :
  run_build_umbrella index_error cosine_similarity_check
    _generate_umbrella_label topic_nodes embeddings canonical_topics
    i cluster_indices = Raises e ->
  (e = index_error
   /\ exists idx, In idx cluster_indices
                  /\ (length canonical_topics <= idx
                      \/ length embeddings <= idx))
  \/ (exists cluster_embeddings,
        cosine_similarity_check cluster_embeddings = Error e)
  \/ (exists cluster_topics cluster_embeddings,
        _generate_umbrella_label cluster_topics cluster_embeddings = Raises e).
Proof.
  unfold run_build_umbrella.
  destruct (in_range canonical_topics cluster_indices) eqn:Htopics;
    cbn [negb].
  2:{ intros [= <-]. left. split; [reflexivity|].
      destruct (out_of_range _ _ Htopics) as (idx & Hin & Hidx). eauto. }
  destruct (filter _ topic_nodes) as [|n0 ns]; [discriminate|].
  destruct (in_range embeddings cluster_indices) eqn:Hembs; cbn [negb].
  2:{ intros [= <-]. left. split; [reflexivity|].
      destruct (out_of_range _ _ Hembs) as (idx & Hin & Hidx). eauto. }
  destruct (Nat.ltb 1 _).
  - destruct (cosine_similarity_check _) as [[]|e'] eqn:Hcheck;
      cbn [call bind].
    + destruct (_generate_umbrella_label _ _) as [label| |] eqn:Hlabel;
        cbn [bind]; try discriminate.
      intros [= <-]. right. right. eauto.
    + intros [= <-]. right. left. eauto.
  - cbn [bind].
    destruct (_generate_umbrella_label _ _) as [label| |] eqn:Hlabel;
      cbn [bind]; try discriminate.
    intros [= <-]. right. right. eauto.
Qed.

Lemma run_build_umbrella_stalls (topic_nodes : list TopicNode)
    (embeddings : list Vec.vec) (canonical_topics : list string)
    (i : nat) (cluster_indices : list nat) :
  run_build_umbrella index_error cosine_similarity_check
    _generate_umbrella_label topic_nodes embeddings canonical_topics
    i cluster_indices = OutOfFuel ->
  exists cluster_topics cluster_embeddings,
    _generate_umbrella_label cluster_topics cluster_embeddings = OutOfFuel.
Proof.
  unfold run_build_umbrella.
  destruct (in_range canonical_topics cluster_indices); cbn [negb];
    [|discriminate].
  destruct (filter _ topic_nodes) as [|n0 ns]; [discriminate|].
  destruct (in_range embeddings cluster_indices); cbn [negb]; [|discriminate].
  destruct (Nat.ltb 1 _).
  - destruct (cosine_similarity_check _) as [[]|e']; cbn [call bind];
      [|discriminate].
    destruct (_generate_umbrella_label _ _) as [label| |] eqn:Hlabel;
      cbn [bind]; try discriminate. eauto.
  - cbn [bind].
    destruct (_generate_umbrella_label _ _) as [label| |] eqn:Hlabel;
      cbn [bind]; try discriminate. eauto.
Qed.

Lemma run_build_umbrella_total (topic_nodes : list TopicNode)
    (embeddings : list Vec.vec) (canonical_topics : list string)
    (i : nat) (cluster_indices : list nat) :
  (forall idx, In idx cluster_indices ->
               idx < length canonical_topics /\ idx < length embeddings) ->
  (forall cluster_embeddings,
     cosine_similarity_check cluster_embeddings = Ok tt) ->
  (forall cluster_topics cluster_embeddings,
     exists label,
       _generate_umbrella_label cluster_topics cluster_embeddings
       = Returns label) ->
  exists o,
    run_build_umbrella index_error cosine_similarity_check
      _generate_umbrella_label topic_nodes embeddings canonical_topics
      i cluster_indices = Returns o.
Proof.
  intros Hrange Hcheck Hlabel. unfold run_build_umbrella.
  assert (Ht : in_range canonical_topics cluster_indices = true)
    by (apply in_range_spec; intros idx Hin; now apply Hrange).
  assert (He : in_range embeddings cluster_indices = true)
    by (apply in_range_spec; intros idx Hin; now apply Hrange).
  rewrite Ht. cbn [negb].
  destruct (filter _ topic_nodes) as [|n0 ns]; [now eexists|].
  rewrite He. cbn [negb].
  match goal with
  | |- context [_generate_umbrella_label ?t ?es] =>
      destruct (Hlabel t es) as (label & ->)
  end.
  destruct (Nat.ltb 1 _); [rewrite Hcheck|]; cbn [call bind]; now eexists.
Qed.

Lemma in_enumerate_snd {A} (l : list A) (ic : nat * A) :
  In ic (enumerate l) -> In (snd ic) l.
Proof.
  destruct ic as [i c]. unfold enumerate. intros H.
  now apply in_combine_r in H.
Qed.

Lemma assemble_pure (topic_nodes : list TopicNode)
    (embeddings : list Vec.vec) (canonical_topics : list string)
    (clusters : list (list nat)) (umbrellas : list UmbrellaCluster) :
  assemble topic_nodes embeddings canonical_topics clusters
  = Returns umbrellas ->
  umbrellas = _build_umbrellas returned_label topic_nodes embeddings
                               canonical_topics clusters.
Proof.
  unfold run_build_umbrellas, _build_umbrellas.
  destruct (map_m _ (enumerate clusters)) as [built| |] eqn:Hbuilt;
    cbn [bind]; try discriminate.
  intros [= <-]. f_equal.
  apply map_m_returns in Hbuilt.
  assert (Hmap : built
                 = map (fun ic => build_umbrella returned_label topic_nodes
                                    embeddings canonical_topics
                                    (fst ic) (snd ic))
                       (enumerate clusters)).
  { apply forall2_map. eapply Forall2_impl; [|exact Hbuilt].
    intros ic o. apply run_build_umbrella_pure. }
  rewrite Hmap, !flat_map_concat_map, map_map. reflexivity.
Qed.

Lemma assemble_raises (topic_nodes : list TopicNode)
    (embeddings : list Vec.vec) (canonical_topics : list string)
    (clusters : list (list nat)) (e : exn) :
  assemble topic_nodes embeddings canonical_topics clusters = Raises e ->
  (e = index_error
   /\ exists cluster_indices idx,
        In cluster_indices clusters /\ In idx cluster_indices
        /\ (length canonical_topics <= idx \/ length embeddings <= idx))
  \/ (exists cluster_embeddings,
        cosine_similarity_check cluster_embeddings = Error e)
  \/ (exists cluster_topics cluster_embeddings,
        _generate_umbrella_label cluster_topics cluster_embeddings = Raises e).
Proof.
  unfold run_build_umbrellas.
  destruct (map_m _ (enumerate clusters)) as [built| |] eqn:Hbuilt;
    cbn [bind]; try discriminate.
  intros [= <-]. apply map_m_raises in Hbuilt.
  destruct Hbuilt as (ic & Hin & Hraise).
  apply run_build_umbrella_raises in Hraise.
  destruct Hraise as [(-> & idx & Hidx & Hout)|Hrest]; [|now right].
  left. split; [reflexivity|]. exists (snd ic), idx.
  split; [now apply in_enumerate_snd|]. auto.
Qed.

Lemma assemble_stalls (topic_nodes : list TopicNode)
    (embeddings : list Vec.vec) (canonical_topics : list string)
    (clusters : list (list nat)) :
  assemble topic_nodes embeddings canonical_topics clusters = OutOfFuel ->
  exists cluster_topics cluster_embeddings,
    _generate_umbrella_label cluster_topics cluster_embeddings = OutOfFuel.
Proof.
  unfold run_build_umbrellas.
  destruct (map_m _ (enumerate clusters)) as [built| |] eqn:Hbuilt;
    cbn [bind]; try discriminate.
  intros _. apply map_m_stalls in Hbuilt.
  destruct Hbuilt as (ic & _ & Hstall).
  now apply run_build_umbrella_stalls in Hstall.
Qed.

Lemma assemble_total (topic_nodes : list TopicNode)
    (embeddings : list Vec.vec) (canonical_topics : list string)
    (clusters : list (list nat)) :
  (forall cluster_indices idx,
     In cluster_indices clusters -> In idx cluster_indices ->
     idx < length canonical_topics /\ idx < length embeddings) ->
  (forall cluster_embeddings,
     cosine_similarity_check cluster_embeddings = Ok tt) ->
  (forall cluster_topics cluster_embeddings,
     exists label,
       _generate_umbrella_label cluster_topics cluster_embeddings
       = Returns label) ->
  exists umbrellas,
    assemble topic_nodes embeddings canonical_topics clusters
    = Returns umbrellas.
Proof.
  intros Hrange Hcheck Hlabel. unfold run_build_umbrellas.
  destruct (map_m_total
              (fun ic => run_build_umbrella index_error
                           cosine_similarity_check _generate_umbrella_label
                           topic_nodes embeddings canonical_topics
                           (fst ic) (snd ic))
              (enumerate clusters)) as (built & ->).
  { intros ic Hin. apply run_build_umbrella_total; auto.
    intros idx Hidx. apply (Hrange (snd ic)); [|exact Hidx].
    now apply in_enumerate_snd. }
  cbn [bind]. now eexists.
Qed.

(** *** The builder *)

Local Abbreviation tags_of account_data :=
  (match tags account_data with Some t => t | None => [] end).

Local Abbreviation rules_of canonical_config :=
  (match canonical_config with
   | Some config =>
       match TopicExtractorV2.merge_rules config with
       | Some rules => rules
       | None => []
       end
   | None => []
   end).

Lemma build_few_tags (account_data : AccountData)
    (canonical_config : option TopicExtractorV2.CanonicalMap)
    (user : string) (max_umbrellas : Z) :
  (Z.of_nat (length (tags_of account_data)) < min_cluster_size)%Z ->
  build (Some account_data) canonical_config user max_umbrellas = Returns None.
Proof.
  intros Hfew. unfold build_account_umbrellas.
  apply Z.ltb_lt in Hfew. now rewrite Hfew.
Qed.

(** The steps of the builder once the account file holds enough tags. *)
Lemma build_steps (account_data : AccountData)
    (canonical_config : option TopicExtractorV2.CanonicalMap)
    (user : string) (max_umbrellas : Z) :
  (min_cluster_size <= Z.of_nat (length (tags_of account_data)))%Z ->
  build (Some account_data) canonical_config user max_umbrellas
  = (topic_nodes <-
       map_m (node_of key_error (rules_of canonical_config))
             (tags_of account_data) ;;
     let canonical_map := canonical_map_of topic_nodes in
     let canonical_topics := PyDict.keys canonical_map in
     embeddings <- call (model_encode canonical_topics) ;;
     topic_nodes <-
       map_m (with_embedding key_error (combine canonical_topics embeddings))
             topic_nodes ;;
     _ <- call (cosine_similarity_check embeddings) ;;
     clusters <-
       cascade canonical_topics
         (fst (_build_similarity_graph similarity_threshold canonical_topics
                                       embeddings)) ;;
     match clusters with
     | [] => Returns None
     | _ =>
         umbrellas <- assemble topic_nodes embeddings canonical_topics
                               clusters ;;
         let umbrellas :=
           Vec.sort_desc (fun u => INR (member_count u)) umbrellas in
         let top_umbrellas := PyList.slice_to max_umbrellas umbrellas in
         let output :=
           {| username := user;
              total_topics := length (tags_of account_data);
              canonical_topics_count := length canonical_map;
              umbrella_count := length top_umbrellas;
              total_clusters := length umbrellas;
              clustering_method :=
                _get_clustering_method LEIDEN_AVAILABLE LOUVAIN_AVAILABLE
                                       HDBSCAN_AVAILABLE;
              threshold := similarity_threshold;
              umbrellas := map as_output top_umbrellas |} in
         _ <- call (save output) ;;
         Returns (Some output)
     end)%type.
Proof.
  intros Henough. unfold build_account_umbrellas.
  apply Z.ltb_ge in Henough. now rewrite Henough.
Qed.

Lemma slice_to_shorter {A} (n : Z) (l : list A) :
  length (PyList.slice_to n l) <= length l.
Proof.
  unfold PyList.slice_to. destruct (n <? 0)%Z; rewrite length_firstn; lia.
Qed.

Lemma sorted_map {A B} (f : A -> B) (R : A -> A -> Prop)
    (R' : B -> B -> Prop) (l : list A) :
  (forall a b, R a b -> R' (f a) (f b)) ->
  StronglySorted R l -> StronglySorted R' (map f l).
Proof.
  intros Himp Hs. induction Hs as [|a l Hs IH Hall]; simpl; constructor;
    [exact IH|].
  rewrite Forall_forall in *. intros b Hb. apply in_map_iff in Hb.
  destruct Hb as (x & <- & Hx). apply Himp, Hall, Hx.
Qed.

Lemma sorted_slice_to {A} (R : A -> A -> Prop) (n : Z) (l : list A) :
  StronglySorted R l -> StronglySorted R (PyList.slice_to n l).
Proof.
  unfold PyList.slice_to. destruct (n <? 0)%Z; apply ListExtra.sorted_firstn.
Qed.

(** The umbrellas of the output come from the clusters of the cascade. *)
Lemma output_umbrella_origin
    (labeller : list string -> list Vec.vec -> string)
    (nodes : list TopicNode)
    (embeddings : list Vec.vec) (topics : list string)
    (clusters : list (list nat)) (max_umbrellas : Z) (u : UmbrellaCluster) :
  In u (map as_output
            (PyList.slice_to max_umbrellas
               (Vec.sort_desc (fun u => INR (member_count u))
                  (_build_umbrellas labeller nodes embeddings topics
                                    clusters)))) ->
  exists i cluster_indices u0,
    u = as_output u0
    /\ In cluster_indices clusters
    /\ build_umbrella labeller nodes embeddings topics i cluster_indices
       = Some u0.
Proof.
  intros Hin. apply in_map_iff in Hin. destruct Hin as (u0 & <- & Hin).
  apply PyListFacts.slice_to_in, VecFacts.sort_desc_in in Hin.
  apply UmbrellaFacts.build_umbrellas_origin in Hin.
  destruct Hin as (i & c & Hnth & Hb).
  exists i, c, u0. split; [reflexivity|]. split; [|exact Hb].
  eapply nth_error_In, Hnth.
Qed.

(** The output, when one is returned. *)
Lemma build_output (account_file : option AccountData)
    (canonical_config : option TopicExtractorV2.CanonicalMap)
    (user : string) (max_umbrellas : Z) (output : Output) :
  build account_file canonical_config user max_umbrellas
  = Returns (Some output) ->
  exists account_data nodes embeddings topics clusters,
    account_file = Some account_data
    /\ (min_cluster_size <= Z.of_nat (length (tags_of account_data)))%Z
    /\ save output = Ok tt
    /\ username output = user
    /\ total_topics output = length (tags_of account_data)
    /\ canonical_topics_count output <= total_topics output
    /\ clustering_method output
       = _get_clustering_method LEIDEN_AVAILABLE LOUVAIN_AVAILABLE
                                HDBSCAN_AVAILABLE
    /\ threshold output = similarity_threshold
    /\ umbrella_count output = length (umbrellas output)
    /\ total_clusters output
       = length (_build_umbrellas returned_label nodes embeddings topics
                                  clusters)
    /\ umbrellas output
       = map as_output
           (PyList.slice_to max_umbrellas
              (Vec.sort_desc (fun u => INR (member_count u))
                 (_build_umbrellas returned_label nodes embeddings topics
                                   clusters)))
    /\ (hdbscan_contract ->
        Forall (fun c : list nat =>
                  (min_cluster_size <= Z.of_nat (length c))%Z) clusters).
Proof.
  intros Hrun. destruct account_file as [account_data|]; [|discriminate].
  destruct (Z.ltb_spec (Z.of_nat (length (tags_of account_data)))
                       min_cluster_size) as [Hfew|Henough].
  { rewrite build_few_tags in Hrun by exact Hfew. discriminate. }
  rewrite build_steps in Hrun by exact Henough.
  destruct (nodes_of_tags (rules_of canonical_config) (tags_of account_data))
    as [(nodes0 & Hn & Hlen & _)|(Hn & _)]; rewrite Hn in Hrun;
    cbn [bind] in Hrun; [|discriminate].
  cbv zeta in Hrun.
  destruct (model_encode _) as [embeddings|] eqn:Henc; cbn [call bind] in Hrun;
    [|discriminate].
  destruct (with_embedding_raises
              (combine (PyDict.keys (canonical_map_of nodes0)) embeddings)
              nodes0) as [(nodes & Hw & _)|(Hw & _)]; rewrite Hw in Hrun;
    cbn [bind] in Hrun; [|discriminate].
  destruct (cosine_similarity_check embeddings) as [[]|]; cbn [call bind] in Hrun;
    [|discriminate].
  destruct (cascade _ _) as [clusters| |] eqn:Hcl; cbn [bind] in Hrun;
    try discriminate.
  destruct clusters as [|c cs]; [discriminate|].
  destruct (assemble _ _ _ _) as [umbrellas0| |] eqn:Hasm; cbn [bind] in Hrun;
    try discriminate.
  apply assemble_pure in Hasm. subst umbrellas0.
  destruct (save _) as [[]|] eqn:Hs; cbn [call bind] in Hrun; [|discriminate].
  injection Hrun as <-.
  exists account_data, nodes, embeddings,
         (PyDict.keys (canonical_map_of nodes0)), (c :: cs).
  split; [reflexivity|]. split; [exact Henough|]. split; [exact Hs|].
  cbn [username total_topics canonical_topics_count clustering_method
       threshold umbrella_count umbrellas total_clusters].
  split; [reflexivity|]. split; [reflexivity|].
  split; [etransitivity; [apply canonical_map_length | now rewrite Hlen]|].
  split; [reflexivity|]. split; [reflexivity|].
  split; [now rewrite length_map|].
  split; [symmetry; apply Permutation_length, VecFacts.sort_desc_perm|].
  split; [reflexivity|].
  intros Hlib. eapply cascade_large; [exact Hlib | exact Hcl].
Qed.

(** What the builder raises. *)
Lemma build_raises (account_data : AccountData)
    (canonical_config : option TopicExtractorV2.CanonicalMap)
    (user : string) (max_umbrellas : Z) (e : exn) :
  build (Some account_data) canonical_config user max_umbrellas = Raises e ->
  (e = key_error
   /\ exists tag_data, In tag_data (tags_of account_data)
                       /\ tag tag_data = None)
  \/ (exists topics, model_encode topics = Error e)
  \/ (e = key_error
      /\ exists topics embeddings,
           model_encode topics = Ok embeddings
           /\ length embeddings < length topics)
  \/ (exists embeddings, cosine_similarity_check embeddings = Error e)
  \/ clustering_raised e
  \/ (e = index_error
      /\ exists topics (embeddings : list Vec.vec) adj_matrix clusters
                cluster_indices idx,
           cascade topics adj_matrix = Returns clusters
           /\ In cluster_indices clusters /\ In idx cluster_indices
           /\ (length topics <= idx \/ length embeddings <= idx))
  \/ (exists cluster_topics cluster_embeddings,
        _generate_umbrella_label cluster_topics cluster_embeddings = Raises e)
  \/ (exists output, save output = Error e).
Proof.
  intros Hrun.
  destruct (Z.ltb_spec (Z.of_nat (length (tags_of account_data)))
                       min_cluster_size) as [Hfew|Henough].
  { rewrite build_few_tags in Hrun by exact Hfew. discriminate. }
  rewrite build_steps in Hrun by exact Henough.
  destruct (nodes_of_tags (rules_of canonical_config) (tags_of account_data))
    as [(nodes0 & Hn & Hlen & _)|(Hn & td & Hin & Hnone)]; rewrite Hn in Hrun;
    cbn [bind] in Hrun.
  2:{ injection Hrun as <-. left. eauto. }
  cbv zeta in Hrun.
  destruct (model_encode _) as [embeddings|e'] eqn:Henc;
    cbn [call bind] in Hrun.
  2:{ injection Hrun as <-. right. left. eauto. }
  destruct (with_embedding_raises
              (combine (PyDict.keys (canonical_map_of nodes0)) embeddings)
              nodes0) as [(nodes & Hw & _)|(Hw & node & Hin & Hnone)];
    rewrite Hw in Hrun; cbn [bind] in Hrun.
  2:{ injection Hrun as <-. do 2 right. left. split; [reflexivity|].
      exists (PyDict.keys (canonical_map_of nodes0)), embeddings.
      split; [exact Henc|].
      destruct (Nat.lt_ge_cases (length embeddings)
                  (length (PyDict.keys (canonical_map_of nodes0))))
        as [Hlt|Hge]; [exact Hlt|].
      exfalso. revert Hnone. apply get_combine_some; [|exact Hge].
      now apply canonical_map_keys. }
  destruct (cosine_similarity_check embeddings) as [[]|e'] eqn:Hcheck;
    cbn [call bind] in Hrun.
  2:{ injection Hrun as <-. do 3 right. left. eauto. }
  destruct (cascade _ _) as [clusters|e'|] eqn:Hcl; cbn [bind] in Hrun;
    try discriminate.
  2:{ injection Hrun as <-. do 4 right. left. eapply cascade_raises, Hcl. }
  destruct clusters as [|c cs]; [discriminate|].
  destruct (assemble _ _ _ _) as [umbrellas0|e'|] eqn:Hasm;
    cbn [bind] in Hrun; try discriminate.
  2:{ injection Hrun as <-. apply assemble_raises in Hasm.
      destruct Hasm as [(-> & ci & idx & Hci & Hidx & Hout)|[Hsim|Hlab]].
      - do 5 right. left. split; [reflexivity|].
        exists (PyDict.keys (canonical_map_of nodes0)), embeddings.
        do 2 eexists. exists ci, idx. split; [exact Hcl|].
        split; [exact Hci|]. split; [exact Hidx | exact Hout].
      - do 3 right. left. exact Hsim.
      - do 6 right. left. exact Hlab. }
  destruct (save _) as [[]|e'] eqn:Hs; cbn [call bind] in Hrun;
    [discriminate|].
  injection Hrun as <-. do 7 right. eauto.
Qed.

Lemma build_stalls (account_data : AccountData)
    (canonical_config : option TopicExtractorV2.CanonicalMap)
    (user : string) (max_umbrellas : Z) :
  build (Some account_data) canonical_config user max_umbrellas = OutOfFuel ->
  exists cluster_topics cluster_embeddings,
    _generate_umbrella_label cluster_topics cluster_embeddings = OutOfFuel.
Proof.
  intros Hrun.
  destruct (Z.ltb_spec (Z.of_nat (length (tags_of account_data)))
                       min_cluster_size) as [Hfew|Henough].
  { rewrite build_few_tags in Hrun by exact Hfew. discriminate. }
  rewrite build_steps in Hrun by exact Henough.
  destruct (nodes_of_tags (rules_of canonical_config) (tags_of account_data))
    as [(nodes0 & Hn & _)|(Hn & _)]; rewrite Hn in Hrun;
    cbn [bind] in Hrun; [|discriminate].
  cbv zeta in Hrun.
  destruct (model_encode _) as [embeddings|e']; cbn [call bind] in Hrun;
    [|discriminate].
  destruct (with_embedding_raises
              (combine (PyDict.keys (canonical_map_of nodes0)) embeddings)
              nodes0) as [(nodes & Hw & _)|(Hw & _)];
    rewrite Hw in Hrun; cbn [bind] in Hrun; [|discriminate].
  destruct (cosine_similarity_check embeddings) as [[]|e'];
    cbn [call bind] in Hrun; [|discriminate].
  destruct (cascade _ _) as [clusters|e'|] eqn:Hcl; cbn [bind] in Hrun;
    [|discriminate | now apply cascade_never_stalls in Hcl].
  destruct clusters as [|c cs]; [discriminate|].
  destruct (assemble _ _ _ _) as [umbrellas0|e'|] eqn:Hasm;
    cbn [bind] in Hrun; [|discriminate | now apply assemble_stalls in Hasm].
  destruct (save _) as [[]|e']; discriminate.
Qed.

Lemma build_total (account_data : AccountData)
    (canonical_config : option TopicExtractorV2.CanonicalMap)
    (user : string) (max_umbrellas : Z) :
  (forall tag_data, In tag_data (tags_of account_data) ->
                    tag tag_data <> None) ->
  (forall topics,
     exists embeddings,
       model_encode topics = Ok embeddings
       /\ length embeddings = length topics) ->
  (forall embeddings, cosine_similarity_check embeddings = Ok tt) ->
  clustering_answers ->
  (forall cluster_topics cluster_embeddings,
     exists label,
       _generate_umbrella_label cluster_topics cluster_embeddings
       = Returns label) ->
  (forall output, save output = Ok tt) ->
  exists answer,
    build (Some account_data) canonical_config user max_umbrellas
    = Returns answer.
Proof.
  intros Htags Hencode Hcheck Hlib Hlabel Hsave.
  destruct (Z.ltb_spec (Z.of_nat (length (tags_of account_data)))
                       min_cluster_size) as [Hfew|Henough].
  { rewrite build_few_tags by exact Hfew. now eexists. }
  rewrite build_steps by exact Henough.
  destruct (nodes_of_tags (rules_of canonical_config) (tags_of account_data))
    as [(nodes0 & -> & _)|(_ & td & Hin & Hnone)];
    [|now apply Htags in Hin].
  cbn [bind]. cbv zeta.
  destruct (Hencode (PyDict.keys (canonical_map_of nodes0)))
    as (embeddings & -> & Hlen).
  cbn [call bind].
  destruct (with_embedding_raises
              (combine (PyDict.keys (canonical_map_of nodes0)) embeddings)
              nodes0) as [(nodes & -> & _)|(_ & node & Hin & Hnone)].
  2:{ exfalso. revert Hnone. apply get_combine_some; [|lia].
      now apply canonical_map_keys. }
  cbn [bind]. rewrite Hcheck. cbn [call bind].
  destruct (cascade_answers (PyDict.keys (canonical_map_of nodes0))
              (fst (_build_similarity_graph similarity_threshold
                      (PyDict.keys (canonical_map_of nodes0)) embeddings))
              Hlib) as (clusters & -> & Hrange).
  cbn [bind]. rewrite graph_rows in Hrange.
  destruct clusters as [|c cs]; [now eexists|].
  destruct (assemble_total nodes embeddings
              (PyDict.keys (canonical_map_of nodes0)) (c :: cs))
    as (umbrellas0 & ->); [|exact Hcheck | exact Hlabel|].
  { intros ci idx Hci Hidx. specialize (Hrange ci idx Hci Hidx). lia. }
  cbn [bind]. rewrite Hsave. cbn [call bind]. now eexists.
Qed.

(** Every canonical topic is the canonical form of a node. *)
Lemma canonical_keys_origin (topic_nodes : list TopicNode) (k : string) :
  In k (PyDict.keys (canonical_map_of topic_nodes)) ->
  In k (map canonical topic_nodes).
Proof.
  unfold canonical_map_of.
  enough (H : forall cm,
             In k (PyDict.keys
                     (fold_left
                        (fun cm node =>
                           PyDict.append_to cm (canonical node) (topic node))
                        topic_nodes cm)) ->
             In k (PyDict.keys cm) \/ In k (map canonical topic_nodes)).
  { intros Hin. destruct (H [] Hin) as [[]|Hk]. exact Hk. }
  induction topic_nodes as [|node nodes IH]; intros cm; simpl; [auto|].
  intros Hin. destruct (IH _ Hin) as [Hk|Hk]; [|auto].
  unfold PyDict.append_to in Hk. rewrite PyDictFacts.keys_upd in Hk.
  destruct (PyDict.mem cm (canonical node)); [auto|].
  apply in_app_or in Hk. destruct Hk as [Hk|[<-|[]]]; auto.
Qed.

(** A cluster of indices of canonical topics has a node. *)
Lemma cluster_has_nodes (nodes0 nodes : list TopicNode)
    (cluster_indices : list nat) :
  map canonical nodes = map canonical nodes0 ->
  cluster_indices <> [] ->
  (forall idx, In idx cluster_indices ->
               idx < length (PyDict.keys (canonical_map_of nodes0))) ->
  filter (fun node =>
            existsb (String.eqb (canonical node))
                    (map (fun idx =>
                            nth idx (PyDict.keys (canonical_map_of nodes0)) "")
                         cluster_indices))
         nodes <> [].
Proof.
  intros Hc Hne Hrange.
  destruct cluster_indices as [|idx0 rest]; [now destruct Hne|].
  assert (Hkey : In (nth idx0 (PyDict.keys (canonical_map_of nodes0)) "")
                    (map canonical nodes)).
  { rewrite Hc. apply canonical_keys_origin, nth_In, Hrange. now left. }
  apply in_map_iff in Hkey. destruct Hkey as (node & Hnode & Hin).
  intros Hnil.
  assert (Hf : In node
                 (filter (fun node =>
                            existsb (String.eqb (canonical node))
                              (map (fun idx =>
                                      nth idx
                                        (PyDict.keys (canonical_map_of nodes0))
                                        "")
                                   (idx0 :: rest)))
                         nodes)).
  { apply filter_In. split; [exact Hin|]. apply existsb_exists.
    eexists. split; [left; reflexivity|]. rewrite Hnode.
    apply String.eqb_refl. }
  rewrite Hnil in Hf. destruct Hf.
Qed.

(** With a labeller that raises, the loop ends at its first cluster. *)
Lemma assemble_label_raises (nodes0 nodes : list TopicNode)
    (embeddings : list Vec.vec) (c : list nat) (cs : list (list nat))
    (e : exn) :
  map canonical nodes = map canonical nodes0 ->
  c <> [] ->
  (forall idx, In idx c ->
               idx < length (PyDict.keys (canonical_map_of nodes0))
               /\ idx < length embeddings) ->
  check_passes ->
  (forall cluster_topics cluster_embeddings,
     _generate_umbrella_label cluster_topics cluster_embeddings = Raises e) ->
  assemble nodes embeddings (PyDict.keys (canonical_map_of nodes0)) (c :: cs)
  = Raises e.
Proof.
  intros Hc Hne Hrange Hcheck Hlabel.
  assert (Hfirst :
            run_build_umbrella index_error cosine_similarity_check
              _generate_umbrella_label nodes embeddings
              (PyDict.keys (canonical_map_of nodes0)) 0 c = Raises e).
  { unfold run_build_umbrella.
    assert (Ht : in_range (PyDict.keys (canonical_map_of nodes0)) c = true)
      by (apply in_range_spec; intros idx Hin; now apply Hrange).
    assert (He : in_range embeddings c = true)
      by (apply in_range_spec; intros idx Hin; now apply Hrange).
    rewrite Ht. cbn [negb].
    pose proof (cluster_has_nodes nodes0 nodes c Hc Hne
                  (fun idx Hin => proj1 (Hrange idx Hin))) as Hnodes.
    destruct (filter _ nodes) as [|n0 ns]; [now destruct Hnodes|].
    rewrite He. cbn [negb]. rewrite Hlabel.
    destruct (Nat.ltb 1 _); [rewrite Hcheck|]; reflexivity. }
  unfold run_build_umbrellas, enumerate. cbn [length seq combine map_m fst snd].
  rewrite Hfirst. reflexivity.
Qed.

(** The builder up to the cascade, when every tag has its key, the encoder
    answers and [cosine_similarity] accepts the embeddings. *)
Lemma build_to_cascade (account_data : AccountData)
    (canonical_config : option TopicExtractorV2.CanonicalMap)
    (user : string) (max_umbrellas : Z) :
  (min_cluster_size <= Z.of_nat (length (tags_of account_data)))%Z ->
  (forall tag_data, In tag_data (tags_of account_data) ->
                    tag tag_data <> None) ->
  encoder_answers -> check_passes ->
  exists nodes0 nodes embeddings,
    map canonical nodes = map canonical nodes0
    /\ length embeddings = length (PyDict.keys (canonical_map_of nodes0))
    /\ build (Some account_data) canonical_config user max_umbrellas
       = (clusters <-
            cascade (PyDict.keys (canonical_map_of nodes0))
              (fst (_build_similarity_graph similarity_threshold
                      (PyDict.keys (canonical_map_of nodes0)) embeddings)) ;;
          match clusters with
          | [] => Returns None
          | _ =>
              umbrellas <- assemble nodes embeddings
                             (PyDict.keys (canonical_map_of nodes0))
                             clusters ;;
              let umbrellas :=
                Vec.sort_desc (fun u => INR (member_count u)) umbrellas in
              let top_umbrellas := PyList.slice_to max_umbrellas umbrellas in
              let output :=
                {| username := user;
                   total_topics := length (tags_of account_data);
                   canonical_topics_count := length (canonical_map_of nodes0);
                   umbrella_count := length top_umbrellas;
                   total_clusters := length umbrellas;
                   clustering_method :=
                     _get_clustering_method LEIDEN_AVAILABLE LOUVAIN_AVAILABLE
                                            HDBSCAN_AVAILABLE;
                   threshold := similarity_threshold;
                   umbrellas := map as_output top_umbrellas |} in
              _ <- call (save output) ;;
              Returns (Some output)
          end)%type.
Proof.
  intros Henough Htags Hencode Hcheck.
  rewrite build_steps by exact Henough.
  destruct (nodes_of_tags (rules_of canonical_config) (tags_of account_data))
    as [(nodes0 & -> & _)|(_ & td & Hin & Hnone)];
    [|now apply Htags in Hin].
  cbn [bind]. cbv zeta.
  destruct (Hencode (PyDict.keys (canonical_map_of nodes0)))
    as (embeddings & -> & Hlen).
  cbn [call bind].
  destruct (with_embedding_raises
              (combine (PyDict.keys (canonical_map_of nodes0)) embeddings)
              nodes0) as [(nodes & -> & Hc & _)|(_ & node & Hin & Hnone)].
  2:{ exfalso. revert Hnone. apply get_combine_some; [|lia].
      now apply canonical_map_keys. }
  cbn [bind]. rewrite Hcheck. cbn [call bind].
  exists nodes0, nodes, embeddings. auto.
Qed.

(** A tag without its key makes the builder raise [KeyError]. *)
Lemma build_tag_missing (account_data : AccountData)
    (canonical_config : option TopicExtractorV2.CanonicalMap)
    (user : string) (max_umbrellas : Z) (tag_data : TagData) :
  (min_cluster_size <= Z.of_nat (length (tags_of account_data)))%Z ->
  In tag_data (tags_of account_data) -> tag tag_data = None ->
  build (Some account_data) canonical_config user max_umbrellas
  = Raises key_error.
Proof.
  intros Henough Hin Hnone. rewrite build_steps by exact Henough.
  destruct (nodes_of_tags (rules_of canonical_config) (tags_of account_data))
    as [(nodes0 & _ & _ & Hall)|(-> & _)]; [|reflexivity].
  rewrite Forall_forall in Hall. now apply Hall in Hin.
Qed.

Lemma build_encoder_fails (account_data : AccountData)
    (canonical_config : option TopicExtractorV2.CanonicalMap)
    (user : string) (max_umbrellas : Z) (e : exn) :
  (min_cluster_size <= Z.of_nat (length (tags_of account_data)))%Z ->
  (forall tag_data, In tag_data (tags_of account_data) ->
                    tag tag_data <> None) ->
  (forall topics, model_encode topics = Error e) ->
  build (Some account_data) canonical_config user max_umbrellas = Raises e.
Proof.
  intros Henough Htags Hfail. rewrite build_steps by exact Henough.
  destruct (nodes_of_tags (rules_of canonical_config) (tags_of account_data))
    as [(nodes0 & -> & _)|(_ & td & Hin & Hnone)];
    [|now apply Htags in Hin].
  cbn [bind]. cbv zeta. now rewrite Hfail.
Qed.

Lemma build_check_fails (account_data : AccountData)
    (canonical_config : option TopicExtractorV2.CanonicalMap)
    (user : string) (max_umbrellas : Z) (e : exn) :
  (min_cluster_size <= Z.of_nat (length (tags_of account_data)))%Z ->
  (forall tag_data, In tag_data (tags_of account_data) ->
                    tag tag_data <> None) ->
  encoder_answers ->
  (forall embeddings, cosine_similarity_check embeddings = Error e) ->
  build (Some account_data) canonical_config user max_umbrellas = Raises e.
Proof.
  intros Henough Htags Hencode Hfail. rewrite build_steps by exact Henough.
  destruct (nodes_of_tags (rules_of canonical_config) (tags_of account_data))
    as [(nodes0 & -> & _)|(_ & td & Hin & Hnone)];
    [|now apply Htags in Hin].
  cbn [bind]. cbv zeta.
  destruct (Hencode (PyDict.keys (canonical_map_of nodes0)))
    as (embeddings & -> & Hlen).
  cbn [call bind].
  destruct (with_embedding_raises
              (combine (PyDict.keys (canonical_map_of nodes0)) embeddings)
              nodes0) as [(nodes & -> & _)|(_ & node & Hin & Hnone)].
  2:{ exfalso. revert Hnone. apply get_combine_some; [|lia].
      now apply canonical_map_keys. }
  cbn [bind]. now rewrite Hfail.
Qed.

Lemma build_clustering_fails (account_data : AccountData)
    (canonical_config : option TopicExtractorV2.CanonicalMap)
    (user : string) (max_umbrellas : Z) (e : exn) :
  (min_cluster_size <= Z.of_nat (length (tags_of account_data)))%Z ->
  (forall tag_data, In tag_data (tags_of account_data) ->
                    tag tag_data <> None) ->
  encoder_answers -> check_passes -> clustering_fails e ->
  build (Some account_data) canonical_config user max_umbrellas = Raises e.
Proof.
  intros Henough Htags Hencode Hcheck Hfail.
  destruct (build_to_cascade account_data canonical_config user max_umbrellas
              Henough Htags Hencode Hcheck)
    as (nodes0 & nodes & embeddings & _ & _ & ->).
  now rewrite (cascade_fails _ _ e Hfail).
Qed.

Lemma build_labeller_fails (account_data : AccountData)
    (canonical_config : option TopicExtractorV2.CanonicalMap)
    (user : string) (max_umbrellas : Z) (e : exn) :
  (min_cluster_size <= Z.of_nat (length (tags_of account_data)))%Z ->
  (forall tag_data, In tag_data (tags_of account_data) ->
                    tag tag_data <> None) ->
  encoder_answers -> check_passes -> clustering_answers ->
  (forall cluster_topics cluster_embeddings,
     _generate_umbrella_label cluster_topics cluster_embeddings = Raises e) ->
  build (Some account_data) canonical_config user max_umbrellas = Raises e
  \/ build (Some account_data) canonical_config user max_umbrellas
     = Returns None.
Proof.
  intros Henough Htags Hencode Hcheck Hlib Hfail.
  destruct (build_to_cascade account_data canonical_config user max_umbrellas
              Henough Htags Hencode Hcheck)
    as (nodes0 & nodes & embeddings & Hc & Hlen & ->).
  destruct (cascade_answers (PyDict.keys (canonical_map_of nodes0))
              (fst (_build_similarity_graph similarity_threshold
                      (PyDict.keys (canonical_map_of nodes0)) embeddings))
              Hlib) as (clusters & Hcl & Hrange).
  pose proof (cascade_nonempty _ _ _ Hcl) as Hne.
  rewrite Hcl. cbn [bind]. rewrite graph_rows in Hrange.
  destruct clusters as [|c cs]; [now right|]. left.
  rewrite (assemble_label_raises nodes0 nodes embeddings c cs e);
    [reflexivity | exact Hc | | | exact Hcheck | exact Hfail].
  - now inversion Hne.
  - intros idx Hidx. specialize (Hrange c idx (or_introl eq_refl) Hidx). lia.
Qed.

Lemma build_save_fails (account_data : AccountData)
    (canonical_config : option TopicExtractorV2.CanonicalMap)
    (user : string) (max_umbrellas : Z) (e : exn) :
  (min_cluster_size <= Z.of_nat (length (tags_of account_data)))%Z ->
  (forall tag_data, In tag_data (tags_of account_data) ->
                    tag tag_data <> None) ->
  encoder_answers -> check_passes -> clustering_answers ->
  labeller_returns ->
  (forall output, save output = Error e) ->
  build (Some account_data) canonical_config user max_umbrellas = Raises e
  \/ build (Some account_data) canonical_config user max_umbrellas
     = Returns None.
Proof.
  intros Henough Htags Hencode Hcheck Hlib Hlabel Hfail.
  destruct (build_to_cascade account_data canonical_config user max_umbrellas
              Henough Htags Hencode Hcheck)
    as (nodes0 & nodes & embeddings & Hc & Hlen & ->).
  destruct (cascade_answers (PyDict.keys (canonical_map_of nodes0))
              (fst (_build_similarity_graph similarity_threshold
                      (PyDict.keys (canonical_map_of nodes0)) embeddings))
              Hlib) as (clusters & -> & Hrange).
  cbn [bind]. rewrite graph_rows in Hrange.
  destruct clusters as [|c cs]; [now right|]. left.
  destruct (assemble_total nodes embeddings
              (PyDict.keys (canonical_map_of nodes0)) (c :: cs))
    as (umbrellas0 & ->); [|exact Hcheck | exact Hlabel|].
  { intros ci idx Hci Hidx. specialize (Hrange ci idx Hci Hidx). lia. }
  cbn [bind]. now rewrite Hfail.
Qed.

(** X18.  An output of [build_account_umbrellas] was saved, names the user,
    the clustering method of the cascade and the similarity threshold, and
    counts the tags of the account, which are at least [min_cluster_size],
    and at most as many canonical topics.  Its umbrellas are counted by
    [umbrella_count], are at most [max_umbrellas] when that is not negative
    and at most [total_clusters], and come in descending order of member
    count; each keeps its member count, its at most five representative
    topics among its members, and lists its videos in strictly increasing
    order. *)
Theorem account_umbrellas_output (account_file : option AccountData)
    (canonical_config : option TopicExtractorV2.CanonicalMap)
    (user : string) (max_umbrellas : Z) (output : Output) :
  build_account_umbrellas similarity_threshold min_cluster_size resolution
    LEIDEN_AVAILABLE LOUVAIN_AVAILABLE HDBSCAN_AVAILABLE
    key_error index_error model_encode cosine_similarity_check
    leiden_membership louvain_best_partition hdbscan_fit_predict
    connected_components save _generate_umbrella_label
    account_file canonical_config user max_umbrellas
  = Returns (Some output) ->
  save output = Ok tt
  /\ username output = user
  /\ (exists account_data,
        account_file = Some account_data
        /\ total_topics output
           = length (match tags account_data with Some t => t | None => [] end))
  /\ (min_cluster_size <= Z.of_nat (total_topics output))%Z
  /\ canonical_topics_count output <= total_topics output
  /\ clustering_method output
     = _get_clustering_method LEIDEN_AVAILABLE LOUVAIN_AVAILABLE
                              HDBSCAN_AVAILABLE
  /\ threshold output = similarity_threshold
  /\ umbrella_count output = length (umbrellas output)
  /\ umbrella_count output <= total_clusters output
  /\ ((0 <= max_umbrellas)%Z -> (Z.of_nat (umbrella_count output) <= max_umbrellas)%Z)
  /\ StronglySorted (fun a b => member_count b <= member_count a)
                    (umbrellas output)
  /\ Forall
       (fun u =>
          member_count u = length (members u)
          /\ length (representative_topics u) <= 5
          /\ incl (representative_topics u) (members u)
          /\ (min_frequency (stats u) <= max_frequency (stats u))%Z
          /\ StronglySorted (fun a b => String.ltb a b = true)
                            (umbrella_video_ids u))
       (umbrellas output).
Proof.
  intros Hrun. apply build_output in Hrun.
  destruct Hrun as (data & nodes & embs & topics & clusters & Hfile & Henough
                    & Hs & Hu & Htot & Hcan & Hm & Ht & Hcount & Hcl & Humb
                    & _).
  split; [exact Hs|]. split; [exact Hu|].
  split; [exists data; auto|]. split; [now rewrite Htot|].
  split; [exact Hcan|]. split; [exact Hm|]. split; [exact Ht|].
  split; [exact Hcount|].
  split; [|split; [|split]].
  - rewrite Hcount, Hcl, Humb, length_map.
    etransitivity; [apply slice_to_shorter|].
    rewrite <- (Permutation_length (VecFacts.sort_desc_perm _ _)). lia.
  - intros Hmax. rewrite Hcount, Humb, length_map.
    now apply ListExtra.slice_to_length.
  - rewrite Humb.
    apply sorted_map with (R := fun a b => member_count b <= member_count a);
      [auto|].
    apply sorted_slice_to.
    eapply UmbrellaExtra.sorted_weaken; [|apply ListExtra.sort_desc_sorted].
    intros a b Hab. now apply INR_le.
  - apply Forall_forall. intros u Hin. rewrite Humb in Hin.
    apply output_umbrella_origin in Hin.
    destruct Hin as (i & c & u0 & -> & _ & Hb).
    apply UmbrellaExtra.build_umbrella_fields in Hb.
    destruct Hb as (_ & Hmem & Hc & Hne & _ & Hv & Hr & Hf).
    cbn [as_output member_count members representative_topics stats
         umbrella_video_ids].
    split; [now rewrite Hc, Hmem, length_map|].
    split; [rewrite Hr, length_map; apply firstn_le_length|].
    split; [|split].
    + rewrite Hr. intros t Hin. apply in_map_iff in Hin.
      destruct Hin as (node & <- & Hin).
      apply PyListFacts.firstn_in, VecFacts.sort_desc_in, filter_In in Hin.
      destruct Hin as [_ Hin]. apply existsb_exists in Hin.
      destruct Hin as (m & Hm' & Heq). apply String.eqb_eq in Heq.
      now rewrite Heq.
    + destruct (filter _ nodes) as [|n0 ns]; [contradiction|].
      inversion Hf; subst. lia.
    + rewrite Hv. apply SortedStrings.sorted_increasing, NoDup_nodup.
Qed.

(** X19.  [build_account_umbrellas] returns nothing when the account file
    is missing or holds fewer tags than [min_cluster_size].  It catches no
    exception.  It raises only: a [KeyError], for a tag without the key
    ["tag"] or when the encoder gives fewer embeddings than canonical topics;
    an [IndexError], when a cluster holds an index that is not one of a
    canonical topic and of an embedding; and what the encoder,
    [cosine_similarity], the clustering library of the strategy in use, the
    labeller or the writing of the output raise.  Step by step, for a file
    with enough tags: a tag without its key raises [KeyError]; then an
    encoder, a [cosine_similarity], a clustering library that fails makes the
    builder raise the same exception; then a labeller or a writer that fails
    does so unless there is no cluster, when nothing is returned; and when
    every step answers, the builder returns. *)
Theorem account_umbrellas_errors (account_file : option AccountData)
    (canonical_config : option TopicExtractorV2.CanonicalMap)
    (user : string) (max_umbrellas : Z) :
  (account_file = None ->
   build_account_umbrellas similarity_threshold min_cluster_size resolution
     LEIDEN_AVAILABLE LOUVAIN_AVAILABLE HDBSCAN_AVAILABLE
     key_error index_error model_encode cosine_similarity_check
     leiden_membership louvain_best_partition hdbscan_fit_predict
     connected_components save _generate_umbrella_label
     account_file canonical_config user max_umbrellas
   = Returns None)
  /\ (forall account_data,
        account_file = Some account_data ->
        (Z.of_nat (length (match tags account_data with
                           | Some t => t | None => [] end))
         < min_cluster_size)%Z ->
        build_account_umbrellas similarity_threshold min_cluster_size resolution
          LEIDEN_AVAILABLE LOUVAIN_AVAILABLE HDBSCAN_AVAILABLE
          key_error index_error model_encode cosine_similarity_check
          leiden_membership louvain_best_partition hdbscan_fit_predict
          connected_components save _generate_umbrella_label
          account_file canonical_config user max_umbrellas
        = Returns None)
  /\ (forall e,
        build_account_umbrellas similarity_threshold min_cluster_size resolution
          LEIDEN_AVAILABLE LOUVAIN_AVAILABLE HDBSCAN_AVAILABLE
          key_error index_error model_encode cosine_similarity_check
          leiden_membership louvain_best_partition hdbscan_fit_predict
          connected_components save _generate_umbrella_label
          account_file canonical_config user max_umbrellas
        = Raises e ->
        (e = key_error
         /\ exists account_data tag_data,
              account_file = Some account_data
              /\ In tag_data (match tags account_data with
                              | Some t => t | None => [] end)
              /\ tag tag_data = None)
        \/ (exists topics, model_encode topics = Error e)
        \/ (e = key_error
            /\ exists topics embeddings,
                 model_encode topics = Ok embeddings
                 /\ length embeddings < length topics)
        \/ (exists embeddings, cosine_similarity_check embeddings = Error e)
        \/ clustering_raised e
        \/ (e = index_error
            /\ exists topics (embeddings : list Vec.vec) adj_matrix clusters
                      cluster_indices idx,
                 run_cluster_topics min_cluster_size resolution
                   LEIDEN_AVAILABLE LOUVAIN_AVAILABLE HDBSCAN_AVAILABLE
                   leiden_membership louvain_best_partition
                   hdbscan_fit_predict connected_components topics adj_matrix
                 = Returns clusters
                 /\ In cluster_indices clusters /\ In idx cluster_indices
                 /\ (length topics <= idx \/ length embeddings <= idx))
        \/ (exists cluster_topics cluster_embeddings,
              _generate_umbrella_label cluster_topics cluster_embeddings
              = Raises e)
        \/ (exists output, save output = Error e))
  /\ (build_account_umbrellas similarity_threshold min_cluster_size resolution
        LEIDEN_AVAILABLE LOUVAIN_AVAILABLE HDBSCAN_AVAILABLE
        key_error index_error model_encode cosine_similarity_check
        leiden_membership louvain_best_partition hdbscan_fit_predict
        connected_components save _generate_umbrella_label
        account_file canonical_config user max_umbrellas
      = OutOfFuel ->
      exists cluster_topics cluster_embeddings,
        _generate_umbrella_label cluster_topics cluster_embeddings = OutOfFuel)
  /\ (forall account_data,
        account_file = Some account_data ->
        (min_cluster_size
         <= Z.of_nat (length (match tags account_data with
                              | Some t => t | None => [] end)))%Z ->
        (forall tag_data,
           In tag_data (match tags account_data with
                        | Some t => t | None => [] end) ->
           tag tag_data = None ->
           build_account_umbrellas similarity_threshold min_cluster_size resolution
             LEIDEN_AVAILABLE LOUVAIN_AVAILABLE HDBSCAN_AVAILABLE
             key_error index_error model_encode cosine_similarity_check
             leiden_membership louvain_best_partition hdbscan_fit_predict
             connected_components save _generate_umbrella_label
             account_file canonical_config user max_umbrellas
           = Raises key_error)
        /\ ((forall tag_data,
               In tag_data (match tags account_data with
                            | Some t => t | None => [] end) ->
               tag tag_data <> None) ->
            (forall e,
               (forall topics, model_encode topics = Error e) ->
               build_account_umbrellas similarity_threshold min_cluster_size resolution
                 LEIDEN_AVAILABLE LOUVAIN_AVAILABLE HDBSCAN_AVAILABLE
                 key_error index_error model_encode cosine_similarity_check
                 leiden_membership louvain_best_partition hdbscan_fit_predict
                 connected_components save _generate_umbrella_label
                 account_file canonical_config user max_umbrellas
               = Raises e)
            /\ (encoder_answers ->
                (forall e,
                   (forall embeddings,
                      cosine_similarity_check embeddings = Error e) ->
                   build_account_umbrellas similarity_threshold min_cluster_size resolution
                     LEIDEN_AVAILABLE LOUVAIN_AVAILABLE HDBSCAN_AVAILABLE
                     key_error index_error model_encode cosine_similarity_check
                     leiden_membership louvain_best_partition hdbscan_fit_predict
                     connected_components save _generate_umbrella_label
                     account_file canonical_config user max_umbrellas
                   = Raises e)
                /\ (check_passes ->
                    (forall e,
                       clustering_fails e ->
                       build_account_umbrellas similarity_threshold min_cluster_size resolution
                         LEIDEN_AVAILABLE LOUVAIN_AVAILABLE HDBSCAN_AVAILABLE
                         key_error index_error model_encode cosine_similarity_check
                         leiden_membership louvain_best_partition hdbscan_fit_predict
                         connected_components save _generate_umbrella_label
                         account_file canonical_config user max_umbrellas
                       = Raises e)
                    /\ (clustering_answers ->
                        (forall e,
                           (forall cluster_topics cluster_embeddings,
                              _generate_umbrella_label cluster_topics
                                                       cluster_embeddings
                              = Raises e) ->
                           build_account_umbrellas similarity_threshold min_cluster_size resolution
                             LEIDEN_AVAILABLE LOUVAIN_AVAILABLE HDBSCAN_AVAILABLE
                             key_error index_error model_encode cosine_similarity_check
                             leiden_membership louvain_best_partition hdbscan_fit_predict
                             connected_components save _generate_umbrella_label
                             account_file canonical_config user max_umbrellas
                           = Raises e
                           \/
                           build_account_umbrellas similarity_threshold min_cluster_size resolution
                             LEIDEN_AVAILABLE LOUVAIN_AVAILABLE HDBSCAN_AVAILABLE
                             key_error index_error model_encode cosine_similarity_check
                             leiden_membership louvain_best_partition hdbscan_fit_predict
                             connected_components save _generate_umbrella_label
                             account_file canonical_config user max_umbrellas
                           = Returns None)
                        /\ (labeller_returns ->
                            (forall e,
                               (forall output, save output = Error e) ->
                               build_account_umbrellas similarity_threshold min_cluster_size resolution
                                 LEIDEN_AVAILABLE LOUVAIN_AVAILABLE HDBSCAN_AVAILABLE
                                 key_error index_error model_encode cosine_similarity_check
                                 leiden_membership louvain_best_partition hdbscan_fit_predict
                                 connected_components save _generate_umbrella_label
                                 account_file canonical_config user max_umbrellas
                               = Raises e
                               \/
                               build_account_umbrellas similarity_threshold min_cluster_size resolution
                                 LEIDEN_AVAILABLE LOUVAIN_AVAILABLE HDBSCAN_AVAILABLE
                                 key_error index_error model_encode cosine_similarity_check
                                 leiden_membership louvain_best_partition hdbscan_fit_predict
                                 connected_components save _generate_umbrella_label
                                 account_file canonical_config user max_umbrellas
                               = Returns None)
                            /\ ((forall output, save output = Ok tt) ->
                                exists answer,
                                  build_account_umbrellas similarity_threshold min_cluster_size resolution
                                    LEIDEN_AVAILABLE LOUVAIN_AVAILABLE HDBSCAN_AVAILABLE
                                    key_error index_error model_encode cosine_similarity_check
                                    leiden_membership louvain_best_partition hdbscan_fit_predict
                                    connected_components save _generate_umbrella_label
                                    account_file canonical_config user max_umbrellas
                                  = Returns answer))))))).
Proof.
  split; [now intros ->|].
  split; [intros data ->; apply build_few_tags|].
  split.
  { intros e Hrun. destruct account_file as [data|]; [|discriminate].
    apply build_raises in Hrun.
    destruct Hrun as [(-> & td & Hin & Hnone)|Hrest]; [|now right].
    left. split; [reflexivity|]. exists data, td. auto. }
  split.
  { intros Hrun. destruct account_file as [data|]; [|discriminate].
    now apply build_stalls in Hrun. }
  intros data -> Henough.
  split; [intros td; now apply build_tag_missing|].
  intros Htags.
  split; [intros e; now apply build_encoder_fails|].
  intros Hencode.
  split; [intros e; now apply build_check_fails|].
  intros Hcheck.
  split; [intros e; now apply build_clustering_fails|].
  intros Hlib.
  split; [intros e; now apply build_labeller_fails|].
  intros Hlabel.
  split; [intros e; now apply build_save_fails|].
  intros Hsave. now apply build_total.
Qed.

(** X20.  When HDBSCAN honours its [min_cluster_size], every umbrella of an
    output has at least [min_cluster_size] members, whichever strategy the
    cascade ran. *)
Theorem account_umbrellas_min_size (account_file : option AccountData)
    (canonical_config : option TopicExtractorV2.CanonicalMap)
    (user : string) (max_umbrellas : Z) (output : Output) :
  hdbscan_call_respects_min_size hdbscan_fit_predict ->
  build_account_umbrellas similarity_threshold min_cluster_size resolution
    LEIDEN_AVAILABLE LOUVAIN_AVAILABLE HDBSCAN_AVAILABLE
    key_error index_error model_encode cosine_similarity_check
    leiden_membership louvain_best_partition hdbscan_fit_predict
    connected_components save _generate_umbrella_label
    account_file canonical_config user max_umbrellas
  = Returns (Some output) ->
  Forall (fun u => (min_cluster_size <= Z.of_nat (member_count u))%Z)
         (umbrellas output).
Proof.
  intros Hlib Hrun. apply build_output in Hrun.
  destruct Hrun as (data & nodes & embs & topics & clusters & _ & _ & _ & _
                    & _ & _ & _ & _ & _ & _ & Humb & Hlarge).
  specialize (Hlarge Hlib).
  apply Forall_forall. intros u Hin. rewrite Humb in Hin.
  apply output_umbrella_origin in Hin.
  destruct Hin as (i & c & u0 & -> & Hc & Hb).
  apply UmbrellaExtra.build_umbrella_fields in Hb.
  destruct Hb as (_ & _ & Hcount & _).
  cbn [as_output member_count]. rewrite Hcount.
  rewrite Forall_forall in Hlarge. now apply Hlarge.
Qed.

End Builder.

Lemma sample_run_output : sample_run = Returns (Some sample_output).
Proof. reflexivity. Qed.

(** The labeller of the repository raises [IndexError] for a cluster whose
    one topic is the empty string, and so does the builder. *)
Lemma empty_tag_raises :
  sample_builder
    (fun cluster_topics _ =>
       UmbrellaLabel._generate_umbrella_label "IndexError" "ZeroDivisionError"
                                              cluster_topics)
    empty_tag_account
  = Raises "IndexError".
Proof. reflexivity. Qed.

Lemma sample_hdbscan_contract :
  hdbscan_call_respects_min_size sample_hdbscan.
Proof.
  intros k eps D labels [= <-] label.
  apply ClusterFacts.sample_hdbscan_respects_min_size.
Qed.

Lemma account_umbrellas_output_witness :
  sample_save sample_output = Ok tt
  /\ username sample_output = "sample"
  /\ (exists account_data,
        Some sample_account = Some account_data
        /\ total_topics sample_output
           = length (match tags account_data with Some t => t | None => [] end))
  /\ (1 <= Z.of_nat (total_topics sample_output))%Z
  /\ canonical_topics_count sample_output <= total_topics sample_output
  /\ clustering_method sample_output
     = _get_clustering_method false false false
  /\ threshold sample_output = 0.7%R
  /\ umbrella_count sample_output = length (umbrellas sample_output)
  /\ umbrella_count sample_output <= total_clusters sample_output
  /\ ((0 <= 5)%Z -> (Z.of_nat (umbrella_count sample_output) <= 5)%Z)
  /\ StronglySorted (fun a b => member_count b <= member_count a)
                    (umbrellas sample_output)
  /\ Forall
       (fun u =>
          member_count u = length (members u)
          /\ length (representative_topics u) <= 5
          /\ incl (representative_topics u) (members u)
          /\ (min_frequency (stats u) <= max_frequency (stats u))%Z
          /\ StronglySorted (fun a b => String.ltb a b = true)
                            (umbrella_video_ids u))
       (umbrellas sample_output).
Proof.
  apply (account_umbrellas_output 0.7%R 1%Z 1%R false false false
           string "KeyError" "IndexError" sample_encode sample_check
           (fun _ _ _ => Ok []) (fun _ _ => Ok []) sample_hdbscan
           sample_components sample_save sample_label
           (Some sample_account) None "sample" 5%Z sample_output).
  reflexivity.
Defined.

Lemma account_umbrellas_min_size_witness :
  Forall (fun u => (1 <= Z.of_nat (member_count u))%Z)
         (umbrellas sample_output).
Proof.
  apply (account_umbrellas_min_size 0.7%R 1%Z 1%R false false false
           string "KeyError" "IndexError" sample_encode sample_check
           (fun _ _ _ => Ok []) (fun _ _ => Ok []) sample_hdbscan
           sample_components sample_save sample_label
           (Some sample_account) None "sample" 5%Z sample_output).
  - exact sample_hdbscan_contract.
  - reflexivity.
Defined.

End AccountUmbrellaFacts.

(** ** The candidate phrases *)
Module CandidateExtra.
Import TopicExtractorV2 Outcome.
Local Open Scope string_scope.

Lemma lower_app (s t : string) :
  PyStr.lower (s ++ t) = PyStr.lower s ++ PyStr.lower t.
Proof. induction s as [|c s IH]; simpl; [reflexivity | now rewrite IH]. Qed.

Lemma lower_join (sep : string) (parts : list string) :
  PyStr.lower (PyStr.join sep parts)
  = PyStr.join (PyStr.lower sep) (map PyStr.lower parts).
Proof.
  induction parts as [|p [|q parts] IH]; try reflexivity.
  change (PyStr.join sep (p :: q :: parts))
    with (p ++ sep ++ PyStr.join sep (q :: parts)).
  rewrite !lower_app, IH. reflexivity.
Qed.

Lemma chunk_phrase_lower (chunk : Span) :
  PyStr.lower (chunk_phrase chunk) = chunk_phrase chunk.
Proof.
  unfold chunk_phrase. rewrite lower_join, map_map. simpl PyStr.lower at 1.
  f_equal. apply map_ext. intros token. apply PyStrFacts.lower_idem.
Qed.

Lemma noun_phrases_lower (doc : Doc) :
  Forall (fun np : string * nat * nat =>
            PyStr.lower (fst (fst np)) = fst (fst np))
         (noun_phrases_of doc).
Proof.
  unfold noun_phrases_of. apply Forall_app. split; apply Forall_forall;
    intros np Hin; apply in_flat_map in Hin; destruct Hin as (span & _ & Hin).
  - destruct (andb _ _); [|destruct Hin]. destruct Hin as [<-|[]].
    apply chunk_phrase_lower.
  - destruct (existsb _ _); [|destruct Hin]. destruct Hin as [<-|[]].
    apply PyStrFacts.lower_idem.
Qed.

Section Extractor.
Variable exn : Type.
Variable nlp : string -> result exn Doc.
Variable st_encode : string -> result exn Vec.vec.
Variable stop_phrases : list string.
Variable canonical_map : CanonicalMap.

(** X21.  [_extract_noun_phrases] raises what spaCy raises and nothing
    else.  Every phrase it returns is in lower case, comes with the character
    span of a noun chunk or of an entity of the document, and the phrases of
    noun chunks come before those of entities; so every tag that per-video
    extraction returns is in lower case. *)
Theorem extract_noun_phrases_lower_case (transcript : string) :
  (forall e, nlp transcript = Error e -> _extract_noun_phrases nlp transcript = Raises e)
  /\ (forall doc,
        nlp transcript = Ok doc ->
        exists chunk_phrases entity_phrases,
          _extract_noun_phrases nlp transcript
          = Returns (chunk_phrases ++ entity_phrases)%list
          /\ Forall (fun np : string * nat * nat =>
                       PyStr.lower (fst (fst np)) = fst (fst np))
                    (chunk_phrases ++ entity_phrases)
          /\ Forall (fun np : string * nat * nat =>
                       exists chunk,
                         In chunk (noun_chunks doc)
                         /\ snd (fst np) = start_char chunk
                         /\ snd np = end_char chunk)
                    chunk_phrases
          /\ Forall (fun np : string * nat * nat =>
                       exists ent,
                         In ent (ents doc)
                         /\ In (label_ ent) entity_labels
                         /\ np = (PyStr.lower (text ent), start_char ent,
                                  end_char ent))
                    entity_phrases)
  /\ (forall sentence_timestamps title hashtags video_id lambda_param
             max_topics min_confidence,
        exists topics,
          extract_video_topics_enhanced nlp st_encode stop_phrases
            canonical_map transcript sentence_timestamps title hashtags video_id
            lambda_param max_topics min_confidence = Returns topics
          /\ Forall (fun topic => PyStr.lower (tag topic) = tag topic) topics).
Proof.
  split; [|split].
  - intros e He. unfold _extract_noun_phrases. now rewrite He.
  - intros doc Hdoc. unfold _extract_noun_phrases. rewrite Hdoc. cbn [call bind].
    eexists _, _. split; [reflexivity|]. split; [apply noun_phrases_lower|].
    split; apply Forall_forall; intros np Hin; apply in_flat_map in Hin;
      destruct Hin as (span & Hspan & Hin).
    + cbv zeta in Hin.
      destruct (andb _ _); [|destruct Hin]. destruct Hin as [<-|[]].
      exists span. auto.
    + destruct (existsb _ _) eqn:Hl; [|destruct Hin]. destruct Hin as [<-|[]].
      exists span. split; [exact Hspan|]. split; [|reflexivity].
      apply existsb_exists in Hl. destruct Hl as (l & Hl & Heq).
      apply String.eqb_eq in Heq. now rewrite Heq.
  - intros sentence_timestamps title hashtags video_id lambda_param
           max_topics min_confidence.
    destruct (AssemblerExtra.extract_structure exn nlp st_encode stop_phrases
                canonical_map transcript sentence_timestamps title hashtags
                video_id lambda_param max_topics min_confidence)
      as (topics & Hret & [->|(doc & emb & sel & _ & Hm & ->)]).
    + exists []. split; [exact Hret | constructor].
    + eexists. split; [exact Hret|].
      apply Forall_forall. intros topic Hin.
      apply PyListFacts.slice_to_in, VecFacts.sort_desc_in, in_flat_map in Hin.
      destruct Hin as (pick & Hpick & Hin).
      destruct (build_topic _ _ _ _ _ _ _ _) as [t|] eqn:Hb; [|destruct Hin].
      destruct Hin as [->|[]].
      apply AssemblerExtra.build_topic_fields in Hb. destruct Hb as (-> & _).
      apply AssemblerExtra.compute_mmr_phrases in Hm. destruct Hm as [Hincl _].
      assert (Hc : In (fst pick)
                      (PyList.list_set
                         (filter (fun phrase =>
                                    negb (_is_stop_phrase stop_phrases phrase))
                                 (map (fun np : string * nat * nat =>
                                         fst (fst np))
                                      (noun_phrases_of doc)))))
        by (apply Hincl; now apply in_map).
      unfold PyList.list_set in Hc. apply nodup_In, filter_In in Hc.
      destruct Hc as [Hc _]. apply in_map_iff in Hc.
      destruct Hc as (np & <- & Hnp).
      pose proof (noun_phrases_lower doc) as Hlow.
      rewrite Forall_forall in Hlow. now apply Hlow.
Qed.

End Extractor.
End CandidateExtra.

(** ** The topics of an account *)
Module AccountTopicsFacts.
Import Outcome TopicExtractorV2 AccountTopics.
Local Open Scope string_scope.

Section Account.
Variable exn : Type.
Variable nlp : string -> result exn Doc.
Variable st_encode : string -> result exn Vec.vec.
Variable stop_phrases : list string.
Variable canonical_map : CanonicalMap.
Variable FS : Type.
Variable file_not_found : File -> exn.
Variable file_exists : FS -> File -> bool.
Variable load_index : FS -> result exn Index.
Variable mkdir : FS -> File -> result exn FS.
Variable read_text : FS -> File -> result exn string.
Variable load_timestamps : FS -> File -> result exn (list Sentence).
Variable dump : FS -> File -> V2Data -> FS * result exn unit.
Variable user : string.
Variable force : bool.

Local Abbreviation step :=
  (process_video nlp st_encode stop_phrases canonical_map file_exists
                 read_text load_timestamps dump user force).
Local Abbreviation loop :=
  (process_videos nlp st_encode stop_phrases canonical_map file_exists
                  read_text load_timestamps dump user force).

(** The block before the write returns or raises. *)
Lemma prepare_total (fs : FS) (video_id : string) (video_data : VideoData) :
  prepare nlp st_encode stop_phrases canonical_map file_exists read_text
          load_timestamps user fs video_id video_data <> OutOfFuel.
Proof.
  unfold prepare.
  destruct (read_text fs _) as [text|e]; cbn [call bind]; [|discriminate].
  destruct (negb _); [discriminate|].
  destruct (file_exists fs _);
    [destruct (load_timestamps fs _) as [ts|e]; cbn [call bind];
     [|discriminate]|cbn [bind]].
  - match goal with
    | |- context [extract_video_topics_enhanced ?a ?b ?c ?d ?t ?s ?ti ?h ?v ?l ?m ?mc] =>
        destruct (AssemblerExtra.extract_structure exn a b c d t s ti h v l m mc)
          as (topics & -> & _)
    end.
    discriminate.
  - match goal with
    | |- context [extract_video_topics_enhanced ?a ?b ?c ?d ?t ?s ?ti ?h ?v ?l ?m ?mc] =>
        destruct (AssemblerExtra.extract_structure exn a b c d t s ti h v l m mc)
          as (topics & -> & _)
    end.
    discriminate.
Qed.

(** Every turn of the loop adds one to exactly one counter; a video that is
    not marked successful is skipped and leaves the files alone. *)
Lemma process_video_counts (fs : FS) (results : Results)
    (item : string * VideoData) :
  exists fs' results',
    step (fs, results) item = Returns (fs', results')
    /\ (results' = count_extracted results
        \/ results' = count_skipped results
        \/ results' = count_failed results)
    /\ (success (snd item) = false ->
        fs' = fs /\ results' = count_skipped results).
Proof.
  unfold process_video. cbn [fst snd].
  destruct (success (snd item)); cbn [negb].
  2: { eexists _, _. split; [reflexivity|]. auto. }
  destruct (andb _ _).
  { eexists _, _. split; [reflexivity|]. split; [auto | discriminate]. }
  destruct (negb (file_exists fs _)).
  { eexists _, _. split; [reflexivity|]. split; [auto | discriminate]. }
  pose proof (prepare_total fs (fst item) (snd item)) as Htotal.
  destruct (prepare _ _ _ _ _ _ _ _ _ _ _) as [[v2_data|]|e|];
    [| | |contradiction].
  - destruct (dump fs _ v2_data) as [fs' [[]|e]];
      eexists _, _; (split; [reflexivity|]); (split; [auto | discriminate]).
  - eexists _, _. split; [reflexivity|]. split; [auto | discriminate].
  - eexists _, _. split; [reflexivity|]. split; [auto | discriminate].
Qed.

Lemma process_videos_counts (items : list (string * VideoData)) :
  forall fs results,
    exists fs' results',
      loop (fs, results) items = Returns (fs', results')
      /\ username results' = username results
      /\ total_videos results' = total_videos results
      /\ (extracted results <= extracted results')%Z
      /\ (skipped results
          + Z.of_nat (length (filter (fun item => negb (success (snd item)))
                                     items))
          <= skipped results')%Z
      /\ (failed results <= failed results')%Z
      /\ (extracted results' + skipped results' + failed results'
          = extracted results + skipped results + failed results
            + Z.of_nat (length items))%Z
      /\ (Forall (fun item => success (snd item) = false) items -> fs' = fs).
Proof.
  induction items as [|item items IH]; intros fs results.
  - exists fs, results. cbn. repeat split; auto; lia.
  - cbn [process_videos].
    destruct (process_video_counts fs results item)
      as (fs1 & r1 & -> & Hone & Hskip). cbn [bind].
    destruct (IH fs1 r1) as (fs2 & r2 & -> & Hu & Ht & He & Hs & Hf & Hsum & Hfs).
    exists fs2, r2. split; [reflexivity|].
    cbn [filter length].
    destruct (success (snd item)) eqn:Hsucc; cbn [negb length].
    + destruct Hone as [-> | [-> | ->]]; cbn in *;
        (repeat split; auto; try lia);
        intros Hall; inversion Hall; congruence.
    + destruct (Hskip eq_refl) as [-> ->]. cbn in *.
      repeat split; auto; try lia.
      intros Hall. inversion Hall; subst. auto.
Qed.

(** X22.  [extract_account_topics_v2] raises [FileNotFoundError] when the
    account directory or its index is missing.  Once the index is loaded and
    the topics directory made, it returns a summary for the user in which
    every video of the index is counted once: extracted, skipped and failed
    add up to [total_videos]; the videos not marked successful are among the
    skipped, and when none is marked successful the files are left as they
    are. *)
Theorem account_extraction_counts (fs : FS) :
  (file_exists fs AccountDir = false ->
   extract_account_topics_v2 nlp st_encode stop_phrases canonical_map
     file_not_found file_exists load_index mkdir read_text load_timestamps
     dump user force fs = Raises (file_not_found AccountDir))
  /\ (file_exists fs AccountDir = true ->
      file_exists fs IndexJson = false ->
      extract_account_topics_v2 nlp st_encode stop_phrases canonical_map
        file_not_found file_exists load_index mkdir read_text load_timestamps
        dump user force fs = Raises (file_not_found IndexJson))
  /\ (forall index fs0,
        file_exists fs AccountDir = true ->
        file_exists fs IndexJson = true ->
        load_index fs = Ok index ->
        mkdir fs TopicsDir = Ok fs0 ->
        exists fs' results,
          extract_account_topics_v2 nlp st_encode stop_phrases canonical_map
            file_not_found file_exists load_index mkdir read_text
            load_timestamps dump user force fs = Returns (fs', results)
          /\ username results = user
          /\ total_videos results
             = length (option_default [] (processed_videos index))
          /\ (0 <= extracted results)%Z
          /\ (0 <= failed results)%Z
          /\ (Z.of_nat
                (length (filter (fun item => negb (success (snd item)))
                                (option_default [] (processed_videos index))))
              <= skipped results)%Z
          /\ (extracted results + skipped results + failed results
              = Z.of_nat (total_videos results))%Z
          /\ (Forall (fun item => success (snd item) = false)
                     (option_default [] (processed_videos index)) ->
              fs' = fs0)).
Proof.
  unfold extract_account_topics_v2. split; [|split].
  - intros ->. reflexivity.
  - intros -> ->. reflexivity.
  - intros index fs0 -> -> -> ->. cbn [negb call bind].
    destruct (process_videos_counts
                (option_default [] (processed_videos index)) fs0
                {| username := user;
                   total_videos :=
                     length (option_default [] (processed_videos index));
                   extracted := 0; skipped := 0; failed := 0 |})
      as (fs' & r & -> & Hu & Ht & He & Hs & Hf & Hsum & Hfs).
    exists fs', r. cbn in *. split; [reflexivity|].
    repeat split; auto; try lia.
Qed.

End Account.
End AccountTopicsFacts.

(** ** The label of an umbrella *)
Module LabelFacts.
Import Outcome UmbrellaLabel.
Local Open Scope string_scope.

(** What holds of the counted words after the topics [seen]. *)
Local Abbreviation counted_from seen word :=
  (exists topic w,
     In topic seen
     /\ In w (KeywordExtractor.split_whitespace (PyStr.lower topic))
     /\ word = strip_chars w).

Lemma count_word_inv (seen : list string) (topic : string) (words : Words)
    (w : string) :
  In topic seen ->
  In w (KeywordExtractor.split_whitespace (PyStr.lower topic)) ->
  NoDup (PyDict.keys (word_counts words)) ->
  (forall k, In k (PyDict.keys (word_counts words)) ->
             counted k = true
             /\ PyDict.get_list (word_topics words) k <> []
             /\ counted_from seen k) ->
  NoDup (PyDict.keys (word_counts (count_word topic words w)))
  /\ (forall k, In k (PyDict.keys (word_counts (count_word topic words w))) ->
                counted k = true
                /\ PyDict.get_list (word_topics (count_word topic words w)) k
                   <> []
                /\ counted_from seen k).
Proof.
  intros Htopic Hw Hnd Hinv. unfold count_word.
  destruct (counted (strip_chars w)) eqn:Hc; [|auto].
  cbn [word_counts word_topics]. split.
  - apply PyDictFacts.nodup_keys_upd, Hnd.
  - intros k Hk. unfold PyDict.incr in Hk. rewrite PyDictFacts.keys_upd in Hk.
    unfold PyDict.get_list. rewrite PyDictFacts.get_upd.
    destruct (String.eqb_spec k (strip_chars w)) as [->|Hne].
    + split; [exact Hc|]. split; [|exists topic, w; auto].
      intros Hempty.
      apply (ListSet.set_add_not_empty string_dec topic _ Hempty).
    + assert (Hold : In k (PyDict.keys (word_counts words))).
      { destruct (PyDict.mem _ _); [exact Hk|].
        apply in_app_or in Hk. destruct Hk as [Hk|[<-|[]]]; [exact Hk|].
        contradiction. }
      apply Hinv in Hold. exact Hold.
Qed.

Lemma count_topic_inv (seen : list string) (topic : string) (words : Words) :
  In topic seen ->
  NoDup (PyDict.keys (word_counts words)) ->
  (forall k, In k (PyDict.keys (word_counts words)) ->
             counted k = true
             /\ PyDict.get_list (word_topics words) k <> []
             /\ counted_from seen k) ->
  NoDup (PyDict.keys (word_counts (count_topic words topic)))
  /\ (forall k, In k (PyDict.keys (word_counts (count_topic words topic))) ->
                counted k = true
                /\ PyDict.get_list (word_topics (count_topic words topic)) k
                   <> []
                /\ counted_from seen k).
Proof.
  intros Htopic. unfold count_topic.
  enough (H : forall ws,
             incl ws (KeywordExtractor.split_whitespace (PyStr.lower topic)) ->
             forall words,
               NoDup (PyDict.keys (word_counts words)) ->
               (forall k, In k (PyDict.keys (word_counts words)) ->
                          counted k = true
                          /\ PyDict.get_list (word_topics words) k <> []
                          /\ counted_from seen k) ->
               NoDup (PyDict.keys
                        (word_counts (fold_left (count_word topic) ws words)))
               /\ (forall k,
                     In k (PyDict.keys
                             (word_counts
                                (fold_left (count_word topic) ws words))) ->
                     counted k = true
                     /\ PyDict.get_list
                          (word_topics (fold_left (count_word topic) ws words))
                          k <> []
                     /\ counted_from seen k)).
  { apply H. apply incl_refl. }
  induction ws as [|w ws IH]; intros Hincl words' Hnd Hinv; [auto|].
  cbn [fold_left].
  destruct (count_word_inv seen topic words' w Htopic
              (Hincl w (or_introl eq_refl)) Hnd Hinv) as [Hnd' Hinv'].
  apply IH; auto. intros w' Hw'. apply Hincl. now right.
Qed.

Lemma count_words_inv (cluster_topics : list string) :
  NoDup (PyDict.keys (word_counts (count_words cluster_topics)))
  /\ (forall k,
        In k (PyDict.keys (word_counts (count_words cluster_topics))) ->
        counted k = true
        /\ PyDict.get_list (word_topics (count_words cluster_topics)) k <> []
        /\ counted_from cluster_topics k).
Proof.
  unfold count_words.
  enough (H : forall done todo words,
             cluster_topics = (done ++ todo)%list ->
             NoDup (PyDict.keys (word_counts words)) ->
             (forall k, In k (PyDict.keys (word_counts words)) ->
                        counted k = true
                        /\ PyDict.get_list (word_topics words) k <> []
                        /\ counted_from cluster_topics k) ->
             NoDup (PyDict.keys (word_counts (fold_left count_topic todo words)))
             /\ (forall k,
                   In k (PyDict.keys
                           (word_counts (fold_left count_topic todo words))) ->
                   counted k = true
                   /\ PyDict.get_list
                        (word_topics (fold_left count_topic todo words)) k
                      <> []
                   /\ counted_from cluster_topics k)).
  { apply (H [] cluster_topics); [reflexivity | constructor | intros k []]. }
  intros done todo. revert done.
  induction todo as [|topic todo IH]; intros done words Heq Hnd Hinv; [auto|].
  cbn [fold_left].
  assert (Htopic : In topic cluster_topics).
  { rewrite Heq. apply in_or_app. right. now left. }
  destruct (count_topic_inv cluster_topics topic words Htopic Hnd Hinv)
    as [Hnd' Hinv'].
  apply (IH (done ++ [topic])%list); auto.
  now rewrite <- app_assoc.
Qed.

Lemma capitalize_nonempty (s : string) : s <> "" -> capitalize s <> "".
Proof. destruct s; [contradiction | discriminate]. Qed.

Lemma counted_long (word : string) : counted word = true -> word <> "".
Proof.
  unfold counted. intros H. apply andb_prop in H. destruct H as [H _].
  apply andb_prop in H. destruct H as [H _]. apply Nat.ltb_lt in H.
  intros ->. simpl in H. lia.
Qed.

Lemma split_whitespace_nonempty (s : string) :
  Forall (fun w => w <> "") (KeywordExtractor.split_whitespace s).
Proof.
  induction s as [|c s IH]; simpl; [constructor|].
  destruct (PyStr.is_space c); [exact IH|].
  destruct s as [|c' s']; [repeat constructor; discriminate|].
  destruct (PyStr.is_space c'); [constructor; [discriminate | exact IH]|].
  destruct (KeywordExtractor.split_whitespace (String c' s')) as [|w ws];
    [repeat constructor; discriminate|].
  inversion IH; subst. constructor; [discriminate | assumption].
Qed.

Section Label.
Variable exn : Type.
Variable index_error zero_division : exn.

Lemma second_word_found (words : Words) (top_word : string)
    (candidates : list (string * R)) :
  PyDict.get_list (word_topics words) top_word <> [] ->
  (forall c, In c candidates ->
             PyDict.get_list (word_topics words) (fst c) <> []) ->
  exists found,
    second_word zero_division words top_word candidates = Returns found
    /\ (forall second, found = Some second -> In second (map fst candidates)).
Proof.
  intros Htop. induction candidates as [|[second score] rest IH]; intros Hall.
  - exists None. split; [reflexivity | discriminate].
  - cbn [second_word].
    assert (Hsecond : PyDict.get_list (word_topics words) second <> [])
      by (apply (Hall (second, score)); now left).
    destruct (Nat.eqb_spec
                (Nat.min (length (PyDict.get_list (word_topics words) top_word))
                         (length (PyDict.get_list (word_topics words) second)))
                0) as [Hzero|_].
    { exfalso.
      destruct (PyDict.get_list (word_topics words) top_word); [contradiction|].
      destruct (PyDict.get_list (word_topics words) second); [contradiction|].
      simpl in Hzero. lia. }
    destruct (Rlt_dec _ _).
    + exists (Some second). split; [reflexivity|].
      intros s [= <-]. now left.
    + destruct IH as (found & -> & Hfound).
      { intros c Hc. apply Hall. now right. }
      exists found. split; [reflexivity|].
      intros s Hs. right. now apply Hfound.
Qed.

(** X23.  When a word of the topics is counted (more than three letters,
    alphabetic, not a stop word), [_generate_umbrella_label] returns a label
    made of one or two different counted words, capitalized, the first of
    which has the highest score; no division by zero occurs.  When no word
    is counted, the label comes from the first topic, and the call fails with
    an [IndexError] exactly when there is no topic or the first topic has no
    word.  A returned label is never empty. *)
Theorem umbrella_label_cases (cluster_topics : list string) :
  (word_counts (count_words cluster_topics) <> [] ->
   exists top count,
     In (top, count) (word_counts (count_words cluster_topics))
     /\ counted top = true
     /\ (exists topic w,
           In topic cluster_topics
           /\ In w (KeywordExtractor.split_whitespace (PyStr.lower topic))
           /\ top = strip_chars w)
     /\ Forall (fun item =>
                  (word_score cluster_topics (count_words cluster_topics) item
                   <= word_score cluster_topics (count_words cluster_topics)
                                 (top, count))%R)
               (word_counts (count_words cluster_topics))
     /\ (_generate_umbrella_label index_error zero_division cluster_topics
         = Returns (capitalize top)
         \/ exists second,
              In second (PyDict.keys (word_counts (count_words cluster_topics)))
              /\ second <> top
              /\ _generate_umbrella_label index_error zero_division
                   cluster_topics
                 = Returns (capitalize top ++ " " ++ capitalize second)))
  /\ (word_counts (count_words cluster_topics) = [] ->
      (cluster_topics = []
       /\ _generate_umbrella_label index_error zero_division cluster_topics
          = Raises index_error)
      \/ exists topic0 rest,
           cluster_topics = topic0 :: rest
           /\ ((KeywordExtractor.split_whitespace (PyStr.lower topic0) = []
                /\ _generate_umbrella_label index_error zero_division
                     cluster_topics = Raises index_error)
               \/ exists w,
                    In w (KeywordExtractor.split_whitespace
                            (PyStr.lower topic0))
                    /\ ((3 < String.length (strip_chars w)
                         /\ is_stopword (strip_chars w) = false
                         /\ _generate_umbrella_label index_error zero_division
                              cluster_topics
                            = Returns (capitalize (strip_chars w)))
                        \/ _generate_umbrella_label index_error zero_division
                             cluster_topics = Returns (capitalize w))))
  /\ (forall label,
        _generate_umbrella_label index_error zero_division cluster_topics
        = Returns label ->
        label <> "").
Proof.
  assert (Hmain :
    word_counts (count_words cluster_topics) <> [] ->
    exists top count,
      In (top, count) (word_counts (count_words cluster_topics))
      /\ counted top = true
      /\ (exists topic w,
            In topic cluster_topics
            /\ In w (KeywordExtractor.split_whitespace (PyStr.lower topic))
            /\ top = strip_chars w)
      /\ Forall (fun item =>
                   (word_score cluster_topics (count_words cluster_topics) item
                    <= word_score cluster_topics (count_words cluster_topics)
                                  (top, count))%R)
                (word_counts (count_words cluster_topics))
      /\ (_generate_umbrella_label index_error zero_division cluster_topics
          = Returns (capitalize top)
          \/ exists second,
               In second (PyDict.keys (word_counts (count_words cluster_topics)))
               /\ second <> top
               /\ _generate_umbrella_label index_error zero_division
                    cluster_topics
                  = Returns (capitalize top ++ " " ++ capitalize second))).
  { intros Hne.
    destruct (count_words_inv cluster_topics) as [Hnd Hinv].
    unfold _generate_umbrella_label.
    set (W := count_words cluster_topics) in *.
    destruct (word_counts W) as [|item0 items] eqn:Hwc; [contradiction|].
    destruct (Nat.eqb_spec (length cluster_topics) 0) as [Hzero|_].
    { exfalso. destruct cluster_topics; [|discriminate].
      subst W. discriminate. }
    rewrite <- Hwc in Hnd, Hinv |- *.
    set (scores := map (fun item : string * Z =>
                          (fst item, word_score cluster_topics W item))
                       (word_counts W)).
    pose proof (VecFacts.sort_desc_perm snd scores) as Hperm.
    pose proof (ListExtra.sort_desc_sorted snd scores) as Hsorted.
    destruct (Vec.sort_desc snd scores) as [|[top s] rest] eqn:Hs.
    { apply Permutation_sym, Permutation_nil in Hperm.
      subst scores. rewrite Hwc in Hperm. discriminate. }
    assert (Htop : In (top, s) scores).
    { apply Permutation_in with (l := (top, s) :: rest);
        [now symmetry | now left]. }
    apply in_map_iff in Htop. destruct Htop as ([t count] & Heq & Hitem).
    injection Heq as Ht Hsc. cbn [fst] in Ht. subst t s.
    assert (Hkey : In top (PyDict.keys (word_counts W))).
    { unfold PyDict.keys. change top with (fst (top, count)).
      now apply in_map. }
    destruct (Hinv top Hkey) as (Hcounted & Htopics & Hfrom).
    exists top, count. split; [exact Hitem|]. split; [exact Hcounted|].
    split; [exact Hfrom|]. split.
    { apply Forall_forall. intros item Hin.
      inversion Hsorted as [|? ? _ Hall]; subst.
      assert (Hin' : In (fst item, word_score cluster_topics W item)
                        ((top, word_score cluster_topics W (top, count))
                         :: rest)).
      { apply Permutation_in with (l := scores); [exact Hperm|].
        unfold scores. apply in_map_iff. exists item. auto. }
      destruct Hin' as [[= _ <-]|Hin']; [lra|].
      rewrite Forall_forall in Hall. apply (Hall _ Hin'). }
    assert (Hkeys : Permutation (top :: map fst rest)
                                (PyDict.keys (word_counts W))).
    { change (top :: map fst rest)
        with (map fst ((top, word_score cluster_topics W (top, count))
                       :: rest)).
      rewrite <- Hperm. unfold scores. rewrite map_map. reflexivity. }
    destruct (orb _ _); [left; reflexivity|].
    destruct (Nat.leb 2 _); [|left; reflexivity].
    destruct (second_word_found W top (firstn 3 rest) Htopics)
      as (found & -> & Hfound).
    { intros c Hc. apply PyListFacts.firstn_in in Hc.
      apply Hinv. apply Permutation_in with (l := top :: map fst rest);
        [exact Hkeys|]. right. now apply in_map. }
    cbn [bind]. destruct found as [second|]; [|left; reflexivity].
    right. exists second.
    assert (Hsec : In second (map fst rest)).
    { specialize (Hfound second eq_refl). apply in_map_iff in Hfound.
      destruct Hfound as (c & <- & Hc). apply in_map.
      now apply PyListFacts.firstn_in in Hc. }
    split; [|split; [|reflexivity]].
    - apply Permutation_in with (l := top :: map fst rest); [exact Hkeys|].
      now right.
    - assert (Hnd' : NoDup (top :: map fst rest))
        by (eapply Permutation_NoDup; [symmetry; exact Hkeys | exact Hnd]).
      inversion Hnd'; subst. intros ->. contradiction. }
  assert (Hfall :
    word_counts (count_words cluster_topics) = [] ->
    (cluster_topics = []
     /\ _generate_umbrella_label index_error zero_division cluster_topics
        = Raises index_error)
    \/ exists topic0 rest,
         cluster_topics = topic0 :: rest
         /\ ((KeywordExtractor.split_whitespace (PyStr.lower topic0) = []
              /\ _generate_umbrella_label index_error zero_division
                   cluster_topics = Raises index_error)
             \/ exists w,
                  In w (KeywordExtractor.split_whitespace (PyStr.lower topic0))
                  /\ ((3 < String.length (strip_chars w)
                       /\ is_stopword (strip_chars w) = false
                       /\ _generate_umbrella_label index_error zero_division
                            cluster_topics
                          = Returns (capitalize (strip_chars w)))
                      \/ _generate_umbrella_label index_error zero_division
                           cluster_topics = Returns (capitalize w)))).
  { intros Hempty. unfold _generate_umbrella_label. rewrite Hempty.
    destruct cluster_topics as [|topic0 rest]; [left; auto|].
    right. exists topic0, rest. split; [reflexivity|].
    unfold fallback_label.
    destruct (find _ _) as [w|] eqn:Hfind.
    - right. apply find_some in Hfind. destruct Hfind as [Hin Hw].
      apply in_map_iff in Hin. destruct Hin as (w0 & <- & Hin).
      exists w0. split; [exact Hin|]. left.
      apply andb_prop in Hw. destruct Hw as [Hlen Hstop].
      apply Nat.ltb_lt in Hlen. apply negb_true_iff in Hstop. auto.
    - destruct (KeywordExtractor.split_whitespace (PyStr.lower topic0))
        as [|w0 ws]; [left; auto|].
      right. exists w0. split; [now left | now right]. }
  split; [exact Hmain|]. split; [exact Hfall|].
  intros label Hrun.
  destruct (word_counts (count_words cluster_topics)) as [|i0 items] eqn:Hwc.
  - destruct (Hfall eq_refl) as [Hnone | Hsome].
    { destruct Hnone as [_ He]. rewrite He in Hrun. discriminate. }
    destruct Hsome as (t0 & r & _ & Hcase).
    destruct Hcase as [Hnone | Hword].
    { destruct Hnone as [_ He]. rewrite He in Hrun. discriminate. }
    destruct Hword as (w & Hw & Hcase).
    destruct Hcase as [Hlong | He].
    + destruct Hlong as (Hlen & _ & He).
      rewrite He in Hrun. injection Hrun as <-.
      apply capitalize_nonempty. intros Hs. rewrite Hs in Hlen. simpl in Hlen.
      lia.
    + rewrite He in Hrun. injection Hrun as <-.
      apply capitalize_nonempty.
      pose proof (split_whitespace_nonempty (PyStr.lower t0)) as Hall.
      rewrite Forall_forall in Hall. now apply Hall.
  - destruct Hmain as (top & count & _ & Hc & _ & _ & Hlabel);
      [discriminate|].
    pose proof (counted_long top Hc) as Hne.
    destruct Hlabel as [He | Htwo].
    + rewrite He in Hrun. injection Hrun as <-.
      now apply capitalize_nonempty.
    + destruct Htwo as (second & _ & _ & He).
      rewrite He in Hrun. injection Hrun as <-.
      destruct top; [contradiction | discriminate].
Qed.

End Label.
End LabelFacts.

(** ** The tags and the category of an account *)
Module ManagerFacts.
Import Outcome TopicExtractor AccountTopicManager.
Local Open Scope string_scope.

Section Manager.
Variable exn : Type.
Variable value_error index_error key_error : exn.
Variable kw_extract_keywords : string -> Z -> R -> result exn (list (string * R)).
Variable model_encode : list string -> result exn (list Vec.vec).
Variable stop_words : list string.
Variable category_embeddings : list Vec.vec.
Variable FS : Type.
Variable file_not_found : File -> exn.
Variable file_exists : FS -> File -> bool.
Variable load_index : FS -> result exn Index.
Variable load_tags : FS -> File -> result exn VideoTags.
Variable read_text : FS -> File -> result exn string.
Variable now_isoformat : result exn string.
Variable dump_tags : FS -> File -> SavedTags -> FS * result exn unit.
Variable dump_account_tags : FS -> Aggregate -> FS * result exn unit.
Variable dump_category :
  FS -> KeywordExtractor.Classification -> FS * result exn unit.
Variable user : string.
Variable force : bool.

Lemma extract_video_tags_returns (transcript : string) (min_tags max_tags : Z)
    (diversity : R) :
  exists tags,
    KeywordExtractor.extract_video_tags kw_extract_keywords stop_words
      transcript min_tags max_tags diversity = Returns tags.
Proof.
  unfold KeywordExtractor.extract_video_tags.
  destruct (orb _ _); [now exists []|].
  destruct (kw_extract_keywords transcript max_tags diversity);
    cbn [call bind try_except]; eauto.
Qed.

Lemma classify_returns (top_tags : list string) (top_n : Z) :
  exists answer,
    KeywordExtractor.classify_account_category value_error index_error
      model_encode category_embeddings top_tags top_n = Returns answer
    /\ (top_tags = [] -> answer = KeywordExtractor.unknown).
Proof.
  unfold KeywordExtractor.classify_account_category.
  destruct top_tags as [|t ts]; [eauto|].
  unfold KeywordExtractor.classify_body.
  destruct (model_encode _); cbn [call bind try_except];
    [|eexists; split; [reflexivity | discriminate]].
  destruct (KeywordExtractor.mean_axis0 _); cbn [try_except];
    [|eexists; split; [reflexivity | discriminate]].
  destruct (KeywordExtractor.argmax _); cbn [try_except];
    [|eexists; split; [reflexivity | discriminate]].
  destruct (nth_error _ _); cbn [try_except];
    eexists; (split; [reflexivity | discriminate]).
Qed.

Lemma meta_of_cases (video_metadata : list VideoData) :
  (exists metadata,
     map_m (meta_of key_error) video_metadata = Returns metadata
     /\ map (fun m => Some (meta_video_id m)) metadata
        = map data_video_id video_metadata
     /\ map view_count metadata = map data_view_count video_metadata)
  \/ (map_m (meta_of key_error) video_metadata = Raises key_error
      /\ exists video_data,
           In video_data video_metadata /\ data_video_id video_data = None).
Proof.
  induction video_metadata as [|v vs IH]; cbn [map_m].
  - left. exists []. auto.
  - destruct (data_video_id v) as [id|] eqn:Hid.
    + assert (Hm : meta_of key_error v
                   = Returns {| meta_video_id := id;
                                view_count := data_view_count v |})
        by (unfold meta_of; now rewrite Hid).
      rewrite Hm. cbn [bind].
      destruct IH as [(ms & -> & Hids & Hviews)|(-> & v' & Hin & Hnone)];
        cbn [bind].
      * left. eexists. split; [reflexivity|]. cbn [map meta_video_id view_count].
        now rewrite Hid, Hids, Hviews.
      * right. split; [reflexivity|]. exists v'. split; [now right | exact Hnone].
    + assert (Hm : meta_of key_error v = Raises key_error)
        by (unfold meta_of; now rewrite Hid).
      rewrite Hm. cbn [bind].
      right. split; [reflexivity|]. exists v. split; [now left | exact Hid].
Qed.

(** The aggregation step returns or raises. *)
Lemma account_aggregations_total (fs : FS) (video_tags : list VideoTags)
    (video_metadata : list VideoData) :
  _generate_account_aggregations value_error index_error key_error
    model_encode category_embeddings dump_account_tags dump_category
    fs video_tags video_metadata <> OutOfFuel.
Proof.
  unfold _generate_account_aggregations.
  destruct (meta_of_cases video_metadata)
    as [(metadata & -> & _)|(-> & _)]; cbn [bind]; [|discriminate].
  destruct (dump_account_tags fs _) as [fs1 [[]|e1]]; [|discriminate].
  match goal with
  | |- context [KeywordExtractor.classify_account_category _ _ _ _ ?t ?n] =>
      destruct (classify_returns t n) as (category & -> & _)
  end.
  cbn [bind]. destruct (dump_category fs1 category) as [fs2 [[]|e2]];
    discriminate.
Qed.

(** X24.  [_generate_account_aggregations] saves the aggregate of the given
    tags and then the category classified from the tags of the aggregate in
    ranked order, of which the classifier reads the first ten.  When the
    videos hold no tag the category is unknown.  It raises a [KeyError] when
    a video of the metadata has no id, and otherwise only what the two writes
    raise. *)
Theorem account_aggregations_saved (fs : FS) (video_tags : list VideoTags)
    (video_metadata : list VideoData) :
  (forall fs' account_tags category,
     _generate_account_aggregations value_error index_error key_error
       model_encode category_embeddings dump_account_tags dump_category
       fs video_tags video_metadata = Returns (fs', account_tags, category) ->
     exists metadata fs1,
       map (fun m => Some (meta_video_id m)) metadata
       = map data_video_id video_metadata
       /\ map view_count metadata = map data_view_count video_metadata
       /\ account_tags = aggregate_account_tags video_tags metadata
       /\ dump_account_tags fs account_tags = (fs1, Ok tt)
       /\ KeywordExtractor.classify_account_category value_error index_error
            model_encode category_embeddings
            (map ranked_tag (ranked_tags account_tags)) 10%Z
          = Returns category
       /\ dump_category fs1 category = (fs', Ok tt)
       /\ (flat_map tags video_tags = [] ->
           category = KeywordExtractor.unknown))
  /\ (forall e,
        _generate_account_aggregations value_error index_error key_error
          model_encode category_embeddings dump_account_tags dump_category
          fs video_tags video_metadata = Raises e ->
        (e = key_error
         /\ exists video_data,
              In video_data video_metadata /\ data_video_id video_data = None)
        \/ (exists fs0 account_tags fs1,
              dump_account_tags fs0 account_tags = (fs1, Error e))
        \/ (exists fs0 category fs1,
              dump_category fs0 category = (fs1, Error e)))
  /\ _generate_account_aggregations value_error index_error key_error
       model_encode category_embeddings dump_account_tags dump_category
       fs video_tags video_metadata <> OutOfFuel.
Proof.
  unfold _generate_account_aggregations.
  destruct (meta_of_cases video_metadata)
    as [(metadata & -> & Hids & Hviews)|(-> & Hmissing)]; cbn [bind].
  2: { split; [discriminate|]. split; [|discriminate].
       intros e [= <-]. left. auto. }
  destruct (dump_account_tags fs (aggregate_account_tags video_tags metadata))
    as [fs1 [[]|e1]] eqn:Hd1.
  2: { split; [discriminate|]. split; [|discriminate].
       intros e [= <-]. right. left. eauto. }
  destruct (classify_returns
              (map ranked_tag
                   (ranked_tags (aggregate_account_tags video_tags metadata)))
              10%Z) as (category & Hc & Hempty).
  rewrite Hc. cbn [bind].
  destruct (dump_category fs1 category) as [fs2 [[]|e2]] eqn:Hd2.
  2: { split; [discriminate|]. split; [|discriminate].
       intros e [= <-]. right. right. eauto. }
  split; [|split; discriminate].
  intros fs' account_tags c [= <- <- <-].
  exists metadata, fs1. repeat split; auto.
  intros Hnone. apply Hempty.
  pose proof (AggregateExtra.sum_counts_fold video_tags
                {| tag_counts := []; tag_scores := []; tag_videos := [] |})
    as Hsum.
  rewrite Hnone in Hsum. cbn in Hsum.
  unfold aggregate_account_tags. cbn [ranked_tags].
  assert (Hkeys : tag_counts (accumulate video_tags) = []).
  { destruct (tag_counts (accumulate video_tags)) as [|[t c'] d] eqn:Hk;
      [reflexivity|].
    exfalso.
    assert (Hin : In t (PyDict.keys (tag_counts (accumulate video_tags))))
      by (rewrite Hk; now left).
    apply AggregateFacts.key_occurs in Hin. apply Hin.
    unfold AggregateTable.occurrences.
    clear -Hnone. induction video_tags as [|v vs IH]; [reflexivity|].
    simpl in Hnone. apply app_eq_nil in Hnone. destruct Hnone as [Hv Hvs].
    simpl. rewrite Hv. simpl. now apply IH. }
  rewrite Hkeys. reflexivity.
Qed.


Local Abbreviation step :=
  (process_video kw_extract_keywords stop_words file_exists load_tags read_text
                 now_isoformat dump_tags force).
Local Abbreviation loop :=
  (process_videos kw_extract_keywords stop_words file_exists load_tags
                  read_text now_isoformat dump_tags force).

(** A turn of the loop raises, or adds one to exactly one counter and at
    most one entry to the collected tags. *)
Lemma tag_video_counts (fs : FS) (results : Results)
    (item : string * VideoData) :
  (exists e, step (fs, results) item = Raises e
             /\ success (snd item) = true)
  \/ exists fs' e s f more,
       step (fs, results) item = Returns (fs', count results e s f more)
       /\ (0 <= e)%Z /\ (0 <= s)%Z /\ (0 <= f)%Z /\ (e + s + f = 1)%Z
       /\ (e <= Z.of_nat (length more) <= e + s)%Z
       /\ (success (snd item) = false ->
           fs' = fs /\ e = 0%Z /\ s = 1%Z /\ f = 0%Z /\ more = []).
Proof.
  unfold process_video. cbn [fst snd].
  destruct (success (snd item)); cbn [negb].
  2: { right. exists fs, 0%Z, 1%Z, 0%Z, []. split; [reflexivity|].
       cbn. repeat split; auto; lia. }
  destruct (andb _ _).
  { destruct (load_tags fs _) as [existing|e]; cbn [call bind].
    - right. exists fs, 0%Z, 1%Z, 0%Z, [existing]. split; [reflexivity|].
      cbn. repeat split; try lia; discriminate.
    - left. eauto. }
  destruct (negb (file_exists fs _)).
  { right. exists fs, 0%Z, 0%Z, 1%Z, []. split; [reflexivity|].
    cbn. repeat split; try lia; discriminate. }
  destruct (read_text fs _) as [content|e]; cbn [call bind]; [|left; eauto].
  unfold prepare.
  destruct (extract_video_tags_returns (transcript_of content) 3%Z 10%Z 0.5%R)
    as (tags & ->). cbn [bind].
  destruct now_isoformat as [now|e]; cbn [call bind].
  - destruct (dump_tags fs _ _) as [fs' [[]|e]].
    + right. eexists fs', 1%Z, 0%Z, 0%Z, [_]. split; [reflexivity|].
      cbn. repeat split; try lia; discriminate.
    + right. exists fs', 0%Z, 0%Z, 1%Z, []. split; [reflexivity|].
      cbn. repeat split; try lia; discriminate.
  - right. exists fs, 0%Z, 0%Z, 1%Z, []. split; [reflexivity|].
    cbn. repeat split; try lia; discriminate.
Qed.

Lemma tag_videos_counts (items : list (string * VideoData)) :
  forall fs results,
    (exists e, loop (fs, results) items = Raises e
               /\ exists item, In item items /\ success (snd item) = true)
    \/ exists fs' results',
         loop (fs, results) items = Returns (fs', results')
         /\ username results' = username results
         /\ total_videos results' = total_videos results
         /\ (extracted results <= extracted results')%Z
         /\ (skipped results <= skipped results')%Z
         /\ (failed results <= failed results')%Z
         /\ (extracted results' + skipped results' + failed results'
             = extracted results + skipped results + failed results
               + Z.of_nat (length items))%Z
         /\ (exists more,
               video_tags results' = (video_tags results ++ more)%list
               /\ (extracted results' - extracted results
                   <= Z.of_nat (length more)
                   <= extracted results' - extracted results
                      + (skipped results' - skipped results))%Z)
         /\ (Forall (fun item => success (snd item) = false) items ->
             fs' = fs
             /\ video_tags results' = video_tags results
             /\ skipped results'
                = (skipped results + Z.of_nat (length items))%Z).
Proof.
  induction items as [|item items IH]; intros fs results.
  - right. exists fs, results. cbn. repeat split; auto; try lia.
    exists []. rewrite app_nil_r. split; [reflexivity | cbn; lia].
  - cbn [process_videos].
    destruct (tag_video_counts fs results item)
      as [(e & -> & Hs)|(fs1 & e1 & s1 & f1 & more1 & -> & He & Hs & Hf & Hone
                         & Hmore & Hskip)]; cbn [bind].
    { left. exists e. split; [reflexivity|]. exists item. split; [now left|auto]. }
    destruct (IH fs1 (count results e1 s1 f1 more1))
      as [(e & -> & item' & Hin & Hsucc)
         |(fs2 & r2 & -> & Hu & Ht & He2 & Hs2 & Hf2 & Hsum & Htags & Hall)].
    { left. exists e. split; [reflexivity|]. exists item'.
      split; [now right | exact Hsucc]. }
    right. exists fs2, r2. split; [reflexivity|]. cbn in *.
    destruct Htags as (more2 & Hvt & Hlen).
    repeat split; auto; try lia.
    + exists (more1 ++ more2)%list. rewrite app_assoc. split; [exact Hvt|].
      rewrite length_app. lia.
    + inversion H; subst. destruct (Hskip H2) as (-> & _).
      now apply Hall.
    + inversion H; subst. destruct (Hskip H2) as (_ & _ & _ & _ & ->).
      destruct (Hall H3) as (_ & -> & _). now rewrite app_nil_r.
    + inversion H; subst. destruct (Hskip H2) as (_ & _ & -> & _ & _).
      destruct (Hall H3) as (_ & _ & ->). lia.
Qed.

(** X25.  [extract_all_topics] raises [FileNotFoundError] when the index is
    missing.  When it returns, every video of the index is counted once:
    extracted, skipped and failed add up to [total_videos], and the collected
    tags hold one entry per extracted video and at most one per skipped
    video.  It cannot fail while no video is marked successful: then every
    video is skipped, no tags are collected, and the files are left as they
    are. *)
Theorem extract_all_topics_counts (fs : FS) :
  (file_exists fs IndexJson = false ->
   extract_all_topics value_error index_error key_error kw_extract_keywords
     model_encode stop_words category_embeddings file_not_found file_exists
     load_index load_tags read_text now_isoformat dump_tags dump_account_tags
     dump_category user force fs = Raises (file_not_found IndexJson))
  /\ (forall fs' results,
        extract_all_topics value_error index_error key_error
          kw_extract_keywords model_encode stop_words category_embeddings
          file_not_found file_exists load_index load_tags read_text
          now_isoformat dump_tags dump_account_tags dump_category user force
          fs = Returns (fs', results) ->
        exists index,
          load_index fs = Ok index
          /\ username results = user
          /\ total_videos results
             = length (TopicExtractorV2.option_default []
                         (processed_videos index))
          /\ (0 <= extracted results)%Z
          /\ (0 <= skipped results)%Z
          /\ (0 <= failed results)%Z
          /\ (extracted results + skipped results + failed results
              = Z.of_nat (total_videos results))%Z
          /\ (extracted results <= Z.of_nat (length (video_tags results))
              <= extracted results + skipped results)%Z)
  /\ (forall index,
        file_exists fs IndexJson = true ->
        load_index fs = Ok index ->
        Forall (fun item => success (snd item) = false)
               (TopicExtractorV2.option_default [] (processed_videos index)) ->
        extract_all_topics value_error index_error key_error
          kw_extract_keywords model_encode stop_words category_embeddings
          file_not_found file_exists load_index load_tags read_text
          now_isoformat dump_tags dump_account_tags dump_category user force
          fs
        = Returns
            (fs,
             {| username := user;
                total_videos :=
                  length (TopicExtractorV2.option_default []
                            (processed_videos index));
                extracted := 0;
                skipped :=
                  Z.of_nat (length (TopicExtractorV2.option_default []
                                      (processed_videos index)));
                failed := 0;
                video_tags := [] |}))
  /\ extract_all_topics value_error index_error key_error kw_extract_keywords
       model_encode stop_words category_embeddings file_not_found file_exists
       load_index load_tags read_text now_isoformat dump_tags dump_account_tags
       dump_category user force fs <> OutOfFuel.
Proof.
  unfold extract_all_topics.
  destruct (file_exists fs IndexJson); cbn [negb];
    [|repeat split; try discriminate; auto].
  split; [discriminate|].
  destruct (load_index fs) as [index|e]; cbn [call bind];
    [|repeat split; discriminate].
  set (videos := TopicExtractorV2.option_default [] (processed_videos index)).
  set (start := {| username := user; total_videos := length videos;
                   extracted := 0; skipped := 0; failed := 0;
                   video_tags := [] |}).
  destruct (tag_videos_counts videos fs start)
    as [(e & -> & item & Hin & Hsucc)
       |(fs1 & r1 & -> & Hu & Ht & He & Hs & Hf & Hsum & Htags & Hall)];
    cbn [bind].
  { split; [discriminate|]. split; [|discriminate].
    intros index' _ [= <-] Hnone. exfalso.
    rewrite Forall_forall in Hnone. specialize (Hnone item Hin). congruence. }
  destruct Htags as (more & Hvt & Hlen). cbn in Hu, Ht, He, Hs, Hf, Hsum, Hvt, Hlen.
  assert (Hshape :
    exists index0,
      Ok index = Ok index0 :> result exn Index
      /\ username r1 = user
      /\ total_videos r1
         = length (TopicExtractorV2.option_default [] (processed_videos index0))
      /\ (0 <= extracted r1)%Z /\ (0 <= skipped r1)%Z /\ (0 <= failed r1)%Z
      /\ (extracted r1 + skipped r1 + failed r1
          = Z.of_nat (total_videos r1))%Z
      /\ (extracted r1 <= Z.of_nat (length (video_tags r1))
          <= extracted r1 + skipped r1)%Z).
  { exists index. rewrite Hvt. fold videos.
    repeat split; auto; try lia. }
  cbn [fst snd].
  destruct (video_tags r1) as [|vt vts] eqn:Hr1.
  - split; [|split; [|discriminate]].
    + intros fs' results [= <- <-]. rewrite Hr1. exact Hshape.
    + intros index' _ [= <-] Hnone. fold videos in Hnone.
      destruct (Hall Hnone) as (-> & _ & Hsk).
      f_equal. f_equal. destruct r1 as [u t e s f v].
      cbn in *. subst. f_equal; lia.
  - pose proof (account_aggregations_total fs1 (vt :: vts)
                  (PyDict.values videos)) as Htotal.
    destruct (_generate_account_aggregations _ _ _ _ _ _ _ _ _ _)
      as [[[fs2 agg] cat]|e|]; cbn [bind fst snd]; [| |contradiction].
    + split; [|split; [|discriminate]].
      * intros fs' results [= <- <-]. rewrite Hr1. exact Hshape.
      * intros index' _ [= <-] Hnone. fold videos in Hnone.
        destruct (Hall Hnone) as (_ & Hnil & _). cbn in Hnil. congruence.
    + split; [discriminate|]. split; [|discriminate].
      intros index' _ [= <-] Hnone. fold videos in Hnone.
      destruct (Hall Hnone) as (_ & Hnil & _). cbn in Hnil. congruence.
Qed.

End Manager.
End ManagerFacts.

(** ** Sentence timestamps *)
Module TimestampFacts.
Import Outcome TimestampExtractor.
Local Open Scope string_scope.

Lemma run_clock_sentences (f : string -> R) (sentences : list string) :
  forall i t, map sentence (run_clock f i t sentences) = sentences.
Proof.
  induction sentences as [|s rest IH]; intros i t; simpl; [reflexivity|].
  now rewrite IH.
Qed.

Lemma run_clock_indices (f : string -> R) (sentences : list string) :
  forall i t,
    map sentence_index (run_clock f i t sentences)
    = seq i (length sentences).
Proof.
  induction sentences as [|s rest IH]; intros i t; simpl; [reflexivity|].
  now rewrite IH.
Qed.

Lemma run_clock_durations (f : string -> R) (sentences : list string) :
  forall i t, map duration (run_clock f i t sentences) = map f sentences.
Proof.
  induction sentences as [|s rest IH]; intros i t; simpl; [reflexivity|].
  now rewrite IH.
Qed.

Lemma run_clock_contiguous (f : string -> R) (sentences : list string) :
  forall i t,
    contiguous t (run_clock f i t sentences)
               (t + Np.sum (map f sentences))%R.
Proof.
  induction sentences as [|s rest IH]; intros i t.
  - unfold Np.sum. simpl. lra.
  - cbn [run_clock contiguous map start_time end_time duration].
    split; [reflexivity|]. split; [reflexivity|].
    assert (Heq : (t + Np.sum (f s :: map f rest))%R
                  = ((t + f s) + Np.sum (map f rest))%R)
      by (unfold Np.sum; simpl; lra).
    rewrite Heq. apply IH.
Qed.

(** Entries that follow one another with durations that are not negative
    lie between the first start and the last end. *)
Lemma contiguous_bounds (timestamps : list SentenceData) :
  forall t t_end,
    contiguous t timestamps t_end ->
    Forall (fun d => (0 <= duration d)%R) timestamps ->
    (t <= t_end)%R
    /\ Forall (fun d => (t <= start_time d <= end_time d)%R
                        /\ (end_time d <= t_end)%R) timestamps.
Proof.
  induction timestamps as [|d rest IH]; intros t t_end Hc Hpos; simpl in Hc.
  - subst. split; [lra | constructor].
  - destruct Hc as (Hs & He & Hrest). inversion Hpos as [|? ? Hd Hpos']; subst.
    destruct (IH _ _ Hrest Hpos') as [Hle Hall].
    split; [lra|]. constructor; [lra|].
    rewrite Forall_forall in *. intros d' Hin.
    specialize (Hall d' Hin). lra.
Qed.

Lemma sum_lengths (sentences : list string) :
  Np.sum (map (fun s => INR (String.length s)) sentences)
  = INR (total_chars sentences).
Proof.
  unfold total_chars, Np.sum.
  induction sentences as [|s rest IH]; simpl; [reflexivity|].
  rewrite IH, plus_INR. reflexivity.
Qed.

Lemma sum_scaled (c : R) (l : list R) :
  Np.sum (map (fun x => (x * c)%R) l) = (Np.sum l * c)%R.
Proof.
  unfold Np.sum. induction l as [|x l IH]; simpl; [lra|]. rewrite IH. lra.
Qed.

(** A string free of sentence terminators. *)
Local Abbreviation plain s :=
  (existsb is_terminator (list_ascii_of_string s) = false).

Lemma split_from_plain (s : string) :
  forall in_run, Forall (fun piece => plain piece) (split_from in_run s).
Proof.
  induction s as [|c s IH]; intros in_run; simpl.
  - repeat constructor.
  - destruct (is_terminator c) eqn:Hc.
    + destruct in_run; [apply IH|]. constructor; [reflexivity | apply IH].
    + specialize (IH false).
      destruct (split_from false s) as [|piece pieces].
      * repeat constructor. simpl. now rewrite Hc.
      * inversion IH; subst. constructor; [|assumption].
        simpl. now rewrite Hc.
Qed.

Lemma lstrip_plain (s : string) : plain s -> plain (PyStr.lstrip s).
Proof.
  induction s as [|c s IH]; simpl; [trivial|]. intros H.
  apply orb_false_iff in H. destruct H as [Hc Hs].
  destruct (PyStr.is_space c); [now apply IH|].
  simpl. now rewrite Hc, Hs.
Qed.

Lemma rstrip_plain (s : string) : plain s -> plain (PyStr.rstrip s).
Proof.
  induction s as [|c s IH]; simpl; [trivial|]. intros H.
  apply orb_false_iff in H. destruct H as [Hc Hs]. specialize (IH Hs).
  destruct (PyStr.rstrip s) as [|c' r].
  - destruct (PyStr.is_space c); [reflexivity|]. simpl. now rewrite Hc.
  - simpl in *. now rewrite Hc, IH.
Qed.

Lemma split_sentences_shape (text : string) :
  Forall (fun s => s <> "" /\ PyStr.strip s = s /\ plain s)
         (_split_into_sentences text).
Proof.
  unfold _split_into_sentences. apply Forall_forall. intros s Hin.
  apply in_map_iff in Hin. destruct Hin as (piece & <- & Hin).
  apply filter_In in Hin. destruct Hin as [Hin Htruthy].
  split; [|split].
  - destruct (PyStr.strip piece); [discriminate | discriminate].
  - apply PyStrFacts.strip_idem.
  - unfold PyStr.strip. apply rstrip_plain, lstrip_plain.
    pose proof (split_from_plain
                  (collapse_whitespace (PyStr.strip text)) false) as Hall.
    rewrite Forall_forall in Hall. now apply Hall.
Qed.

Lemma total_chars_positive (sentences : list string) :
  sentences <> [] -> Forall (fun s => s <> "") sentences ->
  total_chars sentences <> 0.
Proof.
  destruct sentences as [|s rest]; [contradiction|]. intros _ Hall.
  inversion Hall as [|? ? Hs _]; subst. unfold total_chars. simpl.
  destruct s; [contradiction|]. simpl. lia.
Qed.

Lemma estimate_contiguous (sentences : list string) :
  map sentence (_estimate_timestamps_by_length sentences) = sentences
  /\ map sentence_index (_estimate_timestamps_by_length sentences)
     = seq 0 (length sentences)
  /\ exists t_end,
       contiguous 0 (_estimate_timestamps_by_length sentences) t_end
       /\ Forall (fun d => (0 <= start_time d <= end_time d)%R
                           /\ (end_time d <= t_end)%R)
                 (_estimate_timestamps_by_length sentences).
Proof.
  unfold _estimate_timestamps_by_length.
  destruct sentences as [|s0 rest].
  { split; [reflexivity|]. split; [reflexivity|].
    exists 0%R. split; [reflexivity | constructor]. }
  set (f := fun s => (INR (length (KeywordExtractor.split_whitespace s))
                      / (150 / 60))%R).
  split; [apply run_clock_sentences|]. split; [apply run_clock_indices|].
  exists (Np.sum (map f (s0 :: rest))).
  assert (Hc : contiguous 0 (run_clock f 0 0.0%R (s0 :: rest))
                          (Np.sum (map f (s0 :: rest)))).
  { pose proof (run_clock_contiguous f (s0 :: rest) 0 0.0%R) as H.
    replace 0.0%R with 0%R in * by lra. now rewrite Rplus_0_l in H. }
  split; [exact Hc|].
  apply (contiguous_bounds _ _ _ Hc).
  rewrite <- Forall_map, run_clock_durations, Forall_map.
  apply Forall_forall. intros s _. unfold f.
  apply Rmult_le_pos; [apply pos_INR|].
  apply Rlt_le, Rinv_0_lt_compat. lra.
Qed.

Lemma seq_nth_error (n : nat) :
  forall a k x, nth_error (seq a n) k = Some x -> x = a + k.
Proof.
  induction n as [|n IH]; intros a [|k] x; simpl; try discriminate.
  - intros [= <-]. lia.
  - intros H. apply IH in H. lia.
Qed.

Lemma fallback_times (phrase transcript : string) :
  Forall (fun ev => TopicExtractorV2.start_time ev = 0%R
                    /\ TopicExtractorV2.end_time ev = 0%R)
         (TopicExtractorV2._find_evidence phrase [] transcript).
Proof.
  unfold TopicExtractorV2._find_evidence.
  destruct (PyStr.truthy transcript); [|constructor].
  rewrite EvidenceExtra.scan_sentences_spec by (simpl; lia).
  apply Forall_forall. intros ev Hin. cbn [app] in Hin.
  apply PyListFacts.firstn_in, EvidenceExtra.scan_timestamps_in in Hin.
  destruct Hin as (k & sent & Hk & _ & ->).
  apply nth_error_In, in_map_iff in Hk. destruct Hk as (x & <- & _).
  split; reflexivity.
Qed.

Section Extractor.
Variable exn : Type.
Variable zero_division : exn.

(** The entries for sentences that hold a character. *)
Lemma with_duration_returns (sentences : list string) (video_duration : R) :
  total_chars sentences <> 0 ->
  exists timestamps,
    _calculate_timestamps_with_duration zero_division sentences
      video_duration = Returns timestamps
    /\ map sentence timestamps = sentences
    /\ map sentence_index timestamps = seq 0 (length sentences)
    /\ contiguous 0 timestamps video_duration
    /\ ((0 <= video_duration)%R ->
        Forall (fun d => (0 <= start_time d <= end_time d)%R
                         /\ (end_time d <= video_duration)%R)
               timestamps).
Proof.
  unfold _calculate_timestamps_with_duration.
  intros Htotal. destruct sentences as [|s0 rest]; [now destruct Htotal|].
  apply Nat.eqb_neq in Htotal. rewrite Htotal. apply Nat.eqb_neq in Htotal.
  set (f := fun s => (INR (String.length s) / INR (total_chars (s0 :: rest))
                      * video_duration)%R).
  assert (Hsum : Np.sum (map f (s0 :: rest)) = video_duration).
  { unfold f.
    rewrite <- (map_map (fun s => INR (String.length s))
                        (fun x => (x / INR (total_chars (s0 :: rest))
                                   * video_duration)%R)).
    rewrite (map_ext _ (fun x => (x * (/ INR (total_chars (s0 :: rest))
                                       * video_duration))%R))
      by (intros; unfold Rdiv; lra).
    rewrite sum_scaled, sum_lengths. field.
    apply not_0_INR. exact Htotal. }
  assert (Hc : contiguous 0 (run_clock f 0 0.0%R (s0 :: rest)) video_duration).
  { pose proof (run_clock_contiguous f (s0 :: rest) 0 0.0%R) as H.
    rewrite Hsum in H. replace 0.0%R with 0%R in * by lra.
    now rewrite Rplus_0_l in H. }
  eexists. split; [reflexivity|].
  split; [apply run_clock_sentences|].
  split; [apply run_clock_indices|]. split; [exact Hc|].
  intros Hpos.
  apply (contiguous_bounds _ _ _ Hc).
  rewrite <- Forall_map, run_clock_durations, Forall_map.
  apply Forall_forall. intros s _. unfold f.
  apply Rmult_le_pos; [|exact Hpos].
  apply Rmult_le_pos; [apply pos_INR|].
  apply Rlt_le, Rinv_0_lt_compat, lt_0_INR. lia.
Qed.

(** X26.  [_calculate_timestamps_with_duration] gives every sentence one
    entry, in order and numbered from 0; the entries follow one another
    without a gap from time 0 to the video duration, and for a duration that
    is not negative every entry lies within the video.  It fails with a
    division by zero exactly when there are sentences and all are empty. *)
Theorem timestamps_cover_duration (sentences : list string)
    (video_duration : R) :
  (sentences = [] ->
   _calculate_timestamps_with_duration zero_division sentences video_duration
   = Returns [])
  /\ (sentences <> [] -> total_chars sentences = 0 ->
      _calculate_timestamps_with_duration zero_division sentences
        video_duration = Raises zero_division)
  /\ (total_chars sentences <> 0 ->
      exists timestamps,
        _calculate_timestamps_with_duration zero_division sentences
          video_duration = Returns timestamps
        /\ map sentence timestamps = sentences
        /\ map sentence_index timestamps = seq 0 (length sentences)
        /\ contiguous 0 timestamps video_duration
        /\ ((0 <= video_duration)%R ->
            Forall (fun d => (0 <= start_time d <= end_time d)%R
                             /\ (end_time d <= video_duration)%R)
                   timestamps)).
Proof.
  split; [now intros ->|]. split.
  - intros Hne Hzero. unfold _calculate_timestamps_with_duration.
    destruct sentences; [contradiction|]. now rewrite Hzero.
  - apply with_duration_returns.
Qed.


Lemma with_duration_durations (sentences : list string) (video_duration : R)
    (timestamps : list SentenceData) :
  _calculate_timestamps_with_duration zero_division sentences video_duration
  = Returns timestamps ->
  map duration timestamps
  = map (fun s => (INR (String.length s) / INR (total_chars sentences)
                   * video_duration)%R) sentences.
Proof.
  unfold _calculate_timestamps_with_duration.
  destruct sentences as [|s0 rest]; [now intros [= <-]|].
  destruct (Nat.eqb _ 0); [discriminate|]. intros [= <-].
  exact (run_clock_durations
           (fun s => (INR (String.length s) / INR (total_chars (s0 :: rest))
                      * video_duration)%R) (s0 :: rest) 0 0.0%R).
Qed.

Lemma estimate_durations (sentences : list string) :
  map duration (_estimate_timestamps_by_length sentences)
  = map (fun s => (INR (length (KeywordExtractor.split_whitespace s))
                   / (150 / 60))%R) sentences.
Proof.
  unfold _estimate_timestamps_by_length.
  destruct sentences as [|s0 rest]; [reflexivity|].
  apply run_clock_durations.
Qed.

(** X27.  [extract_sentence_timestamps] never raises: no division by zero
    can occur.  It returns nothing for a transcript with fewer than 50
    characters between its ends.  For a longer one it returns one entry per
    sentence of the split, in the order of the split; the duration of an
    entry is the share of its sentence in the characters of all sentences,
    times the video duration, when a duration other than 0 is given, and the
    number of its words divided by 2.5 otherwise.  The entries are numbered
    from 0 and follow one another without a gap from time 0, up to the video
    duration when one is used and the split is not empty; every sentence is
    stripped, not empty and free of [.], [!] and [?], and the times are not
    negative unless the duration is. *)
Theorem sentence_timestamps_contiguous (transcript : string)
    (video_duration : option R) :
  exists timestamps,
    extract_sentence_timestamps zero_division transcript video_duration
    = Returns timestamps
    /\ (String.length (PyStr.strip transcript) < 50 -> timestamps = [])
    /\ (50 <= String.length (PyStr.strip transcript) ->
        map sentence timestamps = _split_into_sentences transcript
        /\ (forall d, video_duration = Some d -> d <> 0%R ->
              map duration timestamps
              = map (fun s =>
                       (INR (String.length s)
                        / INR (total_chars (_split_into_sentences transcript))
                        * d)%R)
                    (_split_into_sentences transcript))
        /\ (video_duration = None \/ video_duration = Some 0%R ->
            map duration timestamps
            = map (fun s =>
                     (INR (length (KeywordExtractor.split_whitespace s))
                      / (150 / 60))%R)
                  (_split_into_sentences transcript)))
    /\ Forall (fun d =>
                 sentence d <> ""
                 /\ PyStr.strip (sentence d) = sentence d
                 /\ existsb is_terminator (list_ascii_of_string (sentence d))
                    = false)
              timestamps
    /\ map sentence_index timestamps = seq 0 (length timestamps)
    /\ (exists t_end,
          contiguous 0 timestamps t_end
          /\ (forall d, video_duration = Some d -> d <> 0%R ->
                        50 <= String.length (PyStr.strip transcript) ->
                        _split_into_sentences transcript <> [] ->
                        t_end = d)
          /\ ((forall d, video_duration = Some d -> (0 <= d)%R) ->
              Forall (fun d => (0 <= start_time d <= end_time d)%R
                               /\ (end_time d <= t_end)%R)
                     timestamps)).
Proof.
  unfold extract_sentence_timestamps.
  destruct (orb _ _) eqn:Hshort.
  { assert (Hlt : String.length (PyStr.strip transcript) < 50).
    { apply orb_true_iff in Hshort. destruct Hshort as [Hempty|Hlt].
      - destruct transcript; [simpl; lia | discriminate].
      - now apply Nat.ltb_lt. }
    exists []. split; [reflexivity|]. split; [reflexivity|].
    split; [lia|]. split; [constructor|].
    split; [reflexivity|]. exists 0%R.
    split; [reflexivity|]. split; [intros; lia|].
    intros _. constructor. }
  apply orb_false_iff in Hshort. destruct Hshort as [_ Hlen].
  apply Nat.ltb_ge in Hlen.
  pose proof (split_sentences_shape transcript) as Hshape.
  pose proof (estimate_durations (_split_into_sentences transcript)) as Hwords.
  set (sentences := _split_into_sentences transcript) in *.
  assert (Hshape' : forall timestamps,
            map sentence timestamps = sentences ->
            Forall (fun d =>
                      sentence d <> ""
                      /\ PyStr.strip (sentence d) = sentence d
                      /\ existsb is_terminator
                           (list_ascii_of_string (sentence d)) = false)
                   timestamps).
  { intros ts Hs. rewrite <- Hs in Hshape. now rewrite Forall_map in Hshape. }
  assert (Hestimate :
    forall video_duration,
      video_duration = None \/ video_duration = Some 0%R ->
      exists timestamps,
        Returns (_estimate_timestamps_by_length sentences)
        = Returns timestamps :> outcome exn (list SentenceData)
        /\ (String.length (PyStr.strip transcript) < 50 -> timestamps = [])
        /\ (50 <= String.length (PyStr.strip transcript) ->
            map sentence timestamps = sentences
            /\ (forall d, video_duration = Some d -> d <> 0%R ->
                  map duration timestamps
                  = map (fun s =>
                           (INR (String.length s) / INR (total_chars sentences)
                            * d)%R) sentences)
            /\ (video_duration = None \/ video_duration = Some 0%R ->
                map duration timestamps
                = map (fun s =>
                         (INR (length (KeywordExtractor.split_whitespace s))
                          / (150 / 60))%R) sentences))
        /\ Forall (fun d =>
                     sentence d <> ""
                     /\ PyStr.strip (sentence d) = sentence d
                     /\ existsb is_terminator
                          (list_ascii_of_string (sentence d)) = false)
                  timestamps
        /\ map sentence_index timestamps = seq 0 (length timestamps)
        /\ (exists t_end,
              contiguous 0 timestamps t_end
              /\ (forall d, video_duration = Some d -> d <> 0%R ->
                            50 <= String.length (PyStr.strip transcript) ->
                            sentences <> [] -> t_end = d)
              /\ ((forall d, video_duration = Some d -> (0 <= d)%R) ->
                  Forall (fun d => (0 <= start_time d <= end_time d)%R
                                   /\ (end_time d <= t_end)%R) timestamps))).
  { intros vd Hvd.
    destruct (estimate_contiguous sentences) as (Hs & Hi & t_end & Hc & Hb).
    eexists. split; [reflexivity|]. split; [lia|].
    split; [intros _; split; [exact Hs|]; split; [|intros _; exact Hwords]|].
    { intros d Hd Hne. destruct Hvd as [Hvd|Hvd]; rewrite Hvd in Hd;
        [discriminate|]. injection Hd as <-. now destruct Hne. }
    split; [now apply Hshape'|].
    split.
    { rewrite Hi. f_equal. rewrite <- Hs at 1. now rewrite length_map. }
    exists t_end. split; [exact Hc|]. split; [|auto].
    intros d Hd Hne. destruct Hvd as [Hvd|Hvd]; rewrite Hvd in Hd;
      [discriminate|]. injection Hd as <-. now destruct Hne. }
  destruct video_duration as [d|]; [|apply Hestimate; now left].
  destruct (Req_dec_T d 0) as [Hzero|Hnonzero];
    [apply Hestimate; right; now rewrite Hzero|].
  destruct sentences as [|s0 rest] eqn:Hsent.
  { exists []. split; [reflexivity|]. split; [reflexivity|].
    split; [intros _; split; [reflexivity|]; split; [reflexivity|]|].
    { intros [H|H]; [discriminate|]. injection H as ->. now destruct Hnonzero. }
    split; [constructor|]. split; [reflexivity|].
    exists 0%R. split; [reflexivity|].
    split; [intros d' _ _ _ H; now destruct H | intros _; constructor]. }
  destruct (with_duration_returns (s0 :: rest) d)
    as (ts & Hrun & Hs & Hi & Hc & Hb).
  { apply total_chars_positive; [discriminate|].
    eapply Forall_impl; [|exact Hshape]. intros s H. apply H. }
  pose proof (with_duration_durations _ _ _ Hrun) as Hd.
  exists ts. split; [exact Hrun|]. split; [lia|].
  split; [intros _; split; [exact Hs|]; split|].
  { now intros d' [= <-] _. }
  { intros [H|H]; [discriminate|]. injection H as ->. now destruct Hnonzero. }
  split; [now apply Hshape'|].
  split.
  { rewrite Hi. f_equal. rewrite <- Hs. now rewrite length_map. }
  exists d. split; [exact Hc|]. split; [now intros d' [= <-] _ _ _|].
  intros Hpos. apply Hb. now apply Hpos.
Qed.

(** X28.  The evidence found in the timestamps of a video lies within the
    video: for a duration that is not negative, every evidence entry taken
    from the entries [_calculate_timestamps_with_duration] returns starts at
    a time that is not negative, ends no earlier than it starts and no later
    than the video; it carries the number, the times and the first 150
    characters of the sentence it was found in. *)
Theorem evidence_within_video (phrase transcript : string)
    (sentences : list string) (video_duration : R)
    (timestamps : list SentenceData) :
  (0 <= video_duration)%R ->
  _calculate_timestamps_with_duration zero_division sentences video_duration
  = Returns timestamps ->
  Forall (fun ev =>
            (0 <= TopicExtractorV2.start_time ev
             <= TopicExtractorV2.end_time ev)%R
            /\ (TopicExtractorV2.end_time ev <= video_duration)%R)
         (TopicExtractorV2._find_evidence phrase (map as_sentence timestamps)
                                          transcript)
  /\ (timestamps <> [] ->
      Forall (fun ev =>
                exists d,
                  nth_error timestamps (TopicExtractorV2.sentence_index ev)
                  = Some d
                  /\ sentence_index d = TopicExtractorV2.sentence_index ev
                  /\ TopicExtractorV2.start_time ev = start_time d
                  /\ TopicExtractorV2.end_time ev = end_time d
                  /\ TopicExtractorV2.ev_text ev
                     = PyStr.take 150 (sentence d))
             (TopicExtractorV2._find_evidence phrase
                (map as_sentence timestamps) transcript)).
Proof.
  intros Hpos Hrun.
  destruct timestamps as [|d0 rest].
  { split; [|intros H; now destruct H].
    cbn [map]. pose proof (fallback_times phrase transcript) as Hz.
    eapply Forall_impl; [|exact Hz]. intros ev [-> ->]. lra. }
  assert (Htotal : total_chars sentences <> 0).
  { intros Hzero. unfold _calculate_timestamps_with_duration in Hrun.
    destruct sentences; [discriminate|]. rewrite Hzero in Hrun. discriminate. }
  destruct (with_duration_returns sentences video_duration Htotal)
    as (ts & Hrun' & Hs & Hi & Hc & Hb).
  rewrite Hrun in Hrun'. injection Hrun' as <-.
  specialize (Hb Hpos).
  assert (Hall :
    Forall (fun ev =>
              exists d,
                nth_error (d0 :: rest) (TopicExtractorV2.sentence_index ev)
                = Some d
                /\ sentence_index d = TopicExtractorV2.sentence_index ev
                /\ TopicExtractorV2.start_time ev = start_time d
                /\ TopicExtractorV2.end_time ev = end_time d
                /\ TopicExtractorV2.ev_text ev = PyStr.take 150 (sentence d))
           (TopicExtractorV2._find_evidence phrase
              (map as_sentence (d0 :: rest)) transcript)).
  { apply Forall_forall. intros ev Hin.
    unfold TopicExtractorV2._find_evidence in Hin. cbn [map] in Hin.
    change (as_sentence d0 :: map as_sentence rest)
      with (map as_sentence (d0 :: rest)) in Hin.
    apply EvidenceExtra.scan_timestamps_in in Hin.
    destruct Hin as (k & sent & Hk & _ & ->).
    rewrite nth_error_map in Hk.
    destruct (nth_error (d0 :: rest) k) as [d|] eqn:Hd; [|discriminate].
    injection Hk as <-. exists d. cbn. split; [exact Hd|].
    split; [|auto].
    assert (Hidx : nth_error (map sentence_index (d0 :: rest)) k
                   = Some (sentence_index d))
      by (rewrite nth_error_map, Hd; reflexivity).
    rewrite Hi in Hidx. now apply seq_nth_error in Hidx. }
  split; [|intros _; exact Hall].
  rewrite Forall_forall in *. intros ev Hin.
  destruct (Hall ev Hin) as (d & Hd & _ & -> & -> & _).
  apply Hb. eapply nth_error_In, Hd.
Qed.

End Extractor.

Lemma evidence_within_video_witness :
  Forall (fun ev =>
            (0 <= TopicExtractorV2.start_time ev
             <= TopicExtractorV2.end_time ev)%R
            /\ (TopicExtractorV2.end_time ev <= 3)%R)
         (TopicExtractorV2._find_evidence "sleep"
            (map as_sentence
               (run_clock (fun s => (INR (String.length s) / INR 25 * 3)%R)
                          0 0.0%R ["Sleep matters"; "So do dreams"]))
            "")
  /\ (run_clock (fun s => (INR (String.length s) / INR 25 * 3)%R)
                0 0.0%R ["Sleep matters"; "So do dreams"] <> [] ->
      Forall (fun ev =>
                exists d,
                  nth_error
                    (run_clock (fun s => (INR (String.length s) / INR 25 * 3)%R)
                               0 0.0%R ["Sleep matters"; "So do dreams"])
                    (TopicExtractorV2.sentence_index ev)
                  = Some d
                  /\ sentence_index d = TopicExtractorV2.sentence_index ev
                  /\ TopicExtractorV2.start_time ev = start_time d
                  /\ TopicExtractorV2.end_time ev = end_time d
                  /\ TopicExtractorV2.ev_text ev
                     = PyStr.take 150 (sentence d))
             (TopicExtractorV2._find_evidence "sleep"
                (map as_sentence
                   (run_clock (fun s => (INR (String.length s) / INR 25 * 3)%R)
                              0 0.0%R ["Sleep matters"; "So do dreams"]))
                "")).
Proof.
  apply (evidence_within_video unit tt "sleep" ""
           ["Sleep matters"; "So do dreams"] 3%R).
  - lra.
  - reflexivity.
Defined.

End TimestampFacts.

(** ** Context windows and the similarity of texts *)
Module ContextFacts.
Import TimestampExtractor TextSimilarity.
Local Open Scope string_scope.

(** X29.  For a target index and a context size that are not negative,
    [get_context_sentences] returns the sentences whose index is at most the
    context size away from the target index, in order: at most
    [2 * context_size + 1] of them, the target among them when its index is
    one of the list. *)
Theorem context_sentences_window {A} (sentences : list A)
    (target_index context_size : Z) :
  (0 <= target_index)%Z -> (0 <= context_size)%Z ->
  (forall k,
     nth_error (get_context_sentences sentences target_index context_size) k
     = if (Z.max 0 (target_index - context_size) + Z.of_nat k
           <? Z.min (Z.of_nat (length sentences))
                    (target_index + context_size + 1))%Z
       then nth_error sentences
                      (Z.to_nat (Z.max 0 (target_index - context_size)) + k)
       else None)
  /\ (Z.of_nat (length (get_context_sentences sentences target_index
                                              context_size))
      <= 2 * context_size + 1)%Z
  /\ ((target_index < Z.of_nat (length sentences))%Z ->
      nth_error (get_context_sentences sentences target_index context_size)
                (Z.to_nat (target_index
                           - Z.max 0 (target_index - context_size)))
      = nth_error sentences (Z.to_nat target_index)).
Proof.
  intros Ht Hc.
  assert (Hnth : forall k,
    nth_error (get_context_sentences sentences target_index context_size) k
    = if (Z.max 0 (target_index - context_size) + Z.of_nat k
          <? Z.min (Z.of_nat (length sentences))
                   (target_index + context_size + 1))%Z
      then nth_error sentences
                     (Z.to_nat (Z.max 0 (target_index - context_size)) + k)
      else None).
  { intros k. unfold get_context_sentences, PyList.slice_to.
    destruct (Z.ltb_spec (Z.min (Z.of_nat (length sentences))
                                (target_index + context_size + 1)) 0); [lia|].
    rewrite nth_error_skipn, nth_error_firstn.
    destruct (Nat.ltb_spec
                (Z.to_nat (Z.max 0 (target_index - context_size)) + k)
                (Z.to_nat (Z.min (Z.of_nat (length sentences))
                                 (target_index + context_size + 1))));
      destruct (Z.ltb_spec
                  (Z.max 0 (target_index - context_size) + Z.of_nat k)
                  (Z.min (Z.of_nat (length sentences))
                         (target_index + context_size + 1)));
      try reflexivity; lia. }
  split; [exact Hnth|]. split.
  - unfold get_context_sentences, PyList.slice_to.
    destruct (Z.ltb_spec (Z.min (Z.of_nat (length sentences))
                                (target_index + context_size + 1)) 0); [lia|].
    rewrite length_skipn, length_firstn. lia.
  - intros Hin. rewrite Hnth.
    destruct (Z.ltb_spec
                (Z.max 0 (target_index - context_size)
                 + Z.of_nat (Z.to_nat (target_index
                                       - Z.max 0 (target_index - context_size))))
                (Z.min (Z.of_nat (length sentences))
                       (target_index + context_size + 1))); [|lia].
    f_equal. lia.
Qed.

Lemma context_sentences_window_witness :
  (Z.of_nat (length (get_context_sentences [10; 20; 30; 40; 50] 2 1))
   <= 2 * 1 + 1)%Z
  /\ ((2 < Z.of_nat (length [10; 20; 30; 40; 50]))%Z ->
      nth_error (get_context_sentences [10; 20; 30; 40; 50] 2 1)
                (Z.to_nat (2 - Z.max 0 (2 - 1)))
      = nth_error [10; 20; 30; 40; 50] (Z.to_nat 2)).
Proof.
  apply (fun H1 H2 =>
           proj2 (context_sentences_window [10; 20; 30; 40; 50] 2 1 H1 H2));
    lia.
Defined.

Lemma words_of_nodup (text : string) : NoDup (words_of text).
Proof. apply NoDup_nodup. Qed.

Lemma intersection_in (words1 words2 : list string) (w : string) :
  In w (intersection words1 words2) <-> In w words1 /\ In w words2.
Proof.
  unfold intersection. rewrite filter_In, existsb_exists. split.
  - intros (H1 & x & Hx & Heq). apply String.eqb_eq in Heq. subst. auto.
  - intros (H1 & H2). split; [exact H1|]. exists w.
    split; [exact H2 | apply String.eqb_refl].
Qed.

Lemma union_in (words1 words2 : list string) (w : string) :
  In w (union words1 words2) <-> In w words1 \/ In w words2.
Proof. unfold union, PyList.list_set. now rewrite nodup_In, in_app_iff. Qed.

Lemma intersection_comm (words1 words2 : list string) :
  NoDup words1 -> NoDup words2 ->
  length (intersection words1 words2) = length (intersection words2 words1).
Proof.
  intros H1 H2. apply Permutation_length, NoDup_Permutation.
  - now apply NoDup_filter.
  - now apply NoDup_filter.
  - intros w. rewrite !intersection_in. tauto.
Qed.

Lemma union_comm (words1 words2 : list string) :
  length (union words1 words2) = length (union words2 words1).
Proof.
  apply Permutation_length, NoDup_Permutation; try apply NoDup_nodup.
  intros w. rewrite !union_in. tauto.
Qed.

Lemma intersection_small (words1 words2 : list string) :
  NoDup words1 ->
  length (intersection words1 words2) <= length (union words1 words2).
Proof.
  intros H1. apply NoDup_incl_length; [now apply NoDup_filter|].
  intros w Hw. apply intersection_in in Hw. apply union_in. tauto.
Qed.

(** X30.  The similarity of two texts lies in [[0, 1]] and does not depend
    on their order; it is 1 for two texts with the same words, whatever the
    case and the spacing, and 0 when a text has no word or the texts share
    none. *)
Theorem text_similarity_range (text1 text2 : string) :
  (0 <= _text_similarity text1 text2 <= 1)%R
  /\ _text_similarity text1 text2 = _text_similarity text2 text1
  /\ (words_of text1 <> [] ->
      (forall w, In w (words_of text1) <-> In w (words_of text2)) ->
      _text_similarity text1 text2 = 1%R)
  /\ ((forall w, In w (words_of text1) -> ~ In w (words_of text2)) ->
      _text_similarity text1 text2 = 0%R).
Proof.
  pose proof (words_of_nodup text1) as Hnd1.
  pose proof (words_of_nodup text2) as Hnd2.
  unfold _text_similarity.
  pose proof (intersection_small (words_of text1) (words_of text2) Hnd1)
    as Hsmall.
  pose proof (intersection_comm (words_of text1) (words_of text2) Hnd1 Hnd2)
    as Hic.
  pose proof (union_comm (words_of text1) (words_of text2)) as Huc.
  pose proof (union_in (words_of text1) (words_of text2)) as Hu.
  pose proof (union_in (words_of text2) (words_of text1)) as Hu'.
  pose proof (intersection_in (words_of text1) (words_of text2)) as Hi.
  destruct (words_of text1) as [|w1 ws1] eqn:H1.
  { replace 0.0%R with 0%R by lra.
    split; [lra|]. split; [now destruct (words_of text2)|].
    split; [intros H; now destruct H | reflexivity]. }
  destruct (words_of text2) as [|w2 ws2] eqn:H2.
  { replace 0.0%R with 0%R by lra.
    split; [lra|]. split; [reflexivity|].
    split; [|reflexivity].
    intros _ Hsame. exfalso. apply (proj1 (Hsame w1)). now left. }
  destruct (union (w1 :: ws1) (w2 :: ws2)) as [|u us] eqn:Hunion.
  { exfalso. apply (proj2 (Hu w1)). left. now left. }
  destruct (union (w2 :: ws2) (w1 :: ws1)) as [|u' us'] eqn:Hunion'.
  { exfalso. apply (proj2 (Hu' w1)). right. now left. }
  rewrite <- Hic, <- Huc.
  assert (Hpos : (0 < INR (length (u :: us)))%R)
    by (apply lt_0_INR; simpl; lia).
  split; [|split; [reflexivity|split]].
  - split.
    + apply Rmult_le_pos; [apply pos_INR|].
      now apply Rlt_le, Rinv_0_lt_compat.
    + apply Rmult_le_reg_r with (INR (length (u :: us))); [exact Hpos|].
      unfold Rdiv. rewrite Rmult_assoc, Rinv_l, Rmult_1_r, Rmult_1_l by lra.
      now apply le_INR.
  - intros _ Hsame.
    assert (Hlen : length (intersection (w1 :: ws1) (w2 :: ws2))
                   = length (u :: us)).
    { apply Permutation_length, NoDup_Permutation.
      - now apply NoDup_filter.
      - rewrite <- Hunion. apply NoDup_nodup.
      - intros w. rewrite Hi, Hu. specialize (Hsame w). tauto. }
    rewrite Hlen. field. lra.
  - intros Hdisjoint.
    assert (Hnil : intersection (w1 :: ws1) (w2 :: ws2) = []).
    { destruct (intersection (w1 :: ws1) (w2 :: ws2)) as [|w ws] eqn:Hint;
        [reflexivity|].
      exfalso. assert (Hw : In w (w :: ws)) by now left.
      apply Hi in Hw. destruct Hw as [Hw1 Hw2]. now apply (Hdisjoint w). }
    rewrite Hnil. simpl. unfold Rdiv. lra.
Qed.

End ContextFacts.
